(* ===== verification/_CoqProject ===== *)
-Q . S2P
Prelude.v
GoStrings.v
GoEncoding.v
GoText.v
GoFmt.v
GoTime.v
FloatArith.v
GoNumber.v
GoSort.v
GoFlag.v
GoOs.v
GoUrl.v
GoJson.v
JsonFields.v
GoFloat.v
GoRfc3339.v
Entry.v
BoltDB.v
Kv.v
StoreSpec.v
BoltStore.v
WatchCache.v
Watchable.v
Fsm.v
Node.v
Http.v
Server.v
Races.v
RaftServer.v
ApiTypes.v
GoSha.v
Sdk.v
SdkSync.v
Series.v
Metrics.v
Logger.v
Instrumented.v
Hist.v
BenchEnv.v
Load.v
ResultJson.v
Report.v
Scenarios.v
BenchCmd.v
Workload.v
Cli.v
Cluster.v
