(* ===== verification/Prelude.v ===== *)
(** * PaladinCore, a distributed configuration center: a verification library

    The program (Go, [src/]) keeps versioned configuration entries in a bbolt file,
    serves them over HTTP with long-poll watches, replicates the writes through
    hashicorp/raft, and has a Go SDK that mirrors a namespace in memory and on disk.
    This library translates its logic into definitions that can be evaluated, and
    proves what each part promises to the part above it.

    ** The parts and the files

    - [Prelude]: errors and [errors.Is], the result monad [res] ([Ok], [Err], and
      [Panic] for a Go panic), 64-bit integers, slices, lemmas, hints and tactics.
    - [GoStrings], [GoText], [GoEncoding], [GoFmt], [GoTime], [GoNumber], [GoSort],
      [GoFlag], [GoUrl], [GoJson], [JsonFields], [GoSha]: what the source uses of Go's
      strings, strconv, encoding/binary, encoding/base64, fmt, time, sort, flag (with its
      usage texts and exits), net/url, encoding/json (printer, parser, UTF-8 repair,
      decoding into structs with case folding) and crypto/sha256, with their round trips.
    - [FloatArith], [GoFloat], [GoRfc3339]: [float64] as the standard library's
      [spec_float] (quotients are numbers of the format, magnitudes are bounded, numbers
      below [2^53] are rounded to a neighbour), its
      shortest decimal and back, and the times of JSON documents.
    - [GoOs]: paths, and files as the class [FileSystem] with [FileSystemLaws];
      [mem_fs] is an instance.
    - [Entry] ([store/store.go]): [Entry], [PutResult], the errors, the JSON form of
      an entry, and the [Store] interface as a class.
    - [BoltDB]: bbolt as the class [Bolt] and its documented behaviour as [BoltLaws];
      [MemDb] is an instance, so that runs can be evaluated.
    - [Kv], [StoreSpec]: the abstract specification, a finite map of entries with a
      revision counter, and the contract [StoreLaws] of a store over it.
    - [BoltStore] ([store/bolt.go]): every method, its transactions as closures that
      assign captured variables; it keeps [StoreLaws].
    - [WatchCache] ([store/watch.go]): the ring buffer, [WaitForEvents], and the waiter
      with its timer goroutine, [Append] and [Close] as a step relation.
    - [Watchable] ([store/watchable.go]): [WatchableStore] over any lawful store; it
      keeps [StoreLaws], and its events replayed over a snapshot give the store.
    - [Fsm], [Node] ([raft/node.go]): the replicated state machine (Apply, Snapshot,
      Persist, Restore) and the node around hashicorp/raft, which is the class [Raft]
      with [RaftLaws]; [solo_raft] is an instance.
    - [Http], [Server] ([server/server.go], [server/watch.go]): requests, responses and
      the mux of net/http; every handler, the routes and the JSON documents.
    - [Races]: concurrent writers and readers of a [WatchableStore], at the grain of
      its critical sections.
    - [RaftServer] ([server/raft_server.go]): the handlers of a cluster node, with
      forwarding to the leader; the HTTP client is a parameter.
    - [ApiTypes]: the types of the documents both servers answer with.
    - [Sdk] ([sdk/client.go], [sdk/metrics.go]): the client: full pull, watch loop,
      callbacks, cache file; the HTTP client and the file system are parameters.
      [SdkSync]: the client against the server's handlers.
    - [Cluster]: a replica that applies the log as a store that makes its calls, with
      the leader's handlers before it and the clients behind it.
    - [Series], [Metrics], [Logger] ([internal/metrics], [internal/logger]): the series
      the server and the SDK declare, the middleware over the calls of a handler, the
      resolution of the logger's options and the state behind its [Init].
      [Instrumented]: both servers with the middleware around their routes.
    - [Hist], [BenchEnv], [Load], [ResultJson], [Report], [Scenarios] ([bench/]): the
      latency histogram with its percentiles, the environment record, the outcome
      counters and a load run, the JSON files of its results, the Markdown report, and
      the workloads over a world their HTTP client acts on.
    - [BenchCmd] ([cmd/paladin-bench/main.go]) and [Cli] ([cmd/paladin-core/main.go]): the
      commands, from the arguments to output, files and exit code, or to the server
      that is started.  [Workload]: the run command with the selected scenario against
      a server.

    ** How they interact

    [StoreLaws] is the interface everything above the stores is proved against:
    [BoltStore] discharges it from [BoltLaws], [WatchableStore] from [StoreLaws] of
    the store inside, the FSM, the node and the servers use it.  A state of the code
    and an abstract state are related by [store_rep]; the cache of a [WatchableStore]
    and the list of all its events by [ws_rep].  A mutex held over a whole method
    makes the method one step; where the code lets go in between, the handlers take
    one store per read ([handleGet], [handleList], [handleWatch]) or the step
    relation of [Races] has a step per critical section.

    ** What the theorems show

    - The store answers every history of calls as the specification does
      ([BoltStore.bolt_history_refines]), survives a reopening
      ([BoltStore.bolt_reopen]), keeps its entries well formed and lists exactly the
      keys under a prefix.
    - A snapshot and the events after its revision reconstruct the store
      ([Watchable.watch_reconstructs]), the ring buffer is the window of the latest
      events ([WatchCache.watch_cache_window]), a blocked waiter never misses an event
      under any interleaving ([WatchCache.wait_no_lost_wakeup]), and no event of
      concurrent writers is lost ([Races.writers_lose_no_event]).
    - A replica that applies a log answers each entry, and ends in the state, as the
      puts and deletes in it say, and replicas of one log agree
      ([Fsm.raft_replicas_agree]); a write on the leader is read on every replica ([RaftServer.raft_put_visible_everywhere]) and
      reaches the clients that poll a follower ([Cluster.put_reaches_clients]); a
      follower passes a write on with its body and headers and its answer back
      ([RaftServer.follower_forwards_put]), or says why not; a node that joins is added and
      found by the address it advertises ([Cli.cluster_join]).
    - The configuration route answers every request without a panic and with the status
      of its case ([Server.http_total]); the routes of the API but [/healthz] and
      [/metrics] answer with a JSON document of their type, answers relayed from
      elsewhere than a leader apart ([ApiTypes.api_responses_typed]); what was written
      is read, and the lists and watches of a namespace show its keys and no others
      ([Server.namespace_isolation]).  The request counters count what the clients saw,
      by the ranges of their statuses ([Instrumented.requests_counted]).
    - The local commands, one process after the other on one file, are the versioned
      store ([Cli.cli_history]).
    - A client stays in step with its server ([SdkSync.sdk_session_in_sync]), restarts
      from its cache file, takes every file with the right checksum and no other
      ([SdkSync.sdk_cache_integrity]), and calls back in order.
    - The benchmark's merged histograms are one histogram, its percentiles are within
      half a bucket of the sample at the nearest rank, where the fraction of the count is
      taken with the precision of a [float64] ([Hist.percentile_nearest_rank]), and a run counts each request once ([Load.run_result]).  Its
      workloads keep their read share exactly ([Scenarios.mixed_ratio]), go over all
      keys, and read data that is there ([Scenarios.scenario_reads_found]); the report
      does not depend on the order of the results ([Report.report_canonical]).
    - The run command parses what its flags say ([BenchCmd.run_flags_parsed]), reports no
      error of a server that answers ([Workload.bench_run_no_errors]), and leaves a
      JSON file that reads back as its result, every float and time as it was
      ([BenchCmd.run_json_kept], on [ResultJson.run_result_kept] and the lemmas of
      [GoFloat] and [GoRfc3339]); the report command renders exactly the results that
      were saved ([BenchCmd.saved_results_reported]).
    - What the code does not do is proved as well, at the places it surprises: events
      out of order, a revision read too late, a timer that fires too early, a restore
      that merges, a replay that counts twice, a client that never pulls again.

    ** Bounds

    Revisions and counters are [N] below [2^64] with their wrap-around; the refinement
    holds while a revision is below [store_limit] ([2^64 - 1] for [BoltStore], and for a
    [WatchableStore] the [int] of the cache's counter, [2^63 - 1]), and while an entry
    fits bbolt's limits on keys and values ([StoreSpec.can_put]); [Http.body_limit] keeps
    any body the API takes below them ([StoreSpec.can_put_small]).  The recursions on
    fuel take the length of the text or the number of bits, which is enough by the
    lemmas beside them ([GoStrings.parse_format_go], [GoJson], [GoText.split_join]).
    [WaitForEvents], [WaitForLeader] and [watchLoop] take the list of their wake-ups or
    replies and are [None] while they wait; [WatchCache.wait_returns] says when the
    first of them returns.

    ** What is not modelled

    Log lines and the histogram of the durations of [Apply]; the network,
    hashicorp/raft, bbolt and the Prometheus registry beyond what the classes and rules
    say of them; what the operating system, the runtime and the pseudo-random numbers
    are, which are parameters; the pause at the end of [Setup] of the read scenario.  The
    steps of the benchmark's workers are taken one after the other, and a text written
    to a file in pieces is written at once. *)

From Stdlib Require Export Ascii.
From stdpp Require Export sorting.
From stdpp Require Export base tactics numbers option list strings gmap.

#[global] Arguments String.append !s1 s2 /.
#[global] Arguments String.length !s /.

Declare Scope go_scope.
Delimit Scope go_scope with go.

(** ** Errors *)

(** The package-level error variables that callers compare with [==] or
    [errors.Is]; [errors.New] and [fmt.Errorf] allocate, so each variable is
    only equal to itself. *)
Inductive sentinel : Set :=
  | KeyNotFound
  | KeyExists
  | RevMismatch
  | NotLeader.

#[export] Instance sentinel_eq_dec : EqDecision sentinel.
Proof. solve_decision. Defined.

(** A Go [error] value: a sentinel, an error of a library with its text, or
    [fmt.Errorf("...: %w", inner)], which keeps the inner error reachable. *)
Inductive error : Set :=
  | ESentinel (s : sentinel)
  | EMsg (msg : string)
  | EWrap (msg : string) (inner : error).

#[export] Instance error_eq_dec : EqDecision error.
Proof. solve_decision. Defined.

(** [errors.Is(err, target)] for a sentinel target walks the [%w] chain. *)
Fixpoint errors_Is (e : error) (target : sentinel) : bool :=
  match e with
  | ESentinel s => bool_decide (s = target)
  | EMsg _ => false
  | EWrap _ inner => errors_Is inner target
  end.

Local Open Scope string_scope.

Definition sentinel_text (s : sentinel) : string :=
  match s with
  | KeyNotFound => "key not found"
  | KeyExists => "key already exists"
  | RevMismatch => "revision mismatch"
  | NotLeader => "not the leader"
  end.

(** [err.Error()] *)
Fixpoint error_Error (e : error) : string :=
  match e with
  | ESentinel s => sentinel_text s
  | EMsg msg => msg
  | EWrap msg inner => (msg +:+ ": ") +:+ error_Error inner
  end.

Local Close Scope string_scope.

(** ** Results of a fallible call *)

(** [Panic] is a run-time panic (index out of range, nil dereference,
    division by zero): it is not a value the caller can test. *)
Inductive res (A : Type) : Type :=
  | Ok (a : A)
  | Err (e : error)
  | Panic.
Arguments Ok {A} a.
Arguments Err {A} e.
Arguments Panic {A}.

#[export] Instance res_ret : MRet res := λ _ a, Ok a.
#[export] Instance res_bind : MBind res := λ _ _ f m,
  match m with
  | Ok a => f a
  | Err e => Err e
  | Panic => Panic
  end.
#[export] Instance res_fmap : FMap res := λ _ _ f m,
  match m with
  | Ok a => Ok (f a)
  | Err e => Err e
  | Panic => Panic
  end.

Definition is_ok {A} (r : res A) : bool :=
  match r with Ok _ => true | _ => false end.

(** [fmt.Errorf(msg + ": %w", err)] on the error branch of a call. *)
Definition wrap_err {A} (msg : string) (r : res A) : res A :=
  match r with
  | Err e => Err (EWrap msg e)
  | _ => r
  end.

(** A value a library returns as an option, with the error text it gives. *)
Definition res_of_option {A} (msg : string) (o : option A) : res A :=
  match o with
  | Some a => Ok a
  | None => Err (EMsg msg)
  end.

(** Dereference of a pointer: [nil] panics. *)
Definition deref {A} (p : option A) : res A :=
  match p with
  | Some a => Ok a
  | None => Panic
  end.

(** In a closure that assigns captured variables: go on with the value of a
    call, or return its error with the variables as they are. *)
Notation "'try!' x ':=' m 'keep' c 'in' k" :=
  (match m with
   | Ok x => k
   | Err e => (c, Err e)
   | Panic => (c, Panic)
   end)
  (at level 10, x name, m at level 200, c at level 200, k at level 200,
   format "'try!'  x  ':='  m  'keep'  c  'in' '//' k") : go_scope.

(** ** Machine integers *)

Definition max_uint64 : N := 18446744073709551615.
Definition two64 : N := 18446744073709551616.
Definition u64_add (a b : N) : N := ((a + b) mod two64)%N.

Definition two63 : Z := 9223372036854775808.

(** Wrap-around of a signed 64-bit result ([int] and [time.Duration]). *)
Definition int64 (z : Z) : Z := ((z + two63) mod (2 * two63) - two63)%Z.

Lemma u64_add_small (a b : N) : (a + b ≤ max_uint64)%N → u64_add a b = (a + b)%N.
Proof. intros H. unfold u64_add. apply N.mod_small. unfold max_uint64, two64 in *. lia. Qed.

Lemma u64_add_bound (a b : N) : (u64_add a b ≤ max_uint64)%N.
Proof.
  unfold u64_add. pose proof (N.mod_lt (a + b) two64) as H.
  unfold two64, max_uint64 in *. lia.
Qed.

Lemma int64_small (z : Z) : (- two63 ≤ z < two63)%Z → int64 z = z.
Proof. intros H. unfold int64. rewrite Z.mod_small; unfold two63 in *; lia. Qed.

Lemma int64_bound (z : Z) : (- two63 ≤ int64 z < two63)%Z.
Proof.
  unfold int64. pose proof (Z.mod_pos_bound (z + two63) (2 * two63)) as H.
  unfold two63 in *. lia.
Qed.

(** ** Slices *)

(** [s[i]] for an [int] index: out of range panics. *)
Definition slice_get {A} (s : list A) (i : Z) : res A :=
  if (i <? 0)%Z then Panic else
  match s !! Z.to_nat i with
  | Some a => Ok a
  | None => Panic
  end.

(** [s[i] = x]: out of range panics. *)
Definition slice_set {A} (s : list A) (i : Z) (x : A) : res (list A) :=
  if (i <? 0)%Z || (Z.of_nat (length s) <=? i)%Z then Panic
  else Ok (<[Z.to_nat i := x]> s).

Lemma slice_get_lookup {A} (s : list A) (n : nat) (a : A) :
  s !! n = Some a → slice_get s (Z.of_nat n) = Ok a.
Proof.
  intros H. unfold slice_get. destruct (Z.ltb_spec (Z.of_nat n) 0); [lia|].
  by rewrite Nat2Z.id, H.
Qed.

Lemma slice_set_insert {A} (s : list A) (n : nat) (x : A) :
  n < length s → slice_set s (Z.of_nat n) x = Ok (<[n := x]> s).
Proof.
  intros H. unfold slice_set.
  destruct (Z.ltb_spec (Z.of_nat n) 0); [lia|].
  destruct (Z.leb_spec (Z.of_nat (length s)) (Z.of_nat n)); [lia|]. simpl.
  by rewrite Nat2Z.id.
Qed.

(** ** Lemmas on [res] *)

Lemma res_bind_Ok {A B} (m : res A) (f : A → res B) (b : B) :
  m ≫= f = Ok b ↔ ∃ a, m = Ok a ∧ f a = Ok b.
Proof.
  split.
  - destruct m; simpl; intros H; try discriminate; eauto.
  - intros (a & -> & H). exact H.
Qed.

Lemma mapM_res_Ok {A B} (f : A → res B) (g : A → B) (l : list A) :
  (∀ x, x ∈ l → f x = Ok (g x)) → mapM f l = Ok (g <$> l).
Proof.
  induction l as [|x l IH]; intros H; [done|]. simpl.
  rewrite (H x) by set_solver. simpl.
  rewrite IH by set_solver. done.
Qed.

(** ** Lists *)

Lemma filter_none {A} (P : A → Prop) `{∀ x, Decision (P x)} (l : list A) :
  (∀ x, x ∈ l → ¬ P x) → filter P l = [].
Proof.
  induction l as [|x l IH]; intros Hn; [done|]. rewrite filter_cons.
  rewrite decide_False by (apply Hn; by left). apply IH. intros y Hy. apply Hn. by right.
Qed.

Lemma filter_all {A} (P : A → Prop) `{∀ x, Decision (P x)} (l : list A) :
  (∀ x, x ∈ l → P x) → filter P l = l.
Proof.
  induction l as [|x l IH]; intros Hn; [done|]. rewrite filter_cons.
  rewrite decide_True by (apply Hn; by left). f_equal.
  apply IH. intros y Hy. apply Hn. by right.
Qed.

Lemma filter_ext_in {A} (P Q : A → Prop) `{∀ x, Decision (P x), ∀ x, Decision (Q x)}
    (l : list A) :
  (∀ x, x ∈ l → P x ↔ Q x) → filter P l = filter Q l.
Proof.
  induction l as [|x l IH]; intros Hpq; [done|]. rewrite !filter_cons.
  rewrite IH by (intros y Hy; apply Hpq; by right).
  apply decide_ext, Hpq. by left.
Qed.

Lemma StronglySorted_filter {A} (R : A → A → Prop) (P : A → Prop)
    `{∀ x, Decision (P x)} (l : list A) :
  StronglySorted R l → StronglySorted R (filter P l).
Proof.
  induction 1 as [|x l Hs IH Hx]; [constructor|]. rewrite filter_cons.
  case_decide; [|done]. constructor; [done|].
  rewrite Forall_forall in Hx. apply Forall_forall.
  intros y [_ Hy]%list_elem_of_filter. by apply Hx.
Qed.

Lemma StronglySorted_fmap {A B} (R : A → A → Prop) (R' : B → B → Prop) (f : A → B) (l : list A) :
  (∀ x y, R x y → R' (f x) (f y)) → StronglySorted R l → StronglySorted R' (f <$> l).
Proof.
  intros Hf. induction 1 as [|x l Hs IH Hx]; simpl; constructor; [done|].
  rewrite Forall_forall in Hx. apply Forall_forall.
  intros y (z & -> & Hz)%list_elem_of_fmap. auto.
Qed.

(** ** Maps *)

(** Inserting the pairs of a list one after the other, as a loop over it does. *)
Definition insert_all {V} (m : gmap string V) (l : list (string * V)) : gmap string V :=
  foldl (λ m x, <[x.1 := x.2]> m) m l.

Lemma insert_all_union {V} (l : list (string * V)) (m : gmap string V) :
  NoDup l.*1 → insert_all m l = list_to_map l ∪ m.
Proof.
  unfold insert_all. revert m. induction l as [|[k v] l IH]; intros m Hnd; simpl.
  - by rewrite map_empty_union.
  - apply NoDup_cons in Hnd as [Hk Hnd]. rewrite IH by done.
    apply not_elem_of_list_to_map_1 in Hk. rewrite <- insert_union_r by done.
    by rewrite insert_union_l.
Qed.

Lemma insert_all_to_list {V} (m : gmap string V) (l : list (string * V)) :
  l ≡ₚ map_to_list m → insert_all ∅ l = m.
Proof.
  intros Hl. assert (NoDup l.*1) as Hnd by (rewrite Hl; apply NoDup_fst_map_to_list).
  rewrite insert_all_union, map_union_empty by done.
  rewrite (list_to_map_proper l (map_to_list m)) by done. apply list_to_map_to_list.
Qed.

(** ** Automation *)

Create HintDb paladin.
#[export] Hint Resolve u64_add_bound int64_bound : paladin.

(** Split conjunctions, existentials and boolean connectives of the context. *)
Ltac destr :=
  repeat match goal with
  | H : _ ∧ _ |- _ => destruct H
  | H : ∃ _, _ |- _ => destruct H
  | H : (_ && _) = true |- _ => apply andb_true_iff in H
  | H : (_ || _) = false |- _ => apply orb_false_iff in H
  | H : Ok _ = Ok _ |- _ => injection H as H
  | H : Ok _ = Err _ |- _ => discriminate H
  | H : Err _ = Ok _ |- _ => discriminate H
  | H : Panic = Ok _ |- _ => discriminate H
  end.

(** Case analysis on the scrutinee of a [match] of the goal, repeatedly. *)
Ltac case_all := repeat (case_match; simplify_eq/=; try done).
