(* ===== verification/GoStrings.v ===== *)
(** Strings of the Go standard library as the source uses them: a Go string is
    its bytes, so a [string] here is a list of 8-bit characters.  [strings]:
    HasPrefix, TrimPrefix, TrimSuffix, SplitN; [strconv] and [fmt]: %d of an
    unsigned integer, %q of a string, ParseUint and Atoi. *)

From S2P Require Import Prelude.

Local Open Scope string_scope.
Local Open Scope nat_scope.

(** ** Lemmas on strings *)

Lemma string_app_nil_r (s : string) : s +:+ "" = s.
Proof. induction s as [|a s IH]; [done|]. simpl. by f_equal. Qed.

Lemma string_app_assoc (s t u : string) : (s +:+ t) +:+ u = s +:+ (t +:+ u).
Proof. induction s as [|a s IH]; [done|]. simpl. by f_equal. Qed.

Lemma string_length_app (s t : string) :
  String.length (s +:+ t) = String.length s + String.length t.
Proof. induction s as [|a s IH]; [done|]. simpl. by f_equal. Qed.

Lemma string_app_cons (a : ascii) (s t : string) : String a s +:+ t = String a (s +:+ t).
Proof. done. Qed.

Lemma string_app_1 (a : ascii) (s : string) : String a "" +:+ s = String a s.
Proof. done. Qed.

(** ** Package strings *)

(** [strings.HasPrefix(s, prefix)] *)
Fixpoint HasPrefix (s prefix : string) {struct prefix} : bool :=
  match prefix, s with
  | EmptyString, _ => true
  | String p prefix', String a s' => Ascii.eqb a p && HasPrefix s' prefix'
  | String _ _, EmptyString => false
  end.

Fixpoint string_drop (n : nat) (s : string) : string :=
  match n, s with
  | 0, _ => s
  | S n', String _ s' => string_drop n' s'
  | S _, EmptyString => EmptyString
  end.

Fixpoint string_take (n : nat) (s : string) : string :=
  match n, s with
  | 0, _ => EmptyString
  | S n', String a s' => String a (string_take n' s')
  | S _, EmptyString => EmptyString
  end.

(** [strings.TrimPrefix(s, prefix)] *)
Definition TrimPrefix (s prefix : string) : string :=
  if HasPrefix s prefix then string_drop (String.length prefix) s else s.

(** [strings.HasSuffix(s, suffix)] *)
Definition HasSuffix (s suffix : string) : bool :=
  (String.length suffix <=? String.length s)%nat &&
  String.eqb (string_drop (String.length s - String.length suffix) s) suffix.

(** [strings.TrimSuffix(s, suffix)] *)
Definition TrimSuffix (s suffix : string) : string :=
  if HasSuffix s suffix
  then string_take (String.length s - String.length suffix) s else s.

(** The part of [s] before the first [sep] and the part after it. *)
Fixpoint cut (sep : ascii) (s : string) : option (string * string) :=
  match s with
  | EmptyString => None
  | String a s' =>
      if Ascii.eqb a sep then Some (EmptyString, s')
      else match cut sep s' with
           | Some (l, r) => Some (String a l, r)
           | None => None
           end
  end.

(** [strings.SplitN(s, sep, n)] for a one-byte separator and [n > 0]: at most
    [n] substrings, the last one the unsplit remainder. *)
Fixpoint SplitN (s : string) (sep : ascii) (n : nat) : list string :=
  match n with
  | 0 => []
  | S 0 => [s]
  | S n' => match cut sep s with
            | Some (l, r) => l :: SplitN r sep n'
            | None => [s]
            end
  end.

Lemma HasPrefix_app (p s : string) : HasPrefix (p +:+ s) p = true.
Proof. induction p as [|a p IH]; [done|]. simpl. by rewrite Ascii.eqb_refl. Qed.

Lemma HasPrefix_spec (s p : string) : HasPrefix s p = true ↔ ∃ r, s = p +:+ r.
Proof.
  split.
  - revert s. induction p as [|a p IH]; intros s; simpl; [by exists s|].
    destruct s as [|b s]; [done|]. intros H. destr.
    apply Ascii.eqb_eq in H as ->. destruct (IH s) as [r ->]; [done|]. by exists r.
  - intros [r ->]. apply HasPrefix_app.
Qed.

Lemma HasPrefix_nil (s : string) : HasPrefix s "" = true.
Proof. done. Qed.

Lemma string_drop_app (s t : string) : string_drop (String.length s) (s +:+ t) = t.
Proof. by induction s. Qed.

Lemma string_take_app (s t : string) : string_take (String.length s) (s +:+ t) = s.
Proof. induction s as [|a s IH]; simpl; by f_equal. Qed.

Lemma string_take_length (n : nat) (s : string) :
  (n ≤ String.length s)%nat → String.length (string_take n s) = n.
Proof. revert s. induction n as [|n IH]; intros [|a s] H; simpl in *; try done; [lia|]. f_equal. apply IH. lia. Qed.

Lemma string_take_length_le (k : nat) (s : string) : String.length (string_take k s) ≤ k.
Proof.
  revert s. induction k as [|k IH]; intros [|c s]; simpl; [lia..|]. specialize (IH s). lia.
Qed.

Lemma string_take_all (s : string) : string_take (String.length s) s = s.
Proof. induction s as [|a s IH]; [done|]. simpl. by rewrite IH. Qed.

Lemma TrimPrefix_app (p s : string) : TrimPrefix (p +:+ s) p = s.
Proof. unfold TrimPrefix. by rewrite HasPrefix_app, string_drop_app. Qed.

Lemma HasSuffix_spec (s u : string) : HasSuffix s u = true ↔ ∃ r, s = r +:+ u.
Proof.
  unfold HasSuffix. split.
  - intros H. destr. apply Nat.leb_le in H. apply String.eqb_eq in H0.
    exists (string_take (String.length s - String.length u) s). rewrite <- H0 at 2.
    generalize (String.length s - String.length u). clear.
    induction s as [|a s IH]; intros [|n]; simpl; try done. by f_equal.
  - intros [r ->]. rewrite string_length_app. apply andb_true_iff. split.
    + apply Nat.leb_le. lia.
    + replace (_ + _ - _) with (String.length r) by lia.
      rewrite string_drop_app. apply String.eqb_refl.
Qed.

Lemma TrimSuffix_app (s u : string) : TrimSuffix (s +:+ u) u = s.
Proof.
  unfold TrimSuffix.
  assert (HasSuffix (s +:+ u) u = true) as -> by (apply HasSuffix_spec; eauto).
  rewrite string_length_app.
  replace (_ + _ - _) with (String.length s) by lia. apply string_take_app.
Qed.

Lemma TrimSuffix_none (s u : string) : HasSuffix s u = false → TrimSuffix s u = s.
Proof. unfold TrimSuffix. by intros ->. Qed.

(** A character does not occur in a string. *)
Fixpoint no_char (c : ascii) (s : string) : bool :=
  match s with
  | EmptyString => true
  | String a s' => negb (Ascii.eqb a c) && no_char c s'
  end.

Lemma no_char_app (c : ascii) (s t : string) : no_char c (s +:+ t) = no_char c s && no_char c t.
Proof. induction s as [|a s IH]; [done|]. simpl. by rewrite IH, andb_assoc. Qed.

Lemma cut_app (c : ascii) (l r : string) :
  no_char c l = true → cut c (l +:+ String c r) = Some (l, r).
Proof.
  induction l as [|a l IH]; simpl; [by rewrite Ascii.eqb_refl|].
  intros H. destr. apply negb_true_iff in H as ->. by rewrite IH.
Qed.

Lemma cut_none (c : ascii) (s : string) : no_char c s = true → cut c s = None.
Proof.
  induction s as [|a s IH]; simpl; [done|].
  intros H. destr. apply negb_true_iff in H as ->. by rewrite IH.
Qed.

Lemma cut_Some (c : ascii) (s l r : string) :
  cut c s = Some (l, r) → s = l +:+ String c r ∧ no_char c l = true.
Proof.
  revert l r. induction s as [|a s IH]; intros l r; simpl; [done|].
  destruct (Ascii.eqb_spec a c) as [->|Hne]; [by intros [= <- <-]|].
  destruct (cut c s) as [[l' r']|]; [|done]. intros [= <- <-].
  destruct (IH l' r') as [-> H]; [done|]. simpl. rewrite H.
  by destruct (Ascii.eqb_spec a c).
Qed.

(** ** Unsigned decimals: [%d], [strconv.ParseUint] and [strconv.Atoi] *)

Definition digit (n : N) : ascii := ascii_of_N (48 + n).

Fixpoint format_go (fuel : nat) (n : N) (acc : string) : string :=
  match fuel with
  | 0 => acc
  | S fuel' =>
      let acc' := String (digit (n mod 10)) acc in
      if (n <? 10)%N then acc' else format_go fuel' (n / 10) acc'
  end.

(** [fmt.Sprintf("%d", n)], for [n] unsigned: one digit per bit is enough. *)
Definition format_uint (n : N) : string := format_go (S (N.to_nat (N.log2 n))) n "".

Definition digit_val (a : ascii) : option N :=
  let b := N_of_ascii a in
  if (48 <=? b)%N && (b <=? 57)%N then Some (b - 48)%N else None.

Fixpoint parse_digits (acc : N) (s : string) : option N :=
  match s with
  | EmptyString => Some acc
  | String a s' =>
      match digit_val a with
      | Some d => parse_digits (10 * acc + d) s'
      | None => None
      end
  end.

(** [strconv.ParseUint(s, 10, 64)]: [None] is a syntax or a range error. *)
Definition ParseUint (s : string) : option N :=
  match s with
  | EmptyString => None
  | _ => match parse_digits 0 s with
         | Some n => if (n <=? max_uint64)%N then Some n else None
         | None => None
         end
  end.

(** [strconv.Atoi(s)] on a 64-bit platform: an optional sign and digits. *)
Definition split_sign (s : string) : bool * string :=
  match s with
  | EmptyString => (false, s)
  | String a r =>
      if Ascii.eqb a "-" then (true, r)
      else if Ascii.eqb a "+" then (false, r) else (false, s)
  end.

Definition Atoi (s : string) : option Z :=
  let '(neg, ds) := split_sign s in
  match ds with
  | EmptyString => None
  | _ => match parse_digits 0 ds with
         | Some n =>
             let z := if neg then (- Z.of_N n)%Z else Z.of_N n in
             if ((- two63 <=? z) && (z <? two63))%Z then Some z else None
         | None => None
         end
  end.

(** [%q] of a string, [strconv.Quote]: the escapes of ASCII characters; a byte beyond
    ASCII is kept, as it is in a printable character. *)
Definition hex_digit (n : N) : ascii :=
  if (n <? 10)%N then ascii_of_N (48 + n) else ascii_of_N (97 + (n - 10)).

Definition Quote_char (a : ascii) : string :=
  let b := N_of_ascii a in
  if (b =? 34)%N || (b =? 92)%N then String "\" (String a "")
  else if (b =? 7)%N then "\a"
  else if (b =? 8)%N then "\b"
  else if (b =? 9)%N then "\t"
  else if (b =? 10)%N then "\n"
  else if (b =? 11)%N then "\v"
  else if (b =? 12)%N then "\f"
  else if (b =? 13)%N then "\r"
  else if (b <? 32)%N || (b =? 127)%N
  then "\x" +:+ String (hex_digit (b / 16)) (String (hex_digit (b mod 16)) "")
  else String a "".

Fixpoint Quote_chars (s : string) : string :=
  match s with
  | EmptyString => ""
  | String a s' => Quote_char a +:+ Quote_chars s'
  end.

Definition Quote (s : string) : string := String "034" (Quote_chars s +:+ String "034" "").

Lemma N_of_digit (n : N) : (n < 10)%N → N_of_ascii (digit n) = (48 + n)%N.
Proof. intros H. apply N_ascii_embedding. lia. Qed.

Lemma digit_val_digit (n : N) : (n < 10)%N → digit_val (digit n) = Some n.
Proof.
  intros H. unfold digit_val. rewrite N_of_digit by done.
  destruct (N.leb_spec 48 (48 + n)); [|lia].
  destruct (N.leb_spec (48 + n) 57); [|lia]. simpl. f_equal. lia.
Qed.

Lemma parse_format_go (fuel : nat) (n : N) (acc : string) (m : N) :
  (n < 10 ^ N.of_nat fuel)%N →
  ∃ k, parse_digits m (format_go fuel n acc) = parse_digits (m * k + n) acc.
Proof.
  revert n acc m. induction fuel as [|fuel IH]; intros n acc m Hf.
  { exists 1%N. simpl. f_equal. change (10 ^ N.of_nat 0)%N with 1%N in Hf. lia. }
  simpl. assert (n mod 10 < 10)%N as Hd by (apply N.mod_lt; lia).
  pose proof (N.div_mod' n 10) as Hdm.
  destruct (N.ltb_spec n 10) as [Hlt|Hge].
  - exists 10%N. simpl. rewrite digit_val_digit by done.
    rewrite N.mod_small by done. f_equal. lia.
  - assert (n / 10 < 10 ^ N.of_nat fuel)%N as Hs.
    { rewrite Nat2N.inj_succ, N.pow_succ_r' in Hf. apply N.Div0.div_lt_upper_bound. lia. }
    destruct (IH (n / 10)%N (String (digit (n mod 10)) acc) m Hs) as [k Hk].
    exists (10 * k)%N. rewrite Hk. simpl. rewrite digit_val_digit by done.
    f_equal. lia.
Qed.

Lemma format_fuel (n : N) : (n < 10 ^ N.of_nat (S (N.to_nat (N.log2 n))))%N.
Proof.
  rewrite Nat2N.inj_succ, N2Nat.id.
  destruct (N.eq_0_gt_0_cases n) as [->|Hpos]; [done|].
  destruct (N.log2_spec n Hpos) as [_ Hlt].
  eapply N.lt_le_trans; [exact Hlt|]. apply N.pow_le_mono_l. lia.
Qed.

Lemma format_go_length (fuel : nat) (n : N) (acc : string) :
  (String.length (format_go fuel n acc) ≤ fuel + String.length acc)%nat.
Proof.
  revert n acc. induction fuel as [|fuel IH]; intros n acc; simpl; [lia|].
  case_match; simpl; [lia|]. specialize (IH (n / 10)%N (String (digit (n mod 10)%N) acc)).
  simpl in IH. lia.
Qed.

(** Printing then parsing a [uint64] is the identity. *)
Lemma parse_digits_format (n : N) : parse_digits 0 (format_uint n) = Some n.
Proof.
  destruct (parse_format_go _ n "" 0 (format_fuel n)) as [k Hk].
  unfold format_uint. rewrite Hk. simpl. by rewrite N.mul_0_l.
Qed.

Lemma parse_digits_app (s t : string) (acc : N) :
  parse_digits acc (s +:+ t) = match parse_digits acc s with Some a => parse_digits a t | None => None end.
Proof.
  revert acc. induction s as [|a s IH]; intros acc; [done|]. cbn [String.append parse_digits].
  destruct (digit_val a); [apply IH|done].
Qed.

Lemma parse_digits_grows (ds : string) (acc n : N) : parse_digits acc ds = Some n → (acc ≤ n)%N.
Proof.
  revert acc. induction ds as [|a ds IH]; intros acc; cbn [parse_digits]; [intros [= ->]; lia|].
  destruct (digit_val a) as [d|]; [|done]. intros H. apply IH in H. lia.
Qed.

Fixpoint all_digits (s : string) : bool :=
  match s with
  | EmptyString => true
  | String a s' => bool_decide (is_Some (digit_val a)) && all_digits s'
  end.

Lemma all_digits_app (s t : string) :
  all_digits (s +:+ t) = all_digits s && all_digits t.
Proof. induction s as [|a s IH]; [done|]. simpl. by rewrite IH, andb_assoc. Qed.

Lemma all_digits_digit (n : N) (s : string) :
  (n < 10)%N → all_digits (String (digit n) s) = all_digits s.
Proof. intros H. simpl. by rewrite digit_val_digit. Qed.

Lemma format_go_shape (fuel : nat) (n : N) (acc : string) :
  (n < 10 ^ N.of_nat fuel)%N → (0 < n)%N →
  ∃ d ds, format_go fuel n acc = String (digit d) (ds +:+ acc) ∧
          (0 < d < 10)%N ∧ all_digits ds = true.
Proof.
  revert n acc. induction fuel as [|fuel IH]; intros n acc Hf Hpos.
  { change (10 ^ N.of_nat 0)%N with 1%N in Hf. lia. }
  simpl. destruct (N.ltb_spec n 10) as [Hlt|Hge].
  - exists n, "". rewrite N.mod_small by done. simpl. repeat split; done.
  - rewrite Nat2N.inj_succ, N.pow_succ_r' in Hf.
    destruct (IH (n / 10)%N (String (digit (n mod 10)) acc)) as (d & ds & -> & Hd & Hds).
    { apply N.Div0.div_lt_upper_bound. lia. }
    { pose proof (N.div_mod' n 10). pose proof (N.mod_lt n 10). lia. }
    exists d, (ds +:+ String (digit (n mod 10)) ""). split_and!; try lia.
    + f_equal. by rewrite string_app_assoc.
    + rewrite all_digits_app, all_digits_digit, Hds by (apply N.mod_lt; lia). done.
Qed.

(** The text of a number is ["0"], or a nonzero digit followed by digits. *)
Lemma format_uint_shape (n : N) :
  format_uint n = "0" ∨
  ∃ d ds, format_uint n = String (digit d) ds ∧ (0 < d < 10)%N ∧ all_digits ds = true.
Proof.
  destruct (N.eq_0_gt_0_cases n) as [->|Hpos]; [by left|right].
  destruct (format_go_shape _ n "" (format_fuel n) Hpos) as (d & ds & H & ? & ?).
  exists d, ds. unfold format_uint. rewrite H, string_app_nil_r. done.
Qed.

Lemma format_uint_cons (n : N) : ∃ a s, format_uint n = String a s.
Proof. destruct (format_uint_shape n) as [->|(d & ds & -> & _)]; eauto. Qed.

Lemma ParseUint_format (n : N) : (n ≤ max_uint64)%N → ParseUint (format_uint n) = Some n.
Proof.
  intros Hn. pose proof (parse_digits_format n) as Hp.
  destruct (format_uint_cons n) as (a & s & Hs). unfold ParseUint.
  rewrite Hs in Hp |- *. rewrite Hp. destruct (N.leb_spec n max_uint64); [done|lia].
Qed.

Lemma ParseUint_bound (s : string) (n : N) : ParseUint s = Some n → (n ≤ max_uint64)%N.
Proof.
  unfold ParseUint. destruct s; [done|].
  destruct (parse_digits 0 _) as [m|]; [|done].
  destruct (N.leb_spec m max_uint64); [|done]. by intros [= <-].
Qed.

Lemma digit_eqb (d : N) (c : ascii) :
  (d < 10)%N → digit_val c = None → Ascii.eqb (digit d) c = false.
Proof.
  intros Hd Hc. destruct (Ascii.eqb_spec (digit d) c) as [Heq|]; [|done].
  by rewrite <- Heq, digit_val_digit in Hc.
Qed.

Lemma format_uint_digit (n : N) :
  ∃ d ds, format_uint n = String (digit d) ds ∧ (d < 10)%N ∧ all_digits ds = true.
Proof.
  destruct (format_uint_shape n) as [->|(d & ds & -> & ? & ?)].
  - by exists 0%N, "".
  - exists d, ds. split_and!; [done|lia|done].
Qed.

Lemma Atoi_format (n : N) : (Z.of_N n < two63)%Z → Atoi (format_uint n) = Some (Z.of_N n).
Proof.
  intros Hn. pose proof (parse_digits_format n) as Hp. unfold Atoi, split_sign.
  destruct (format_uint_digit n) as (d & ds & Hs & Hd & _).
  rewrite Hs in Hp |- *. rewrite !digit_eqb, Hp by done.
  destruct (Z.leb_spec (- two63) (Z.of_N n)); [|unfold two63 in *; lia].
  destruct (Z.ltb_spec (Z.of_N n) two63); [done|lia].
Qed.

#[export] Hint Resolve ParseUint_bound : paladin.

(** ** Byte order *)

Lemma string_le_nil (s : string) : String.le "" s.
Proof. by destruct s. Qed.

Lemma string_le_cons (a b : ascii) (s t : string) :
  String.le (String a s) (String b t) ↔
  (N_of_ascii a < N_of_ascii b)%N ∨ (a = b ∧ String.le s t).
Proof.
  unfold String.le, String.leb. simpl. unfold Ascii.compare.
  destruct (N.compare_spec (N_of_ascii a) (N_of_ascii b)) as [Heq|Hlt|Hgt].
  - assert (a = b) as ->.
    { by rewrite <- (ascii_N_embedding a), Heq, ascii_N_embedding. }
    split; [by right|]. intros [?|[_ ?]]; [lia|done].
  - split; [by left|done].
  - split; [done|]. intros [?|[-> _]]; lia.
Qed.

(** A prefix of a key is not above it. *)
Lemma HasPrefix_le (k p : string) : HasPrefix k p = true → String.le p k.
Proof.
  revert k. induction p as [|a p IH]; intros k; [intros; apply string_le_nil|].
  destruct k as [|b k]; [done|]. simpl. intros H. destr.
  apply Ascii.eqb_eq in H as ->. apply string_le_cons. auto.
Qed.

(** The keys with a given prefix are contiguous: from the prefix on, a key
    without it is above every key that has it. *)
Lemma prefix_contiguous (p k k' : string) :
  String.le p k → String.le k k' → HasPrefix k' p = true → HasPrefix k p = true.
Proof.
  revert k k'. induction p as [|a p IH]; intros k k' H1 H2 H3; [done|].
  destruct k' as [|b k']; [done|]. simpl in H3. destr. apply Ascii.eqb_eq in H as ->.
  destruct k as [|c k]; [done|].
  apply string_le_cons in H1 as [H1|[<- H1]], H2 as [H2|[H2 H2']]; try (subst; lia).
  simpl. rewrite Ascii.eqb_refl. by eapply IH.
Qed.
