(* ===== verification/GoEncoding.v ===== *)
(** Byte encodings of the Go standard library that the source relies on:
    [encoding/binary] (BigEndian uint64), [unicode/utf8] (DecodeRune and the
    replacement of ill-formed bytes) and [encoding/base64] (StdEncoding). *)

From S2P Require Import Prelude GoStrings.

Local Open Scope string_scope.
Local Open Scope nat_scope.

Definition byte (n : N) : ascii := ascii_of_N (n mod 256).

Lemma N_of_byte (n : N) : N_of_ascii (byte n) = (n mod 256)%N.
Proof. apply N_ascii_embedding, N.mod_lt. lia. Qed.

Lemma byte_N_of_ascii (a : ascii) : byte (N_of_ascii a) = a.
Proof.
  unfold byte. rewrite N.mod_small by apply N_ascii_bounded. apply ascii_N_embedding.
Qed.

(** ** encoding/binary: BigEndian *)

(** [binary.BigEndian.PutUint64(buf, v)] into an 8-byte buffer. *)
Definition BE_PutUint64 (v : N) : string :=
  String (byte (N.shiftr v 56)) (String (byte (N.shiftr v 48))
 (String (byte (N.shiftr v 40)) (String (byte (N.shiftr v 32))
 (String (byte (N.shiftr v 24)) (String (byte (N.shiftr v 16))
 (String (byte (N.shiftr v 8)) (String (byte v) ""))))))).

(** [binary.BigEndian.Uint64(b)]: fewer than eight bytes panics. *)
Definition BE_Uint64 (b : string) : res N :=
  match b with
  | String b0 (String b1 (String b2 (String b3
      (String b4 (String b5 (String b6 (String b7 _))))))) =>
      Ok (N_of_ascii b7 + N.shiftl (N_of_ascii b6) 8 + N.shiftl (N_of_ascii b5) 16
          + N.shiftl (N_of_ascii b4) 24 + N.shiftl (N_of_ascii b3) 32
          + N.shiftl (N_of_ascii b2) 40 + N.shiftl (N_of_ascii b1) 48
          + N.shiftl (N_of_ascii b0) 56)%N
  | _ => Panic
  end.

Lemma BE_roundtrip (v : N) : (v ≤ max_uint64)%N → BE_Uint64 (BE_PutUint64 v) = Ok v.
Proof.
  intros Hv. unfold BE_Uint64, BE_PutUint64. f_equal.
  rewrite !N_of_byte, !N.shiftl_mul_pow2, !N.shiftr_div_pow2.
  change (2 ^ 8)%N with 256%N. change (2 ^ 16)%N with (256 * 256)%N.
  change (2 ^ 24)%N with (256 * 256 * 256)%N.
  change (2 ^ 32)%N with (256 * 256 * 256 * 256)%N.
  change (2 ^ 40)%N with (256 * 256 * 256 * 256 * 256)%N.
  change (2 ^ 48)%N with (256 * 256 * 256 * 256 * 256 * 256)%N.
  change (2 ^ 56)%N with (256 * 256 * 256 * 256 * 256 * 256 * 256)%N.
  rewrite <- !N.Div0.div_div.
  do 7 (match goal with
        | |- context [(?w mod 256)%N] =>
            is_var w; pose proof (N.div_mod' w 256);
            let q := fresh "q" in
            generalize dependent (w mod 256)%N; intros;
            set (q := (w / 256)%N) in *; clearbody q
        end).
  rewrite N.mod_small by (unfold max_uint64 in Hv; lia). lia.
Qed.

(** ** unicode/utf8 *)

Definition in_range (lo hi : N) (a : ascii) : bool :=
  (lo <=? N_of_ascii a)%N && (N_of_ascii a <=? hi)%N.

(** From the first byte of a sequence: how many bytes follow it and the range
    of the first of them; [None] for a byte that starts no sequence. *)
Definition utf8_class (b : N) : option (nat * N * N) :=
  if (b <? 128)%N then Some (0%nat, 128%N, 191%N)
  else if (b <? 194)%N then None
  else if (b <? 224)%N then Some (1%nat, 128%N, 191%N)
  else if (b =? 224)%N then Some (2%nat, 160%N, 191%N)
  else if (b =? 237)%N then Some (2%nat, 128%N, 159%N)
  else if (b <? 240)%N then Some (2%nat, 128%N, 191%N)
  else if (b =? 240)%N then Some (3%nat, 144%N, 191%N)
  else if (b <? 244)%N then Some (3%nat, 128%N, 191%N)
  else if (b =? 244)%N then Some (3%nat, 128%N, 143%N)
  else None.

Fixpoint take_conts (n : nat) (lo hi : N) (s : string) : option (string * string) :=
  match n, s with
  | 0, _ => Some ("", s)
  | S n', String a r =>
      if in_range lo hi a then
        match take_conts n' 128 191 r with
        | Some (c, r') => Some (String a c, r')
        | None => None
        end
      else None
  | S _, EmptyString => None
  end.

(** [utf8.DecodeRuneInString(s)]: the bytes of the first rune and the rest, or
    [None] when the first byte is ill-formed (rune U+FFFD of width 1). *)
Definition DecodeRune (s : string) : option (string * string) :=
  match s with
  | EmptyString => None
  | String a r =>
      match utf8_class (N_of_ascii a) with
      | Some (n, lo, hi) =>
          match take_conts n lo hi r with
          | Some (c, r') => Some (String a c, r')
          | None => None
          end
      | None => None
      end
  end.

Lemma take_conts_spec (n : nat) (lo hi : N) (s c r : string) :
  take_conts n lo hi s = Some (c, r) →
  s = c +:+ r ∧ String.length c = n ∧
  ∀ r', take_conts n lo hi (c +:+ r') = Some (c, r').
Proof.
  revert lo hi s c r. induction n as [|n IH]; intros lo hi s c r; simpl.
  { intros [= <- <-]. done. }
  destruct s as [|a s]; [done|]. destruct (in_range lo hi a) eqn:Ha; [|done].
  destruct (take_conts n 128 191 s) as [[c' r']|] eqn:Ht; [|done]. intros [= <- <-].
  destruct (IH _ _ _ _ _ Ht) as (-> & Hl & Hr). split_and!; [done|by simpl; rewrite Hl|].
  intros r''. simpl. by rewrite Ha, Hr.
Qed.

Lemma DecodeRune_spec (s c r : string) :
  DecodeRune s = Some (c, r) →
  s = c +:+ r ∧ (∃ a c', c = String a c') ∧
  ∀ r', DecodeRune (c +:+ r') = Some (c, r').
Proof.
  unfold DecodeRune. destruct s as [|a s]; [done|].
  destruct (utf8_class (N_of_ascii a)) as [[[n lo] hi]|] eqn:Hc; [|done].
  destruct (take_conts n lo hi s) as [[c' r']|] eqn:Ht; [|done]. intros [= <- <-].
  destruct (take_conts_spec _ _ _ _ _ _ Ht) as (-> & _ & Hr).
  split_and!; [done|by eauto|]. intros r''. simpl. by rewrite Hc, Hr.
Qed.

Lemma DecodeRune_ascii (a : ascii) (r : string) :
  (N_of_ascii a < 128)%N → DecodeRune (String a r) = Some (String a "", r).
Proof.
  intros H. simpl. unfold utf8_class.
  destruct (N.ltb_spec (N_of_ascii a) 128); [done|lia].
Qed.

(** A string cut into its runes and its ill-formed bytes. *)
Inductive utf8_unit : Set :=
  | URune (c : string)
  | UBad (a : ascii).

Fixpoint utf8_units_go (fuel : nat) (s : string) : list utf8_unit :=
  match fuel, s with
  | S fuel', String a r =>
      match DecodeRune s with
      | Some (c, r') => URune c :: utf8_units_go fuel' r'
      | None => UBad a :: utf8_units_go fuel' r
      end
  | _, _ => []
  end.

Definition utf8_units (s : string) : list utf8_unit := utf8_units_go (String.length s) s.

Lemma utf8_units_fuel (fuel : nat) (s : string) :
  String.length s ≤ fuel → utf8_units_go fuel s = utf8_units s.
Proof.
  unfold utf8_units.
  assert (∀ f1 f2 t, String.length t ≤ f1 → String.length t ≤ f2 →
            utf8_units_go f1 t = utf8_units_go f2 t) as Hgen; [|intros; by apply Hgen].
  induction f1 as [|f1 IH]; intros f2 t H1 H2.
  { destruct t; [by destruct f2|simpl in *; lia]. }
  destruct t as [|a t]; [by destruct f2|]. destruct f2 as [|f2]; [simpl in *; lia|].
  simpl in H1, H2. cbn [utf8_units_go].
  destruct (DecodeRune (String a t)) as [[c r]|] eqn:Hd; [|f_equal; apply IH; lia].
  destruct (DecodeRune_spec _ _ _ Hd) as (Heq & (b & c' & ->) & _).
  injection Heq as -> ->. rewrite string_length_app in H1, H2.
  f_equal. apply IH; lia.
Qed.

Lemma utf8_units_rune (s c r : string) :
  DecodeRune s = Some (c, r) → utf8_units s = URune c :: utf8_units r.
Proof.
  intros Hd. pose proof (DecodeRune_spec _ _ _ Hd) as (Heq & (a & c' & ->) & _).
  subst s. unfold utf8_units at 1. cbn [String.append String.length utf8_units_go].
  change (String a (c' +:+ r)) with (String a c' +:+ r). rewrite Hd.
  f_equal. apply utf8_units_fuel. rewrite string_length_app. lia.
Qed.

Lemma utf8_units_bad (a : ascii) (r : string) :
  DecodeRune (String a r) = None → utf8_units (String a r) = UBad a :: utf8_units r.
Proof. intros Hd. unfold utf8_units at 1. cbn [String.length utf8_units_go]. by rewrite Hd. Qed.

(** Induction along the runes of a string. *)
Lemma utf8_ind (P : string → Prop) :
  P "" →
  (∀ s c r, DecodeRune s = Some (c, r) → P r → P s) →
  (∀ a r, DecodeRune (String a r) = None → P r → P (String a r)) →
  ∀ s, P s.
Proof.
  intros H0 Hr Hb s. remember (String.length s) as n eqn:Hn.
  assert (String.length s ≤ n) as Hle by lia. clear Hn.
  revert s Hle. induction n as [|n IH]; intros [|a s] Hle; simpl in Hle; try done; [lia|].
  destruct (DecodeRune (String a s)) as [[c r]|] eqn:Hd.
  - apply (Hr _ _ _ Hd), IH.
    destruct (DecodeRune_spec _ _ _ Hd) as (Heq & (b & c' & ->) & _).
    injection Heq as -> ->. rewrite string_length_app in Hle. lia.
  - apply (Hb _ _ Hd), IH. lia.
Qed.

Definition sconcat (l : list string) : string := foldr String.append "" l.

(** U+FFFD, the replacement character. *)
Definition fffd : string := String "239" (String "191" (String "189" "")).

Definition coerce_unit (u : utf8_unit) : string :=
  match u with URune c => c | UBad _ => fffd end.

(** Ill-formed bytes replaced by U+FFFD, one each. *)
Definition ToValidUTF8 (s : string) : string := sconcat (coerce_unit <$> utf8_units s).

Definition is_rune (u : utf8_unit) : bool :=
  match u with URune _ => true | UBad _ => false end.

(** [utf8.ValidString(s)] *)
Definition ValidString (s : string) : bool := forallb is_rune (utf8_units s).

Lemma ToValidUTF8_rune (s c r : string) :
  DecodeRune s = Some (c, r) → ToValidUTF8 s = c +:+ ToValidUTF8 r.
Proof. intros Hd. unfold ToValidUTF8. by rewrite (utf8_units_rune _ _ _ Hd). Qed.

Lemma ToValidUTF8_bad (a : ascii) (r : string) :
  DecodeRune (String a r) = None → ToValidUTF8 (String a r) = fffd +:+ ToValidUTF8 r.
Proof. intros Hd. unfold ToValidUTF8. by rewrite (utf8_units_bad _ _ Hd). Qed.

Lemma ToValidUTF8_valid (s : string) : ValidString s = true → ToValidUTF8 s = s.
Proof.
  induction s as [|s c r Hd IH|a r Hd IH] using utf8_ind; [done|..].
  - unfold ValidString. rewrite (utf8_units_rune _ _ _ Hd). simpl. intros H.
    rewrite (ToValidUTF8_rune _ _ _ Hd), IH by done.
    by destruct (DecodeRune_spec _ _ _ Hd) as [-> _].
  - unfold ValidString. by rewrite (utf8_units_bad _ _ Hd).
Qed.

Lemma ValidString_ToValidUTF8 (s : string) : ValidString (ToValidUTF8 s) = true.
Proof.
  induction s as [|s c r Hd IH|a r Hd IH] using utf8_ind; [done|..].
  - rewrite (ToValidUTF8_rune _ _ _ Hd). unfold ValidString.
    destruct (DecodeRune_spec _ _ _ Hd) as (_ & _ & Hr).
    by rewrite (utf8_units_rune _ _ _ (Hr _)).
  - rewrite (ToValidUTF8_bad _ _ Hd). unfold ValidString.
    by rewrite (utf8_units_rune _ fffd (ToValidUTF8 r)).
Qed.

Lemma ToValidUTF8_idem (s : string) : ToValidUTF8 (ToValidUTF8 s) = ToValidUTF8 s.
Proof. apply ToValidUTF8_valid, ValidString_ToValidUTF8. Qed.

(** A string of ASCII bytes is valid. *)
Fixpoint all_ascii (s : string) : bool :=
  match s with
  | EmptyString => true
  | String a s' => (N_of_ascii a <? 128)%N && all_ascii s'
  end.

Lemma all_ascii_app (s t : string) : all_ascii (s +:+ t) = all_ascii s && all_ascii t.
Proof. induction s as [|a s IH]; [done|]. simpl. by rewrite IH, andb_assoc. Qed.

Lemma ValidString_ascii (s : string) : all_ascii s = true → ValidString s = true.
Proof.
  induction s as [|a s IH]; [done|]. simpl. intros H. destr. apply N.ltb_lt in H.
  unfold ValidString. rewrite (utf8_units_rune _ _ _ (DecodeRune_ascii a s H)).
  simpl. by apply IH.
Qed.

(** Concatenation with a valid prefix. *)
Lemma ToValidUTF8_app (s t : string) :
  ValidString s = true → ToValidUTF8 (s +:+ t) = s +:+ ToValidUTF8 t.
Proof.
  induction s as [|s c r Hd IH|a r Hd IH] using utf8_ind; [done|..].
  - unfold ValidString. rewrite (utf8_units_rune _ _ _ Hd). simpl. intros Hv.
    destruct (DecodeRune_spec _ _ _ Hd) as (-> & _ & Hr).
    rewrite !string_app_assoc, (ToValidUTF8_rune _ _ _ (Hr _)). f_equal. by apply IH.
  - unfold ValidString. by rewrite (utf8_units_bad _ _ Hd).
Qed.

#[export] Hint Resolve ToValidUTF8_valid ValidString_ToValidUTF8 : paladin.

(** ** encoding/base64: StdEncoding *)

Definition b64_char (n : N) : ascii :=
  if (n <? 26)%N then ascii_of_N (65 + n)
  else if (n <? 52)%N then ascii_of_N (97 + (n - 26))
  else if (n <? 62)%N then ascii_of_N (48 + (n - 52))
  else if (n =? 62)%N then "+"%char else "/"%char.

Definition b64_val (a : ascii) : option N :=
  let b := N_of_ascii a in
  if (65 <=? b)%N && (b <=? 90)%N then Some (b - 65)%N
  else if (97 <=? b)%N && (b <=? 122)%N then Some (b - 97 + 26)%N
  else if (48 <=? b)%N && (b <=? 57)%N then Some (b - 48 + 52)%N
  else if Ascii.eqb a "+" then Some 62%N
  else if Ascii.eqb a "/" then Some 63%N
  else None.

(** [base64.StdEncoding.EncodeToString(src)]: three bytes to four characters,
    padded with ['='] at the end. *)
Fixpoint b64_encode (s : string) : string :=
  match s with
  | String a (String b (String c r)) =>
      let v := (N_of_ascii a * 65536 + N_of_ascii b * 256 + N_of_ascii c)%N in
      String (b64_char (v / 262144)) (String (b64_char (v / 4096 mod 64))
     (String (b64_char (v / 64 mod 64)) (String (b64_char (v mod 64)) (b64_encode r))))
  | String a (String b "") =>
      let v := (N_of_ascii a * 65536 + N_of_ascii b * 256)%N in
      String (b64_char (v / 262144)) (String (b64_char (v / 4096 mod 64))
     (String (b64_char (v / 64 mod 64)) (String "=" "")))
  | String a "" =>
      let v := (N_of_ascii a * 65536)%N in
      String (b64_char (v / 262144)) (String (b64_char (v / 4096 mod 64))
     (String "=" (String "=" "")))
  | EmptyString => ""
  end.

(** Line breaks are skipped wherever they stand. *)
Fixpoint strip_newlines (s : string) : string :=
  match s with
  | EmptyString => ""
  | String a r =>
      if (N_of_ascii a =? 10)%N || (N_of_ascii a =? 13)%N then strip_newlines r
      else String a (strip_newlines r)
  end.

(** Four characters to three bytes; a last group may end in ['='] or ['=='], and
    the bits below its bytes are not looked at. *)
Fixpoint b64_groups (s : string) : option string :=
  match s with
  | EmptyString => Some ""
  | String a (String b (String c (String d r))) =>
      match b64_val a, b64_val b with
      | Some va, Some vb =>
          let v2 := (va * 262144 + vb * 4096)%N in
          match b64_val c with
          | Some vc =>
              let v3 := (v2 + vc * 64)%N in
              match b64_val d with
              | Some vd =>
                  let v := (v3 + vd)%N in
                  match b64_groups r with
                  | Some t => Some (String (byte (v / 65536)) (String (byte (v / 256))
                                   (String (byte v) t)))
                  | None => None
                  end
              | None =>
                  if Ascii.eqb d "=" && String.eqb r ""
                  then Some (String (byte (v3 / 65536)) (String (byte (v3 / 256)) ""))
                  else None
              end
          | None =>
              if Ascii.eqb c "=" && Ascii.eqb d "=" && String.eqb r ""
              then Some (String (byte (v2 / 65536)) "") else None
          end
      | _, _ => None
      end
  | _ => None
  end.

(** [base64.StdEncoding.DecodeString(s)] *)
Definition b64_decode (s : string) : option string := b64_groups (strip_newlines s).

Lemma b64_val_char (n : N) : (n < 64)%N → b64_val (b64_char n) = Some n.
Proof.
  intros Hn.
  assert (forallb (λ i, bool_decide (b64_val (b64_char (N.of_nat i)) = Some (N.of_nat i)))
            (seq 0 64) = true) as Hall by (vm_compute; reflexivity).
  rewrite forallb_forall in Hall. specialize (Hall (N.to_nat n)).
  rewrite N2Nat.id in Hall. eapply bool_decide_eq_true_1, Hall, in_seq. lia.
Qed.

Lemma strip_newlines_b64 (n : N) (s : string) :
  strip_newlines (String (b64_char n) s) = String (b64_char n) (strip_newlines s).
Proof.
  simpl. destruct (_ || _) eqn:H; [|done]. exfalso.
  apply orb_true_iff in H as [H%N.eqb_eq|H%N.eqb_eq]; revert H; unfold b64_char;
    repeat (case_match; try done); rewrite N_ascii_embedding;
    repeat match goal with
           | H : (_ <? _)%N = true |- _ => apply N.ltb_lt in H
           | H : (_ <? _)%N = false |- _ => apply N.ltb_ge in H
           end; lia.
Qed.

Lemma string_ind3 (P : string → Prop) :
  P "" → (∀ a, P (String a "")) → (∀ a b, P (String a (String b ""))) →
  (∀ a b c r, P r → P (String a (String b (String c r)))) → ∀ s, P s.
Proof.
  intros H0 H1 H2 H3. fix IH 1. intros [|a [|b [|c r]]]; [done..|]. apply H3, IH.
Qed.

Lemma b64_strip (s : string) : strip_newlines (b64_encode s) = b64_encode s.
Proof.
  induction s as [|a|a b|a b c r IH] using string_ind3; [done|..];
    cbn [b64_encode]; rewrite !strip_newlines_b64; [done..|]. by rewrite IH.
Qed.

Lemma sextets (v : N) :
  (v / 262144 * 262144 + v / 4096 mod 64 * 4096 + v / 64 mod 64 * 64 + v mod 64 = v)%N.
Proof.
  change 262144%N with (64 * 64 * 64)%N. change 4096%N with (64 * 64)%N.
  rewrite <- !N.Div0.div_div.
  pose proof (N.div_mod' v 64). pose proof (N.div_mod' (v / 64) 64).
  pose proof (N.div_mod' (v / 64 / 64) 64). lia.
Qed.

Lemma sextet_bound (v : N) : (v < 16777216)%N → (v / 262144 < 64)%N.
Proof. intros H. apply N.Div0.div_lt_upper_bound. lia. Qed.

(** The bytes of a 24-bit group. *)
Lemma group_bytes (a b c : ascii) (v : N) :
  v = (N_of_ascii a * 65536 + N_of_ascii b * 256 + N_of_ascii c)%N →
  (v < 16777216)%N ∧ byte (v / 65536) = a ∧ byte (v / 256) = b ∧ byte v = c.
Proof.
  intros ->. pose proof (N_ascii_bounded a). pose proof (N_ascii_bounded b).
  pose proof (N_ascii_bounded c). split; [lia|].
  assert (∀ x y, (N_of_ascii y = x mod 256)%N → byte x = y) as Hb.
  { intros x y Hxy. unfold byte. rewrite <- Hxy. apply ascii_N_embedding. }
  split_and!; apply Hb.
  - rewrite <- (N.div_unique _ 65536 (N_of_ascii a) (N_of_ascii b * 256 + N_of_ascii c)) by lia.
    rewrite N.mod_small; lia.
  - rewrite <- (N.div_unique _ 256 (N_of_ascii a * 256 + N_of_ascii b) (N_of_ascii c)) by lia.
    apply N.mod_unique with (N_of_ascii a); lia.
  - apply N.mod_unique with (N_of_ascii a * 256 + N_of_ascii b)%N; lia.
Qed.

Lemma b64_roundtrip (s : string) : b64_decode (b64_encode s) = Some s.
Proof.
  unfold b64_decode. rewrite b64_strip.
  assert (∀ x, (x mod 64 < 64)%N) as Hm by (intros; apply N.mod_lt; lia).
  induction s as [|a|a b|a b c r IH] using string_ind3; [done|..];
    cbn [b64_encode b64_groups].
  - destruct (group_bytes a zero zero _ eq_refl) as (Hv & Ha & _).
    change (N_of_ascii zero) with 0%N in *. rewrite N.mul_0_l, !N.add_0_r in *.
    set (v := (N_of_ascii a * 65536)%N) in *.
    rewrite !b64_val_char by auto using sextet_bound. simpl.
    assert (v / 262144 * 262144 + v / 4096 mod 64 * 4096 = v)%N as ->; [|by rewrite Ha].
    pose proof (sextets v) as Hs.
    assert (v mod 64 = 0 ∧ v / 64 mod 64 = 0)%N as [E1 E2]; [|rewrite E1, E2 in Hs; lia].
    subst v. split.
    + replace (N_of_ascii a * 65536)%N with (N_of_ascii a * 1024 * 64)%N by lia.
      apply N.Div0.mod_mul.
    + replace (N_of_ascii a * 65536)%N with (N_of_ascii a * 16 * 64 * 64)%N by lia.
      rewrite N.div_mul by lia. apply N.Div0.mod_mul.
  - destruct (group_bytes a b zero _ eq_refl) as (Hv & Ha & Hb & _).
    change (N_of_ascii zero) with 0%N in *. rewrite !N.add_0_r in *.
    set (v := (N_of_ascii a * 65536 + N_of_ascii b * 256)%N) in *.
    rewrite !b64_val_char by auto using sextet_bound. simpl.
    assert (v / 262144 * 262144 + v / 4096 mod 64 * 4096 + v / 64 mod 64 * 64 = v)%N as ->;
      [|by rewrite Ha, Hb].
    pose proof (sextets v) as Hs.
    assert (v mod 64 = 0)%N as E1; [|rewrite E1 in Hs; lia].
    subst v. replace (N_of_ascii a * 65536 + N_of_ascii b * 256)%N
      with ((N_of_ascii a * 1024 + N_of_ascii b * 4) * 64)%N by lia.
    apply N.Div0.mod_mul.
  - destruct (group_bytes a b c _ eq_refl) as (Hv & Ha & Hb & Hc).
    set (v := (N_of_ascii a * 65536 + N_of_ascii b * 256 + N_of_ascii c)%N) in *.
    rewrite !b64_val_char, IH by auto using sextet_bound.
    by rewrite sextets, Ha, Hb, Hc.
Qed.
