(* ===== verification/GoText.v ===== *)
(** More of the Go package [strings], as the command line and the logger use it:
    Split, Join, TrimSpace, and ToLower as far as its result can be an ASCII word. *)

From S2P Require Import Prelude GoStrings.

Local Open Scope string_scope.
Local Open Scope list_scope.
Local Open Scope nat_scope.

Definition bytes_string (l : list N) : string :=
  foldr (λ b s, String (ascii_of_N b) s) "" l.

(** The white space of [unicode.IsSpace], encoded. *)
Definition spaces : list string :=
  map bytes_string
    (map (λ b, [b]) [9; 10; 11; 12; 13; 32]%N
     ++ [[194; 133]; [194; 160]; [225; 154; 128]; [226; 128; 168]; [226; 128; 169];
         [226; 128; 175]; [226; 129; 159]; [227; 128; 128]]%N
     ++ map (λ b, [226; 128; b]%N) [128; 129; 130; 131; 132; 133; 134; 135; 136; 137; 138]%N).

(** [strings.TrimSpace], a rune at a time from each side. *)
Fixpoint trim_left (fuel : nat) (s : string) : string :=
  match fuel with
  | 0 => s
  | S fuel' => match find (λ w, HasPrefix s w) spaces with
               | Some w => trim_left fuel' (TrimPrefix s w)
               | None => s
               end
  end.

Fixpoint trim_right (fuel : nat) (s : string) : string :=
  match fuel with
  | 0 => s
  | S fuel' => match find (λ w, HasSuffix s w) spaces with
               | Some w => trim_right fuel' (TrimSuffix s w)
               | None => s
               end
  end.

Definition TrimSpace (s : string) : string :=
  trim_right (String.length s) (trim_left (String.length s) s).

(** [strings.ToLower]: ASCII letters, and U+0130 and U+212A, which become [i] and [k].
    The other letters beyond ASCII, which stay beyond ASCII, are kept. *)
Fixpoint ToLower (s : string) : string :=
  match s with
  | EmptyString => ""
  | String "196" (String "176" r) => String "i" (ToLower r)
  | String "226" (String "132" (String "170" r)) => String "k" (ToLower r)
  | String a r =>
      let b := N_of_ascii a in
      String (if (65 <=? b)%N && (b <=? 90)%N then ascii_of_N (b + 32) else a) (ToLower r)
  end.

(** [strings.Split(s, sep)] for a separator of one byte. *)
Fixpoint split_go (sep : ascii) (fuel : nat) (s : string) : list string :=
  match fuel with
  | 0 => [s]
  | S fuel' => match cut sep s with
               | Some (l, r) => l :: split_go sep fuel' r
               | None => [s]
               end
  end.
Definition Split (s : string) (sep : ascii) : list string := split_go sep (String.length s) s.

(** [strings.Join(l, sep)] *)
Fixpoint Join (l : list string) (sep : string) : string :=
  match l with
  | [] => ""
  | [s] => s
  | s :: l' => s +:+ sep +:+ Join l' sep
  end.

Example TrimSpace_example : TrimSpace ("  a b " +:+ bytes_string [194; 160; 10]%N) = "a b".
Proof. vm_compute. reflexivity. Qed.

Example ToLower_example : ToLower ("WARN" +:+ bytes_string [196; 176]%N +:+ "NG") = "warning".
Proof. vm_compute. reflexivity. Qed.

Example Split_example : Split "a,b,,c" "," = ["a"; "b"; ""; "c"].
Proof. vm_compute. reflexivity. Qed.

(** ** Lemmas *)

(** Neither the first nor the last rune is white space. *)
Definition trimmed (s : string) : Prop :=
  find (λ w, HasPrefix s w) spaces = None ∧ find (λ w, HasSuffix s w) spaces = None.

Lemma TrimSpace_trimmed (s : string) : trimmed s → TrimSpace s = s.
Proof.
  intros [Hl Hr]. unfold TrimSpace. destruct (String.length s) as [|n]; [done|].
  cbn [trim_left]. rewrite Hl. cbn [trim_right]. by rewrite Hr.
Qed.

Lemma split_join (sep : ascii) (l : list string) (fuel : nat) :
  l ≠ [] → Forall (λ s, no_char sep s = true) l → String.length (Join l (String sep "")) ≤ fuel →
  split_go sep fuel (Join l (String sep "")) = l.
Proof.
  intros Hne Hall. revert fuel. induction Hall as [|s l Hs Hall IH]; intros fuel Hf; [done|].
  destruct l as [|s2 l].
  - simpl in *. destruct fuel; simpl; [done|]. by rewrite cut_none.
  - change (Join (s :: s2 :: l) (String sep ""))
      with (s +:+ String sep (Join (s2 :: l) (String sep ""))) in *.
    rewrite string_length_app in Hf. cbn [String.length] in Hf.
    destruct fuel as [|fuel]; [lia|]. cbn [split_go]. rewrite cut_app by done.
    f_equal. apply IH; [done|lia].
Qed.

Lemma Split_Join (sep : ascii) (l : list string) :
  l ≠ [] → Forall (λ s, no_char sep s = true) l → Split (Join l (String sep "")) sep = l.
Proof. intros. by apply split_join. Qed.
