(* ===== verification/GoFmt.v ===== *)
(** The verbs of package [fmt] that the source uses beyond [%d] of an unsigned integer:
    [%d] of an [int], [%08d], [%-30s], and [%.2f] and its like of a [float64], which is
    a [spec_float] with 53 bits; the conversions to [float64] and its division. *)

From Stdlib Require Import SpecFloat.
From S2P Require Import Prelude GoStrings GoEncoding.

Local Open Scope string_scope.
Local Open Scope nat_scope.

(** ** Integers *)

(** [%d] of an [int] *)
Definition format_int (z : Z) : string :=
  if (z <? 0)%Z then String "-" (format_uint (Z.to_N (- z))) else format_uint (Z.to_N z).

Fixpoint repeat_char (c : ascii) (n : nat) : string :=
  match n with
  | 0 => ""
  | S n' => String c (repeat_char c n')
  end.

(** [%0wd] of a number that is not negative: zeros up to the width [w]. *)
Definition format_padded (w : nat) (n : N) : string :=
  let s := format_uint n in repeat_char "0" (w - String.length s) +:+ s.

(** ** Strings *)

(** [%-ws]: spaces up to [w] runes. *)
Definition pad_right (w : nat) (s : string) : string :=
  s +:+ repeat_char " " (w - length (utf8_units s)).

(** [fmt.Fprintln] of each string in turn *)
Definition lines (l : list string) : string := sconcat (map (λ s, s +:+ String "010" "") l).

(** ** Floating point *)

Definition float_of_int (z : Z) : spec_float := binary_normalize 53 1024 z 0 false.
Definition float_of_uint64 (n : N) : spec_float := float_of_int (Z.of_N n).
Definition float_mul (x y : spec_float) : spec_float := SFmul 53 1024 x y.
Definition float_div (x y : spec_float) : spec_float := SFdiv 53 1024 x y.
Definition float_add (x y : spec_float) : spec_float := SFadd 53 1024 x y.

(** [a / b] to the nearest integer, a tie to the even one. *)
Definition div_even (a b : N) : N :=
  let q := (a / b)%N in
  let r := (a mod b)%N in
  if (2 * r <? b)%N then q
  else if (b <? 2 * r)%N then (q + 1)%N
  else if N.even q then q else (q + 1)%N.

(** [m * 2^e * 10^prec], rounded. *)
Definition scaled (prec : nat) (m : positive) (e : Z) : N :=
  let a := (N.pos m * 10 ^ N.of_nat prec)%N in
  if (0 <=? e)%Z then (a * 2 ^ Z.to_N e)%N else div_even a (2 ^ Z.to_N (- e))%N.

(** The digits of [n / 10^prec] with [prec] of them after the point. *)
Definition decimal (prec : nat) (n : N) : string :=
  let p := (10 ^ N.of_nat prec)%N in
  match prec with
  | 0 => format_uint n
  | _ => format_uint (n / p) +:+ "." +:+ format_padded prec (n mod p)
  end.

(** [%.{prec}f] *)
Definition format_float (prec : nat) (x : spec_float) : string :=
  match x with
  | S754_zero s => (if s then "-" else "") +:+ decimal prec 0
  | S754_finite s m e => (if s then "-" else "") +:+ decimal prec (scaled prec m e)
  | S754_infinity s => if s then "-Inf" else "+Inf"
  | S754_nan => "NaN"
  end.

Example format_float_examples :
  format_float 2 (float_div (float_of_int 12345) (float_of_int 1000)) = "12.35" ∧
  format_float 0 (float_div (float_of_int 5) (float_of_int 2)) = "2" ∧
  format_float 1 (float_of_int 100) = "100.0" ∧
  format_float 2 (float_div (float_of_int (-1)) (float_of_int 3)) = "-0.33".
Proof. vm_compute. done. Qed.

Example format_padded_example : format_padded 8 42 = "00000042".
Proof. reflexivity. Qed.

(** ** Lemmas *)

Lemma Atoi_format_int (z : Z) : (- two63 ≤ z < two63)%Z → Atoi (format_int z) = Some z.
Proof.
  intros Hz. unfold format_int. destruct (Z.ltb_spec z 0).
  - unfold Atoi, split_sign. cbn [Ascii.eqb Bool.eqb].
    pose proof (parse_digits_format (Z.to_N (- z))) as Hp.
    destruct (format_uint_cons (Z.to_N (- z))) as (a & t & Hc). rewrite Hc in *. rewrite Hp.
    rewrite Z2N.id by lia. replace (- - z)%Z with z by lia.
    destruct (Z.leb_spec (- two63) z), (Z.ltb_spec z two63); try lia. done.
  - rewrite Atoi_format by lia. f_equal. lia.
Qed.

Lemma format_uint_nonempty (n : N) : String.eqb (format_uint n) "" = false.
Proof. by destruct (format_uint_cons n) as (c & s & ->). Qed.

Lemma format_int_nonempty (z : Z) : (0 ≤ z)%Z → String.eqb (format_int z) "" = false.
Proof.
  intros Hz. unfold format_int. destruct (Z.ltb_spec z 0); [lia|]. apply format_uint_nonempty.
Qed.

Lemma repeat_char_length (c : ascii) (n : nat) : String.length (repeat_char c n) = n.
Proof. induction n as [|n IH]; [done|]. simpl. by f_equal. Qed.

Lemma format_go_width (fuel : nat) (n : N) (k : nat) (acc : string) :
  0 < k → (n < 10 ^ N.of_nat k)%N → String.length (format_go fuel n acc) ≤ k + String.length acc.
Proof.
  revert n k acc. induction fuel as [|fuel IH]; intros n k acc Hk Hn; cbn [format_go]; [lia|].
  destruct (N.ltb_spec n 10) as [Hlt|Hge]; [simpl; lia|].
  destruct k as [|[|k]]; [lia|simpl in Hn; lia|].
  etrans; [apply (IH (n / 10)%N (S k)); [lia|]|simpl; lia].
  rewrite Nat2N.inj_succ, N.pow_succ_r' in Hn. apply N.Div0.div_lt_upper_bound. lia.
Qed.

Lemma format_padded_length (k : nat) (n : N) :
  0 < k → (n < 10 ^ N.of_nat k)%N → String.length (format_padded k n) = k.
Proof.
  intros Hk Hn. unfold format_padded. rewrite string_length_app, repeat_char_length.
  pose proof (format_go_width (S (N.to_nat (N.log2 n))) n k "" Hk Hn) as H. unfold format_uint. simpl in H |- *. lia.
Qed.

Lemma parse_zeros (n : nat) (s : string) :
  parse_digits 0 (repeat_char "0" n +:+ s) = parse_digits 0 s.
Proof. induction n as [|n IH]; [done|]. exact IH. Qed.

(** The padded number is read back as the number. *)
Lemma parse_padded (w : nat) (n : N) : parse_digits 0 (format_padded w n) = Some n.
Proof. unfold format_padded. rewrite parse_zeros. apply parse_digits_format. Qed.

Lemma format_padded_inj (w : nat) (n m : N) : format_padded w n = format_padded w m → n = m.
Proof. intros H. apply (f_equal (parse_digits 0)) in H. rewrite !parse_padded in H. congruence. Qed.

Lemma all_digits_repeat (n : nat) : all_digits (repeat_char "0" n) = true.
Proof. induction n as [|n IH]; [done|]. exact IH. Qed.

Lemma all_digits_format (n : N) : all_digits (format_uint n) = true.
Proof.
  destruct (format_uint_shape n) as [->|(d & ds & -> & Hd & Hds)]; [done|].
  rewrite all_digits_digit by lia. done.
Qed.

Lemma all_digits_padded (w : nat) (n : N) : all_digits (format_padded w n) = true.
Proof. unfold format_padded. by rewrite all_digits_app, all_digits_repeat, all_digits_format. Qed.

(** The rounding is to the nearest: off by half a unit at most. *)
Lemma div_even_near (a b : N) :
  (0 < b)%N → (2 * a ≤ 2 * (div_even a b * b) + b)%N ∧ (2 * (div_even a b * b) ≤ 2 * a + b)%N.
Proof.
  intros Hb. unfold div_even. pose proof (N.div_mod a b) as Hd. pose proof (N.mod_lt a b) as Hm.
  revert Hd Hm. generalize (a / b)%N, (a mod b)%N. intros q r Hd Hm.
  destruct (N.ltb_spec (2 * r) b), (N.ltb_spec b (2 * r)); try destruct (N.even q); nia.
Qed.
