(* ===== verification/GoTime.v ===== *)
(** The part of package [time] the source uses: the units, [Duration.Seconds] and
    [Time.Format] with the layout of RFC 3339.  A [Duration] is a [Z] of nanoseconds. *)

From Stdlib Require Import SpecFloat.
From S2P Require Import Prelude GoStrings GoFmt.

Local Open Scope string_scope.
Local Open Scope Z_scope.

(** ** Durations *)

Definition Microsecond : Z := 1000.
Definition Millisecond : Z := 1000000.
Definition Second : Z := 1000000000.

(** [d.Seconds()] *)
Definition Duration_Seconds (d : Z) : spec_float :=
  float_add (float_of_int (Z.quot d Second))
    (float_div (float_of_int (Z.rem d Second)) (float_of_int 1000000000)).

(** The digits of [f / 10^prec] behind the point, without the zeros at the end. *)
Fixpoint frac (prec : nat) (f : N) : string :=
  match prec with
  | O => ""
  | S p => if (f mod 10 =? 0)%N then frac p (f / 10) else "." +:+ format_padded prec f
  end.

(** [u / 10^prec] *)
Definition fmt_frac (prec : nat) (u : N) : string :=
  let p := (10 ^ N.of_nat prec)%N in format_uint (u / p) +:+ frac prec (u mod p).

(** The text of a duration without its sign. *)
Definition Duration_abs (u : N) : string :=
  if (u =? 0)%N then "0s"
  else if (u <? 1000)%N then format_uint u +:+ "ns"
  else if (u <? 1000000)%N then fmt_frac 3 u +:+ "µs"
  else if (u <? 1000000000)%N then fmt_frac 6 u +:+ "ms"
  else
    let s := (u / 1000000000)%N in
    let sec := format_uint (s mod 60) +:+ frac 9 (u mod 1000000000) +:+ "s" in
    let m := (s / 60)%N in
    if (m =? 0)%N then sec
    else
      let h := (m / 60)%N in
      (if (h =? 0)%N then "" else format_uint h +:+ "h") +:+ format_uint (m mod 60) +:+ "m" +:+ sec.

(** [d.String()] *)
Definition Duration_String (d : Z) : string :=
  (if d <? 0 then "-" else "") +:+ Duration_abs (Z.to_N (Z.abs d)).

Example Duration_String_examples :
  Duration_String 0 = "0s" ∧ Duration_String 1100 = "1.1µs" ∧ Duration_String 2000000 = "2ms" ∧
  Duration_String 90500000000 = "1m30.5s" ∧ Duration_String (-7200000000000) = "-2h0m0s".
Proof. vm_compute. done. Qed.

(** ** Points in time *)

(** Nanoseconds since 1970 in UTC, and the seconds the zone is east of it. *)
Record Time := mkTime {
  t_unix : Z;
  t_offset : Z;
}.

(** Year, month and day of the [n]-th day after the first of January 1970. *)
Definition civil (n : Z) : Z * Z * Z :=
  let z := n + 719468 in
  let era := z / 146097 in
  let doe := z mod 146097 in
  let yoe := (doe - doe / 1460 + doe / 36524 - doe / 146096) / 365 in
  let doy := doe - (365 * yoe + yoe / 4 - yoe / 100) in
  let mp := (5 * doy + 2) / 153 in
  let m := if mp <? 10 then mp + 3 else mp - 9 in
  (yoe + era * 400 + (if m <=? 2 then 1 else 0), m, doy - (153 * mp + 2) / 5 + 1).

Definition two_digits (z : Z) : string := format_padded 2 (Z.to_N z).

(** Seconds since 1970 on the clock of the zone. *)
Definition local_seconds (t : Time) : Z := t_unix t / Second + t_offset t.

(** Date and time of day, and the zone, for the years that are not negative. *)
Definition format_date_time (t : Time) : string :=
  let s := local_seconds t in
  let '(year, month, day) := civil (s / 86400) in
  let sod := s mod 86400 in
  format_padded 4 (Z.to_N year) +:+ "-" +:+ two_digits month +:+ "-" +:+ two_digits day +:+ "T" +:+
  two_digits (sod / 3600) +:+ ":" +:+ two_digits (sod / 60 mod 60) +:+ ":" +:+ two_digits (sod mod 60).

Definition format_zone (offset : Z) : string :=
  let zone := Z.abs (Z.quot offset 60) in
  if offset =? 0 then "Z"
  else (if offset <? 0 then "-" else "+") +:+ two_digits (zone / 60) +:+ ":" +:+ two_digits (zone mod 60).

(** [t.Format(time.RFC3339)] *)
Definition format_rfc3339 (t : Time) : string := format_date_time t +:+ format_zone (t_offset t).

(** [t.Format(time.RFC3339Nano)] *)
Definition format_rfc3339nano (t : Time) : string :=
  format_date_time t +:+ frac 9 (Z.to_N (t_unix t mod Second)) +:+ format_zone (t_offset t).

Example format_rfc3339_examples :
  format_rfc3339 (mkTime 0 0) = "1970-01-01T00:00:00Z" ∧
  format_rfc3339 (mkTime 1709210096000000000 28800) = "2024-02-29T20:34:56+08:00" ∧
  format_rfc3339 (mkTime 951782400000000000 (-12600)) = "2000-02-28T20:30:00-03:30".
Proof. vm_compute. done. Qed.

(** ** Lemmas *)

(** The fraction is empty, or the digits up to the last that is not zero. *)
Lemma frac_shape (p : nat) (f : N) :
  (f < 10 ^ N.of_nat p)%N →
  (f = 0%N ∧ frac p f = "") ∨
  ∃ q g, frac p f = "." +:+ format_padded q g ∧ (0 < q ≤ p)%nat ∧ (g < 10 ^ N.of_nat q)%N ∧
         f = (g * 10 ^ N.of_nat (p - q))%N.
Proof.
  revert f. induction p as [|p IH]; intros f Hf; [left; split; [simpl in Hf; lia|done]|].
  cbn [frac]. destruct (N.eqb_spec (f mod 10) 0) as [H0|H0].
  - assert (f = 10 * (f / 10))%N as Hf10 by (pose proof (N.div_mod f 10); lia).
    rewrite Nat2N.inj_succ, N.pow_succ_r' in Hf.
    destruct (IH (f / 10)%N) as [[H ->]|(q & g & -> & Hq & Hg & H)]; [lia|left; split; [lia|done]|right].
    exists q, g. split_and!; [done|lia|lia|done|]. rewrite Hf10, H.
    replace (S p - q)%nat with (S (p - q)) by lia. rewrite Nat2N.inj_succ, N.pow_succ_r'. ring.
  - right. exists (S p), f. split_and!; [done|lia|lia|done|]. rewrite Nat.sub_diag. simpl. lia.
Qed.
