(* ===== verification/FloatArith.v ===== *)
(** Lemmas on [float64] arithmetic, as [SpecFloat] computes it: a quotient is a
    number of the format, products of small integers are exact, and any number below
    [2^53] is rounded to one of its two neighbours. *)

From Stdlib Require Import SpecFloat.
From S2P Require Import Prelude GoStrings GoFmt.

Local Open Scope Z_scope.

Abbreviation fexp64 := (fexp 53 1024).

(** An integer of at most 53 bits, as a float. *)
Definition exact_float (n : Z) : spec_float :=
  let d := Zdigits2 n in
  match n * 2 ^ (53 - d) with
  | Z.pos m => S754_finite false m (d - 53)
  | _ => S754_zero false
  end.

(** [uint64(x)] of a number that is not negative and below [2^64]: its whole part. *)
Definition uint64_trunc (x : spec_float) : N :=
  match x with
  | S754_finite false m e =>
      if 0 <=? e then Z.to_N (Z.pos m * 2 ^ e) else Z.to_N (Z.pos m / 2 ^ (- e))
  | _ => 0
  end.

Lemma fexp64_max (e : Z) : fexp64 e = Z.max (e - 53) (-1074).
Proof. done. Qed.

(** ** Digits *)

Lemma digits2_log2 (m : positive) : Z.pos (digits2_pos m) = Z.log2 (Z.pos m) + 1.
Proof.
  induction m as [m IH|m IH|]; [..|done]; cbn [digits2_pos]; rewrite Pos2Z.inj_succ, IH.
  - rewrite Pos2Z.inj_xI, Z.log2_succ_double; lia.
  - rewrite Pos2Z.inj_xO, Z.log2_double; lia.
Qed.

Lemma Zdigits2_spec (m d : Z) : 0 < m → Zdigits2 m = d → 0 < d ∧ 2 ^ (d - 1) ≤ m < 2 ^ d.
Proof.
  intros Hm <-. destruct m as [|m|m]; [lia| |lia]. cbn [Zdigits2]. rewrite digits2_log2.
  destruct (Z.log2_spec (Z.pos m) eq_refl) as [Hl Hu]. pose proof (Z.log2_nonneg (Z.pos m)).
  replace (Z.log2 (Z.pos m) + 1 - 1) with (Z.log2 (Z.pos m)) by lia.
  rewrite Z.add_1_r. split; [lia|done].
Qed.

Lemma Zdigits2_unique (m d : Z) : 2 ^ (d - 1) ≤ m < 2 ^ d → 0 < d → Zdigits2 m = d.
Proof.
  intros Hm Hd. assert (0 < 2 ^ (d - 1)) by (apply Z.pow_pos_nonneg; lia).
  destruct m as [|m|m]; [lia| |lia]. cbn [Zdigits2]. rewrite digits2_log2.
  rewrite (Z.log2_unique (Z.pos m) (d - 1)); [lia|lia|]. rewrite <- Z.add_1_r. by replace (d - 1 + 1) with d by lia.
Qed.

Lemma Zdigits2_le (m d : Z) : 0 ≤ m < 2 ^ d → 0 ≤ d → Zdigits2 m ≤ d.
Proof.
  intros Hm Hd. destruct (decide (m = 0)) as [->|Hne]; [done|].
  destruct (Zdigits2_spec m (Zdigits2 m)) as (H0 & Hlo & _); [lia|done|].
  destruct (Z.le_gt_cases (Zdigits2 m) d) as [|Hgt]; [done|exfalso].
  assert (2 ^ d ≤ 2 ^ (Zdigits2 m - 1)) by (apply Z.pow_le_mono_r; lia). lia.
Qed.

Lemma Zdigits2_ge (m d : Z) : 2 ^ d ≤ m → 0 ≤ d → d + 1 ≤ Zdigits2 m.
Proof.
  intros Hm Hd. assert (0 < 2 ^ d) by (by apply Z.pow_pos_nonneg).
  destruct (Zdigits2_spec m (Zdigits2 m)) as (H0 & _ & Hhi); [lia|done|].
  destruct (Z.le_gt_cases (d + 1) (Zdigits2 m)) as [|Hgt]; [done|exfalso].
  assert (2 ^ Zdigits2 m ≤ 2 ^ d) by (apply Z.pow_le_mono_r; lia). lia.
Qed.

Lemma Zdigits2_nonneg (m : Z) : 0 ≤ Zdigits2 m.
Proof. by destruct m. Qed.

(** ** Shifting to the right *)

Lemma iter_pos_add {A} (f : A → A) (n : positive) (x : A) : SpecFloat.iter_pos f n x = Pos.iter f x n.
Proof.
  revert x. induction n as [n IH|n IH|]; intros x; cbn [SpecFloat.iter_pos Pos.iter]; [|by rewrite !IH|done].
  rewrite !IH. by rewrite <- !Pos.iter_swap.
Qed.

(** One step halves the number, and keeps an even one exact. *)
Lemma shr_1_m (r : shr_record) : 0 ≤ shr_m r → shr_m (shr_1 r) = shr_m r / 2.
Proof.
  destruct r as [m r s]. cbn [shr_m]. intros Hm. destruct m as [|[p|p|]|p]; try done; cbn [shr_1 shr_m].
  - rewrite Pos2Z.inj_xI. rewrite Z.add_comm, Z.mul_comm, Z.div_add by done. done.
  - rewrite Pos2Z.inj_xO, Z.mul_comm, Z.div_mul by done. done.
Qed.

Lemma shr_1_exact (m : Z) : shr_1 (Build_shr_record (2 * m) false false) = Build_shr_record m false false.
Proof. by destruct m. Qed.

Lemma shr_m_iter (n : positive) (r : shr_record) :
  0 ≤ shr_m r → shr_m (SpecFloat.iter_pos shr_1 n r) = shr_m r / 2 ^ Z.pos n.
Proof.
  rewrite iter_pos_add. intros Hr. revert n.
  refine (Pos.peano_ind _ _ _); [by apply shr_1_m|]. intros n IH.
  assert (0 ≤ shr_m r / 2 ^ Z.pos n) by (apply Z.div_pos; [done|by apply Z.pow_pos_nonneg]).
  rewrite Pos.iter_succ, shr_1_m by (by rewrite IH). rewrite IH, Pos2Z.inj_succ, Z.pow_succ_r by done.
  rewrite (Z.mul_comm 2), Z.div_div; [done|by apply Z.pow_nonzero|done].
Qed.

Lemma shr_exact (m e n : Z) :
  0 ≤ n → shr (Build_shr_record (m * 2 ^ n) false false) e n = (Build_shr_record m false false, e + n).
Proof.
  intros Hn. destruct n as [|p|p]; [by rewrite Z.mul_1_r, Z.add_0_r| |lia]. cbn [shr]. f_equal.
  rewrite iter_pos_add. clear Hn. revert p m. refine (Pos.peano_ind _ _ _).
  - intros m. rewrite Z.mul_comm. apply shr_1_exact.
  - intros p IH m. rewrite Pos.iter_succ_r.
    replace (m * 2 ^ Z.pos (Pos.succ p)) with (2 * (m * 2 ^ Z.pos p)).
    + by rewrite shr_1_exact.
    + rewrite Pos2Z.inj_succ, Z.pow_succ_r by done. ring.
Qed.

Lemma shr_spec (r : shr_record) (e n : Z) :
  0 ≤ shr_m r → 0 ≤ n → shr_m (shr r e n).1 = shr_m r / 2 ^ n ∧ (shr r e n).2 = e + n.
Proof.
  intros Hr Hn. destruct n as [|p|p]; [|split; [by apply shr_m_iter|done]|lia].
  cbn [shr fst snd]. by rewrite Z.div_1_r, Z.add_0_r.
Qed.

Lemma shr_record_of_loc_m (m : Z) (l : location) : shr_m (shr_record_of_loc m l) = m.
Proof. by destruct l as [|[]]. Qed.

(** ** Rounding gives a number of the format *)

Lemma round_nearest_even_bound (m : Z) (l : location) : m ≤ round_nearest_even m l ≤ m + 1.
Proof. unfold round_nearest_even. destruct l as [|[]]; [lia|..|lia|lia]. destruct (Z.even m); lia. Qed.

Lemma binary_round_aux_valid (s : bool) (m e : Z) (l : location) :
  0 ≤ m → e ≤ fexp64 (Zdigits2 m + e) → valid_binary 53 1024 (binary_round_aux 53 1024 s m e l) = true.
Proof.
  intros Hm He. unfold binary_round_aux, shr_fexp. set (d := Zdigits2 m) in *.
  set (n := fexp64 (d + e) - e).
  destruct (shr_spec (shr_record_of_loc m l) e n) as [H1 H2]; [by rewrite shr_record_of_loc_m|lia|].
  rewrite shr_record_of_loc_m in H1.
  destruct (shr (shr_record_of_loc m l) e n) as [r1 e1]. cbn [fst snd] in H1, H2.
  set (m2 := round_nearest_even (shr_m r1) (loc_of_shr_record r1)).
  assert (e1 = fexp64 (d + e)) as He1 by lia. rewrite fexp64_max in He1.
  pose proof (Zdigits2_nonneg m) as Hd0. fold d in Hd0.
  assert (0 ≤ shr_m r1 < 2 ^ 53 ∧ (e1 ≠ -1074 → 2 ^ 52 ≤ shr_m r1)) as [Hr1 Hr1'].
  { assert (0 ≤ n) as Hn by lia. assert (0 < 2 ^ n) by (by apply Z.pow_pos_nonneg).
    rewrite H1. destruct (decide (m = 0)) as [->|Hne].
    - rewrite Z.div_0_l by lia. split; [lia|]. cbn in d. intros. lia.
    - destruct (Zdigits2_spec m d) as (Hd & Hlo & Hhi); [lia|done|].
      split; [split|].
      + apply Z.div_pos; lia.
      + apply Z.div_lt_upper_bound; [done|]. eapply Z.lt_le_trans; [exact Hhi|].
        rewrite <- Z.pow_add_r by lia. apply Z.pow_le_mono_r; lia.
      + intros Hne1. apply Z.div_le_lower_bound; [done|].
        rewrite <- Z.pow_add_r by lia. etrans; [|exact Hlo]. apply Z.pow_le_mono_r; lia. }
  assert (shr_m r1 ≤ m2 ≤ shr_m r1 + 1) as Hm2 by apply round_nearest_even_bound.
  clearbody m2. clear H1 H2.
  assert (-1074 ≤ e1) as He1' by lia. clear He1.
  set (n2 := fexp64 (Zdigits2 m2 + e1) - e1).
  destruct (decide (m2 = 2 ^ 53)) as [->|Hne].
  - change (Zdigits2 (2 ^ 53)) with 54 in n2. assert (n2 = 1) as -> by (unfold n2; rewrite fexp64_max; lia).
    change (2 ^ 53) with (2 ^ 52 * 2 ^ 1). cbn [shr_record_of_loc]. rewrite shr_exact by done. cbn [shr_m].
    change (2 ^ 52) with (Z.pos 4503599627370496). 
    destruct (Z.leb_spec (e1 + 1) (1024 - 53)); [|done]. cbn [valid_binary]. unfold bounded, canonical_mantissa.
    change (Z.pos (digits2_pos 4503599627370496)) with 53. rewrite fexp64_max.
    apply andb_true_iff. split; [apply Z.eqb_eq|apply Z.leb_le]; lia.
  - assert (Zdigits2 m2 ≤ 53) as Hd2 by (apply Zdigits2_le; lia).
    assert (n2 = 0 ∧ fexp64 (Zdigits2 m2 + e1) = e1) as [-> Hfe].
    { unfold n2. rewrite fexp64_max. destruct (decide (e1 = -1074)) as [->|Hne1]; [lia|].
      pose proof (Zdigits2_ge m2 52). lia. }
    cbn [shr shr_record_of_loc shr_m]. destruct m2 as [|p|p]; [done| |done].
    destruct (Z.leb_spec e1 (1024 - 53)); [|done]. cbn [valid_binary]. unfold bounded, canonical_mantissa.
    cbn [Zdigits2] in Hfe. rewrite Hfe. apply andb_true_iff. split; [apply Z.eqb_eq|apply Z.leb_le]; lia.
Qed.

Lemma float_div_valid (x y : spec_float) : valid_binary 53 1024 (float_div x y) = true.
Proof.
  unfold float_div, SFdiv. destruct x as [s1|s1| |s1 m1 e1], y as [s2|s2| |s2 m2 e2]; try done.
  unfold SFdiv_core_binary. cbn [Zdigits2].
  set (d1 := Z.pos (digits2_pos m1)). set (d2 := Z.pos (digits2_pos m2)).
  set (e' := Z.min _ _).
  assert (e' = Z.min (Z.max (d1 + e1 - (d2 + e2) - 53) (-1074)) (e1 - e2)) as He' by done. clearbody e'.
  set (s := e1 - e2 - e'). assert (s = e1 - e2 - e') as Hse by done. clearbody s.
  assert (0 ≤ s) as Hs by lia.
  assert ((match s with 0 => Z.pos m1 | Z.pos _ => Z.shiftl (Z.pos m1) s | Z.neg _ => 0 end)
    = Z.pos m1 * 2 ^ s) as ->.
  { destruct s as [|p|p] eqn:Hsp; [lia| |lia]. by rewrite Z.shiftl_mul_pow2. }
  pose proof (Z_div_mod (Z.pos m1 * 2 ^ s) (Z.pos m2) ltac:(done)) as Hdiv.
  destruct (Z.div_eucl (Z.pos m1 * 2 ^ s) (Z.pos m2)) as [q r]. destruct Hdiv as [Hq Hr].
  assert (0 < 2 ^ s) as H2s by (by apply Z.pow_pos_nonneg).
  assert (0 ≤ q) as Hq0 by nia.
  apply binary_round_aux_valid; [done|].
  assert (d1 + s - d2 ≤ Zdigits2 q) as Hdq.
  { destruct (Z.le_gt_cases (d1 + s - d2) 0) as [|Hpos]; [pose proof (Zdigits2_nonneg q); lia|].
    destruct (Zdigits2_spec (Z.pos m1) d1) as (Hd1 & Hlo & _); [done..|].
    destruct (Zdigits2_spec (Z.pos m2) d2) as (Hd2 & _ & Hhi); [done..|].
    replace (d1 + s - d2) with (d1 + s - d2 - 1 + 1) by lia. apply Zdigits2_ge; [|lia].
    assert (2 ^ (d1 + s - d2 - 1) * 2 ^ d2 = 2 ^ (d1 - 1) * 2 ^ s) as Hp.
    { rewrite <- !Z.pow_add_r by lia. f_equal. lia. }
    assert (2 ^ (d1 - 1) * 2 ^ s ≤ Z.pos m1 * 2 ^ s) by (apply Z.mul_le_mono_nonneg_r; lia).
    assert (0 < 2 ^ (d1 + s - d2 - 1)) by (apply Z.pow_pos_nonneg; lia).
    nia. }
  rewrite fexp64_max. lia.
Qed.

(** ** Exact results *)

Lemma binary_round_aux_exact (n k : Z) :
  0 < n < 2 ^ 53 → 53 - Zdigits2 n ≤ k →
  binary_round_aux 53 1024 false (n * 2 ^ k) (- k) loc_Exact = exact_float n.
Proof.
  intros Hn Hk. pose proof (Zdigits2_le n 53 ltac:(lia) ltac:(lia)) as Hd.
  destruct (Zdigits2_spec n (Zdigits2 n)) as (Hd0 & Hlo & Hhi); [lia|done|].
  unfold exact_float. set (d := Zdigits2 n) in *.
  assert (0 < 2 ^ (53 - d)) as Hpos by (apply Z.pow_pos_nonneg; lia).
  assert (2 ^ 52 ≤ n * 2 ^ (53 - d) < 2 ^ 53) as Hm.
  { replace (2 ^ 52) with (2 ^ (d - 1) * 2 ^ (53 - d)) by (rewrite <- Z.pow_add_r by lia; f_equal; lia).
    replace (2 ^ 53) with (2 ^ d * 2 ^ (53 - d)) by (rewrite <- Z.pow_add_r by lia; f_equal; lia).
    split; [apply Z.mul_le_mono_nonneg_r; lia|apply Z.mul_lt_mono_pos_r; lia]. }
  assert (Zdigits2 (n * 2 ^ k) = d + k) as Hdk.
  { apply Zdigits2_unique; [|lia]. assert (0 < 2 ^ k) by (apply Z.pow_pos_nonneg; lia).
    replace (2 ^ (d + k - 1)) with (2 ^ (d - 1) * 2 ^ k) by (rewrite <- Z.pow_add_r by lia; f_equal; lia).
    rewrite Z.pow_add_r by lia. split; [apply Z.mul_le_mono_nonneg_r; lia|apply Z.mul_lt_mono_pos_r; lia]. }
  unfold binary_round_aux, shr_fexp. rewrite Hdk. cbn [shr_record_of_loc].
  assert (fexp64 (d + k + - k) - - k = k - (53 - d)) as -> by (rewrite fexp64_max; lia).
  replace (n * 2 ^ k) with (n * 2 ^ (53 - d) * 2 ^ (k - (53 - d)))
    by (rewrite <- Z.mul_assoc, <- Z.pow_add_r by lia; do 2 f_equal; lia).
  rewrite shr_exact by lia. cbn [shr_m loc_of_shr_record round_nearest_even].
  rewrite (Zdigits2_unique _ 53) by (done || lia).
  assert (fexp64 (53 + (- k + (k - (53 - d)))) - (- k + (k - (53 - d))) = 0) as -> by (rewrite fexp64_max; lia).
  cbn [shr shr_m]. destruct (n * 2 ^ (53 - d)) as [|m|m]; [lia| |lia].
  destruct (Z.leb_spec (- k + (k - (53 - d))) (1024 - 53)); [|lia]. f_equal. lia.
Qed.

Lemma iter_xO (p q : positive) : Z.pos (Pos.iter xO p q) = Z.pos p * 2 ^ Z.pos q.
Proof.
  revert q. refine (Pos.peano_ind _ _ _); [by rewrite Z.mul_comm|]. intros q IH.
  rewrite Pos.iter_succ, Pos2Z.inj_xO, IH, Pos2Z.inj_succ, Z.pow_succ_r by done. ring.
Qed.

Lemma float_of_int_exact (n : Z) : 0 < n < 2 ^ 53 → float_of_int n = exact_float n.
Proof.
  intros Hn. pose proof (Zdigits2_le n 53 ltac:(lia) ltac:(lia)) as Hd.
  rewrite <- (binary_round_aux_exact n (53 - Zdigits2 n)) by lia.
  unfold float_of_int, binary_normalize. destruct n as [|p|p]; [lia| |lia]. unfold binary_round.
  cbn [Zdigits2] in *. rewrite Z.add_0_r, fexp64_max. set (d := Z.pos (digits2_pos p)) in *.
  replace (Z.max (d - 53) (-1074)) with (- (53 - d)) by lia. unfold shl_align. rewrite Z.sub_0_r.
  destruct (53 - d) as [|q|q] eqn:Hq; [by rewrite Z.mul_1_r| |lia]. change (- Z.pos q) with (Z.neg q). cbv iota beta. by rewrite iter_xO.
Qed.

(** A product of positive integers is exact while it has 53 bits. *)
Lemma float_mul_exact (a b : Z) :
  0 < a → 0 < b → a * b < 2 ^ 53 → float_mul (float_of_int a) (float_of_int b) = float_of_int (a * b).
Proof.
  intros Ha Hb Hab. assert (a < 2 ^ 53 ∧ b < 2 ^ 53) as [Ha' Hb'] by nia.
  rewrite !float_of_int_exact by nia. 
  pose proof (Zdigits2_le a 53 ltac:(lia) ltac:(lia)). pose proof (Zdigits2_le b 53 ltac:(lia) ltac:(lia)).
  pose proof (Zdigits2_le (a * b) 53 ltac:(nia) ltac:(lia)) as Hdab.
  rewrite <- (binary_round_aux_exact (a * b) (53 - Zdigits2 a + (53 - Zdigits2 b))).
  2: nia.
  - unfold exact_float. set (da := Zdigits2 a) in *. set (db := Zdigits2 b) in *.
    assert (0 < a * 2 ^ (53 - da)) as H1 by (apply Z.mul_pos_pos; [done|apply Z.pow_pos_nonneg; lia]).
    assert (0 < b * 2 ^ (53 - db)) as H2 by (apply Z.mul_pos_pos; [done|apply Z.pow_pos_nonneg; lia]).
    rewrite Z.pow_add_r by lia.
    replace (a * b * (2 ^ (53 - da) * 2 ^ (53 - db))) with (a * 2 ^ (53 - da) * (b * 2 ^ (53 - db))) by ring.
    destruct (a * 2 ^ (53 - da)) as [|ma|ma], (b * 2 ^ (53 - db)) as [|mb|mb]; try lia.
    unfold float_mul. cbn [SFmul xorb]. f_equal. lia.
  - destruct (Zdigits2_spec a (Zdigits2 a)) as (Hda & Hla & _); [done..|].
    destruct (Zdigits2_spec b (Zdigits2 b)) as (Hdb & Hlb & _); [done..|].
    assert (Zdigits2 a + Zdigits2 b - 2 + 1 ≤ Zdigits2 (a * b)); [|lia].
    apply Zdigits2_ge; [|lia].
    replace (Zdigits2 a + Zdigits2 b - 2) with (Zdigits2 a - 1 + (Zdigits2 b - 1)) by lia.
    rewrite Z.pow_add_r by lia. apply Z.mul_le_mono_nonneg; [by apply Z.pow_nonneg|done|by apply Z.pow_nonneg|done].
Qed.

Lemma uint64_trunc_int (n : Z) : 0 ≤ n < 2 ^ 53 → uint64_trunc (float_of_int n) = Z.to_N n.
Proof.
  intros Hn. destruct (decide (n = 0)) as [->|Hne]; [done|]. rewrite float_of_int_exact by lia.
  pose proof (Zdigits2_le n 53 ltac:(lia) ltac:(lia)). destruct (Zdigits2_spec n (Zdigits2 n)) as (Hd & _); [lia|done|].
  unfold exact_float. set (d := Zdigits2 n) in *.
  assert (0 < 2 ^ (53 - d)) as H2 by (apply Z.pow_pos_nonneg; lia).
  assert (0 < n * 2 ^ (53 - d)) as Hp by nia.
  destruct (n * 2 ^ (53 - d)) as [|m|m] eqn:Hm; [lia| |lia]. cbn [uint64_trunc].
  destruct (Z.leb_spec 0 (d - 53)) as [H0|H0].
  - assert (d = 53) as Hd53 by lia. rewrite Hd53 in *. rewrite <- Hm. f_equal. simpl. lia.
  - rewrite <- Hm. replace (- (d - 53)) with (53 - d) by lia. by rewrite Z.div_mul by lia.
Qed.

(** ** Magnitudes *)

(** A positive number of [lo] to [hi] bits before the point. *)
Definition between (lo hi : Z) (x : spec_float) : Prop :=
  ∃ m e, x = S754_finite false m e ∧ lo ≤ Zdigits2 (Z.pos m) + e ≤ hi.

Lemma between_weaken (lo hi lo' hi' : Z) (x : spec_float) :
  between lo hi x → lo' ≤ lo → hi ≤ hi' → between lo' hi' x.
Proof. intros (m & e & -> & H) ??. exists m, e. split; [done|lia]. Qed.

Lemma Zdigits2_shift (m k : Z) : 0 < m → 0 ≤ k → Zdigits2 (m * 2 ^ k) = Zdigits2 m + k.
Proof.
  intros Hm Hk. destruct (Zdigits2_spec m (Zdigits2 m)) as (Hd & Hlo & Hhi); [done..|].
  assert (0 < 2 ^ k) by (apply Z.pow_pos_nonneg; lia). apply Zdigits2_unique; [|lia].
  replace (Zdigits2 m + k - 1) with (Zdigits2 m - 1 + k) by lia. rewrite !Z.pow_add_r by lia.
  split; [apply Z.mul_le_mono_nonneg_r; lia|apply Z.mul_lt_mono_pos_r; lia].
Qed.

(** Rounding a number far from the ends of the range adds at most one bit. *)
Lemma binary_round_aux_between (m e : Z) (l : location) :
  let d := Zdigits2 m + e in
  0 < m → e ≤ fexp64 d → -1000 ≤ d ≤ 970 → between d (d + 1) (binary_round_aux 53 1024 false m e l).
Proof.
  intros d Hm He Hd. rewrite fexp64_max in He. unfold binary_round_aux, shr_fexp. fold d. rewrite fexp64_max.
  replace (Z.max (d - 53) (-1074)) with (d - 53) in * by lia.
  destruct (shr_spec (shr_record_of_loc m l) e (d - 53 - e)) as [H1 H2]; [by rewrite shr_record_of_loc_m; lia|lia|].
  rewrite shr_record_of_loc_m in H1.
  destruct (shr (shr_record_of_loc m l) e (d - 53 - e)) as [r1 e1]. cbn [fst snd] in H1, H2.
  pose proof (round_nearest_even_bound (shr_m r1) (loc_of_shr_record r1)) as Hm2. revert Hm2.
  generalize (round_nearest_even (shr_m r1) (loc_of_shr_record r1)). intros m2 Hm2.
  assert (2 ^ 52 ≤ shr_m r1 < 2 ^ 53) as Hr1.
  { rewrite H1. destruct (Zdigits2_spec m (Zdigits2 m)) as (Hdm & Hlo & Hhi); [lia|done|].
    assert (0 < 2 ^ (d - 53 - e)) by (apply Z.pow_pos_nonneg; lia). split.
    - apply Z.div_le_lower_bound; [done|]. rewrite <- Z.pow_add_r by lia.
      replace (d - 53 - e + 52) with (Zdigits2 m - 1) by lia. done.
    - apply Z.div_lt_upper_bound; [done|]. rewrite <- Z.pow_add_r by lia.
      replace (d - 53 - e + 53) with (Zdigits2 m) by lia. done. }
  assert (e1 = d - 53) as -> by lia. clear H1 H2. cbn [shr_record_of_loc].
  destruct (decide (m2 = 2 ^ 53)) as [->|Hne].
  - change (Zdigits2 (2 ^ 53)) with 54. rewrite fexp64_max.
    replace (Z.max (54 + (d - 53) - 53) (-1074) - (d - 53)) with 1 by lia.
    change (2 ^ 53) with (2 ^ 52 * 2 ^ 1). rewrite shr_exact by done. cbn [shr_m].
    change (2 ^ 52) with (Z.pos 4503599627370496). destruct (Z.leb_spec (d - 53 + 1) (1024 - 53)); [|lia].
    eexists _, _. split; [done|]. change (Zdigits2 (Z.pos 4503599627370496)) with 53. lia.
  - rewrite (Zdigits2_unique m2 53) by (done || lia). rewrite fexp64_max.
    replace (Z.max (53 + (d - 53) - 53) (-1074) - (d - 53)) with 0 by lia. cbn [shr shr_m].
    destruct m2 as [|p|p]; [lia| |lia]. destruct (Z.leb_spec (d - 53) (1024 - 53)); [|lia].
    eexists _, _. split; [done|]. rewrite (Zdigits2_unique (Z.pos p) 53) by (done || lia). lia.
Qed.

Lemma shl_align_spec (m : positive) (e e' : Z) :
  let '(mz, ez) := shl_align m e e' in
  Z.pos mz = Z.pos m * 2 ^ (e - ez) ∧ ez = Z.min e e'.
Proof.
  unfold shl_align. destruct (e' - e) as [|q|q] eqn:Hq.
  1, 2: rewrite Z.sub_diag, Z.mul_1_r; split; [done|lia].
  rewrite iter_xO. split; [do 2 f_equal; lia|lia].
Qed.

Lemma binary_round_between (p : positive) (e : Z) :
  let d := Zdigits2 (Z.pos p) + e in
  -1000 ≤ d ≤ 970 → between d (d + 1) (binary_round 53 1024 false p e).
Proof.
  intros d Hd. unfold binary_round. change (Z.pos (digits2_pos p) + e) with d.
  pose proof (shl_align_spec p e (fexp64 d)) as Hs. destruct (shl_align p e (fexp64 d)) as [mz ez].
  destruct Hs as [Hmz Hez].
  assert (Zdigits2 (Z.pos mz) + ez = d) as Hdz by (rewrite Hmz, Zdigits2_shift by lia; lia).
  rewrite <- Hdz. apply binary_round_aux_between; rewrite ?Hdz; lia.
Qed.

Lemma float_of_int_between (n : Z) :
  0 < n → Zdigits2 n ≤ 970 → between (Zdigits2 n) (Zdigits2 n + 1) (float_of_int n).
Proof.
  intros Hn Hd. destruct n as [|p|p]; [lia| |lia]. unfold float_of_int, binary_normalize.
  pose proof (Zdigits2_nonneg (Z.pos p)).
  eapply between_weaken; [apply (binary_round_between p 0)|..]; lia.
Qed.

Lemma float_div_between (x y : spec_float) (a b c d : Z) :
  between a b x → between c d y → -1000 ≤ a - d → b - c ≤ 900 → between (a - d) (b - c + 2) (float_div x y).
Proof.
  intros (m1 & e1 & -> & Hx) (m2 & e2 & -> & Hy) Hlo Hhi. unfold float_div, SFdiv, SFdiv_core_binary. cbn [xorb].
  cbn [Zdigits2] in *. set (d1 := Z.pos (digits2_pos m1)) in *. set (d2 := Z.pos (digits2_pos m2)) in *.
  rewrite fexp64_max. set (e' := Z.min _ _). set (s := e1 - e2 - e').
  assert (0 ≤ s) as Hs by lia.
  assert ((match s with 0 => Z.pos m1 | Z.pos _ => Z.shiftl (Z.pos m1) s | Z.neg _ => 0 end) = Z.pos m1 * 2 ^ s) as ->.
  { destruct s as [|p|p] eqn:Hsp; [lia| |lia]. by rewrite Z.shiftl_mul_pow2. }
  pose proof (Z_div_mod (Z.pos m1 * 2 ^ s) (Z.pos m2) ltac:(done)) as Hdiv.
  destruct (Z.div_eucl (Z.pos m1 * 2 ^ s) (Z.pos m2)) as [q r]. destruct Hdiv as [Hq Hr].
  assert (Zdigits2 (Z.pos m1 * 2 ^ s) = d1 + s) as Hd1 by (by apply Zdigits2_shift).
  assert (0 < Z.pos m1 * 2 ^ s) as Hpos by (apply Z.mul_pos_pos; [done|by apply Z.pow_pos_nonneg]).
  destruct (Zdigits2_spec (Z.pos m1 * 2 ^ s) (d1 + s)) as (_ & Hl1 & Hu1); [done..|].
  destruct (Zdigits2_spec (Z.pos m2) d2) as (Hd2 & Hl2 & Hu2); [done..|].
  assert (53 ≤ d1 + s - d2) as Hbig by lia.
  assert (2 ^ (d1 + s - d2 - 1) ≤ q < 2 ^ (d1 + s - d2 + 1)) as Hqb.
  { assert (2 ^ (d1 + s - 1) = 2 ^ (d1 + s - d2 - 1) * 2 ^ d2) as E1 by (rewrite <- Z.pow_add_r by lia; f_equal; lia).
    assert (2 ^ (d1 + s) = 2 ^ (d1 + s - d2 + 1) * 2 ^ (d2 - 1)) as E2 by (rewrite <- Z.pow_add_r by lia; f_equal; lia).
    assert (0 < 2 ^ (d1 + s - d2 - 1)) by (apply Z.pow_pos_nonneg; lia).
    assert (0 < 2 ^ (d1 + s - d2 + 1)) by (apply Z.pow_pos_nonneg; lia).
    revert Hl1 Hu1 Hl2 Hu2 Hq Hr E1 E2. clear -H H0. generalize (Z.pos m2), (Z.pos m1 * 2 ^ s). intros M2 A ????????. nia. }
  assert (d1 + s - d2 ≤ Zdigits2 q ≤ d1 + s - d2 + 1) as Hdq.
  { split.
    - pose proof (Zdigits2_ge q (d1 + s - d2 - 1)). lia.
    - apply Zdigits2_le; [|lia]. split; [|lia]. assert (0 < 2 ^ (d1 + s - d2 - 1)) by (apply Z.pow_pos_nonneg; lia). lia. }
  assert (0 < q) as Hq0.
  { assert (0 < 2 ^ (d1 + s - d2 - 1)) by (apply Z.pow_pos_nonneg; lia). lia. }
  clear Hqb. eapply between_weaken; [apply binary_round_aux_between; [done|rewrite fexp64_max; lia|lia]|lia|lia].
Qed.

Lemma float_add_between (x y : spec_float) (a b c d : Z) :
  between a b x → between c d y → -1000 ≤ a → b ≤ 900 → -1000 ≤ c → d ≤ 900 →
  between a (Z.max b d + 2) (float_add x y).
Proof.
  intros (m1 & e1 & -> & Hx) (m2 & e2 & -> & Hy) Ha Hb Hc Hd. unfold float_add. cbn [SFadd cond_Zopp].
  set (ez := Z.min e1 e2).
  pose proof (shl_align_spec m1 e1 ez) as H1. destruct (shl_align m1 e1 ez) as [p1 z1]. destruct H1 as [H1 Hz1].
  pose proof (shl_align_spec m2 e2 ez) as H2. destruct (shl_align m2 e2 ez) as [p2 z2]. destruct H2 as [H2 Hz2].
  cbn [fst]. assert (z1 = ez ∧ z2 = ez) as [-> ->] by lia. clear Hz1 Hz2.
  assert (Zdigits2 (Z.pos p1) = Zdigits2 (Z.pos m1) + (e1 - ez)) as Hd1 by (rewrite H1; apply Zdigits2_shift; lia).
  assert (Zdigits2 (Z.pos p2) = Zdigits2 (Z.pos m2) + (e2 - ez)) as Hd2 by (rewrite H2; apply Zdigits2_shift; lia).
  change (Z.pos p1 + Z.pos p2) with (Z.pos (p1 + p2)). cbn [binary_normalize].
  destruct (Zdigits2_spec (Z.pos p1) _ eq_refl eq_refl) as (Hp1 & Hl1 & Hu1).
  destruct (Zdigits2_spec (Z.pos p2) _ eq_refl eq_refl) as (Hp2 & Hl2 & Hu2).
  set (D1 := Zdigits2 (Z.pos p1)) in *. set (D2 := Zdigits2 (Z.pos p2)) in *.
  assert (D1 ≤ Zdigits2 (Z.pos (p1 + p2)) ≤ Z.max D1 D2 + 1) as Hsum.
  { split.
    - pose proof (Zdigits2_ge (Z.pos (p1 + p2)) (D1 - 1)). lia.
    - apply Zdigits2_le; [|lia]. split; [lia|]. rewrite Z.pow_add_r by lia.
      assert (2 ^ D1 ≤ 2 ^ Z.max D1 D2) by (apply Z.pow_le_mono_r; lia).
      assert (2 ^ D2 ≤ 2 ^ Z.max D1 D2) by (apply Z.pow_le_mono_r; lia). lia. }
  clear Hl1 Hu1 Hl2 Hu2.
  eapply between_weaken; [apply binary_round_between; lia|lia|lia].
Qed.

(** ** Faithful rounding *)

Lemma shr_nonpos (r : shr_record) (e n : Z) : n ≤ 0 → shr r e n = (r, e).
Proof. by destruct n. Qed.

(** [m2 * 2^e1] as a float, for at most 53 bits or [2^53]. *)
Definition float_of_parts (m2 e1 : Z) : spec_float :=
  if decide (m2 = 2 ^ 53) then S754_finite false 4503599627370496 (e1 + 1)
  else match m2 with Z.pos p => S754_finite false p e1 | _ => S754_zero false end.

(** A number below [2^53] is rounded to one of its two neighbours in the format, and
    to itself when it is in the format. *)
Lemma binary_round_aux_faithful (m e : Z) :
  let d := Zdigits2 m + e in
  let e1 := fexp64 d in
  let q := m / 2 ^ (e1 - e) in
  0 < m → e ≤ e1 → d ≤ 53 →
  ∃ m2, binary_round_aux 53 1024 false m e loc_Exact = float_of_parts m2 e1 ∧
    q ≤ m2 ≤ q + 1 ∧ 0 ≤ m2 ≤ 2 ^ 53 ∧ (m = q * 2 ^ (e1 - e) → m2 = q).
Proof.
  intros d e1 q Hm He Hd. unfold binary_round_aux, shr_fexp. fold d e1. cbn [shr_record_of_loc].
  assert (0 < 2 ^ (e1 - e)) as Hpos by (apply Z.pow_pos_nonneg; lia).
  destruct (shr_spec (Build_shr_record m false false) e (e1 - e)) as [H1 H2]; [simpl; lia|lia|].
  cbn [shr_m] in H1. fold q in H1.
  assert (m = q * 2 ^ (e1 - e) → round_nearest_even (shr_m (shr (Build_shr_record m false false) e (e1 - e)).1)
      (loc_of_shr_record (shr (Build_shr_record m false false) e (e1 - e)).1) = q) as Hexact.
  { intros Heq. rewrite Heq, shr_exact by lia. done. }
  destruct (shr (Build_shr_record m false false) e (e1 - e)) as [r1 e1']. cbn [fst snd] in *.
  assert (e1' = e1) as -> by lia.
  pose proof (round_nearest_even_bound (shr_m r1) (loc_of_shr_record r1)) as Hm2.
  set (m2 := round_nearest_even (shr_m r1) (loc_of_shr_record r1)) in *. clearbody m2. rewrite H1 in Hm2.
  assert (e1 = Z.max (d - 53) (-1074)) as He1 by done.
  assert (0 ≤ q < 2 ^ 53) as Hq.
  { split; [apply Z.div_pos; lia|]. apply Z.div_lt_upper_bound; [done|].
    destruct (Zdigits2_spec m (Zdigits2 m)) as (Hdm & _ & Hhi); [lia|done|].
    eapply Z.lt_le_trans; [exact Hhi|]. rewrite <- Z.pow_add_r by lia. apply Z.pow_le_mono_r; lia. }
  exists m2. split; [|split; [lia|split; [lia|done]]]. unfold float_of_parts. rewrite fexp64_max.
  destruct (decide (m2 = 2 ^ 53)) as [->|Hne].
  - change (Zdigits2 (2 ^ 53)) with 54. replace (Z.max (54 + e1 - 53) (-1074) - e1) with 1 by lia.
    change (2 ^ 53) with (2 ^ 52 * 2 ^ 1). rewrite shr_exact by done. cbn [shr_m].
    change (2 ^ 52) with (Z.pos 4503599627370496). by destruct (Z.leb_spec (e1 + 1) (1024 - 53)); [|lia].
  - rewrite shr_nonpos.
    + cbn [shr_m]. destruct m2 as [|p|p]; [done| |lia]. by destruct (Z.leb_spec e1 (1024 - 53)); [|lia].
    + pose proof (Zdigits2_le m2 53 ltac:(lia) ltac:(lia)). lia.
Qed.
