(* ===== verification/GoNumber.v ===== *)
(** How package [flag] reads numbers: [strconv.ParseInt] with base 0 and
    [time.ParseDuration], and that they read what [%d] and [Duration.String] print. *)

From Stdlib Require Import SpecFloat.
From S2P Require Import Prelude GoStrings GoFmt GoTime FloatArith.

Local Open Scope string_scope.
Local Open Scope N_scope.

(** ** strconv.ParseInt(s, 0, 64) *)

Inductive num_error := ErrSyntax | ErrRange.

(** [c | 0x20] *)
Definition lower (a : ascii) : ascii := ascii_of_N (N.lor (N_of_ascii a) 32).

(** The value of a digit in a base up to 36. *)
Definition base_digit (a : ascii) : option N :=
  let b := N_of_ascii a in
  let l := N_of_ascii (lower a) in
  if (48 <=? b) && (b <=? 57) then Some (b - 48)
  else if (97 <=? l) && (l <=? 122) then Some (l - 97 + 10)
  else None.

(** Base and digits: a prefix [0b], [0o] or [0x], or a leading zero. *)
Definition split_base (s : string) : N * string :=
  match s with
  | String "0" (String c (String d r)) =>
      if Ascii.eqb (lower c) "b" then (2, String d r)
      else if Ascii.eqb (lower c) "o" then (8, String d r)
      else if Ascii.eqb (lower c) "x" then (16, String d r)
      else (8, String c (String d r))
  | String "0" r => (8, r)
  | _ => (10, s)
  end.

(** The loop over the digits; [true] says an underscore was seen. *)
Fixpoint base_digits (base n : N) (u : bool) (s : string) : num_error + N * bool :=
  match s with
  | EmptyString => inr (n, u)
  | String a r =>
      if Ascii.eqb a "_" then base_digits base n true r
      else match base_digit a with
           | None => inl ErrSyntax
           | Some d =>
               if base <=? d then inl ErrSyntax
               else if max_uint64 / base + 1 <=? n then inl ErrRange
               else if max_uint64 <? n * base + d then inl ErrRange
               else base_digits base (n * base + d) u r
           end
  end.

(** Underscores only between digits and after the prefix: [saw] is what stands before. *)
Inductive seen := SawBegin | SawDigit | SawUnderscore | SawOther.
Fixpoint underscore_go (hex : bool) (saw : seen) (s : string) : bool :=
  match s with
  | EmptyString => match saw with SawUnderscore => false | _ => true end
  | String a r =>
      let l := N_of_ascii (lower a) in
      if bool_decide (is_Some (digit_val a)) || (hex && (97 <=? l) && (l <=? 102))
      then underscore_go hex SawDigit r
      else if Ascii.eqb a "_" then
        match saw with SawDigit => underscore_go hex SawUnderscore r | _ => false end
      else match saw with SawUnderscore => false | _ => underscore_go hex SawOther r end
  end.
Definition underscoreOK (s : string) : bool :=
  match s with
  | String "0" (String c r) =>
      if existsb (Ascii.eqb (lower c)) ["b"; "o"; "x"]%char
      then underscore_go (Ascii.eqb (lower c) "x") SawDigit r
      else underscore_go false SawBegin s
  | _ => underscore_go false SawBegin s
  end.

Definition ParseUint0 (s : string) : num_error + N :=
  match s with
  | EmptyString => inl ErrSyntax
  | _ =>
      let '(base, ds) := split_base s in
      match base_digits base 0 false ds with
      | inl e => inl e
      | inr (n, u) => if u && negb (underscoreOK s) then inl ErrSyntax else inr n
      end
  end.

Definition ParseInt0 (s : string) : num_error + Z :=
  match s with
  | EmptyString => inl ErrSyntax
  | _ =>
      let '(neg, ds) := split_sign s in
      match ParseUint0 ds with
      | inl e => inl e
      | inr n =>
          if neg then if 2 ^ 63 <? n then inl ErrRange else inr (- Z.of_N n)%Z
          else if 2 ^ 63 <=? n then inl ErrRange else inr (Z.of_N n)
      end
  end.

Example ParseInt0_examples :
  ParseInt0 "0x1F" = inr 31%Z ∧ ParseInt0 "-1_000" = inr (-1000)%Z ∧ ParseInt0 "010" = inr 8%Z ∧
  ParseInt0 "1__0" = inl ErrSyntax ∧ ParseInt0 "9223372036854775808" = inl ErrRange ∧
  ParseInt0 "-9223372036854775808" = inr (-9223372036854775808)%Z ∧ ParseInt0 "+" = inl ErrSyntax.
Proof. vm_compute. done. Qed.

(** ** time.ParseDuration *)

Definition micro_sign : string := String "194" (String "181" "").
Definition greek_mu : string := String "206" (String "188" "").

Definition unitMap (u : string) : option N :=
  if String.eqb u "ns" then Some 1
  else if String.eqb u "us" || String.eqb u (micro_sign +:+ "s") || String.eqb u (greek_mu +:+ "s") then Some 1000
  else if String.eqb u "ms" then Some 1000000
  else if String.eqb u "s" then Some 1000000000
  else if String.eqb u "m" then Some 60000000000
  else if String.eqb u "h" then Some 3600000000000
  else None.

(** [leadingInt]: [None] is an overflow. *)
Fixpoint leadingInt (x : N) (s : string) : option (N * string) :=
  match s with
  | EmptyString => Some (x, s)
  | String a r =>
      match digit_val a with
      | None => Some (x, s)
      | Some d =>
          if 2 ^ 63 / 10 <? x then None
          else if 2 ^ 63 <? 10 * x + d then None
          else leadingInt (10 * x + d) r
      end
  end.

(** [leadingFraction]: the digits that fit and their scale. *)
Fixpoint leadingFraction (x : N) (scale : spec_float) (overflow : bool) (s : string) : N * spec_float * string :=
  match s with
  | EmptyString => (x, scale, s)
  | String a r =>
      match digit_val a with
      | None => (x, scale, s)
      | Some d =>
          if overflow || ((2 ^ 63 - 1) / 10 <? x) || (2 ^ 63 <? 10 * x + d)
          then leadingFraction x scale true r
          else leadingFraction (10 * x + d) (float_mul scale (float_of_int 10)) false r
      end
  end.

(** The unit goes up to the next point or digit. *)
Fixpoint span_unit (s : string) : string * string :=
  match s with
  | EmptyString => ("", "")
  | String a r =>
      if Ascii.eqb a "." || bool_decide (is_Some (digit_val a)) then ("", s)
      else let '(u, r') := span_unit r in (String a u, r')
  end.

(** The fraction, its scale, the rest, and whether there was a digit. *)
Definition duration_frac (s : string) : N * spec_float * string * bool :=
  match s with
  | String a r =>
      if Ascii.eqb a "." then
        let '(f, scale, r') := leadingFraction 0 (float_of_int 1) false r in
        (f, scale, r', negb (String.length r' =? String.length r)%nat)
      else (0, float_of_int 1, s, false)
  | EmptyString => (0, float_of_int 1, s, false)
  end.

(** One number with its unit, in nanoseconds, and the rest. *)
Definition duration_part (s : string) : option (N * string) :=
  '(v, s1) ← leadingInt 0 s;
  let pre := negb (String.length s1 =? String.length s)%nat in
  let '(f, scale, s2, post) := duration_frac s1 in
  if negb pre && negb post then None
  else
    let '(u, s3) := span_unit s2 in
    unit ← unitMap u;
    if 2 ^ 63 / unit <? v then None
    else
      let v := v * unit in
      if 0 <? f then
        let v := v + uint64_trunc (float_mul (float_of_int (Z.of_N f))
                                     (float_div (float_of_int (Z.of_N unit)) scale)) in
        if 2 ^ 63 <? v then None else Some (v, s3)
      else Some (v, s3).

(** The loop: each part takes a character at least. *)
Fixpoint duration_parts (fuel : nat) (d : N) (s : string) : option N :=
  match s, fuel with
  | EmptyString, _ => Some d
  | _, O => None
  | _, S fuel' =>
      '(v, r) ← duration_part s;
      let d' := u64_add d v in
      if 2 ^ 63 <? d' then None else duration_parts fuel' d' r
  end.

(** [time.ParseDuration(s)]: [None] is an error. *)
Definition ParseDuration (s : string) : option Z :=
  let '(neg, r) := split_sign s in
  if String.eqb r "0" then Some 0%Z
  else if String.eqb r "" then None
  else
    d ← duration_parts (String.length r) 0 r;
    if neg then Some (- Z.of_N d)%Z
    else if 2 ^ 63 - 1 <? d then None else Some (Z.of_N d).

Example ParseDuration_examples :
  ParseDuration "1h15m30.918s" = Some 4530918000000%Z ∧ ParseDuration ".5m" = Some 30000000000%Z ∧
  ParseDuration "-1.5h" = Some (-5400000000000)%Z ∧ ParseDuration "3" = None ∧ ParseDuration "." = None ∧
  ParseDuration ("2" +:+ greek_mu +:+ "s") = Some 2000%Z ∧ ParseDuration "2562048h" = None ∧
  ParseDuration (Duration_String (-9223372036854775808)) = Some (-9223372036854775808)%Z.
Proof. vm_compute. done. Qed.

(** ** Lemmas *)

Lemma digit_val_base (a : ascii) (d : N) :
  digit_val a = Some d → base_digit a = Some d ∧ Ascii.eqb a "_" = false ∧ d < 10.
Proof.
  unfold digit_val, base_digit. destruct ((48 <=? N_of_ascii a) && (N_of_ascii a <=? 57)) eqn:H; [|done].
  intros [= <-]. destr. apply N.leb_le in H, H0. split_and!; [done| |lia].
  destruct (Ascii.eqb_spec a "_") as [->|]; [|done]. vm_compute in H0. done.
Qed.

Lemma base_digits_decimal (ds : string) (acc n : N) (u : bool) :
  parse_digits acc ds = Some n → n ≤ max_uint64 → base_digits 10 acc u ds = inr (n, u).
Proof.
  revert acc. induction ds as [|a ds IH]; intros acc Hp Hn; [by injection Hp as ->|].
  cbn [parse_digits base_digits] in *. destruct (digit_val a) as [d|] eqn:Hd; [|done].
  destruct (digit_val_base a d Hd) as (-> & -> & Hd10). pose proof (parse_digits_grows _ _ _ Hp) as Hg.
  destruct (N.leb_spec 10 d); [lia|]. unfold max_uint64 in *.
  destruct (N.leb_spec (18446744073709551615 / 10 + 1) acc) as [Hc|_].
  { change (18446744073709551615 / 10) with 1844674407370955161 in Hc. lia. }
  destruct (N.ltb_spec 18446744073709551615 (acc * 10 + d)); [lia|].
  replace (acc * 10 + d) with (10 * acc + d) by lia. by apply IH.
Qed.

Lemma ParseUint0_format (n : N) : n ≤ max_uint64 → ParseUint0 (format_uint n) = inr n.
Proof.
  intros Hn. unfold ParseUint0. pose proof (parse_digits_format n) as Hp.
  assert (split_base (format_uint n) = (10, format_uint n) ∨ n = 0) as [Hs| ->]; [| |done].
  { destruct (format_uint_shape n) as [H0|(d & ds & Hs & Hd & _)].
    - right. rewrite H0 in Hp. by injection Hp.
    - left. rewrite Hs. pose proof (N_of_digit d ltac:(lia)) as Hnd.
      unfold split_base. destruct (digit d) as [[] [] [] [] [] [] [] []]; try done.
      change (48 = 48 + d) in Hnd. lia. }
  rewrite Hs, (base_digits_decimal _ _ _ _ Hp Hn). by destruct (format_uint_cons n) as (a & t & ->).
Qed.

Lemma split_sign_digits (n : N) (t : string) :
  split_sign (format_uint n +:+ t) = (false, format_uint n +:+ t).
Proof.
  destruct (format_uint_digit n) as (d & ds & -> & Hd & _). cbn [String.append split_sign].
  by rewrite !digit_eqb.
Qed.

(** What [%d] prints is read back. *)
Lemma ParseInt0_format (z : Z) : (- two63 ≤ z < two63)%Z → ParseInt0 (format_int z) = inr z.
Proof.
  intros Hz. unfold format_int, ParseInt0. unfold two63 in Hz.
  destruct (Z.ltb_spec z 0) as [Hneg|Hpos].
  - cbn [split_sign Ascii.eqb Bool.eqb]. rewrite ParseUint0_format by (unfold max_uint64; lia).
    destruct (N.ltb_spec (2 ^ 63) (Z.to_N (- z))); [lia|]. f_equal. lia.
  - pose proof (split_sign_digits (Z.to_N z) "") as Hs. rewrite string_app_nil_r in Hs.
    destruct (format_uint_cons (Z.to_N z)) as (a & t & Hc). rewrite Hc in *. rewrite Hs, <- Hc.
    rewrite ParseUint0_format by (unfold max_uint64; lia).
    destruct (N.leb_spec (2 ^ 63) (Z.to_N z)); [lia|]. f_equal. lia.
Qed.

(** *** Durations *)

(** The text does not go on with a digit. *)
Definition no_digit (s : string) : Prop :=
  match s with EmptyString => True | String a _ => digit_val a = None end.

Lemma leadingInt_digits (ds t : string) (acc n : N) :
  no_digit t → parse_digits acc ds = Some n → n ≤ 2 ^ 63 → leadingInt acc (ds +:+ t) = Some (n, t).
Proof.
  intros Ht. revert acc. induction ds as [|a ds IH]; intros acc Hp Hn.
  - injection Hp as ->. cbn [String.append]. destruct t as [|a t]; [done|]. cbn [leadingInt]. by rewrite Ht.
  - cbn [parse_digits String.append leadingInt] in *. destruct (digit_val a) as [d|] eqn:Hd; [|done].
    pose proof (parse_digits_grows _ _ _ Hp) as Hg. change (2 ^ 63 / 10) with 922337203685477580.
    destruct (N.ltb_spec 922337203685477580 acc); [lia|].
    destruct (N.ltb_spec (2 ^ 63) (10 * acc + d)); [lia|]. by apply IH.
Qed.

Lemma leadingFraction_digits (ds t : string) (acc n : N) (i : nat) :
  no_digit t → parse_digits acc ds = Some n → n < 10 ^ 15 → (i + String.length ds ≤ 15)%nat →
  leadingFraction acc (float_of_int (10 ^ Z.of_nat i)) false (ds +:+ t)
  = (n, float_of_int (10 ^ Z.of_nat (i + String.length ds)), t).
Proof.
  intros Ht. revert acc i. induction ds as [|a ds IH]; intros acc i Hp Hn Hl.
  - injection Hp as ->. cbn [String.append String.length]. rewrite Nat.add_0_r.
    destruct t as [|a t]; [done|]. cbn [leadingFraction]. by rewrite Ht.
  - cbn [parse_digits String.append leadingFraction String.length] in *.
    destruct (digit_val a) as [d|] eqn:Hd; [|done].
    pose proof (parse_digits_grows _ _ _ Hp) as Hg. change ((2 ^ 63 - 1) / 10) with 922337203685477580.
    destruct (N.ltb_spec 922337203685477580 acc); [lia|].
    destruct (N.ltb_spec (2 ^ 63) (10 * acc + d)); [lia|]. cbn [orb].
    rewrite float_mul_exact; [|apply Z.pow_pos_nonneg; lia|done|].
    + replace (10 ^ Z.of_nat i * 10)%Z with (10 ^ Z.of_nat (S i))%Z by (rewrite Nat2Z.inj_succ, Z.pow_succ_r; lia).
      rewrite IH by (done || lia). do 4 f_equal. lia.
    + assert (10 ^ Z.of_nat i ≤ 10 ^ 14)%Z by (apply Z.pow_le_mono_r; lia). lia.
Qed.

(** The characters of a unit. *)
Fixpoint unit_chars (u : string) : bool :=
  match u with
  | EmptyString => true
  | String a r => negb (Ascii.eqb a ".") && negb (bool_decide (is_Some (digit_val a))) && unit_chars r
  end.

Definition unit_end (s : string) : Prop := s = "" ∨ ∃ d t, s = String (digit d) t ∧ d < 10.

Lemma span_unit_chars (u t : string) : unit_chars u = true → unit_end t → span_unit (u +:+ t) = (u, t).
Proof.
  intros Hu Ht. induction u as [|a u IH]; cbn [String.append span_unit].
  - destruct Ht as [->|(d & r & -> & Hd)]; [done|]. cbn [span_unit].
    rewrite (bool_decide_eq_true_2 (is_Some (digit_val (digit d)))) by (rewrite digit_val_digit by done; by eexists). by rewrite orb_true_r.
  - cbn [unit_chars] in Hu. destr. apply negb_true_iff in H1, H. rewrite H1, H. cbn [orb]. by rewrite IH.
Qed.

(** The scales of a fraction of the units with up to nine digits. *)
Lemma unit_scale (k q : nat) :
  (q ≤ k ≤ 9)%nat →
  float_div (float_of_int (10 ^ Z.of_nat k)) (float_of_int (10 ^ Z.of_nat q)) = float_of_int (10 ^ Z.of_nat (k - q)).
Proof.
  intros Hk. assert (∀ k q, k < 10 → q < 10 → q ≤ k →
    float_div (float_of_int (10 ^ Z.of_nat k)) (float_of_int (10 ^ Z.of_nat q)) = float_of_int (10 ^ Z.of_nat (k - q)))%nat
    as Hall; [|apply Hall; lia].
  clear. intros k q Hk Hq Hle.
  do 10 (destruct k as [|k]; [do 10 (destruct q as [|q]; [first [vm_compute; reflexivity|exfalso; lia]|]); exfalso; lia|]).
  exfalso; lia.
Qed.

Lemma duration_part_text (v f unit : N) (k : nat) (u t : string) :
  f < 10 ^ N.of_nat k → (k ≤ 9)%nat → (k = 0%nat ∨ unit = 10 ^ N.of_nat k) →
  unitMap u = Some unit → unit_chars u = true → unit_end t → v * unit + f ≤ 2 ^ 63 →
  duration_part (format_uint v +:+ frac k f +:+ u +:+ t) = Some (v * unit + f, t).
Proof.
  intros Hf Hk Hunit Hu Hchars Ht Hmax.
  assert (0 < unit) as Hunit0.
  { unfold unitMap in Hu. repeat (case_match; [simplify_eq; lia|]). done. }
  assert (∃ a r, u +:+ t = String a r ∧ a ≠ "."%char ∧ digit_val a = None) as (a & r & Hur & Hdot & Hnd).
  { destruct u as [|a u]; [by vm_compute in Hu|]. cbn [unit_chars] in Hchars. apply andb_prop in Hchars as [[H1 H2]%andb_prop _].
    exists a, (u +:+ t). apply negb_true_iff, Ascii.eqb_neq in H1. apply negb_true_iff, bool_decide_eq_false in H2.
    split_and!; [done|done|]. destruct (digit_val a); [|done]. destruct H2. by eexists. }
  assert (v ≤ 2 ^ 63 / unit) as Hv by (apply N.div_le_lower_bound; nia).
  assert (v ≤ 2 ^ 63) as Hv63 by nia.
  destruct (frac_shape k f Hf) as [[Hf0 ->]|(q & g & -> & Hq & Hg & Hfg)].
  - unfold duration_part. cbn [String.append].
    rewrite (leadingInt_digits _ _ 0 v); [|by rewrite Hur|apply parse_digits_format|done].
    cbn [mbind option_bind].
    assert (duration_frac (u +:+ t) = (0, float_of_int 1, u +:+ t, false)) as ->.
    { rewrite Hur. unfold duration_frac. by apply Ascii.eqb_neq in Hdot as ->. }
    rewrite (span_unit_chars u t), Hu by done. cbn [mbind option_bind].
    assert ((String.length (u +:+ t) =? String.length (format_uint v +:+ u +:+ t))%nat = false) as ->.
    { apply Nat.eqb_neq. rewrite (string_length_app (format_uint v)).
      destruct (format_uint_cons v) as (b & w & ->). simpl. lia. }
    cbn [negb andb]. destruct (N.ltb_spec (2 ^ 63 / unit) v); [lia|]. cbn [N.ltb N.compare].
    do 2 f_equal. lia.
  - rewrite !string_app_assoc, string_app_1. set (ds := format_padded q g) in *.
    pose proof (format_padded_length q g ltac:(lia) Hg) as Hlen. fold ds in Hlen.
    assert (g < 10 ^ 15) as Hg15.
    { eapply N.lt_le_trans; [exact Hg|]. apply N.pow_le_mono_r; lia. }
    unfold duration_part.
    rewrite (leadingInt_digits _ _ 0 v); [|done|apply parse_digits_format|done].
    cbn [mbind option_bind].
    pose proof (leadingFraction_digits ds (u +:+ t) 0 g 0) as Hlf. change (10 ^ Z.of_nat 0)%Z with 1%Z in Hlf.
    cbn [duration_frac]. change (Ascii.eqb "." ".") with true. cbv iota.
    rewrite Hlf; [|by rewrite Hur|apply parse_padded|done|lia]. cbn [Nat.add]. rewrite Hlen.
    assert ((String.length (u +:+ t) =? String.length (ds +:+ u +:+ t))%nat = false) as ->.
    { apply Nat.eqb_neq. rewrite (string_length_app ds). lia. }
    rewrite andb_false_r. rewrite (span_unit_chars u t) by done. rewrite Hu. cbn [mbind option_bind].
    destruct (N.ltb_spec (2 ^ 63 / unit) v); [lia|].
    destruct Hunit as [->| ->]; [lia|].
    destruct (N.ltb_spec 0 g) as [Hg0|Hg0].
    2: { do 2 f_equal. assert (g = 0) as -> by lia. lia. }
    assert (Z.of_N (10 ^ N.of_nat k) = 10 ^ Z.of_nat k)%Z as -> by (rewrite N2Z.inj_pow, nat_N_Z; done).
    rewrite unit_scale by lia.
    assert (Z.of_N f = Z.of_N g * 10 ^ Z.of_nat (k - q))%Z as HfZ.
    { rewrite Hfg, N2Z.inj_mul, N2Z.inj_pow, nat_N_Z. done. }
    assert (Z.of_N f < 10 ^ 9)%Z as Hf9.
    { assert (10 ^ N.of_nat k ≤ 10 ^ 9) by (apply N.pow_le_mono_r; lia). lia. }
    rewrite float_mul_exact, <- HfZ; [|lia|apply Z.pow_pos_nonneg; lia|lia].
    rewrite uint64_trunc_int, N2Z.id by lia. 
    destruct (N.ltb_spec (2 ^ 63) (v * 10 ^ N.of_nat k + f)); [lia|done].
Qed.

Lemma duration_parts_step (fuel : nat) (d v : N) (s r : string) :
  s ≠ "" → duration_part s = Some (v, r) → d + v ≤ 2 ^ 63 →
  duration_parts (S fuel) d s = duration_parts fuel (d + v) r.
Proof.
  intros Hs Hp Hd. destruct s as [|a s]; [done|]. cbn [duration_parts]. rewrite Hp. cbn [mbind option_bind].
  rewrite u64_add_small by (unfold max_uint64; lia). by destruct (N.ltb_spec (2 ^ 63) (d + v)); [lia|].
Qed.

Lemma duration_parts_end (fuel : nat) (d : N) : duration_parts fuel d "" = Some d.
Proof. by destruct fuel. Qed.

Lemma unit_end_format (n : N) (t : string) : unit_end (format_uint n +:+ t).
Proof. right. destruct (format_uint_digit n) as (d & ds & -> & Hd & _). by exists d, (ds +:+ t). Qed.

Lemma one_part (s : string) (u : N) :
  s ≠ "" → duration_part s = Some (u, "") → u ≤ 2 ^ 63 → duration_parts (String.length s) 0 s = Some u.
Proof.
  intros Hs Hp Hu. destruct s as [|a s]; [done|]. cbn [String.length].
  rewrite (duration_parts_step _ 0 u _ ""), duration_parts_end by (done || lia). done.
Qed.

Lemma format_app_ne (n : N) (t : string) : format_uint n +:+ t ≠ "".
Proof. by destruct (format_uint_cons n) as (a & s & ->). Qed.

Lemma duration_parts_text (u : N) : u ≤ 2 ^ 63 → duration_parts (String.length (Duration_abs u)) 0 (Duration_abs u) = Some u.
Proof.
  intros Hu.
  assert (∀ v f k unit s, f < 10 ^ N.of_nat k → (k ≤ 9)%nat → (k = 0%nat ∨ unit = 10 ^ N.of_nat k) →
    unitMap s = Some unit → unit_chars s = true → v * unit + f = u →
    duration_parts (String.length (format_uint v +:+ frac k f +:+ s)) 0 (format_uint v +:+ frac k f +:+ s) = Some u) as Hone.
  { intros v f k unit s Hf Hk Hunit Hm Hc <-. apply one_part; [apply format_app_ne| |done].
    rewrite <- (string_app_nil_r s). apply duration_part_text; auto. by left. }
  unfold Duration_abs. destruct (N.eqb_spec u 0) as [->|Hu0]; [by vm_compute|].
  destruct (N.ltb_spec u 1000).
  { apply (Hone u 0 0%nat 1 "ns"); auto; lia. }
  destruct (N.ltb_spec u 1000000).
  { unfold fmt_frac. rewrite string_app_assoc. apply (Hone (u / 1000) (u mod 1000) 3%nat 1000 "µs"); auto;
      first [by apply N.mod_lt|by right|pose proof (N.div_mod u 1000); lia]. }
  destruct (N.ltb_spec u 1000000000).
  { unfold fmt_frac. rewrite string_app_assoc. apply (Hone (u / 1000000) (u mod 1000000) 6%nat 1000000 "ms"); auto;
      first [by apply N.mod_lt|by right|pose proof (N.div_mod u 1000000); lia]. }
  cbv zeta. set (s := u / 1000000000). set (f := u mod 1000000000).
  assert (u = s * 1000000000 + f ∧ f < 1000000000) as [Hs Hf].
  { unfold s, f. pose proof (N.div_mod u 1000000000). pose proof (N.mod_lt u 1000000000). lia. }
  clearbody s f.
  assert (s = s / 60 * 60 + s mod 60 ∧ s mod 60 < 60) as [Hs60 Hsec].
  { pose proof (N.div_mod s 60). pose proof (N.mod_lt s 60). lia. }
  revert Hs60 Hsec. generalize (s / 60), (s mod 60). intros m sec Hs60 Hsec.
  destruct (N.eqb_spec m 0) as [->|Hm0].
  { apply (Hone sec f 9%nat 1000000000 "s"); auto; lia. }
  assert (m = m / 60 * 60 + m mod 60 ∧ m mod 60 < 60) as [Hm60 Hmin].
  { pose proof (N.div_mod m 60). pose proof (N.mod_lt m 60). lia. }
  revert Hm60 Hmin. generalize (m / 60), (m mod 60). intros h mi Hm60 Hmin.
  set (secs := format_uint sec +:+ frac 9 f +:+ "s").
  assert (∀ fuel d, d + sec * 1000000000 + f ≤ 2 ^ 63 →
    duration_parts (S fuel) d secs = Some (d + (sec * 1000000000 + f))) as Hsecs.
  { intros fuel d Hd. rewrite (duration_parts_step _ _ (sec * 1000000000 + f) _ ""), duration_parts_end; [done| | |lia].
    - apply format_app_ne.
    - unfold secs. rewrite <- (string_app_nil_r "s"). apply duration_part_text; auto;
        first [lia|by right|by left]. }
  assert (∀ fuel d, d + mi * 60000000000 + sec * 1000000000 + f ≤ 2 ^ 63 →
    duration_parts (S (S fuel)) d (format_uint mi +:+ "m" +:+ secs) = Some (d + mi * 60000000000 + (sec * 1000000000 + f))) as Hmins.
  { intros fuel d Hd.
    rewrite (duration_parts_step _ _ (mi * 60000000000) _ secs); [apply Hsecs; lia|apply format_app_ne| |lia].
    rewrite <- (N.add_0_r (mi * 60000000000)).
    apply (duration_part_text mi 0 60000000000 0 "m"); auto; first [apply unit_end_format|lia]. }
  assert (∀ n t, ∃ l, String.length (format_uint n +:+ t) = S (l + String.length t)) as Hl.
  { intros n t. destruct (format_uint_cons n) as (a & w & ->). exists (String.length w). simpl. by rewrite string_length_app. }
  assert (∃ l, String.length secs = S l) as [ls Hls]
    by (unfold secs; destruct (Hl sec (frac 9 f +:+ "s")) as [l ->]; by eexists).
  destruct (N.eqb_spec h 0) as [->|Hh0].
  - change ("" +:+ (format_uint mi +:+ "m" +:+ secs)) with (format_uint mi +:+ "m" +:+ secs).
    destruct (Hl mi ("m" +:+ secs)) as [l ->]. rewrite string_length_app, Hls.
    replace (S (l + (String.length "m" + S ls))) with (S (S (l + S ls))) by (simpl; lia).
    rewrite Hmins by lia. f_equal. lia.
  - rewrite string_app_assoc. destruct (Hl h ("h" +:+ format_uint mi +:+ "m" +:+ secs)) as [l ->].
    rewrite string_length_app. destruct (Hl mi ("m" +:+ secs)) as [l2 ->].
    replace (S (l + (String.length "h" + S (l2 + String.length ("m" +:+ secs)))))
      with (S (S (S (l + l2 + S (String.length secs))))) by (simpl; lia).
    rewrite (duration_parts_step _ _ (h * 3600000000000) _ (format_uint mi +:+ "m" +:+ secs));
      [|apply format_app_ne| |lia].
    + rewrite Hmins by lia. f_equal. lia.
    + rewrite <- (N.add_0_r (h * 3600000000000)).
      apply (duration_part_text h 0 3600000000000 0 "h"); auto; first [apply unit_end_format|lia].
Qed.

Lemma Duration_abs_shape (u : N) : Duration_abs u = "0s" ∨ ∃ n a t, Duration_abs u = format_uint n +:+ String a t.
Proof.
  assert (∀ k f s b w, s = String b w → ∃ a t, frac k f +:+ s = String a t) as Hfr.
  { intros k f s b w ->. destruct (frac k f) as [|a t]; [by exists b, w|]. by eexists a, _. }
  unfold Duration_abs. destruct (u =? 0); [by left|right].
  destruct (u <? 1000); [by exists u, "n"%char, "s"|].
  destruct (u <? 1000000).
  { unfold fmt_frac. rewrite string_app_assoc. destruct (Hfr 3%nat (u mod 10 ^ N.of_nat 3) "µs" _ _ eq_refl) as (a & t & ->). eauto. }
  destruct (u <? 1000000000).
  { unfold fmt_frac. rewrite string_app_assoc. destruct (Hfr 6%nat (u mod 10 ^ N.of_nat 6) "ms" _ _ eq_refl) as (a & t & ->). eauto. }
  destruct (Hfr 9%nat (u mod 1000000000) "s" _ _ eq_refl) as (a & t & ->). cbv zeta.
  destruct (_ =? 0); [eauto|]. destruct (_ =? 0); [cbn [String.append]; eauto|].
  rewrite string_app_assoc. eauto.
Qed.

(** What [Duration.String] prints is read back. *)
Lemma ParseDuration_String (d : Z) : (- two63 ≤ d < two63)%Z → ParseDuration (Duration_String d) = Some d.
Proof.
  intros Hd. unfold two63 in Hd. unfold Duration_String.
  set (u := Z.to_N (Z.abs d)). pose proof (duration_parts_text u ltac:(lia)) as Hp.
  assert (split_sign (Duration_abs u) = (false, Duration_abs u) ∧ String.eqb (Duration_abs u) "0" = false ∧ Duration_abs u ≠ "")
    as (Hs & H0 & Hne).
  { destruct (Duration_abs_shape u) as [->|(n & a & t & ->)]; [done|]. split_and!; [apply split_sign_digits| |apply format_app_ne].
    apply String.eqb_neq. destruct (format_uint_cons n) as (b & w & ->). by destruct w. }
  apply String.eqb_neq in Hne as Hne'. unfold ParseDuration. destruct (Z.ltb_spec d 0).
  - cbn [String.append split_sign Ascii.eqb Bool.eqb]. rewrite H0, Hne', Hp. cbn [mbind option_bind]. f_equal. lia.
  - cbn [String.append]. rewrite Hs, H0, Hne', Hp. cbn [mbind option_bind].
    destruct (N.ltb_spec (2 ^ 63 - 1) u); [lia|]. f_equal. lia.
Qed.
