(* ===== verification/GoSort.v ===== *)
(** [sort.SliceStable]: a sort by insertion, with what the package documents of it:
    the result is a permutation, in order, and keeps the order of equal elements. *)

From S2P Require Import Prelude.

Local Open Scope list_scope.
Local Open Scope nat_scope.

Section sort.
Context {A : Type}.
Variable less : A → A → bool.

(** [x] goes behind every element that is not above it. *)
Fixpoint insert_stable (x : A) (l : list A) : list A :=
  match l with
  | [] => [x]
  | y :: l' => if less x y then x :: l else y :: insert_stable x l'
  end.

Definition SliceStable (l : list A) : list A := foldl (λ acc x, insert_stable x acc) [] l.

Lemma insert_stable_Permutation (x : A) (l : list A) : insert_stable x l ≡ₚ x :: l.
Proof.
  induction l as [|y l IH]; [done|]. simpl. case_match; [done|].
  rewrite IH. apply perm_swap.
Qed.

Lemma foldl_insert_Permutation (l acc : list A) :
  foldl (λ acc x, insert_stable x acc) acc l ≡ₚ acc ++ l.
Proof.
  revert acc. induction l as [|x l IH]; intros acc; simpl; [by rewrite app_nil_r|].
  rewrite IH, insert_stable_Permutation. simpl. apply Permutation_middle.
Qed.

Lemma SliceStable_Permutation (l : list A) : SliceStable l ≡ₚ l.
Proof. apply (foldl_insert_Permutation l []). Qed.

(** [a] may come before [b]. *)
Definition not_above (a b : A) : Prop := less b a = false.

(** The contract on [less]: a strict weak order. *)
Hypothesis less_asym : ∀ a b, less a b = true → less b a = false.
Hypothesis not_above_trans : Transitive not_above.

Lemma insert_stable_sorted (x : A) (l : list A) :
  StronglySorted not_above l → StronglySorted not_above (insert_stable x l).
Proof.
  induction 1 as [|y l Hl IH Hy]; simpl; [repeat constructor|].
  destruct (less x y) eqn:Hxy.
  - assert (not_above x y) as H by by apply less_asym.
    constructor; [by constructor|]. constructor; [done|].
    eapply Forall_impl; [exact Hy|]. intros z Hz. by eapply not_above_trans.
  - constructor; [done|]. rewrite insert_stable_Permutation. by constructor.
Qed.

Lemma SliceStable_sorted (l : list A) : StronglySorted not_above (SliceStable l).
Proof.
  unfold SliceStable. assert (StronglySorted not_above []) as H by constructor. revert H.
  generalize (@nil A). induction l as [|x l IH]; intros acc Hacc; [done|].
  simpl. by apply IH, insert_stable_sorted.
Qed.

(** Elements that are not above each other, as [x] is not above them. *)
Variable P : A → Prop.
Context `{∀ x, Decision (P x)}.
Hypothesis P_equal : ∀ x y, P x → P y → less x y = false.

Lemma insert_stable_filter (x : A) (l : list A) :
  StronglySorted not_above l →
  filter P (insert_stable x l) = filter P l ++ filter P [x].
Proof.
  induction 1 as [|y l Hl IH Hy]; [done|]. simpl insert_stable. destruct (less x y) eqn:Hxy.
  - rewrite !(filter_cons _ x). case_decide as Hx; [|by rewrite filter_nil, app_nil_r].
    assert (filter P (y :: l) = []) as ->; [|done].
    assert (∀ z, z ∈ y :: l → ¬ P z) as Hnone.
    { intros z Hz HPz. apply list_elem_of_In in Hz as [->|Hz]; [by rewrite P_equal in Hxy|].
      apply list_elem_of_In in Hz. pose proof (proj1 (Forall_forall _ _) Hy z Hz) as Hyz.
      assert (not_above z x) as Hzx by (by apply P_equal).
      pose proof (not_above_trans _ _ _ Hyz Hzx) as Hyx. unfold not_above in Hyx. congruence. }
    by apply filter_none.
  - rewrite !(filter_cons _ y), IH. by case_decide.
Qed.

(** The order of equal elements is kept. *)
Lemma SliceStable_stable (l : list A) : filter P (SliceStable l) = filter P l.
Proof.
  unfold SliceStable. assert (StronglySorted not_above []) as H' by constructor. revert H'.
  change (filter P l) with (filter P [] ++ filter P l). generalize (@nil A).
  induction l as [|x l IH]; intros acc Hacc; simpl foldl; [by rewrite filter_nil, app_nil_r|].
  rewrite IH by by apply insert_stable_sorted.
  rewrite insert_stable_filter by done. rewrite <- app_assoc. f_equal.
  by rewrite (filter_cons _ x l), (filter_cons _ x []); case_decide.
Qed.
End sort.

(** When no two elements are equal the order of the input does not matter. *)
Lemma SliceStable_unique {A : Type} (less : A → A → bool) (l l' : list A) :
  (∀ a b, less a b = true → less b a = false) → Transitive (not_above less) →
  (∀ a b, a ∈ l → b ∈ l → less a b = false → less b a = false → a = b) →
  l ≡ₚ l' → SliceStable less l = SliceStable less l'.
Proof.
  intros Hasym Htrans Hdist Hp. apply (StronglySorted_unique_strong (not_above less)).
  - intros a b Ha Hb Hab Hba. rewrite SliceStable_Permutation in Ha, Hb. rewrite <- Hp in Hb.
    by apply Hdist.
  - by apply SliceStable_sorted.
  - by apply SliceStable_sorted.
  - by rewrite !SliceStable_Permutation.
Qed.
