(* ===== verification/GoFlag.v ===== *)
(** The part of package [flag] the source uses: string, boolean, integer and duration
    flags of a [FlagSet] that exits on errors, with the usage text it prints. *)

From S2P Require Import Prelude GoStrings GoEncoding GoFmt GoTime GoSort GoNumber.

Local Open Scope string_scope.
Local Open Scope list_scope.
Local Open Scope nat_scope.

Inductive flag_value :=
  | VString (s : string)
  | VBool (b : bool)
  | VInt (z : Z)
  | VDuration (d : Z).

(** [type Flag struct]: the default, which gives the type, and the value. *)
Record Flag := mkFlag {
  fl_Name : string;
  fl_Usage : string;
  fl_Default : flag_value;
  fl_Value : flag_value;
}.

(** [fs.String], [fs.Bool], [fs.Int] and [fs.Duration] *)
Definition flag_var (name : string) (v : flag_value) (usage : string) : Flag := mkFlag name usage v v.

Abbreviation FlagSet := (list Flag).

Fixpoint flag_lookup (fs : FlagSet) (name : string) : option flag_value :=
  match fs with
  | [] => None
  | f :: fs' => if String.eqb (fl_Name f) name then Some (fl_Value f) else flag_lookup fs' name
  end.

Definition flag_set (fs : FlagSet) (name : string) (v : flag_value) : FlagSet :=
  map (λ f, if String.eqb (fl_Name f) name then mkFlag (fl_Name f) (fl_Usage f) (fl_Default f) v else f) fs.

Definition flag_string (fs : FlagSet) (name : string) : string :=
  match flag_lookup fs name with Some (VString s) => s | _ => "" end.
Definition flag_bool (fs : FlagSet) (name : string) : bool :=
  match flag_lookup fs name with Some (VBool b) => b | _ => false end.
Definition flag_int (fs : FlagSet) (name : string) : Z :=
  match flag_lookup fs name with Some (VInt z) => z | _ => 0%Z end.
Definition flag_duration (fs : FlagSet) (name : string) : Z :=
  match flag_lookup fs name with Some (VDuration d) => d | _ => 0%Z end.

(** ** The usage text *)

(** The name of the type and the default of a flag; a zero default is not shown. *)
Definition flag_type (v : flag_value) : string :=
  match v with
  | VString _ => " string"
  | VBool _ => ""
  | VInt _ => " int"
  | VDuration _ => " duration"
  end.

Definition flag_default (v : flag_value) : string :=
  match v with
  | VString s => if String.eqb s "" then "" else " (default " +:+ Quote s +:+ ")"
  | VBool b => if b then " (default true)" else ""
  | VInt z => if (z =? 0)%Z then "" else " (default " +:+ format_int z +:+ ")"
  | VDuration d => if (d =? 0)%Z then "" else " (default " +:+ Duration_String d +:+ ")"
  end.

(** The lines of a flag; a boolean flag of one letter has its usage on the same line.
    No usage here has quotes or line breaks. *)
Definition flag_lines (f : Flag) : string :=
  let head := "  -" +:+ fl_Name f +:+ flag_type (fl_Default f) in
  lines [head +:+ (if String.length head <=? 4 then "" else String "010" "    ") +:+ String "009" (fl_Usage f)
         +:+ flag_default (fl_Default f)].

Definition flag_less (f g : Flag) : bool := String.ltb (fl_Name f) (fl_Name g).

(** [fs.Usage()]: the flags in the order of their names. *)
Definition flag_usage (name : string) (fs : FlagSet) : string :=
  lines ["Usage of " +:+ name +:+ ":"] +:+ sconcat (map flag_lines (SliceStable flag_less fs)).

(** ** Parsing *)

(** [strconv.ParseBool] *)
Definition ParseBool (s : string) : option bool :=
  if existsb (String.eqb s) ["1"; "t"; "T"; "true"; "TRUE"; "True"] then Some true
  else if existsb (String.eqb s) ["0"; "f"; "F"; "false"; "FALSE"; "False"] then Some false
  else None.

(** [f.Value.Set(s)]: the message of the error, or the value. *)
Definition Value_Set (v : flag_value) (s : string) : string + flag_value :=
  match v with
  | VString _ => inr (VString s)
  | VBool _ => match ParseBool s with Some b => inr (VBool b) | None => inl "parse error" end
  | VInt _ =>
      match ParseInt0 s with
      | inr z => inr (VInt z)
      | inl ErrSyntax => inl "parse error"
      | inl ErrRange => inl "value out of range"
      end
  | VDuration _ => match ParseDuration s with Some d => inr (VDuration d) | None => inl "parse error" end
  end.

(** Parsed flags and the rest of the arguments, a request for help, or an error. *)
Inductive parsed :=
  | FlagsParsed (fs : FlagSet) (rest : list string)
  | FlagsHelp
  | FlagsError (msg : string).

(** What the first argument is. *)
Inductive flag_arg :=
  | ArgRest            (** not a flag: parsing ends here *)
  | ArgTerminator      (** [--]: parsing ends behind it *)
  | ArgBad
  | ArgFlag (name : string) (value : option string).

Definition flag_body (name : string) : flag_arg :=
  match name with
  | "" => ArgBad
  | String c _ =>
      if Ascii.eqb c "-" || Ascii.eqb c "=" then ArgBad
      else match cut "=" name with
           | Some (n, v) => ArgFlag n (Some v)
           | None => ArgFlag name None
           end
  end.

Definition classify_arg (s : string) : flag_arg :=
  match s with
  | String "-" (String "-" "") => ArgTerminator
  | String "-" (String "-" name) => flag_body name
  | String "-" (String c r) => flag_body (String c r)
  | _ => ArgRest
  end.

Definition is_bool (v : flag_value) : bool := match v with VBool _ => true | _ => false end.

(** What a rejected value is called. *)
Definition bad_value (v : flag_value) (name value msg : string) : string :=
  if is_bool v then "invalid boolean value " +:+ Quote value +:+ " for -" +:+ name +:+ ": " +:+ msg
  else "invalid value " +:+ Quote value +:+ " for flag -" +:+ name +:+ ": " +:+ msg.

(** [fs.Parse(args)] *)
Fixpoint flag_Parse (fs : FlagSet) (args : list string) : parsed :=
  match args with
  | [] => FlagsParsed fs []
  | s :: rest =>
      match classify_arg s with
      | ArgRest => FlagsParsed fs args
      | ArgTerminator => FlagsParsed fs rest
      | ArgBad => FlagsError ("bad flag syntax: " +:+ s)
      | ArgFlag name value =>
          match flag_lookup fs name with
          | None =>
              if String.eqb name "help" || String.eqb name "h" then FlagsHelp
              else FlagsError ("flag provided but not defined: -" +:+ name)
          | Some old =>
              let value := if is_bool old then Some (default "true" value) else value in
              match value, rest with
              | Some v, _ =>
                  match Value_Set old v with
                  | inr new => flag_Parse (flag_set fs name new) rest
                  | inl msg => FlagsError (bad_value old name v msg)
                  end
              | None, v :: rest' =>
                  match Value_Set old v with
                  | inr new => flag_Parse (flag_set fs name new) rest'
                  | inl msg => FlagsError (bad_value old name v msg)
                  end
              | None, [] => FlagsError ("flag needs an argument: -" +:+ name)
              end
          end
      end
  end.

(** What [flag.ExitOnError] makes of the outcome: the text on the standard error and the
    exit code, or the flags. *)
Definition flag_exit (name : string) (fs : FlagSet) (p : parsed) : string * Z + FlagSet * list string :=
  match p with
  | FlagsParsed fs' rest => inr (fs', rest)
  | FlagsHelp => inl (flag_usage name fs, 0%Z)
  | FlagsError msg => inl (lines [msg] +:+ flag_usage name fs, 2%Z)
  end.

Definition example_flags : FlagSet :=
  [flag_var "n" (VInt 3) "a number"; flag_var "id" (VString "") "an id"; flag_var "v" (VBool false) "more"].

Example flag_Parse_examples :
  (flag_string example_flags "id", flag_int example_flags "n") = ("", 3%Z) ∧
  flag_Parse example_flags ["-id"] = FlagsError "flag needs an argument: -id" ∧
  flag_Parse example_flags ["-port"; "1"] = FlagsError "flag provided but not defined: -port" ∧
  flag_Parse example_flags ["--n=x"; "1"]
    = FlagsError ("invalid value " +:+ Quote "x" +:+ " for flag -n: parse error") ∧
  flag_Parse example_flags ["--help"] = FlagsHelp ∧
  flag_usage "x" example_flags
  = lines ["Usage of x:"; "  -id string"; "    " +:+ String "009" "an id"; "  -n int";
           "    " +:+ String "009" "a number (default 3)"; "  -v" +:+ String "009" "more"].
Proof. vm_compute. done. Qed.

Example flag_Parse_values :
  match flag_Parse example_flags ["--id"; "a=b"; "-v"; "--n=-0x10"; "rest"; "-v"] with
  | FlagsParsed fs rest => Some (flag_string fs "id", flag_bool fs "v", flag_int fs "n", rest)
  | _ => None
  end = Some ("a=b", true, (-16)%Z, ["rest"; "-v"]).
Proof. vm_compute. done. Qed.

(** ** Lemmas *)

(** A value written after its flag is set. *)
Lemma flag_Parse_value (fs : FlagSet) (name v : string) (old new : flag_value) (rest : list string) :
  flag_body name = ArgFlag name None → flag_lookup fs name = Some old → is_bool old = false →
  Value_Set old v = inr new →
  flag_Parse fs (("--" +:+ name) :: v :: rest) = flag_Parse (flag_set fs name new) rest.
Proof.
  intros Hb Hl Hbool Hv. cbn [flag_Parse].
  assert (classify_arg ("--" +:+ name) = ArgFlag name None) as ->.
  { rewrite <- Hb. by destruct name as [|c r]. }
  by rewrite Hl, Hbool, Hv.
Qed.

(** The value printed is the value set. *)
Definition flag_text (v : flag_value) : string :=
  match v with
  | VString s => s
  | VBool b => if b then "true" else "false"
  | VInt z => format_int z
  | VDuration d => Duration_String d
  end.

(** An [int] or a [time.Duration] is a number of 64 bits. *)
Definition flag_value_ok (v : flag_value) : Prop :=
  match v with
  | VInt z | VDuration z => (- two63 ≤ z < two63)%Z
  | _ => True
  end.

Definition same_type (v w : flag_value) : Prop := flag_type v = flag_type w.

Lemma Value_Set_text (old v : flag_value) :
  same_type old v → flag_value_ok v → Value_Set old (flag_text v) = inr v.
Proof.
  intros Ht Hv. destruct old, v; try done; cbn [Value_Set flag_text flag_value_ok] in *.
  - by destruct b0.
  - by rewrite ParseInt0_format.
  - by rewrite ParseDuration_String.
Qed.

(** ** Command lines that set flags *)

(** A flag that is set: with one dash or two, and with the value in the same argument
    or in the next one. *)
Record setting := mkSetting {
  set_Name : string;
  set_Value : flag_value;
  set_long : bool;
  set_joined : bool;
}.

Definition setting_args (s : setting) : list string :=
  let name := (if set_long s then "--" else "-") +:+ set_Name s in
  if set_joined s then [name +:+ "=" +:+ flag_text (set_Value s)] else [name; flag_text (set_Value s)].

(** The last value a flag is set to. *)
Fixpoint last_set (l : list setting) (name : string) : option flag_value :=
  match l with
  | [] => None
  | s :: l' =>
      match last_set l' name with
      | Some v => Some v
      | None => if String.eqb (set_Name s) name then Some (set_Value s) else None
      end
  end.

(** A flag of the set that is not boolean is given a value of its type. *)
Definition setting_ok (fs : FlagSet) (s : setting) : Prop :=
  flag_body (set_Name s) = ArgFlag (set_Name s) None ∧ no_char "=" (set_Name s) = true ∧
  flag_value_ok (set_Value s) ∧
  ∃ old, flag_lookup fs (set_Name s) = Some old ∧ is_bool old = false ∧ same_type old (set_Value s).

Lemma flag_lookup_set (fs : FlagSet) (name name' : string) (v : flag_value) :
  flag_lookup (flag_set fs name v) name'
  = if String.eqb name name' then const v <$> flag_lookup fs name' else flag_lookup fs name'.
Proof.
  induction fs as [|f fs IH]; [by destruct (String.eqb name name')|]. cbn [flag_set map flag_lookup].
  destruct (String.eqb_spec (fl_Name f) name) as [->|Hn]; cbn [fl_Name flag_lookup fl_Value].
  - destruct (String.eqb name name'); [done|]. exact IH.
  - destruct (String.eqb_spec (fl_Name f) name') as [Hn'|Hn']; [|exact IH].
    destruct (String.eqb_spec name name'); [congruence|done].
Qed.

Lemma flag_body_joined (name v : string) :
  flag_body name = ArgFlag name None → no_char "=" name = true →
  flag_body (name +:+ "=" +:+ v) = ArgFlag name (Some v).
Proof.
  intros Hb Hn. destruct name as [|c r]; [done|].
  pose proof (cut_app "=" (String c r) v Hn) as Hc. cbn [String.append] in *.
  cbn [flag_body] in *. destruct (Ascii.eqb c "-" || Ascii.eqb c "="); [done|]. by rewrite Hc.
Qed.

Lemma classify_dashes (long : bool) (name v : string) :
  flag_body name = ArgFlag name None →
  classify_arg ((if long then "--" else "-") +:+ name +:+ v) = flag_body (name +:+ v).
Proof.
  intros Hb. destruct long; [by destruct name|]. destruct name as [|c r]; [done|]. cbn [flag_body] in Hb.
  cbn [String.append classify_arg]. by destruct c as [[] [] [] [] [] [] [] []].
Qed.

Lemma flag_Parse_setting (fs : FlagSet) (s : setting) (rest : list string) :
  setting_ok fs s →
  flag_Parse fs (setting_args s ++ rest) = flag_Parse (flag_set fs (set_Name s) (set_Value s)) rest.
Proof.
  intros (Hb & Hn & Hv & old & Hl & Hbool & Ht). destruct s as [name v long joined]. cbn [set_Name set_Value] in *.
  unfold setting_args. cbn [set_Name set_Value set_long set_joined].
  pose proof (Value_Set_text old v Ht Hv) as Hset.
  destruct joined; cbn [app flag_Parse].
  - rewrite string_app_assoc, classify_dashes, flag_body_joined by done. by rewrite Hl, Hbool, Hset.
  - rewrite <- (string_app_nil_r name) at 1. rewrite classify_dashes, string_app_nil_r by done.
    by rewrite Hb, Hl, Hbool, Hset.
Qed.

Lemma setting_ok_set (fs : FlagSet) (s t : setting) :
  setting_ok fs s → setting_ok fs t → setting_ok (flag_set fs (set_Name s) (set_Value s)) t.
Proof.
  intros (_ & _ & _ & old & Hl & Hbool & Ht) (Hb & Hn & Hv & old' & Hl' & Hbool' & Ht'). split_and!; [done..|].
  rewrite flag_lookup_set, Hl'. destruct (String.eqb_spec (set_Name s) (set_Name t)) as [He|He].
  - rewrite He in Hl. rewrite Hl in Hl'. injection Hl' as <-. exists (set_Value s). split_and!; [done| |].
    + unfold same_type in Ht. by destruct old, (set_Value s).
    + unfold same_type in *. congruence.
  - by exists old'.
Qed.

(** The flags a command line sets: each has the last value it was set to. *)
Lemma flag_Parse_settings (fs : FlagSet) (l : list setting) :
  Forall (setting_ok fs) l →
  ∃ fs', flag_Parse fs (concat (map setting_args l)) = FlagsParsed fs' [] ∧
    ∀ name old, flag_lookup fs name = Some old → flag_lookup fs' name = Some (default old (last_set l name)).
Proof.
  revert fs. induction l as [|s l IH]; intros fs Hl; [by exists fs|].
  apply Forall_cons in Hl as [Hs Hl]. cbn [map concat]. rewrite flag_Parse_setting by done.
  destruct (IH (flag_set fs (set_Name s) (set_Value s))) as (fs' & Hp & Hv).
  { eapply Forall_impl; [exact Hl|]. intros t. by apply setting_ok_set. }
  exists fs'. split; [done|]. intros name old Ho. specialize (Hv name). rewrite flag_lookup_set, Ho in Hv.
  cbn [last_set]. destruct (String.eqb (set_Name s) name); cbn [fmap option_fmap option_map const] in Hv;
    rewrite (Hv _ eq_refl); by destruct (last_set l name).
Qed.

(** A flag keeps its type. *)
Lemma last_set_type (fs : FlagSet) (l : list setting) (name : string) (old v : flag_value) :
  Forall (setting_ok fs) l → flag_lookup fs name = Some old → last_set l name = Some v → same_type old v.
Proof.
  intros Hl Ho. induction l as [|s l IH]; [done|]. apply Forall_cons in Hl as [(_ & _ & _ & old' & Ho' & _ & Ht) Hl].
  cbn [last_set]. destruct (last_set l name) as [w|]; [by apply IH|].
  destruct (String.eqb_spec (set_Name s) name) as [He|]; [|done]. intros [= <-].
  rewrite He, Ho in Ho'. by injection Ho' as ->.
Qed.

(** The value of a variable the flag is read into. *)
Lemma flag_var_value (fs : FlagSet) (name : string) (v : flag_value) :
  flag_lookup fs name = Some v →
  v = match v with
      | VString _ => VString (flag_string fs name)
      | VBool _ => VBool (flag_bool fs name)
      | VInt _ => VInt (flag_int fs name)
      | VDuration _ => VDuration (flag_duration fs name)
      end.
Proof. intros H. unfold flag_string, flag_bool, flag_int, flag_duration. rewrite H. by destruct v. Qed.
