(* ===== verification/GoOs.v ===== *)
(** Packages [path/filepath] and [os] as the benchmark uses them: [Clean], [Dir] and
    [Join] of a Unix path, and files as a class of operations on a state [F] with their
    laws; [mem_fs] is an instance. *)

From stdpp Require Import gmap.
From S2P Require Import Prelude GoStrings GoText.

Local Open Scope string_scope.
Local Open Scope list_scope.
Local Open Scope nat_scope.

(** ** Paths *)

(** The elements of the path so far, the last one first, and the next one. *)
Definition clean_step (rooted : bool) (out : list string) (c : string) : list string :=
  if String.eqb c "" || String.eqb c "." then out
  else if String.eqb c ".." then
    match out with
    | x :: out' => if String.eqb x ".." then ".." :: out else out'
    | [] => if rooted then [] else [".."]
    end
  else c :: out.

(** [filepath.Clean(path)] *)
Definition Clean (path : string) : string :=
  let rooted := HasPrefix path "/" in
  let s := (if rooted then "/" else "") +:+ Join (rev (foldl (clean_step rooted) [] (Split path "/"))) "/" in
  if String.eqb s "" then "." else s.

(** What stands up to the last separator, with it. *)
Fixpoint up_to_slash (s : string) : string :=
  match s with
  | EmptyString => ""
  | String a r =>
      let d := up_to_slash r in
      if String.eqb d "" then (if Ascii.eqb a "/" then "/" else "") else String a d
  end.

(** [filepath.Dir(path)] *)
Definition Dir (path : string) : string := Clean (up_to_slash path).

(** [filepath.Join(dir, name)] for a name that is not empty. *)
Definition Join2 (dir name : string) : string :=
  if String.eqb dir "" then Clean name else Clean (dir +:+ "/" +:+ name).

Example path_examples :
  Clean "a/../../b//c/." = "../b/c" ∧ Clean "/../a" = "/a" ∧ Clean "" = "." ∧ Clean "/" = "/" ∧
  Dir "results/a.json" = "results" ∧ Dir "a.json" = "." ∧ Dir "/a.json" = "/" ∧
  Join2 "bench/results/" "*.json" = "bench/results/*.json" ∧ Join2 "" "x" = "x".
Proof. vm_compute. done. Qed.

(** ** Files *)

(** [os.MkdirAll] (its error is ignored), [os.Create], a write to the file created at a
    path, [os.ReadFile] and [filepath.Glob]. *)
Class FileSystem (F : Type) := {
  os_MkdirAll : F → string → F;
  os_Create : F → string → F * res unit;
  file_Write : F → string → string → F * res unit;
  os_ReadFile : F → string → res string;
  filepath_Glob : F → string → res (list string);
}.

(** The laws; [other_file p q] says that the two paths name different files. *)
Class FileSystemLaws (F : Type) `{!FileSystem F} := {
  other_file : string → string → Prop;
  other_file_sym p q : other_file p q → other_file q p;
  mkdir_law f p q s : os_ReadFile f q = Ok s → os_ReadFile (os_MkdirAll f p) q = Ok s;
  create_law f p f' : os_Create f p = (f', Ok tt) → os_ReadFile f' p = Ok "";
  create_other f p q s : other_file p q → os_ReadFile f q = Ok s → os_ReadFile (os_Create f p).1 q = Ok s;
  write_law f p old data f' :
    os_ReadFile f p = Ok old → file_Write f p data = (f', Ok tt) → os_ReadFile f' p = Ok (old +:+ data);
  write_other f p q s data :
    other_file p q → os_ReadFile f q = Ok s → os_ReadFile (file_Write f p data).1 q = Ok s;
}.

(** Files in memory; every file matches any pattern. *)
Abbreviation mem_fs := (gmap string string).

#[export] Instance mem_file_system : FileSystem mem_fs := {|
  os_MkdirAll f _ := f;
  os_Create f p := (<[p := ""]> f, Ok tt);
  file_Write f p data := (<[p := default "" (f !! p) +:+ data]> f, Ok tt);
  os_ReadFile f p := match f !! p with Some s => Ok s | None => Err (EMsg ("open " +:+ p +:+ ": no such file or directory")) end;
  filepath_Glob f _ := Ok (map_to_list f).*1;
|}.

#[export] Instance mem_file_system_laws : FileSystemLaws mem_fs.
Proof.
  refine {| other_file p q := p ≠ q |}.
  - done.
  - done.
  - intros f p f' [= <-]. cbn [os_ReadFile mem_file_system]. by rewrite lookup_insert_eq.
  - intros f p q s Hne. cbn [os_ReadFile os_Create mem_file_system fst]. by rewrite lookup_insert_ne.
  - intros f p old data f' Hr [= <-]. cbn [os_ReadFile mem_file_system] in *. destruct (f !! p) as [s|] eqn:Hp; [|done].
    injection Hr as ->. by rewrite lookup_insert_eq.
  - intros f p q s data Hne. cbn [os_ReadFile file_Write mem_file_system fst]. by rewrite lookup_insert_ne.
Defined.
