(* ===== verification/GoUrl.v ===== *)
(** The part of [net/url] behind [r.URL.Query()]: the query of a URL and its unescaped
    parameters, in order; a parameter that is not well-formed is dropped. *)

From S2P Require Import Prelude GoStrings GoEncoding GoText.

Local Open Scope string_scope.
Local Open Scope list_scope.
Local Open Scope nat_scope.

Definition unhex (a : ascii) : option N :=
  let n := N_of_ascii a in
  if ((48 <=? n) && (n <=? 57))%N then Some (n - 48)%N
  else if ((97 <=? n) && (n <=? 102))%N then Some (n - 87)%N
  else if ((65 <=? n) && (n <=? 70))%N then Some (n - 55)%N
  else None.

Fixpoint QueryUnescape (s : string) : option string :=
  match s with
  | "" => Some ""
  | String "%" (String a (String b s')) =>
      match unhex a, unhex b, QueryUnescape s' with
      | Some x, Some y, Some r => Some (String (ascii_of_N (16 * x + y)) r)
      | _, _, _ => None
      end
  | String "%" _ => None
  | String "+" s' => String " " <$> QueryUnescape s'
  | String c s' => String c <$> QueryUnescape s'
  end.

(** One parameter between two [&]. *)
Definition query_param (p : string) : option (string * string) :=
  if String.eqb p "" || negb (no_char ";" p) then None
  else
    let '(k, v) := match cut "=" p with Some kv => kv | None => (p, "") end in
    k' ← QueryUnescape k; v' ← QueryUnescape v; Some (k', v').

Definition ParseQuery (q : string) : list (string * string) := omap query_param (Split q "&").

(** What is behind the first [?] and before the first [#]. *)
Definition url_query (url : string) : string :=
  let u := match cut "#" url with Some (u, _) => u | None => url end in
  match cut "?" u with Some (_, q) => q | None => "" end.

(** The path of an [http] URL whose path needs no unescaping. *)
Definition url_path (url : string) : string :=
  let r := TrimPrefix url "http://" in
  let r := match cut "?" r with Some (r, _) => r | None => r end in
  match cut "/" r with Some (_, p) => "/" +:+ p | None => "" end.

Example ParseQuery_examples :
  ParseQuery (url_query "http://h:1/p?id=n1&http=a%3A1&x&a=b+c&bad=%zz#f")
    = [("id", "n1"); ("http", "a:1"); ("x", ""); ("a", "b c")].
Proof. vm_compute. done. Qed.

(** ** Lemmas *)

(** Characters that stand for themselves in a query. *)
Definition plain_char (a : ascii) : bool :=
  negb (existsb (Ascii.eqb a) ["%"; "+"; "&"; "="; ";"; "#"; "?"]%char).
Fixpoint plain (s : string) : bool :=
  match s with "" => true | String a s' => plain_char a && plain s' end.

Lemma plain_app (s t : string) : plain (s +:+ t) = plain s && plain t.
Proof. induction s as [|a s IH]; [done|]. simpl. rewrite IH. by rewrite andb_assoc. Qed.

Lemma plain_no_char (c : ascii) (s : string) : plain_char c = false → plain s = true → no_char c s = true.
Proof.
  intros Hc. induction s as [|a s IH]; [done|]. simpl. intros H. apply andb_true_iff in H as [Ha Hs].
  rewrite IH by done. destruct (Ascii.eqb_spec a c) as [->|]; [congruence|done].
Qed.

Lemma QueryUnescape_plain (s : string) : plain s = true → QueryUnescape s = Some s.
Proof.
  induction s as [|a s IH]; [done|]. simpl plain. intros H. apply andb_true_iff in H as [Ha Hs].
  specialize (IH Hs).
  assert (∀ c, plain_char c = true → QueryUnescape (String c s) = String c <$> QueryUnescape s) as Hcons.
  { intros c. clear. destruct c as [[] [] [] [] [] [] [] []]; try done; cbn; done. }
  by rewrite Hcons, IH.
Qed.

Lemma query_param_plain (k v : string) :
  plain k = true → plain v = true → query_param (k +:+ "=" +:+ v) = Some (k, v).
Proof.
  intros Hk Hv. unfold query_param. change (k +:+ "=" +:+ v) with (k +:+ String "=" v).
  rewrite (cut_app "=" k v) by by apply plain_no_char.
  assert (no_char ";" (k +:+ String "=" v) = true) as ->.
  { rewrite no_char_app. cbn [no_char]. by rewrite !(plain_no_char ";") by done. }
  destruct (String.eqb_spec (k +:+ String "=" v) "") as [He|]; [by destruct k|]. cbn [orb negb].
  by rewrite !QueryUnescape_plain.
Qed.

(** A query of plain parameters is read back as it was put together. *)
Lemma ParseQuery_plain (l : list (string * string)) :
  l ≠ [] → Forall (λ p, plain p.1 = true ∧ plain p.2 = true) l →
  ParseQuery (Join (map (λ p, p.1 +:+ "=" +:+ p.2) l) "&") = l.
Proof.
  intros Hne Hl. unfold ParseQuery. rewrite Split_Join.
  - clear Hne. induction Hl as [|[k v] l [Hk Hv] Hl IH]; [done|].
    cbn [map omap list_omap fst snd]. rewrite query_param_plain by done. by rewrite IH.
  - by destruct l.
  - apply Forall_map. eapply Forall_impl; [exact Hl|]. intros [k v] [Hk Hv]. cbn [fst snd] in *.
    clear - Hk Hv. induction k as [|a k IH]; simpl in *.
    + by apply plain_no_char.
    + apply andb_true_iff in Hk as [Ha Hk]. rewrite IH by done.
      by destruct (Ascii.eqb_spec a "&") as [->|].
Qed.
