(* ===== verification/GoJson.v ===== *)
(** [encoding/json] of the Go standard library, as far as the source uses it:
    the text [Marshal], [MarshalIndent] and [Encoder] produce (HTML escaping on,
    ill-formed UTF-8 replaced), the values [Unmarshal] and [Decoder] read, and
    the field decoders for the types of the source's structs.

    A document is a tree [json]; [render] prints it, [parse_value] reads it, and
    [parse_render] says that reading what was printed gives the tree back with
    its strings made valid UTF-8 ([norm]). *)

From S2P Require Import Prelude GoStrings GoEncoding.

Local Open Scope string_scope.
Local Open Scope nat_scope.

(** A number keeps its literal, as the decoder parses it for the field's type. *)
#[warnings="-register-all"]
Inductive json : Set :=
  | JNull
  | JBool (b : bool)
  | JNum (lit : string)
  | JStr (s : string)
  | JArr (l : list json)
  | JObj (fs : list (string * json)).

Lemma json_ind' (P : json → Prop) :
  P JNull → (∀ b, P (JBool b)) → (∀ lit, P (JNum lit)) → (∀ s, P (JStr s)) →
  (∀ l, Forall P l → P (JArr l)) →
  (∀ fs, Forall (λ f, P (f.2)) fs → P (JObj fs)) → ∀ j, P j.
Proof.
  intros Hn Hb Hm Hs Ha Ho. fix IH 1. intros [|b|lit|s|l|fs]; [done|done|done|done|..].
  - apply Ha. induction l; constructor; [apply IH|done].
  - apply Ho. induction fs as [|[k v] fs IHfs]; constructor; [apply IH|done].
Qed.

(** ** Printing *)

Definition hex_char (n : N) : ascii :=
  if (n <? 10)%N then ascii_of_N (48 + n) else ascii_of_N (97 + (n - 10)).

Definition dquote : ascii := "034".
Definition backslash : ascii := "\".

(** [\u00XY] *)
Definition u00_escape (b : N) : string :=
  String backslash (String "u" (String "0" (String "0"
    (String (hex_char (b / 16)) (String (hex_char (b mod 16)) ""))))).

Definition quote_ascii (a : ascii) : string :=
  let b := N_of_ascii a in
  if (b =? 34)%N || (b =? 92)%N then String backslash (String a "")
  else if (b =? 8)%N then String backslash "b"
  else if (b =? 9)%N then String backslash "t"
  else if (b =? 10)%N then String backslash "n"
  else if (b =? 12)%N then String backslash "f"
  else if (b =? 13)%N then String backslash "r"
  else if (b <? 32)%N || (b =? 38)%N || (b =? 60)%N || (b =? 62)%N then u00_escape b
  else String a "".

(** U+2028 and U+2029, which are escaped so that the text is valid JavaScript. *)
Definition line_sep : string := String "226" (String "128" (String "168" "")).
Definition para_sep : string := String "226" (String "128" (String "169" "")).

Definition quote_unit (u : utf8_unit) : string :=
  match u with
  | UBad _ => String backslash "ufffd"
  | URune (String a "") => quote_ascii a
  | URune c =>
      if String.eqb c line_sep then String backslash "u2028"
      else if String.eqb c para_sep then String backslash "u2029"
      else c
  end.

Definition quote (s : string) : string :=
  String dquote (sconcat (quote_unit <$> utf8_units s) +:+ String dquote "").

Fixpoint join (sep : string) (l : list string) : string :=
  match l with
  | [] => ""
  | [x] => x
  | x :: l' => x +:+ (sep +:+ join sep l')
  end.

(** The text of a document: [nl d] is what stands where an indented text breaks
    the line at depth [d], [sp] what stands after a colon. *)
Section render.
Context (nl : nat → string) (sp : string).

Fixpoint render (d : nat) (j : json) : string :=
  match j with
  | JNull => "null"
  | JBool true => "true"
  | JBool false => "false"
  | JNum lit => lit
  | JStr s => quote s
  | JArr [] => "[]"
  | JArr l =>
      "[" +:+ (nl (S d) +:+ (join ("," +:+ nl (S d)) (map (render (S d)) l)
      +:+ (nl d +:+ "]")))
  | JObj [] => "{}"
  | JObj fs =>
      "{" +:+ (nl (S d) +:+ (join ("," +:+ nl (S d))
           (map (λ f, quote (f.1) +:+ (":" +:+ (sp +:+ render (S d) (f.2)))) fs)
      +:+ (nl d +:+ "}")))
  end.
End render.

(** [json.Marshal]; it cannot fail on the values built here. *)
Definition json_Marshal (j : json) : res string := Ok (render (λ _, "") "" 0 j).

Fixpoint spaces (n : nat) : string :=
  match n with 0 => "" | S n' => String " " (spaces n') end.

(** [json.MarshalIndent(v, "", two spaces)] *)
Definition json_MarshalIndent (j : json) : res string :=
  Ok (render (λ d, String "010" (spaces (2 * d))) " " 0 j).

(** [json.NewEncoder(w).Encode(v)]: the text [Marshal] gives and a newline. *)
Definition json_Encode (j : json) : string :=
  render (λ _, "") "" 0 j +:+ String "010" "".

(** ** Parsing *)

Definition is_ws (a : ascii) : bool :=
  let b := N_of_ascii a in
  (b =? 32)%N || (b =? 9)%N || (b =? 10)%N || (b =? 13)%N.

Fixpoint skip_ws (s : string) : string :=
  match s with
  | String a r => if is_ws a then skip_ws r else s
  | EmptyString => s
  end.

Definition hex_val (a : ascii) : option N :=
  let b := N_of_ascii a in
  if (48 <=? b)%N && (b <=? 57)%N then Some (b - 48)%N
  else if (97 <=? b)%N && (b <=? 102)%N then Some (b - 97 + 10)%N
  else if (65 <=? b)%N && (b <=? 70)%N then Some (b - 65 + 10)%N
  else None.

(** Four hexadecimal digits. *)
Definition get_u4 (s : string) : option (N * string) :=
  match s with
  | String a (String b (String c (String d r))) =>
      match hex_val a, hex_val b, hex_val c, hex_val d with
      | Some x, Some y, Some z, Some w => Some (x * 4096 + y * 256 + z * 16 + w, r)%N
      | _, _, _, _ => None
      end
  | _ => None
  end.

(** [utf8.EncodeRune]; a surrogate is replaced by U+FFFD. *)
Definition EncodeRune (n : N) : string :=
  if (n <? 128)%N then String (byte n) ""
  else if (n <? 2048)%N then
    String (byte (192 + n / 64)) (String (byte (128 + n mod 64)) "")
  else if (55296 <=? n)%N && (n <? 57344)%N then fffd
  else if (n <? 65536)%N then
    String (byte (224 + n / 4096)) (String (byte (128 + n / 64 mod 64))
      (String (byte (128 + n mod 64)) ""))
  else
    String (byte (240 + n / 262144)) (String (byte (128 + n / 4096 mod 64))
      (String (byte (128 + n / 64 mod 64)) (String (byte (128 + n mod 64)) ""))).

Definition is_surrogate (n : N) : bool := (55296 <=? n)%N && (n <? 57344)%N.

(** The escape after a backslash: what it stands for and the rest. *)
Definition parse_escape (s : string) : option (string * string) :=
  match s with
  | EmptyString => None
  | String e r =>
      if Ascii.eqb e dquote || Ascii.eqb e backslash || Ascii.eqb e "/"
      then Some (String e "", r)
      else if Ascii.eqb e "b" then Some (String "008" "", r)
      else if Ascii.eqb e "f" then Some (String "012" "", r)
      else if Ascii.eqb e "n" then Some (String "010" "", r)
      else if Ascii.eqb e "r" then Some (String "013" "", r)
      else if Ascii.eqb e "t" then Some (String "009" "", r)
      else if Ascii.eqb e "u" then
        match get_u4 r with
        | Some (n, r') =>
            if is_surrogate n then
              match r' with
              | String x (String y r'') =>
                  if Ascii.eqb x backslash && Ascii.eqb y "u" then
                    match get_u4 r'' with
                    | Some (m, r3) =>
                        if (n <? 56320)%N && (56320 <=? m)%N && (m <? 57344)%N
                        then Some (EncodeRune (65536 + (n - 55296) * 1024 + (m - 56320)), r3)
                        else Some (fffd, r')
                    | None => Some (fffd, r')
                    end
                  else Some (fffd, r')
              | _ => Some (fffd, r')
              end
            else Some (EncodeRune n, r')
        | None => None
        end
      else None
  end.

Definition prepend (c : string) (o : option (string * string)) : option (string * string) :=
  match o with
  | Some (s, r) => Some (c +:+ s, r)
  | None => None
  end.

(** The rest of a string literal after its opening quote. *)
Fixpoint parse_str (fuel : nat) (s : string) : option (string * string) :=
  match fuel, s with
  | S fuel', String a r =>
      if Ascii.eqb a dquote then Some ("", r)
      else if Ascii.eqb a backslash then
        match parse_escape r with
        | Some (c, r') => prepend c (parse_str fuel' r')
        | None => None
        end
      else if (N_of_ascii a <? 32)%N then None
      else match DecodeRune s with
           | Some (c, r') => prepend c (parse_str fuel' r')
           | None => prepend fffd (parse_str fuel' r)
           end
  | _, _ => None
  end.

Definition is_digit (a : ascii) : bool := bool_decide (is_Some (digit_val a)).

Fixpoint span_digits (s : string) : string * string :=
  match s with
  | String a r =>
      if is_digit a then let '(ds, r') := span_digits r in (String a ds, r') else ("", s)
  | EmptyString => ("", s)
  end.

(** The fraction and the exponent of a number literal; each is optional. *)
Definition scan_frac (s : string) : option (string * string) :=
  match s with
  | String a r =>
      if Ascii.eqb a "." then
        match span_digits r with
        | (EmptyString, _) => None
        | (ds, r') => Some (String a ds, r')
        end
      else Some ("", s)
  | EmptyString => Some ("", s)
  end.

Definition scan_exp (s : string) : option (string * string) :=
  match s with
  | String a r =>
      if Ascii.eqb a "e" || Ascii.eqb a "E" then
        let '(sg, r1) :=
          match r with
          | String b r' => if Ascii.eqb b "+" || Ascii.eqb b "-" then (String b "", r') else ("", r)
          | EmptyString => ("", r)
          end in
        match span_digits r1 with
        | (EmptyString, _) => None
        | (ds, r') => Some (String a (sg +:+ ds), r')
        end
      else Some ("", s)
  | EmptyString => Some ("", s)
  end.

(** An unsigned integer part: ["0"], or a nonzero digit and digits. *)
Definition scan_int (s : string) : option (string * string) :=
  match s with
  | String a r =>
      if Ascii.eqb a "0" then Some (String a "", r)
      else if is_digit a then let '(ds, r') := span_digits r in Some (String a ds, r')
      else None
  | EmptyString => None
  end.

Definition scan_number (s : string) : option (string * string) :=
  let '(sg, s1) :=
    match s with
    | String a r => if Ascii.eqb a "-" then (String a "", r) else ("", s)
    | EmptyString => ("", s)
    end in
  match scan_int s1 with
  | Some (i, s2) =>
      match scan_frac s2 with
      | Some (f, s3) =>
          match scan_exp s3 with
          | Some (e, s4) => Some (sg +:+ (i +:+ (f +:+ e)), s4)
          | None => None
          end
      | None => None
      end
  | None => None
  end.

(** One value, after optional white space: the value and the rest. *)
Fixpoint parse_value (fuel : nat) (s : string) : option (json * string) :=
  match fuel with
  | 0 => None
  | S fuel' =>
      match skip_ws s with
      | EmptyString => None
      | String a r =>
          if Ascii.eqb a dquote then
            match parse_str (String.length r) r with
            | Some (t, r') => Some (JStr t, r')
            | None => None
            end
          else if Ascii.eqb a "{" then
            match skip_ws r with
            | String b r' =>
                if Ascii.eqb b "}" then Some (JObj [], r')
                else match parse_members fuel' r with
                     | Some (fs, r'') => Some (JObj fs, r'')
                     | None => None
                     end
            | EmptyString => None
            end
          else if Ascii.eqb a "[" then
            match skip_ws r with
            | String b r' =>
                if Ascii.eqb b "]" then Some (JArr [], r')
                else match parse_elems fuel' r with
                     | Some (l, r'') => Some (JArr l, r'')
                     | None => None
                     end
            | EmptyString => None
            end
          else if HasPrefix (String a r) "null" then Some (JNull, string_drop 4 (String a r))
          else if HasPrefix (String a r) "true" then Some (JBool true, string_drop 4 (String a r))
          else if HasPrefix (String a r) "false" then Some (JBool false, string_drop 5 (String a r))
          else match scan_number (String a r) with
               | Some (lit, r') => Some (JNum lit, r')
               | None => None
               end
      end
  end
with parse_elems (fuel : nat) (s : string) : option (list json * string) :=
  match fuel with
  | 0 => None
  | S fuel' =>
      match parse_value fuel' s with
      | Some (v, r) =>
          match skip_ws r with
          | String a r' =>
              if Ascii.eqb a "," then
                match parse_elems fuel' r' with
                | Some (l, r'') => Some (v :: l, r'')
                | None => None
                end
              else if Ascii.eqb a "]" then Some ([v], r') else None
          | EmptyString => None
          end
      | None => None
      end
  end
with parse_members (fuel : nat) (s : string) : option (list (string * json) * string) :=
  match fuel with
  | 0 => None
  | S fuel' =>
      match skip_ws s with
      | String q r0 =>
          if Ascii.eqb q dquote then
            match parse_str (String.length r0) r0 with
            | Some (k, r1) =>
                match skip_ws r1 with
                | String c r2 =>
                    if Ascii.eqb c ":" then
                      match parse_value fuel' r2 with
                      | Some (v, r) =>
                          match skip_ws r with
                          | String a r' =>
                              if Ascii.eqb a "," then
                                match parse_members fuel' r' with
                                | Some (l, r'') => Some ((k, v) :: l, r'')
                                | None => None
                                end
                              else if Ascii.eqb a "}" then Some ([(k, v)], r') else None
                          | EmptyString => None
                          end
                      | None => None
                      end
                    else None
                | EmptyString => None
                end
            | None => None
            end
          else None
      | EmptyString => None
      end
  end.

(** [json.Unmarshal]: one value and white space; the nesting limit of 10,000
    is not modelled, the fuel covers every text. *)
Definition json_parse (s : string) : option json :=
  match parse_value (S (String.length s)) s with
  | Some (j, r) => if String.eqb (skip_ws r) "" then Some j else None
  | None => None
  end.

(** [json.NewDecoder(r).Decode]: the first value of the stream. *)
Definition json_decode_first (s : string) : option json :=
  match parse_value (S (String.length s)) s with
  | Some (j, _) => Some j
  | None => None
  end.

(** ** Reading a printed string *)

Lemma DecodeRune_cases (s c r : string) :
  DecodeRune s = Some (c, r) →
  (∃ a, c = String a "" ∧ (N_of_ascii a < 128)%N) ∨
  (∃ a b c', c = String a (String b c') ∧ (128 ≤ N_of_ascii a)%N).
Proof.
  unfold DecodeRune. destruct s as [|a s]; [done|].
  destruct (utf8_class (N_of_ascii a)) as [[[n lo] hi]|] eqn:Hc; [|done].
  destruct (take_conts n lo hi s) as [[c' r']|] eqn:Ht; [|done]. intros [= <- <-].
  destruct (take_conts_spec _ _ _ _ _ _ Ht) as (_ & Hl & _).
  destruct (N.ltb_spec (N_of_ascii a) 128) as [Hlt|Hge].
  - left. unfold utf8_class in Hc. apply N.ltb_lt in Hlt as Hlt'. rewrite Hlt' in Hc.
    injection Hc as <- _ _. destruct c'; [by exists a|done].
  - right. destruct n as [|n].
    + unfold utf8_class in Hc. apply N.ltb_ge in Hge. rewrite Hge in Hc.
      repeat case_match; simplify_eq.
    + destruct c' as [|b c']; [done|]. by exists a, b, c'.
Qed.

Lemma quote_ascii_parse (f : nat) (a : ascii) (t : string) :
  (N_of_ascii a < 128)%N →
  parse_str (S f) (quote_ascii a +:+ t) = prepend (String a "") (parse_str f t).
Proof.
  intros Ha. destruct a as [[] [] [] [] [] [] [] []];
    first [reflexivity | exfalso; vm_compute in Ha; discriminate].
Qed.

Lemma quote_unit_parse (f : nat) (s c r t : string) :
  DecodeRune s = Some (c, r) →
  parse_str (S f) (quote_unit (URune c) +:+ t) = prepend c (parse_str f t).
Proof.
  intros Hd. destruct (DecodeRune_spec _ _ _ Hd) as (_ & _ & Hr).
  destruct (DecodeRune_cases _ _ _ Hd) as [(a & -> & Ha)|(a & b & c' & -> & Ha)].
  - by apply quote_ascii_parse.
  - unfold quote_unit.
    destruct (String.eqb_spec (String a (String b c')) line_sep) as [->|_]; [done|].
    destruct (String.eqb_spec (String a (String b c')) para_sep) as [->|_]; [done|].
    specialize (Hr t). cbn [String.append] in *. cbn [parse_str].
    destruct (Ascii.eqb_spec a dquote) as [->|_]; [done|].
    destruct (Ascii.eqb_spec a backslash) as [->|_]; [done|].
    destruct (N.ltb_spec (N_of_ascii a) 32); [lia|]. by rewrite Hr.
Qed.

Lemma quote_unit_length (s c r : string) :
  DecodeRune s = Some (c, r) → 1 ≤ String.length (quote_unit (URune c)).
Proof.
  intros Hd. destruct (quote_unit (URune c)) as [|b t] eqn:E; [|simpl; lia].
  exfalso.
  destruct (DecodeRune_cases _ _ _ Hd) as [(a & -> & Ha)|(a & b & c' & -> & Ha)].
  - simpl in E. unfold quote_ascii in E. repeat case_match; done.
  - unfold quote_unit in E. repeat case_match; done.
Qed.

Lemma parse_str_quote (fuel : nat) (s rest : string) :
  String.length (sconcat (quote_unit <$> utf8_units s)) < fuel →
  parse_str fuel (sconcat (quote_unit <$> utf8_units s) +:+ String dquote rest)
  = Some (ToValidUTF8 s, rest).
Proof.
  revert fuel. induction s as [|s c r Hd IH|a r Hd IH] using utf8_ind; intros fuel Hf.
  - destruct fuel; [simpl in Hf; lia|]. done.
  - rewrite (utf8_units_rune _ _ _ Hd) in Hf |- *. cbn [fmap list_fmap sconcat foldr] in *.
    fold (sconcat (quote_unit <$> utf8_units r)) in *.
    pose proof (quote_unit_length _ _ _ Hd). rewrite string_length_app in Hf.
    destruct fuel as [|fuel]; [lia|].
    rewrite string_app_assoc, (quote_unit_parse _ _ _ _ _ Hd), IH by lia.
    by rewrite (ToValidUTF8_rune _ _ _ Hd).
  - rewrite (utf8_units_bad _ _ Hd) in Hf |- *. cbn [fmap list_fmap sconcat foldr] in *.
    fold (sconcat (quote_unit <$> utf8_units r)) in *. rewrite string_length_app in Hf.
    destruct fuel as [|fuel]; [simpl in Hf; lia|].
    rewrite string_app_assoc.
    change (prepend fffd (parse_str fuel
       (sconcat (quote_unit <$> utf8_units r) +:+ String dquote rest))
       = Some (ToValidUTF8 (String a r), rest)).
    rewrite IH by (simpl in Hf; lia). by rewrite (ToValidUTF8_bad _ _ Hd).
Qed.

(** ** Reading a printed number *)

(** What may follow a number: nothing that would extend its literal. *)
Definition num_end (s : string) : bool :=
  match s with
  | EmptyString => true
  | String a _ =>
      negb (is_digit a) && negb (Ascii.eqb a ".")
      && negb (Ascii.eqb a "e" || Ascii.eqb a "E")
  end.

Lemma span_digits_stop (ds rest : string) :
  all_digits ds = true → span_digits rest = ("", rest) → span_digits (ds +:+ rest) = (ds, rest).
Proof.
  intros Hds Hr. induction ds as [|a ds IH]; simpl; [done|].
  simpl in Hds. destr. unfold is_digit. by rewrite H, IH.
Qed.

Lemma span_digits_all (ds rest : string) :
  all_digits ds = true → num_end rest = true → span_digits (ds +:+ rest) = (ds, rest).
Proof.
  intros Hds Hr. apply span_digits_stop; [done|]. destruct rest as [|b rest]; [done|].
  simpl in *. destr. apply negb_true_iff in H. by rewrite H.
Qed.

Lemma scan_frac_end (s : string) : num_end s = true → scan_frac s = Some ("", s).
Proof.
  destruct s as [|a s]; [done|]. simpl. intros H. destr.
  apply negb_true_iff in H1. by rewrite H1.
Qed.

Lemma scan_exp_end (s : string) : num_end s = true → scan_exp s = Some ("", s).
Proof.
  destruct s as [|a s]; [done|]. simpl. intros H. destr.
  apply negb_true_iff in H0. by rewrite H0.
Qed.

Lemma is_digit_digit (d : N) : (d < 10)%N → is_digit (digit d) = true.
Proof. intros H. unfold is_digit. by rewrite digit_val_digit. Qed.

Lemma digit_0_eqb (d : N) : (0 < d < 10)%N → Ascii.eqb (digit d) "0" = false.
Proof.
  intros H. destruct (Ascii.eqb_spec (digit d) "0") as [Heq|]; [|done].
  pose proof (digit_val_digit d) as Hd. rewrite Heq in Hd.
  assert (Some 0%N = Some d) as [= ?]; [apply Hd; lia|lia].
Qed.

(** The grammar of a number, with the exponent after a small [e]. *)
Definition int_part (s : string) : Prop :=
  s = "0" ∨ ∃ d ds, s = String (digit d) ds ∧ (0 < d < 10)%N ∧ all_digits ds = true.
Definition frac_part (s : string) : Prop :=
  s = "" ∨ ∃ a ds, s = String "." (String a ds) ∧ all_digits (String a ds) = true.
Definition exp_part (s : string) : Prop :=
  s = "" ∨ ∃ b a ds, s = String "e" (String b (String a ds)) ∧ (b = "+" ∨ b = "-")%char ∧
                     all_digits (String a ds) = true.

Definition json_number (lit : string) : Prop :=
  ∃ sg i f e, lit = sg +:+ (i +:+ (f +:+ e)) ∧ (sg = "" ∨ sg = "-") ∧
              int_part i ∧ frac_part f ∧ exp_part e.

Lemma scan_exp_part (e rest : string) :
  exp_part e → num_end rest = true → scan_exp (e +:+ rest) = Some (e, rest).
Proof.
  intros [->|(b & a & ds & -> & Hb & Hds)] Hr; [by apply scan_exp_end|].
  pose proof (span_digits_all (String a ds) rest Hds Hr) as Hs. cbn [String.append] in Hs.
  unfold scan_exp. cbn [String.append].
  by destruct Hb as [->| ->]; cbn [Ascii.eqb Bool.eqb orb]; rewrite Hs.
Qed.

Lemma scan_frac_part (f e rest : string) :
  frac_part f → exp_part e → num_end rest = true →
  scan_frac (f +:+ (e +:+ rest)) = Some (f, e +:+ rest).
Proof.
  intros Hf He Hr.
  assert (span_digits (e +:+ rest) = ("", e +:+ rest)) as Hse.
  { destruct He as [->|(b & a & ds & -> & _)]; [|done]. by apply (span_digits_all ""). }
  destruct Hf as [->|(a & ds & -> & Hds)].
  - destruct He as [->|(b & a & ds & -> & _)]; [by apply scan_frac_end|done].
  - pose proof (span_digits_stop (String a ds) _ Hds Hse) as Hs. cbn [String.append] in Hs.
    unfold scan_frac. cbn [String.append]. change (Ascii.eqb "." ".") with true. cbv iota.
    by rewrite Hs.
Qed.

Lemma scan_int_part (i t : string) :
  int_part i → span_digits t = ("", t) → scan_int (i +:+ t) = Some (i, t).
Proof.
  intros [->|(d & ds & -> & Hd & Hds)] Ht; [done|].
  unfold scan_int. cbn [String.append].
  by rewrite digit_0_eqb, is_digit_digit, span_digits_stop by (done || lia).
Qed.

Lemma scan_json_number (lit rest : string) :
  json_number lit → num_end rest = true → scan_number (lit +:+ rest) = Some (lit, rest).
Proof.
  intros (sg & i & f & e & -> & Hsg & Hi & Hf & He) Hr.
  pose proof (scan_frac_part f e rest Hf He Hr) as Hfr.
  assert (span_digits (f +:+ (e +:+ rest)) = ("", f +:+ (e +:+ rest))) as Hst.
  { destruct Hf as [->|(a & ds & -> & _)]; [|done].
    destruct He as [->|(b & a & ds & -> & _)]; [|done]. by apply (span_digits_all ""). }
  pose proof (scan_int_part i _ Hi Hst) as Hin. rewrite !string_app_assoc. unfold scan_number.
  assert (match sg +:+ (i +:+ (f +:+ (e +:+ rest))) with
          | "" => ("", sg +:+ (i +:+ (f +:+ (e +:+ rest))))
          | String a r => if Ascii.eqb a "-" then (String a "", r)
                          else ("", sg +:+ (i +:+ (f +:+ (e +:+ rest)))) end
          = (sg, i +:+ (f +:+ (e +:+ rest)))) as ->.
  { destruct Hsg as [->| ->]; [|done]. destruct Hi as [->|(d & ds & -> & Hd & _)]; [done|].
    cbn [String.append]. by rewrite digit_eqb by (done || lia). }
  by rewrite Hin, Hfr, scan_exp_part.
Qed.

Lemma json_number_format (n : N) : json_number (format_uint n).
Proof.
  exists "", (format_uint n), "", "". rewrite !string_app_nil_r.
  split_and!; [done|by left| |by left|by left]. apply format_uint_shape.
Qed.

(** A number starts with a digit or a minus sign. *)
Lemma json_number_head (lit : string) :
  json_number lit → ∃ a t, lit = String a t ∧ (a = "-"%char ∨ ∃ d, a = digit d ∧ (d < 10)%N).
Proof.
  intros (sg & i & f & e & -> & [->| ->] & Hi & _); [|by eexists _, _; split; [|left]].
  destruct Hi as [->|(d & ds & -> & Hd & _)]; eexists _, _; (split; [reflexivity|right]).
  - by exists 0%N.
  - exists d. split; [done|lia].
Qed.

(** ** Reading a printed document *)

(** The documents the source builds: every number is an unsigned decimal or a literal of
    the grammar. *)
#[warnings="-register-all"]
Inductive wf_json : json → Prop :=
  | wf_null : wf_json JNull
  | wf_bool b : wf_json (JBool b)
  | wf_num n : wf_json (JNum (format_uint n))
  | wf_lit lit : json_number lit → wf_json (JNum lit)
  | wf_str s : wf_json (JStr s)
  | wf_arr l : Forall wf_json l → wf_json (JArr l)
  | wf_obj fs : Forall (λ f, wf_json (f.2)) fs → wf_json (JObj fs).

(** Strings and keys as a reader sees them: valid UTF-8. *)
Fixpoint norm (j : json) : json :=
  match j with
  | JStr s => JStr (ToValidUTF8 s)
  | JArr l => JArr (map norm l)
  | JObj fs => JObj (map (λ f, (ToValidUTF8 (f.1), norm (f.2))) fs)
  | _ => j
  end.

Fixpoint jsize (j : json) : nat :=
  match j with
  | JArr l => S (list_sum (map (λ x, S (jsize x)) l))
  | JObj fs => S (list_sum (map (λ f, S (jsize (f.2))) fs))
  | _ => 1
  end.

Fixpoint all_ws (s : string) : bool :=
  match s with
  | EmptyString => true
  | String a r => is_ws a && all_ws r
  end.

Lemma skip_ws_app (w s : string) : all_ws w = true → skip_ws (w +:+ s) = skip_ws s.
Proof. induction w as [|a w IH]; simpl; [done|]. intros H. destr. by rewrite H, IH. Qed.

Lemma skip_ws_id (a : ascii) (s : string) : is_ws a = false → skip_ws (String a s) = String a s.
Proof. simpl. by intros ->. Qed.

(** A character that ends a value: white space, a comma or a closing bracket. *)
Definition is_end (a : ascii) : bool :=
  is_ws a || Ascii.eqb a "," || Ascii.eqb a "]" || Ascii.eqb a "}".

Lemma num_end_is_end (a : ascii) (s : string) : is_end a = true → num_end (String a s) = true.
Proof.
  intros Ha. destruct a as [[] [] [] [] [] [] [] []];
    first [reflexivity | exfalso; vm_compute in Ha; discriminate].
Qed.

Lemma num_end_ws (w : string) (a : ascii) (s : string) :
  all_ws w = true → is_end a = true → num_end (w +:+ String a s) = true.
Proof.
  intros Hw Ha. destruct w as [|b w]; [by apply num_end_is_end|].
  simpl in Hw. destr. apply num_end_is_end. unfold is_end. by rewrite H.
Qed.

(** The first character of a printed value starts a value. *)
Definition starts_value (a : ascii) : bool := negb (is_end a).

Lemma starts_digit (d : N) : (d < 10)%N → starts_value (digit d) = true.
Proof.
  intros H.
  assert (d = 0 ∨ d = 1 ∨ d = 2 ∨ d = 3 ∨ d = 4 ∨ d = 5 ∨ d = 6 ∨ d = 7 ∨ d = 8 ∨ d = 9)%N
    as Hc by lia.
  repeat destruct Hc as [->|Hc]; try reflexivity. by rewrite Hc.
Qed.

Lemma render_head (nl : nat → string) (sp : string) (d : nat) (j : json) :
  wf_json j → ∃ a t, render nl sp d j = String a t ∧ starts_value a = true.
Proof.
  intros []; cbn [render].
  - eexists _, _; split; reflexivity.
  - destruct b; eexists _, _; split; reflexivity.
  - destruct (format_uint_digit n) as (k & ds & -> & ? & _).
    eexists _, _. split; [done|by apply starts_digit].
  - destruct (json_number_head lit) as (a & t & -> & Ha); [done|]. eexists _, _. split; [done|].
    destruct Ha as [->|(k & -> & Hk)]; [done|by apply starts_digit].
  - eexists _, _; split; reflexivity.
  - destruct l; eexists _, _; split; reflexivity.
  - destruct fs; eexists _, _; split; reflexivity.
Qed.

Lemma parse_value_ws (fuel : nat) (w s : string) :
  all_ws w = true → parse_value fuel (w +:+ s) = parse_value fuel s.
Proof. intros Hw. destruct fuel; [done|]. cbn [parse_value]. by rewrite skip_ws_app. Qed.

Lemma parse_elems_ws (fuel : nat) (w s : string) :
  all_ws w = true → parse_elems fuel (w +:+ s) = parse_elems fuel s.
Proof. intros Hw. destruct fuel; [done|]. cbn [parse_elems]. by rewrite parse_value_ws. Qed.

Lemma parse_members_ws (fuel : nat) (w s : string) :
  all_ws w = true → parse_members fuel (w +:+ s) = parse_members fuel s.
Proof. intros Hw. destruct fuel; [done|]. cbn [parse_members]. by rewrite skip_ws_app. Qed.

Lemma starts_value_neq (a : ascii) :
  starts_value a = true →
  is_ws a = false ∧ Ascii.eqb a "]" = false ∧ Ascii.eqb a "}" = false.
Proof.
  unfold starts_value, is_end. rewrite negb_true_iff. intros H. by destr.
Qed.

Lemma jsize_pos (j : json) : 1 ≤ jsize j.
Proof. destruct j; simpl; lia. Qed.

Lemma parse_str_literal (s rest : string) :
  let t := sconcat (quote_unit <$> utf8_units s) +:+ (String dquote "" +:+ rest) in
  parse_str (String.length t) t = Some (ToValidUTF8 s, rest).
Proof.
  cbn zeta. apply parse_str_quote. rewrite !string_length_app. simpl. lia.
Qed.

Definition tail_string (s : string) : string :=
  match s with String _ t => t | EmptyString => "" end.

Lemma join_map_cons {A} (sep : string) (f : A → string) (x y : A) (l : list A) :
  join sep (map f (x :: y :: l)) = f x +:+ (sep +:+ join sep (map f (y :: l))).
Proof. done. Qed.

Section parse_render.
Context (nl : nat → string) (sp : string).
Hypothesis nl_ws : ∀ d, all_ws (nl d) = true.
Hypothesis sp_ws : all_ws sp = true.

Definition reads_back (j : json) : Prop :=
  ∀ d fuel rest, jsize j ≤ fuel → num_end rest = true →
    parse_value fuel (render nl sp d j +:+ rest) = Some (norm j, rest).

Lemma reads_back_num (lit : string) : json_number lit → reads_back (JNum lit).
Proof using.
  intros Hlit d [|f] rest Hf Hr; [simpl in Hf; lia|]. cbn [render parse_value].
  pose proof (scan_json_number lit rest Hlit Hr) as Hscan.
  destruct (json_number_head lit Hlit) as (a & t & -> & Ha). cbn [String.append] in Hscan |- *.
  destruct Ha as [->|(k & -> & Hk)].
  - rewrite skip_ws_id by done. cbn [Ascii.eqb Bool.eqb HasPrefix andb dquote]. by rewrite Hscan.
  - pose proof (starts_value_neq _ (starts_digit k Hk)) as (Hws & _ & _).
    rewrite (skip_ws_id _ _ Hws).
    rewrite !digit_eqb by done. cbn [HasPrefix]. rewrite !digit_eqb by done.
    cbn [andb]. by rewrite Hscan.
Qed.

Lemma reads_back_str (s : string) : reads_back (JStr s).
Proof using.
  intros d [|f] rest Hf Hr; [simpl in Hf; lia|]. cbn [render].
  unfold quote. cbn [String.append parse_value].
  rewrite skip_ws_id by done. rewrite Ascii.eqb_refl, string_app_assoc.
  by rewrite parse_str_literal.
Qed.

(** The elements of an array, up to its closing bracket. *)
Lemma parse_elems_render (d : nat) (l : list json) (fuel : nat) (w rest : string) :
  l ≠ [] → Forall reads_back l → all_ws w = true →
  list_sum (map (λ x, S (jsize x)) l) ≤ fuel →
  parse_elems fuel (join ("," +:+ nl d) (map (render nl sp d) l) +:+ (w +:+ ("]" +:+ rest)))
  = Some (map norm l, rest).
Proof using nl_ws.
  intros Hne Hall Hw. revert fuel. induction Hall as [|x l Hx Hall IH]; intros fuel Hf; [done|].
  simpl in Hf. destruct fuel as [|fuel]; [lia|].
  destruct l as [|y l].
  - cbn [map join parse_elems]. rewrite Hx; [|simpl in *; lia|by apply num_end_ws].
    by rewrite skip_ws_app.
  - rewrite join_map_cons, !string_app_assoc. cbn [parse_elems].
    rewrite Hx; [|lia|done]. cbn [String.append skip_ws].
    change (is_ws ",") with false. cbn [Ascii.eqb Bool.eqb].
    rewrite parse_elems_ws by done. rewrite IH; [done..|simpl in *; lia].
Qed.

Definition render_member (d : nat) (f : string * json) : string :=
  quote (f.1) +:+ (":" +:+ (sp +:+ render nl sp d (f.2))).

Lemma parse_member_render (d fuel : nat) (f : string * json) (rest : string) :
  reads_back (f.2) → jsize (f.2) ≤ fuel → num_end rest = true →
  ∃ r1 r2,
    render_member d f +:+ rest = String dquote r1 ∧
    parse_str (String.length r1) r1 = Some (ToValidUTF8 (f.1), String ":" r2) ∧
    parse_value fuel r2 = Some (norm (f.2), rest).
Proof using nl_ws sp_ws.
  intros Hv Hf Hr. unfold render_member, quote. rewrite !string_app_assoc.
  cbn [String.append]. eexists _, _. split; [reflexivity|]. split.
  - rewrite !string_app_assoc. cbn [String.append]. apply parse_str_quote.
    rewrite string_length_app. simpl. lia.
  - rewrite parse_value_ws by done. by apply Hv.
Qed.

(** The members of an object, up to its closing brace. *)
Lemma parse_members_render (d : nat) (l : list (string * json)) (fuel : nat) (w rest : string) :
  l ≠ [] → Forall (λ f, reads_back (f.2)) l → all_ws w = true →
  list_sum (map (λ f, S (jsize (f.2))) l) ≤ fuel →
  parse_members fuel (join ("," +:+ nl d) (map (render_member d) l) +:+ (w +:+ ("}" +:+ rest)))
  = Some (map (λ f, (ToValidUTF8 (f.1), norm (f.2))) l, rest).
Proof using nl_ws sp_ws.
  intros Hne Hall Hw. revert fuel. induction Hall as [|x l Hx Hall IH]; intros fuel Hf; [done|].
  simpl in Hf. destruct fuel as [|fuel]; [lia|].
  destruct l as [|y l].
  - cbn [map join].
    destruct (parse_member_render d fuel x (w +:+ ("}" +:+ rest)))
      as (r1 & r2 & -> & Hk & Hv); [done|simpl in *; lia|by apply num_end_ws|].
    cbn [parse_members]. rewrite skip_ws_id, Ascii.eqb_refl, Hk by done.
    rewrite skip_ws_id by done. cbn [Ascii.eqb Bool.eqb]. rewrite Hv.
    by rewrite skip_ws_app.
  - rewrite join_map_cons, !string_app_assoc.
    destruct (parse_member_render d fuel x ("," +:+ (nl d +:+ (
        join ("," +:+ nl d) (map (render_member d) (y :: l)) +:+ (w +:+ ("}" +:+ rest))))))
      as (r1 & r2 & -> & Hk & Hv); [done|simpl in *; lia|done|].
    cbn [parse_members]. rewrite skip_ws_id, Ascii.eqb_refl, Hk by done.
    rewrite skip_ws_id by done. cbn [Ascii.eqb Bool.eqb]. rewrite Hv.
    cbn [String.append skip_ws]. change (is_ws ",") with false. cbn [Ascii.eqb Bool.eqb].
    rewrite parse_members_ws by done. rewrite IH; [done..|simpl in *; lia].
Qed.

Lemma join_head {A} (sep : string) (f : A → string) (x : A) (l : list A) (a : ascii) (t : string) :
  f x = String a t → ∃ t', join sep (map f (x :: l)) = String a t'.
Proof using. intros Hx. destruct l; cbn [map join]; rewrite Hx; simpl; eauto. Qed.

Lemma render_reads_back (j : json) : wf_json j → reads_back j.
Proof using nl_ws sp_ws.
  induction j as [|b|lit|s|l IH|fs IH] using json_ind'; intros Hwf.
  - intros d [|f] rest Hf Hr; [simpl in Hf; lia|]. reflexivity.
  - intros d [|f] rest Hf Hr; [simpl in Hf; lia|]. by destruct b.
  - apply reads_back_num. inversion Hwf; subst; [apply json_number_format|done].
  - apply reads_back_str.
  - intros d [|f] rest Hf Hr; [simpl in Hf; lia|]. inversion Hwf as [| | | | |? Hl|]; subst.
    destruct l as [|x l]; [done|].
    assert (Forall reads_back (x :: l)) as Hall.
    { rewrite Forall_forall in IH, Hl |- *. auto. }
    destruct (render_head nl sp (S d) x) as (a & t & Hx & Ha); [by inversion Hl|].
    destruct (join_head ("," +:+ nl (S d)) (render nl sp (S d)) x l a t Hx) as [t' Ht'].
    destruct (starts_value_neq a Ha) as (Hws & Hb & _).
    pose proof (parse_elems_render (S d) (x :: l) f (nl d) rest ltac:(done) Hall (nl_ws d)) as Hp.
    cbn [render]. rewrite !string_app_assoc, (string_app_1 "["). cbn [parse_value].
    rewrite skip_ws_id by done. cbn [Ascii.eqb Bool.eqb dquote].
    rewrite skip_ws_app, parse_elems_ws by done.
    rewrite Hp by (simpl in Hf |- *; lia). rewrite Ht'. cbn [String.append].
    by rewrite skip_ws_id, Hb.
  - intros d [|f] rest Hf Hr; [simpl in Hf; lia|]. inversion Hwf as [| | | | | |? Hl]; subst.
    destruct fs as [|x l]; [done|].
    assert (Forall (λ g, reads_back (g.2)) (x :: l)) as Hall.
    { rewrite Forall_forall in IH, Hl |- *. auto. }
    pose proof (parse_members_render (S d) (x :: l) f (nl d) rest ltac:(done) Hall (nl_ws d)) as Hp.
    cbn [render]. rewrite !string_app_assoc, (string_app_1 "{"). cbn [parse_value].
    rewrite skip_ws_id by done. cbn [Ascii.eqb Bool.eqb dquote].
    fold (render_member (S d)).
    rewrite skip_ws_app, parse_members_ws by done.
    rewrite Hp by (simpl in Hf |- *; lia).
    destruct (join_head ("," +:+ nl (S d)) (render_member (S d)) x l dquote
      (tail_string (render_member (S d) x))) as [t' Ht']; [done|].
    rewrite Ht'. done.
Qed.
End parse_render.

(** Every node of a document has at least one character of its text. *)
Lemma join_length (sep : string) (l : list string) :
  1 ≤ String.length sep → list_sum (map (λ s, S (String.length s)) l) ≤ S (String.length (join sep l)).
Proof.
  intros Hs. induction l as [|x l IH]; [simpl; lia|].
  destruct l as [|y l]; [simpl; lia|].
  change (join sep (x :: y :: l)) with (x +:+ (sep +:+ join sep (y :: l))).
  rewrite !string_length_app. simpl in IH |- *. lia.
Qed.

Lemma list_sum_le {A} (f g : A → nat) (l : list A) :
  Forall (λ x, f x ≤ g x) l → list_sum (map f l) ≤ list_sum (map g l).
Proof. induction 1; simpl; lia. Qed.

Lemma jsize_length (nl : nat → string) (sp : string) (j : json) (d : nat) :
  wf_json j → jsize j ≤ String.length (render nl sp d j).
Proof.
  revert d. induction j as [|b|lit|s|l IH|fs IH] using json_ind'; intros d Hwf;
    try (destruct (render_head nl sp d _ Hwf) as (a & t & -> & _); simpl; lia).
  - inversion Hwf as [| | | | |? Hl|]; subst. destruct l as [|x l]; [simpl; lia|].
    cbn [render jsize]. rewrite !string_length_app.
    pose proof (join_length ("," +:+ nl (S d)) (map (render nl sp (S d)) (x :: l))
                  ltac:(simpl; lia)) as Hj.
    rewrite map_map in Hj. simpl (String.length "["). simpl (String.length "]").
    assert (list_sum (map (λ y, S (jsize y)) (x :: l))
            ≤ list_sum (map (λ y, S (String.length (render nl sp (S d) y))) (x :: l))); [|lia].
    apply list_sum_le. rewrite Forall_forall in IH, Hl |- *. intros y Hy.
    apply le_n_S, IH; auto.
  - inversion Hwf as [| | | | | |? Hl]; subst. destruct fs as [|x l]; [simpl; lia|].
    cbn [render jsize]. fold (render_member nl sp (S d)). rewrite !string_length_app.
    pose proof (join_length ("," +:+ nl (S d)) (map (render_member nl sp (S d)) (x :: l))
                  ltac:(simpl; lia)) as Hj.
    rewrite map_map in Hj. simpl (String.length "{"). simpl (String.length "}").
    assert (list_sum (map (λ f, S (jsize (f.2))) (x :: l))
            ≤ list_sum (map (λ f, S (String.length (render_member nl sp (S d) f))) (x :: l)));
      [|unfold render_member in *; lia].
    apply list_sum_le. rewrite Forall_forall in IH, Hl |- *. intros y Hy.
    apply le_n_S. unfold render_member. rewrite !string_length_app.
    pose proof (IH y Hy (S d) (Hl y Hy)). lia.
Qed.

Lemma parse_render (nl : nat → string) (sp rest : string) (j : json) :
  (∀ d, all_ws (nl d) = true) → all_ws sp = true → wf_json j → num_end rest = true →
  parse_value (S (String.length (render nl sp 0 j +:+ rest))) (render nl sp 0 j +:+ rest)
  = Some (norm j, rest).
Proof.
  intros Hnl Hsp Hwf Hr. apply render_reads_back; try done.
  pose proof (jsize_length nl sp j 0 Hwf). rewrite string_length_app. lia.
Qed.

Lemma json_parse_render (nl : nat → string) (sp : string) (j : json) :
  (∀ d, all_ws (nl d) = true) → all_ws sp = true → wf_json j →
  json_parse (render nl sp 0 j) = Some (norm j).
Proof.
  intros Hnl Hsp Hwf. unfold json_parse.
  pose proof (parse_render nl sp "" j Hnl Hsp Hwf eq_refl) as Hp.
  rewrite string_app_nil_r in Hp. by rewrite Hp.
Qed.

(** [Unmarshal] after [Marshal] and after [MarshalIndent], and a decoder on the
    text of an encoder. *)
Lemma json_parse_Marshal (j : json) :
  wf_json j → ∃ s, json_Marshal j = Ok s ∧ json_parse s = Some (norm j).
Proof. intros Hwf. eexists. split; [reflexivity|]. by apply json_parse_render. Qed.

Lemma spaces_ws (n : nat) : all_ws (spaces n) = true.
Proof. by induction n. Qed.

Lemma json_parse_MarshalIndent (j : json) :
  wf_json j → ∃ s, json_MarshalIndent j = Ok s ∧ json_parse s = Some (norm j).
Proof.
  intros Hwf. eexists. split; [reflexivity|]. apply json_parse_render; try done.
  intros d. simpl. apply spaces_ws.
Qed.

Lemma json_decode_first_Encode (j : json) :
  wf_json j → json_decode_first (json_Encode j) = Some (norm j).
Proof.
  intros Hwf. unfold json_decode_first, json_Encode.
  by rewrite (parse_render (λ _, "") "" (String "010" "") j).
Qed.

Lemma json_decode_first_Marshal (j : json) (s : string) :
  wf_json j → json_Marshal j = Ok s → json_decode_first s = Some (norm j).
Proof.
  intros Hwf [= <-]. unfold json_decode_first.
  pose proof (parse_render (λ _, "") "" "" j (λ _, eq_refl) eq_refl Hwf eq_refl) as Hp.
  rewrite string_app_nil_r in Hp. by rewrite Hp.
Qed.

#[export] Hint Constructors wf_json : paladin.
