(* ===== verification/JsonFields.v ===== *)
(** How [json.Unmarshal] fills a Go struct: the members of the object in the
    order of the text, each matched to a field by its name, a [null] leaving a
    scalar field as it was and a value of the wrong type failing the call. *)

From S2P Require Import Prelude GoStrings GoEncoding GoFmt GoJson.

Local Open Scope string_scope.
Local Open Scope nat_scope.

(** A Go [[]byte]: [None] is [nil]; a [nil] and an empty slice differ in JSON. *)
Abbreviation go_bytes := (option string).

(** [string(b)] *)
Definition bytes_to_string (b : go_bytes) : string := default "" b.

(** Field names match exactly or up to Unicode case folding; to an ASCII name
    only ASCII letters, U+017F (long s) and U+212A (Kelvin sign) can fold. *)
Definition upper (a : ascii) : ascii :=
  let b := N_of_ascii a in
  if (97 <=? b)%N && (b <=? 122)%N then ascii_of_N (b - 32) else a.

Fixpoint fold_name (s : string) : string :=
  match s with
  | String "197" (String "191" r) => String "S" (fold_name r)
  | String "226" (String "132" (String "170" r)) => String "K" (fold_name r)
  | String a r => String (upper a) (fold_name r)
  | EmptyString => EmptyString
  end.

Definition name_is (field key : string) : bool :=
  String.eqb key field || String.eqb (fold_name key) (fold_name field).

(** ** Fields *)

(** Unsigned and signed integers as [Marshal] writes them. *)
Definition json_uint (n : N) : json := JNum (format_uint n).
Definition json_int (z : Z) : json := JNum (format_int z).

Definition dec_string (v : json) (old : string) : option string :=
  match v with
  | JStr s => Some s
  | JNull => Some old
  | _ => None
  end.

Definition dec_uint64 (v : json) (old : N) : option N :=
  match v with
  | JNum lit => ParseUint lit
  | JNull => Some old
  | _ => None
  end.

(** An [int], an [int64] or a [time.Duration]. *)
Definition dec_int64 (v : json) (old : Z) : option Z :=
  match v with
  | JNum lit => Atoi lit
  | JNull => Some old
  | _ => None
  end.

Definition dec_byte (v : json) : option ascii :=
  match v with
  | JNum lit =>
      match ParseUint lit with
      | Some n => if (n <? 256)%N then Some (byte n) else None
      | None => None
      end
  | JNull => Some zero
  | _ => None
  end.

Fixpoint dec_byte_list (l : list json) : option string :=
  match l with
  | [] => Some ""
  | v :: l' =>
      match dec_byte v, dec_byte_list l' with
      | Some a, Some s => Some (String a s)
      | _, _ => None
      end
  end.

(** A [[]byte] field: base64 text, or an array of small numbers. *)
Definition dec_bytes (v : json) : option go_bytes :=
  match v with
  | JStr s => Some <$> b64_decode s
  | JArr l => Some <$> dec_byte_list l
  | JNull => Some None
  | _ => None
  end.

Fixpoint decode_fields {A} (set_field : string → json → A → option A)
    (fs : list (string * json)) (a : A) : option A :=
  match fs with
  | [] => Some a
  | (k, v) :: fs' =>
      match set_field k v a with
      | Some a' => decode_fields set_field fs' a'
      | None => None
      end
  end.

(** A struct: [null] leaves it as it was. *)
Definition decode_struct {A} (set_field : string → json → A → option A)
    (v : json) (a : A) : option A :=
  match v with
  | JNull => Some a
  | JObj fs => decode_fields set_field fs a
  | _ => None
  end.

(** A pointer to a struct: [null] makes it [nil], an object fills the struct it
    points to, a new one when it is [nil]. *)
Definition decode_ptr {A} (set_field : string → json → A → option A) (zero_val : A)
    (v : json) (p : option A) : option (option A) :=
  match v with
  | JNull => Some None
  | _ => Some <$> decode_struct set_field v (default zero_val p)
  end.

Fixpoint decode_list {A} (dec : json → option A) (l : list json) : option (list A) :=
  match l with
  | [] => Some []
  | v :: l' =>
      match dec v, decode_list dec l' with
      | Some a, Some s => Some (a :: s)
      | _, _ => None
      end
  end.

(** A slice: [null] makes it [nil] (no elements).  The slices decoded here are
    empty before; a member given twice, whose second array is decoded over the
    elements of the first, is not covered. *)
Definition decode_slice {A} (dec : json → option A) (v : json) : option (list A) :=
  match v with
  | JNull => Some []
  | JArr l => decode_list dec l
  | _ => None
  end.

(** An array of fixed length: what is there is decoded over the elements, which are
    zero where the text has fewer, and what is too much is skipped. *)
Fixpoint decode_array {A} (dec : json → A → option A) (zero_val : A) (l : list json) (old : list A)
    : option (list A) :=
  match old, l with
  | [], _ => Some []
  | _, [] => Some (map (λ _, zero_val) old)
  | a :: old', v :: l' =>
      match dec v a, decode_array dec zero_val l' old' with
      | Some b, Some s => Some (b :: s)
      | _, _ => None
      end
  end.

Definition dec_array {A} (dec : json → A → option A) (zero_val : A) (v : json) (old : list A)
    : option (list A) :=
  match v with
  | JNull => Some old
  | JArr l => decode_array dec zero_val l old
  | _ => None
  end.

Lemma decode_array_map {A} (dec : json → A → option A) (enc : A → json) (zero_val : A) (l old : list A) :
  (∀ a b, a ∈ l → dec (enc a) b = Some a) → length l = length old →
  decode_array dec zero_val (map enc l) old = Some l.
Proof.
  revert old. induction l as [|a l IH]; intros [|b old] H Hl; try done. simpl.
  rewrite H, IH; [done| |by injection Hl|]; [|by left]. intros. apply H. by right.
Qed.

Lemma dec_int64_format (z old : Z) :
  (- two63 ≤ z < two63)%Z → dec_int64 (json_int z) old = Some z.
Proof. apply Atoi_format_int. Qed.

Lemma json_number_int (z : Z) : json_number (format_int z).
Proof.
  unfold format_int. destruct (z <? 0)%Z; [|apply json_number_format].
  exists "-", (format_uint (Z.to_N (- z))), "", "". rewrite !string_app_nil_r.
  split_and!; [done|by right|apply format_uint_shape|by left|by left].
Qed.

Lemma decode_list_map {A B} (dec : json → option B) (enc : A → json) (f : A → B) (l : list A) :
  (∀ a, a ∈ l → dec (enc a) = Some (f a)) → decode_list dec (map enc l) = Some (map f l).
Proof.
  induction l as [|a l IH]; intros H; [done|]. simpl.
  rewrite H, IH by set_solver. done.
Qed.

Lemma dec_uint64_format (n old : N) :
  (n ≤ max_uint64)%N → dec_uint64 (JNum (format_uint n)) old = Some n.
Proof. apply ParseUint_format. Qed.
