(* ===== verification/GoFloat.v ===== *)
(** [float64] as text: the shortest decimal that reads back as the number, as
    [encoding/json] prints it, and [strconv.ParseFloat] of a JSON literal, which rounds to
    the nearest and a tie to the even mantissa. *)

From Stdlib Require Import SpecFloat.
From S2P Require Import Prelude GoStrings GoEncoding GoFmt FloatArith GoJson JsonFields.

Local Open Scope string_scope.
Local Open Scope N_scope.

(** ** Rounding *)

(** The float next to [a / b]: the exponent, above the least one, at which the quotient
    has 53 bits, and the mantissa rounded there. *)
Definition round_ratio (s : bool) (a b : N) : spec_float :=
  let A := a * 2 ^ 1074 in
  let e := N.log2 (A / b) - 52 in
  let q := div_even A (b * 2 ^ e) in
  let '(q, e) := if q =? 2 ^ 53 then (2 ^ 52, e + 1) else (q, e) in
  match q with
  | 0 => S754_zero s
  | N.pos m => if 2045 <? e then S754_infinity s else S754_finite s m (Z.of_N e - 1074)
  end.

(** The float next to [d * 10^k]. *)
Definition round_decimal (s : bool) (d : N) (k : Z) : spec_float :=
  if (0 <=? k)%Z then round_ratio s (d * 10 ^ Z.to_N k) 1
  else round_ratio s d (10 ^ Z.to_N (- k)).

(** ** The shortest decimal *)

Definition same_float (x y : spec_float) : bool :=
  match x, y with
  | S754_finite s m e, S754_finite s' m' e' => Bool.eqb s s' && Pos.eqb m m' && Z.eqb e e'
  | _, _ => false
  end.

(** How many digits [T] has, found from [i] digits upwards. *)
Fixpoint digits_from (T : N) (i fuel : nat) : nat :=
  match fuel with
  | O => i
  | S fuel' => if T <? 10 ^ N.of_nat i then i else digits_from T (S i) fuel'
  end.
Definition digits10 (T : N) : nat :=
  digits_from T (N.to_nat (3 * N.log2 T / 10)) (S (N.to_nat (N.log2 T))).

Section candidates.
Variable x : spec_float.
(** [x = W / (Y * 10^400)] but for the sign, and [W / Y] has [L] digits before the point. *)
Variables (W Y : N) (L : nat).

(** The nearest decimal of [n] digits that reads back as the number, if there is one:
    the nearest of all, or the one on the other side. *)
Definition candidate (n : nat) : option (N * Z) :=
  let D := Y * 10 ^ N.of_nat (L - n) in
  let k := (Z.of_nat L - Z.of_nat n - 400)%Z in
  let q := W / D in
  let c := div_even W D in
  let c' := if c =? q then q + 1 else q in
  if same_float (round_decimal false c k) x then Some (c, k)
  else if same_float (round_decimal false c' k) x then Some (c', k)
  else None.

Fixpoint shortest_from (n fuel : nat) : option (N * Z) :=
  match fuel with
  | O => None
  | S fuel' =>
      match candidate n with
      | Some (c, k) => Some (if c =? 10 ^ N.of_nat n then (1, (k + Z.of_nat n)%Z) else (c, k))
      | None => shortest_from (S n) fuel'
      end
  end.
End candidates.

Definition dec_W (m : positive) (e : Z) : N := N.pos m * 2 ^ Z.to_N e * 10 ^ 400.
Definition dec_Y (e : Z) : N := 2 ^ Z.to_N (- e).

(** Digits [d] and exponent [k] of the shortest [d * 10^k] that reads back as
    [m * 2^e]; 17 digits are enough. *)
Definition shortest (m : positive) (e : Z) : N * Z :=
  let W := dec_W m e in
  let Y := dec_Y e in
  default (0, 0%Z) (shortest_from (S754_finite false m e) W Y (digits10 (W / Y)) 1 17).

(** ** Printing *)

(** [strconv.FormatFloat(f, 'f', -1, 64)] of [d * 10^k] *)
Definition format_plain (d : N) (k : Z) : string :=
  let ds := format_uint d in
  let n := String.length ds in
  if (0 <=? k)%Z then ds +:+ repeat_char "0" (Z.to_nat k)
  else
    let f := Z.to_nat (- k) in
    if (f <? n)%nat then string_take (n - f) ds +:+ "." +:+ string_drop (n - f) ds
    else "0." +:+ repeat_char "0" (f - n) +:+ ds.

(** [strconv.FormatFloat(f, 'e', -1, 64)], with the zero that [encoding/json] takes out
    of an exponent of one digit taken out. *)
Definition format_exp (d : N) (k : Z) : string :=
  let ds := format_uint d in
  let x := (k + Z.of_nat (String.length ds) - 1)%Z in
  string_take 1 ds +:+ (if (String.length ds =? 1)%nat then "" else "." +:+ string_drop 1 ds)
  +:+ "e" +:+ (if (x <? 0)%Z then "-" else "+") +:+ format_uint (Z.abs_N x).

(** The number is at least [10^-6] and less than [10^21]. *)
Definition plain_range (m : positive) (e : Z) : bool :=
  let num := N.pos m * 2 ^ Z.to_N e in
  (dec_Y e <=? num * 10 ^ 6) && (num <? 10 ^ 21 * dec_Y e).

(** The literal [encoding/json] writes; infinities and no number are refused. *)
Definition json_float (x : spec_float) : res string :=
  match x with
  | S754_zero s => Ok (if s then "-0" else "0")
  | S754_finite s m e =>
      let '(d, k) := shortest m e in
      Ok ((if s then "-" else "") +:+ if plain_range m e then format_plain d k else format_exp d k)
  | S754_infinity s => Err (EMsg ("json: unsupported value: " +:+ if s then "-Inf" else "+Inf"))
  | S754_nan => Err (EMsg "json: unsupported value: NaN")
  end.

(** ** Reading *)

(** The digits with at most one point: their number, the exponent of its unit and
    what follows. *)
Fixpoint lit_mantissa (s : string) (acc : N) (k : Z) (dot : bool) : N * Z * string :=
  match s with
  | EmptyString => (acc, k, s)
  | String a r =>
      if Ascii.eqb a "." && negb dot then lit_mantissa r acc k true
      else match digit_val a with
           | Some d => lit_mantissa r (10 * acc + d) (if dot then k - 1 else k)%Z dot
           | None => (acc, k, s)
           end
  end.

(** The digits of an exponent; beyond five they are not looked at. *)
Fixpoint lit_exponent (s : string) (e : Z) : Z :=
  match s with
  | EmptyString => e
  | String a r => lit_exponent r (if (e <? 10000)%Z then (10 * e + Z.of_N (default 0%N (digit_val a)))%Z else e)
  end.

(** [strconv.ParseFloat(lit, 64)] of a literal of the JSON grammar. *)
Definition ParseFloat (lit : string) : spec_float :=
  let '(neg, s) := match lit with
                   | String "-" r => (true, r)
                   | _ => (false, lit)
                   end in
  let '(d, k, r) := lit_mantissa s 0 0 false in
  let x := match r with
           | String _ (String "-" ds) => (- lit_exponent ds 0)%Z
           | String _ (String "+" ds) => lit_exponent ds 0
           | String _ ds => lit_exponent ds 0
           | EmptyString => 0%Z
           end in
  round_decimal neg d (k + x).

(** A [float64] field: a number out of range is an error. *)
Definition dec_float64 (v : json) (old : spec_float) : option spec_float :=
  match v with
  | JNum lit => match ParseFloat lit with
                | S754_infinity _ => None
                | x => Some x
                end
  | JNull => Some old
  | _ => None
  end.

Example json_float_examples :
  json_float (float_div (float_of_int 1) (float_of_int 8)) = Ok "0.125" ∧
  json_float (float_div (float_of_int 1) (float_of_int 10)) = Ok "0.1" ∧
  json_float (float_of_int 100) = Ok "100" ∧
  json_float (S754_finite true 1 (-1074)) = Ok "-5e-324" ∧
  json_float (float_of_int (3 * 10 ^ 22)) = Ok "3e+22".
Proof. vm_compute. done. Qed.

Example ParseFloat_examples :
  ParseFloat "0.5" = S754_finite false 4503599627370496 (-53) ∧
  ParseFloat "-1e-400" = S754_zero true ∧ ParseFloat "1E309" = S754_infinity false ∧
  ParseFloat "2.4703282292062328e-324" = S754_finite false 1 (-1074) ∧
  ParseFloat "2.4703282292062327e-324" = S754_zero false ∧
  ParseFloat "1.7976931348623158e+308" = S754_finite false 9007199254740991 971.
Proof. vm_compute. done. Qed.

(** ** Lemmas *)

Lemma div_even_unique (a b q : N) : 2 * a < 2 * (q * b) + b → 2 * (q * b) < 2 * a + b → div_even a b = q.
Proof.
  intros H1 H2. assert (0 < b) as Hb by lia. unfold div_even.
  pose proof (N.div_mod a b) as Hd. pose proof (N.mod_lt a b) as Hm.
  revert Hd Hm. generalize (a / b), (a mod b). intros q' r Hd Hm.
  assert (q' = q ∨ q = q' + 1) as [->| ->] by nia.
  - destruct (N.ltb_spec (2 * r) b); [done|]. nia.
  - destruct (N.ltb_spec (2 * r) b); [nia|]. destruct (N.ltb_spec b (2 * r)); [done|nia].
Qed.

(** A float of 53 bits with its exponent counted from the least one. *)
Definition canonical (m : positive) (e : N) : Prop :=
  N.pos m < 2 ^ 53 ∧ (2 ^ 52 ≤ N.pos m ∨ e = 0) ∧ e ≤ 2045.

(** A quotient within half a unit of a float (a quarter below a power of two) is
    rounded to it. *)
Lemma round_ratio_near (s : bool) (a b e : N) (p : positive) :
  let m := N.pos p in
  let A := a * 2 ^ 1074 in
  let U := b * 2 ^ e in
  canonical p e → 0 < b →
  2 * A < 2 * (m * U) + U → 2 * (m * U) < 2 * A + U →
  (m = 2 ^ 52 → 0 < e → 4 * (m * U) < 4 * A + U) →
  round_ratio s a b = S754_finite s p (Z.of_N e - 1074).
Proof.
  intros m A U (Hm & Hn & He) Hb H1 H2 H3. fold m in Hm, Hn.
  unfold round_ratio. fold A. change (2 ^ 53) with (2 * 2 ^ 52) in *.
  assert (0 < 2 ^ e) as H2e by (apply N.neq_0_lt_0, N.pow_nonzero; lia).
  assert ((N.log2 (A / b) - 52 = e ∧ div_even A U = m) ∨
          (e ≠ 0 ∧ N.log2 (A / b) - 52 = e - 1 ∧ div_even A (b * 2 ^ (e - 1)) = 2 * 2 ^ 52 ∧ m = 2 ^ 52))
    as [[-> Hq]|(Hne & -> & Hq & Hm52)].
  - assert (∀ l, b * 2 ^ l ≤ A < b * (2 * 2 ^ l) → N.log2 (A / b) = l) as Hlog.
    { intros l [Hl1 Hl2]. apply N.log2_unique; [lia|]. rewrite N.pow_succ_r'.
      split; [apply N.div_le_lower_bound; lia|apply N.Div0.div_lt_upper_bound; lia]. }
    destruct (N.eq_dec e 0) as [->|Hne].
    + left. unfold U in *. rewrite N.pow_0_r, N.mul_1_r in *. split; [|by apply div_even_unique].
      assert (A / b < 2 * 2 ^ 52) as Hlt by (apply N.Div0.div_lt_upper_bound; nia).
      destruct (N.eq_0_gt_0_cases (A / b)) as [->|Hpos']; [done|].
      change (2 * 2 ^ 52) with (2 ^ 53) in Hlt. apply N.log2_lt_pow2 in Hlt; [lia|done].
    + destruct Hn as [Hn|]; [|done]. destruct (N.le_gt_cases (2 ^ 52 * U) A) as [Hge|Hlt].
      * left. split; [|by apply div_even_unique].
        rewrite (Hlog (52 + e)); [lia|]. rewrite N.pow_add_r. fold U. unfold U in *. nia.
      * right. assert (m = 2 ^ 52) as Hm52 by nia. specialize (H3 Hm52 ltac:(lia)).
        assert (U = 2 * (b * 2 ^ (e - 1))) as HU.
        { unfold U. replace e with (N.succ (e - 1)) at 1 by lia. rewrite N.pow_succ_r'. lia. }
        rewrite Hm52, HU in H1, H2, H3. pose proof Hlog as Hlog'. clear Hlog.
        split_and!; [done| | |done].
        2: apply div_even_unique; rewrite HU in Hlt; revert H1 H3 Hlt; generalize (b * 2 ^ (e - 1)); lia.
        rewrite (Hlog' (51 + e)); [lia|]. replace (51 + e) with (52 + (e - 1)) by lia.
        rewrite N.pow_add_r, (N.mul_shuffle3 2), !(N.mul_shuffle3 b). rewrite HU in Hlt.
        revert H3 Hlt. generalize (b * 2 ^ (e - 1)). clear. lia.
  - fold U. rewrite Hq. destruct (N.eqb_spec m (2 * 2 ^ 52)); [lia|]. unfold m.
    by destruct (N.ltb_spec 2045 e); [lia|].
  - rewrite Hq, N.eqb_refl, <- Hm52. unfold m. replace (e - 1 + 1) with e by lia.
    by destruct (N.ltb_spec 2045 e); [lia|].
Qed.

Lemma pow10_pos (n : N) : 0 < 10 ^ n.
Proof. apply N.neq_0_lt_0, N.pow_nonzero. lia. Qed.
Lemma pow2_pos (n : N) : 0 < 2 ^ n.
Proof. apply N.neq_0_lt_0, N.pow_nonzero. lia. Qed.

Lemma digits_from_spec (T : N) (fuel i : nat) :
  (∀ j, (j < i)%nat → 10 ^ N.of_nat j ≤ T) → T < 10 ^ N.of_nat (i + fuel) →
  let L := digits_from T i fuel in
  T < 10 ^ N.of_nat L ∧ ∀ j, (j < L)%nat → 10 ^ N.of_nat j ≤ T.
Proof.
  revert i. induction fuel as [|fuel IH]; intros i Hlow Hup; cbn [digits_from].
  { rewrite Nat.add_0_r in Hup. done. }
  destruct (N.ltb_spec T (10 ^ N.of_nat i)) as [Hlt|Hge]; [done|].
  apply IH.
  - intros j Hj. destruct (decide (j = i)) as [->|]; [done|]. apply Hlow. lia.
  - by rewrite Nat.add_succ_comm.
Qed.

Lemma digits10_spec (T : N) :
  0 < T → T < 10 ^ N.of_nat (digits10 T) ∧ ∀ j, (j < digits10 T)%nat → 10 ^ N.of_nat j ≤ T.
Proof.
  intros HT. destruct (N.log2_spec T HT) as [Hl Hu]. apply digits_from_spec.
  - intros j Hj. etrans; [|exact Hl].
    destruct (N.le_gt_cases (10 ^ N.of_nat j) (2 ^ N.log2 T)) as [|Hgt]; [done|exfalso].
    apply (N.pow_lt_mono_l _ _ 10) in Hgt; [|done]. rewrite <- !N.pow_mul_r in Hgt.
    assert (10 ^ (N.of_nat j * 10) ≤ 2 ^ (N.log2 T * 10)) as Hle; [|lia].
    transitivity (10 ^ (3 * N.log2 T)).
    + apply N.pow_le_mono_r; [done|]. pose proof (N.Div0.mul_div_le (3 * N.log2 T) 10). lia.
    + rewrite (N.mul_comm _ 10), !N.pow_mul_r. by apply N.pow_le_mono_l.
  - eapply N.lt_le_trans; [exact Hu|]. transitivity (10 ^ N.succ (N.log2 T)).
    + by apply N.pow_le_mono_l.
    + apply N.pow_le_mono_r; [done|]. rewrite Nat2N.inj_add, Nat2N.inj_succ, !N2Nat.id.
      generalize ((3 * N.log2 T) `div` 10). lia.
Qed.

(** A decimal within [1 / (2 * 10^16)] of a float is read as the float. *)
Lemma round_decimal_near (s : bool) (p : positive) (e : N) (c W Y D : N) (k : Z) :
  let m := N.pos p in
  canonical p e → 0 < Y → 0 < W →
  W * 2 ^ 1074 = m * 2 ^ e * Y →
  (if (0 <=? k)%Z then Y * 10 ^ Z.to_N k = D else D * 10 ^ Z.to_N (- k) = Y) →
  2 * W ≤ 2 * (c * D) + D → 2 * (c * D) ≤ 2 * W + D → D * 10 ^ 16 ≤ W →
  round_decimal s c k = S754_finite s p (Z.of_N e - 1074).
Proof.
  intros m Hcan HY HW Hval Hk H1 H2 HD.
  assert (∃ a b, 0 < b ∧ a * Y = b * (c * D) ∧ round_decimal s c k = round_ratio s a b)
    as (a & b & Hb & Hab & ->).
  { unfold round_decimal. destruct (0 <=? k)%Z; rewrite <- Hk.
    - exists (c * 10 ^ Z.to_N k), 1. split_and!; [done|ring|done].
    - exists c, (10 ^ Z.to_N (- k)). split_and!; [apply pow10_pos|ring|done]. }
  assert (∃ P w x d, P = 2 ^ e * Y ∧ w = W * 2 ^ 1074 ∧ x = c * D * 2 ^ 1074 ∧ d = D * 2 ^ 1074)
    as (P & w & x & d & HP & Hw & Hx & Hd) by eauto 10.
  assert (w = m * P) as HwP by (rewrite Hw, Hval, HP; ring).
  assert (a * 2 ^ 1074 * Y = b * x) as EA by (rewrite Hx, N.mul_shuffle0, Hab; ring).
  assert (b * 2 ^ e * Y = b * P) as EU by (rewrite HP; ring).
  assert (m * (b * 2 ^ e) * Y = b * w) as EM by (rewrite <- N.mul_assoc, EU, HwP; ring).
  assert (2 * w ≤ 2 * x + d) as Hw1.
  { rewrite Hw, Hx, Hd, !N.mul_assoc, <- N.mul_add_distr_r. apply N.mul_le_mono_r. lia. }
  assert (2 * x ≤ 2 * w + d) as Hw2.
  { rewrite Hw, Hx, Hd, !N.mul_assoc, <- N.mul_add_distr_r. apply N.mul_le_mono_r. lia. }
  assert (d * 10 ^ 16 ≤ w) as Hw3.
  { rewrite Hw, Hd, N.mul_shuffle0. by apply N.mul_le_mono_r. }
  assert (0 < P) as HP0 by (rewrite HP; pose proof (pow2_pos e); lia).
  pose proof Hcan as (Hm & _ & _). fold m in Hm.
  assert (d < P) as HdP.
  { assert (m * P < 10 ^ 16 * P); [|lia]. apply N.mul_lt_mono_pos_r; [done|]. lia. }
  clear Hw Hx Hd HP Hval Hk H1 H2 HD.
  assert (∀ u v, u * Y < v * Y → u < v) as Hcancel by (intros u v; by apply N.mul_lt_mono_pos_r).
  apply round_ratio_near; [done|done|..]; fold m.
  - apply Hcancel. rewrite N.mul_add_distr_r, <- !(N.mul_assoc 2), EA, EM, EU.
    clear -Hb Hw2 HdP. nia.
  - apply Hcancel. rewrite N.mul_add_distr_r, <- !(N.mul_assoc 2), EA, EM, EU.
    clear -Hb Hw1 HdP. nia.
  - intros Hm52 _. apply Hcancel. rewrite N.mul_add_distr_r, <- !(N.mul_assoc 4), EA, EM, EU.
    assert (2 * d < P) as HdP'.
    { assert (2 * m * P < 10 ^ 16 * P); [|lia]. apply N.mul_lt_mono_pos_r; [done|]. lia. }
    clear -Hb Hw1 HdP'. nia.
Qed.

Lemma same_float_eq (x y : spec_float) : same_float x y = true → x = y.
Proof.
  destruct x as [| | |s m e], y as [| | |s' m' e']; try done. simpl. intros H. destr.
  apply eqb_prop in H. apply Pos.eqb_eq in H1. apply Z.eqb_eq in H0. congruence.
Qed.

Lemma same_float_refl (s : bool) (m : positive) (e : Z) :
  same_float (S754_finite s m e) (S754_finite s m e) = true.
Proof. simpl. by rewrite eqb_reflx, Pos.eqb_refl, Z.eqb_refl. Qed.

(** The decimal found reads back as the number, *)
Lemma shortest_from_reads_back (x : spec_float) (W Y : N) (L n fuel : nat) (d : N) (k : Z) :
  shortest_from x W Y L n fuel = Some (d, k) →
  ∃ c j, round_decimal false c j = x ∧
    ((d, k) = (c, j) ∨ ∃ i, c = 10 ^ N.of_nat i ∧ (d, k) = (1, (j + Z.of_nat i)%Z)).
Proof.
  revert n. induction fuel as [|fuel IH]; intros n; cbn [shortest_from]; [done|].
  destruct (candidate x W Y L n) as [[c j]|] eqn:Hc; [|by apply IH].
  assert (round_decimal false c j = x) as Hr.
  { unfold candidate in Hc. cbv zeta in Hc.
    repeat (case_match; [simplify_eq; by apply same_float_eq|]). done. }
  intros [= Hd]. exists c, j. split; [done|].
  destruct (N.eqb_spec c (10 ^ N.of_nat n)) as [->|]; [|left; congruence].
  right. exists n. split; [done|congruence].
Qed.

(** and one is found among those of 17 digits at the latest. *)
Lemma shortest_from_finds (x : spec_float) (W Y : N) (L n fuel : nat) (i : nat) :
  (n ≤ i < n + fuel)%nat → is_Some (candidate x W Y L i) → is_Some (shortest_from x W Y L n fuel).
Proof.
  revert n. induction fuel as [|fuel IH]; intros n Hi Hc; [lia|]. cbn [shortest_from].
  destruct (decide (n = i)) as [->|Hne].
  - destruct Hc as [[c j] ->]. by eexists.
  - destruct (candidate x W Y L n) as [[c j]|]; [by eexists|]. apply IH; [lia|done].
Qed.

Lemma candidate_17 (m : positive) (e : Z) :
  canonical m (Z.to_N (e + 1074)) → (-1074 ≤ e)%Z →
  let W := dec_W m e in
  let Y := dec_Y e in
  is_Some (candidate (S754_finite false m e) W Y (digits10 (W / Y)) 17).
Proof.
  intros Hcan He W Y. set (L := digits10 (W / Y)).
  assert (0 < Y) as HY by apply pow2_pos.
  assert (W * 2 ^ 1074 = N.pos m * 2 ^ Z.to_N (e + 1074) * (Y * 10 ^ 400)) as Hval.
  { unfold W, Y, dec_W, dec_Y.
    assert (2 ^ Z.to_N e * 2 ^ 1074 = 2 ^ Z.to_N (e + 1074) * 2 ^ Z.to_N (- e)) as Hp.
    { rewrite <- !N.pow_add_r. f_equal. lia. }
    rewrite (N.mul_shuffle0 _ (10 ^ 400)), <- (N.mul_assoc (N.pos m)), Hp. ring. }
  assert (10 ^ 76 * Y ≤ W) as HWY.
  { unfold W, Y, dec_W, dec_Y. 
    assert (2 ^ Z.to_N (- e) ≤ 2 ^ Z.to_N e * 2 ^ 1074) as Hp.
    { rewrite <- N.pow_add_r. apply N.pow_le_mono_r; lia. }
    assert (10 ^ 76 * 2 ^ 1074 ≤ 10 ^ 400) as H10 by (vm_compute; discriminate).
    transitivity (10 ^ 76 * (2 ^ Z.to_N e * 2 ^ 1074)); [by apply N.mul_le_mono_l|].
    rewrite N.mul_shuffle3. transitivity (2 ^ Z.to_N e * 10 ^ 400); [by apply N.mul_le_mono_l|].
    rewrite <- N.mul_assoc. generalize (2 ^ Z.to_N e * 10 ^ 400). clear. intros. nia. }
  assert (0 < W / Y) as HT by (apply N.div_str_pos; clear -HWY HY; lia).
  destruct (digits10_spec (W / Y) HT) as [Hup Hlow]. fold L in Hup, Hlow.
  assert (17 ≤ L)%nat as HL.
  { destruct (le_gt_dec 17 L) as [|Hgt]; [done|exfalso].
    assert (10 ^ 76 ≤ W / Y) by (apply N.div_le_lower_bound; lia).
    assert (10 ^ N.of_nat L ≤ 10 ^ 76) by (apply N.pow_le_mono_r; lia). lia. }
  set (D := Y * 10 ^ N.of_nat (L - 17)).
  assert (0 < D) as HD by (apply N.mul_pos_pos; [done|apply pow10_pos]).
  destruct (div_even_near W D HD) as [Hn1 Hn2].
  unfold candidate. fold D. cbv zeta.
  rewrite (round_decimal_near false m (Z.to_N (e + 1074)) (div_even W D) W (Y * 10 ^ 400) D);
    [|done| | |exact Hval| |lia|lia|].
  - replace (Z.of_N (Z.to_N (e + 1074)) - 1074)%Z with e by lia.
    rewrite same_float_refl. by eexists.
  - apply N.mul_pos_pos; [done|apply pow10_pos].
  - eapply N.lt_le_trans; [|exact HWY]. apply N.mul_pos_pos; [apply pow10_pos|done].
  - assert (∀ a b, 10 ^ a * 10 ^ b = 10 ^ (a + b)) as Hp by (intros; by rewrite N.pow_add_r).
    unfold D. destruct (Z.leb_spec 0 (Z.of_nat L - Z.of_nat 17 - 400));
      rewrite <- N.mul_assoc, Hp; do 2 f_equal; lia.
  - transitivity (Y * (W / Y)); [|apply N.Div0.mul_div_le].
    unfold D. rewrite <- N.mul_assoc, <- N.pow_add_r. replace (N.of_nat (L - 17) + 16) with (N.of_nat (L - 1)) by lia. apply N.mul_le_mono_l, Hlow. lia.
Qed.

Lemma div_even_scale (a b c : N) : 0 < b → 0 < c → div_even (a * c) (b * c) = div_even a b.
Proof.
  intros Hb Hc. unfold div_even. rewrite N.Div0.div_mul_cancel_r, N.Div0.mul_mod_distr_r by lia.
  rewrite !(N.mul_assoc 2).
  assert (∀ u v, (u * c <? v * c) = (u <? v)) as Hlt.
  { intros u v. destruct (N.ltb_spec u v), (N.ltb_spec (u * c) (v * c)); try done; nia. }
  by rewrite !Hlt.
Qed.

Lemma round_ratio_scale (s : bool) (a b c : N) :
  0 < b → 0 < c → round_ratio s (a * c) (b * c) = round_ratio s a b.
Proof.
  intros Hb Hc. unfold round_ratio. rewrite (N.mul_shuffle0 a c).
  rewrite N.Div0.div_mul_cancel_r by lia. set (e := N.log2 _ - 52).
  rewrite (N.mul_shuffle0 b c), div_even_scale; [done| |done]. pose proof (pow2_pos e). nia.
Qed.

Lemma round_decimal_shift (s : bool) (d : N) (i : nat) (j : Z) :
  round_decimal s (d * 10 ^ N.of_nat i) j = round_decimal s d (j + Z.of_nat i).
Proof.
  assert (∀ a b, 10 ^ a * 10 ^ b = 10 ^ (a + b)) as Hp by (intros; by rewrite N.pow_add_r).
  unfold round_decimal. destruct (Z.leb_spec 0 j) as [Hj|Hj], (Z.leb_spec 0 (j + Z.of_nat i)); [|lia|..].
  - rewrite <- N.mul_assoc, Hp. do 3 f_equal. lia.
  - rewrite <- (round_ratio_scale s (d * 10 ^ Z.to_N (j + Z.of_nat i)) 1 (10 ^ Z.to_N (- j)));
      [|done|apply pow10_pos]. rewrite N.mul_1_l, <- N.mul_assoc, Hp. do 3 f_equal. lia.
  - rewrite <- (round_ratio_scale s d (10 ^ Z.to_N (- (j + Z.of_nat i))) (10 ^ N.of_nat i));
      [|apply pow10_pos..]. rewrite Hp. do 2 f_equal. lia.
Qed.

(** The two bounds of a finite [float64]. *)
Lemma valid_canonical (s : bool) (m : positive) (e : Z) :
  valid_binary 53 1024 (S754_finite s m e) = true → canonical m (Z.to_N (e + 1074)) ∧ (-1074 ≤ e)%Z.
Proof.
  unfold valid_binary, bounded, canonical_mantissa. intros H. destr.
  apply Z.leb_le in H0. apply Z.eqb_eq in H. unfold fexp, SpecFloat.emin in H.
  rewrite digits2_log2 in H. destruct (Z.log2_spec (Z.pos m)) as [Hl Hu]; [done|].
  split; [|lia]. split_and!; [| |lia].
  - assert (Z.pos m < 2 ^ 53)%Z; [|lia]. eapply Z.lt_le_trans; [exact Hu|]. apply Z.pow_le_mono_r; lia.
  - destruct (decide (e = -1074)%Z) as [->|Hne]; [by right|left].
    assert (2 ^ 52 ≤ Z.pos m)%Z; [|lia]. etrans; [|exact Hl]. apply Z.pow_le_mono_r; lia.
Qed.

Lemma round_ratio_sign (s : bool) (a b : N) (m : positive) (e : Z) :
  round_ratio false a b = S754_finite false m e → round_ratio s a b = S754_finite s m e.
Proof.
  unfold round_ratio. set (q := div_even _ _). destruct (q =? 2 ^ 53).
  - destruct (2 ^ 52)%N; [done|]. case_match; [done|]. by intros [= -> ->].
  - destruct q; [done|]. case_match; [done|]. by intros [= -> ->].
Qed.

Lemma round_decimal_sign (s : bool) (d : N) (k : Z) (m : positive) (e : Z) :
  round_decimal false d k = S754_finite false m e → round_decimal s d k = S754_finite s m e.
Proof. unfold round_decimal. case_match; apply round_ratio_sign. Qed.

(** The shortest decimal reads back as the number. *)
Lemma shortest_reads_back (s : bool) (m : positive) (e : Z) (d : N) (k : Z) :
  valid_binary 53 1024 (S754_finite s m e) = true → shortest m e = (d, k) →
  round_decimal s d k = S754_finite s m e.
Proof.
  intros Hv Hs. apply valid_canonical in Hv as [Hcan He]. unfold shortest in Hs.
  destruct (shortest_from_finds (S754_finite false m e) (dec_W m e) (dec_Y e)
    (digits10 (dec_W m e / dec_Y e)) 1 17 17) as [[d' k'] Hf]; [lia|by apply candidate_17|].
  rewrite Hf in Hs. cbn [default] in Hs. unfold id in Hs. injection Hs as -> ->.
  apply shortest_from_reads_back in Hf as (c & j & Hr & [[= -> ->]|(i & -> & [= -> ->])]).
  - by apply round_decimal_sign.
  - apply round_decimal_sign. rewrite <- (N.mul_1_l (10 ^ N.of_nat i)), round_decimal_shift in Hr. done.
Qed.

(** ** Reading what was printed *)

Lemma parse_digits_all (ds : string) (acc : N) : all_digits ds = true → is_Some (parse_digits acc ds).
Proof.
  revert acc. induction ds as [|a ds IH]; intros acc H; [by eexists|]. cbn [all_digits] in H. destr.
  apply bool_decide_eq_true in H as [d Hd]. cbn [parse_digits]. rewrite Hd. by apply IH.
Qed.

Lemma string_take_drop (n : nat) (s : string) : string_take n s +:+ string_drop n s = s.
Proof. revert s. induction n as [|n IH]; intros [|a s]; try done. cbn. by rewrite IH. Qed.

Lemma string_drop_length (n : nat) (s : string) :
  String.length (string_drop n s) = (String.length s - n)%nat.
Proof. revert s. induction n as [|n IH]; intros [|a s]; simpl; auto. Qed.

Lemma digits_not_dot (a : ascii) : is_Some (digit_val a) → Ascii.eqb a "." = false.
Proof. intros H. destruct (Ascii.eqb_spec a ".") as [->|]; [|done]. by destruct H. Qed.

Lemma lit_digits (ds r : string) (acc acc' : N) (k : Z) (dot : bool) :
  parse_digits acc ds = Some acc' →
  lit_mantissa (ds +:+ r) acc k dot
  = lit_mantissa r acc' (if dot then k - Z.of_nat (String.length ds) else k)%Z dot.
Proof.
  revert acc k. induction ds as [|a ds IH]; intros acc k Hp.
  { injection Hp as ->. cbn. f_equal. destruct dot; lia. }
  cbn [parse_digits] in Hp. destruct (digit_val a) as [d|] eqn:Hd; [|done].
  cbn [String.append lit_mantissa]. rewrite digits_not_dot by (by rewrite Hd). rewrite Hd. cbn [andb].
  rewrite IH by done. f_equal. destruct dot; cbn [String.length]; lia.
Qed.

Lemma lit_dot (r : string) (acc : N) (k : Z) :
  lit_mantissa (String "." r) acc k false = lit_mantissa r acc k true.
Proof. done. Qed.

(** The end of the digits. *)
Definition mantissa_end (r : string) : Prop := r = "" ∨ ∃ t, r = String "e" t.

Lemma lit_end (r : string) (acc : N) (k : Z) (dot : bool) :
  mantissa_end r → lit_mantissa r acc k dot = (acc, k, r).
Proof. intros [->|[t ->]]; done. Qed.

Lemma parse_digits_zeros (n : nat) (acc : N) :
  parse_digits acc (repeat_char "0" n) = Some (acc * 10 ^ N.of_nat n).
Proof.
  revert acc. induction n as [|n IH]; intros acc; cbn [repeat_char parse_digits].
  { f_equal. lia. }
  change (digit_val "0") with (Some 0). cbv iota. rewrite IH, Nat2N.inj_succ, N.pow_succ_r'. f_equal. ring.
Qed.

Lemma lit_exponent_digits (ds : string) (acc n : N) :
  parse_digits acc ds = Some n → n < 100000 → lit_exponent ds (Z.of_N acc) = Z.of_N n.
Proof.
  revert acc. induction ds as [|a ds IH]; intros acc Hp Hn; [by injection Hp as ->|].
  cbn [parse_digits lit_exponent] in *. destruct (digit_val a) as [d|]; [|done].
  pose proof (parse_digits_grows _ _ _ Hp).
  destruct (Z.ltb_spec (Z.of_N acc) 10000); [|lia]. cbn [default]. unfold id.
  rewrite <- (IH (10 * acc + d)) by done. f_equal. lia.
Qed.

(** Number and length of the digits before and after a cut. *)
Lemma split_digits (ds : string) (n : N) (i : nat) :
  parse_digits 0 ds = Some n →
  ∃ a, parse_digits 0 (string_take i ds) = Some a ∧ parse_digits a (string_drop i ds) = Some n.
Proof.
  intros H. rewrite <- (string_take_drop i ds), parse_digits_app in H.
  destruct (parse_digits 0 (string_take i ds)) as [a|]; [|done]. by exists a.
Qed.

Definition no_minus (s : string) : Prop := ∀ r, s ≠ String "-" r.

Lemma ParseFloat_sign (neg : bool) (s : string) (d : N) (k x : Z) (r : string) :
  no_minus s → lit_mantissa s 0 0 false = (d, k, r) →
  x = match r with
      | String _ (String "-" ds) => (- lit_exponent ds 0)%Z
      | String _ (String "+" ds) => lit_exponent ds 0
      | String _ ds => lit_exponent ds 0
      | EmptyString => 0%Z
      end →
  ParseFloat ((if neg then "-" else "") +:+ s) = round_decimal neg d (k + x).
Proof.
  intros Hs Hm ->. unfold ParseFloat. destruct neg; cbn [String.append].
  - by rewrite Hm.
  - assert (match s with String "-" r => (true, r) | _ => (false, s) end = (false, s)) as ->.
    { destruct s as [|[[] [] [] [] [] [] [] []] t]; try done. by destruct (Hs t). }
    by rewrite Hm.
Qed.

Lemma format_no_minus (n : N) (t : string) : no_minus (format_uint n +:+ t).
Proof.
  destruct (format_uint_digit n) as (d & ds & -> & Hd & _). intros r [= Hr _].
  pose proof (digit_eqb d "-" Hd eq_refl) as H. by rewrite Hr in H.
Qed.

(** Bounds that keep every exponent below six digits. *)
Lemma shortest_from_bounds (x : spec_float) (W Y : N) (L n fuel : nat) (d : N) (k : Z) :
  shortest_from x W Y L n fuel = Some (d, k) →
  d ≤ W + 1 ∧ (- Z.of_nat (n + fuel) - 400 ≤ k ≤ Z.of_nat (L + n + fuel))%Z.
Proof.
  revert n. induction fuel as [|fuel IH]; intros n; cbn [shortest_from]; [done|].
  destruct (candidate x W Y L n) as [[c j]|] eqn:Hc; [|intros H; apply IH in H; lia].
  assert (c ≤ W + 1 ∧ j = (Z.of_nat L - Z.of_nat n - 400)%Z) as [Hd ->].
  { unfold candidate in Hc. cbv zeta in Hc. set (D := Y * _) in Hc.
    assert (W / D ≤ W) as Hq.
    { destruct (N.eq_0_gt_0_cases D) as [->|HD]; [rewrite N.div_0_r; lia|].
      apply N.Div0.div_le_upper_bound. nia. }
    assert (div_even W D ≤ W / D + 1) by (unfold div_even; repeat case_match; lia).
    repeat (case_match; [simplify_eq; split; [|done]; repeat case_match; lia|]). done. }
  destruct (c =? 10 ^ N.of_nat n); intros [= <- <-]; lia.
Qed.

Lemma format_length (n : N) : (String.length (format_uint n) ≤ S (N.to_nat (N.log2 n)))%nat.
Proof.
  unfold format_uint. pose proof (format_go_length (S (N.to_nat (N.log2 n))) n "") as H. simpl in H |- *. lia.
Qed.

Lemma digits10_bound (T : N) : 0 < T → (digits10 T ≤ S (N.to_nat (N.log2 T)))%nat.
Proof.
  intros HT. destruct (digits10_spec T HT) as [_ Hlow].
  destruct (le_gt_dec (digits10 T) (S (N.to_nat (N.log2 T)))) as [|Hgt]; [done|exfalso].
  specialize (Hlow (S (N.to_nat (N.log2 T))) Hgt). destruct (N.log2_spec T HT) as [_ Hu].
  rewrite Nat2N.inj_succ, N2Nat.id in Hlow.
  pose proof (N.pow_le_mono_l 2 10 (N.succ (N.log2 T)) ltac:(done)). lia.
Qed.

Lemma round_decimal_0 (s : bool) (k : Z) : round_decimal s 0 k = S754_zero s.
Proof.
  assert (∀ b, 0 < b → round_ratio s 0 b = S754_zero s) as H0.
  { intros b Hb. unfold round_ratio. rewrite N.mul_0_l, (div_even_unique 0 _ 0); [done|..].
    all: pose proof (pow2_pos (N.log2 (0 / b) - 52)); nia. }
  unfold round_decimal. destruct (0 <=? k)%Z; [by apply H0|apply H0, pow10_pos].
Qed.

Lemma shortest_bounds (s : bool) (m : positive) (e : Z) (d : N) (k : Z) :
  valid_binary 53 1024 (S754_finite s m e) = true → shortest m e = (d, k) →
  0 < d ∧ (Z.of_nat (String.length (format_uint d)) < 10000)%Z ∧ (- 10000 ≤ k ≤ 10000)%Z.
Proof.
  intros Hv Hs. pose proof (shortest_reads_back s m e d k Hv Hs) as Hr.
  split.
  { destruct (N.eq_0_gt_0_cases d) as [->|]; [|done]. by rewrite round_decimal_0 in Hr. }
  apply valid_canonical in Hv as [(Hm & _ & He) He']. unfold shortest in Hs.
  set (W := dec_W m e) in *. set (L := digits10 _) in *.
  assert (N.log2 W ≤ 3000) as HW.
  { transitivity (N.log2 (2 ^ 53 * 2 ^ 971 * 10 ^ 400)); [|vm_compute; discriminate].
    apply N.log2_le_mono. unfold W, dec_W. apply N.mul_le_mono_r. apply N.mul_le_mono; [lia|].
    apply N.pow_le_mono_r; lia. }
  destruct (shortest_from _ _ _ _ _ _) as [[d' k']|] eqn:Hf; cbn [default] in Hs; unfold id in Hs;
    [injection Hs as -> ->|injection Hs as <- <-; done].
  apply shortest_from_bounds in Hf as [Hd Hk].
  assert (N.log2 d ≤ 3001) as Hld.
  { destruct (N.eq_0_gt_0_cases d) as [->|Hd0]; [done|].
    etrans; [apply N.log2_le_mono, Hd|]. pose proof (N.log2_succ_le W). rewrite N.add_1_r. lia. }
  pose proof (format_length d). split; [lia|].
  assert (Z.of_nat L ≤ 3002)%Z; [|lia]. unfold L. destruct (N.eq_0_gt_0_cases (W / dec_Y e)) as [->|HT]; [done|].
  pose proof (digits10_bound _ HT).
  assert (N.log2 (W / dec_Y e) ≤ N.log2 W); [|lia]. apply N.log2_le_mono, N.Div0.div_le_upper_bound.
  assert (0 < dec_Y e) by apply pow2_pos. nia.
Qed.

Lemma all_digits_parts (i : nat) (s : string) :
  all_digits s = true → all_digits (string_take i s) = true ∧ all_digits (string_drop i s) = true.
Proof. intros H. rewrite <- (string_take_drop i s), all_digits_app in H. by destr. Qed.

Lemma frac_digits (s : string) : s ≠ "" → all_digits s = true → frac_part ("." +:+ s).
Proof. intros Hs H. right. destruct s as [|a t]; [done|]. by exists a, t. Qed.

(** A number of digits that does not start with a zero. *)
Lemma int_digits (n : N) (i : nat) (t : string) :
  0 < n → (0 < i)%nat → all_digits t = true →
  int_part (string_take i (format_uint n) +:+ t).
Proof.
  intros Hn Hi Ht. right. destruct i as [|i]; [lia|].
  destruct (format_uint_shape n) as [H0|(d & ds & -> & Hd & Hds)].
  { pose proof (parse_digits_format n) as Hp. rewrite H0 in Hp. injection Hp. lia. }
  exists d, (string_take i ds +:+ t). split_and!; [done|lia|lia|].
  rewrite all_digits_app, Ht. by destruct (all_digits_parts i ds Hds) as [-> _].
Qed.

Lemma format_plain_reads (neg : bool) (d : N) (k : Z) :
  0 < d →
  let lit := (if neg then "-" else "") +:+ format_plain d k in
  ParseFloat lit = round_decimal neg d k ∧ json_number lit.
Proof.
  intros Hd lit. pose proof (parse_digits_format d) as Hp. pose proof (all_digits_format d) as Had.
  assert ((if neg then "-" else "") = "" ∨ (if neg then "-" else "") = "-") as Hsg
    by (destruct neg; auto).
  unfold lit, format_plain. destruct (Z.leb_spec 0 k) as [Hk|Hk].
  - split.
    + rewrite (ParseFloat_sign neg _ (d * 10 ^ N.of_nat (Z.to_nat k)) 0 0 "");
        [|apply format_no_minus| |done].
      * rewrite round_decimal_shift. f_equal. lia.
      * rewrite (lit_digits _ _ 0 d) by done. rewrite <- (string_app_nil_r (repeat_char _ _)).
        by rewrite (lit_digits _ _ _ _ _ _ (parse_digits_zeros _ _)).
    + exists (if neg then "-" else ""), (format_uint d +:+ repeat_char "0" (Z.to_nat k)), "", "".
      rewrite !string_app_nil_r. split_and!; [done|done| |by left|by left].
      rewrite <- (string_take_all (format_uint d)).
      destruct (format_uint_cons d) as (a & t & Hc).
      apply int_digits; [done|rewrite Hc; simpl; lia|apply all_digits_repeat].
  - set (f := Z.to_nat (- k)). set (ds := format_uint d) in *.
    destruct (Nat.ltb_spec f (String.length ds)) as [Hf|Hf].
    + destruct (split_digits ds d (String.length ds - f) Hp) as (a & Ha & Hb).
      destruct (all_digits_parts (String.length ds - f) ds Had) as [_ Had2].
      pose proof (string_drop_length (String.length ds - f) ds) as Hlen.
      split.
      * rewrite (ParseFloat_sign neg _ d k 0 ""); [by rewrite Z.add_0_r| | |done].
        { intros r Hr. destruct (format_no_minus d "" r). rewrite string_app_nil_r. fold ds.
          destruct (String.length ds - f)%nat eqn:?; [lia|]. destruct ds; [done|].
          cbn in Hr. by injection Hr as ->. }
        rewrite (lit_digits _ _ 0 a), (string_app_1 "."), lit_dot by done.
        rewrite <- (string_app_nil_r (string_drop _ _)), (lit_digits _ _ _ d) by done.
        rewrite lit_end by by left. do 2 f_equal. lia.
      * exists (if neg then "-" else ""), (string_take (String.length ds - f) ds),
          ("." +:+ string_drop (String.length ds - f) ds), "".
        rewrite !string_app_nil_r. split_and!; [done|done| | |by left].
        { rewrite <- (string_app_nil_r (string_take _ _)). apply int_digits; [done|lia|done]. }
        apply frac_digits; [|done]. intros H0. rewrite H0 in Hlen. simpl in Hlen. lia.
    + set (z := repeat_char "0" (f - String.length ds)).
      assert (parse_digits 0 (z +:+ ds) = Some d) as Hz.
      { unfold z. by rewrite parse_digits_app, parse_digits_zeros. }
      assert (all_digits (z +:+ ds) = true) as Haz.
      { unfold z. by rewrite all_digits_app, all_digits_repeat, Had. }
      assert (String.length (z +:+ ds) = f) as Hlen.
      { unfold z. rewrite string_length_app, repeat_char_length. lia. }
      split.
      * rewrite (ParseFloat_sign neg _ d k 0 ""); [by rewrite Z.add_0_r|by intros r [=]| |done].
        change (lit_mantissa ("0." +:+ (z +:+ ds)) 0 0 false) with (lit_mantissa (z +:+ ds) 0 0 true).
        rewrite <- (string_app_nil_r (z +:+ ds)), (lit_digits _ _ _ d) by done.
        rewrite lit_end by by left. rewrite Hlen. do 2 f_equal. lia.
      * exists (if neg then "-" else ""), "0", ("." +:+ (z +:+ ds)), "".
        rewrite !string_app_nil_r. split_and!; [done|done|by left| |by left].
        apply frac_digits; [|done]. intros H0. rewrite H0 in Hlen. simpl in Hlen. lia.
Qed.

Lemma format_exp_reads (neg : bool) (d : N) (k : Z) :
  0 < d → (Z.of_nat (String.length (format_uint d)) < 10000)%Z → (- 10000 ≤ k ≤ 10000)%Z →
  let lit := (if neg then "-" else "") +:+ format_exp d k in
  ParseFloat lit = round_decimal neg d k ∧ json_number lit.
Proof.
  intros Hd Hlen Hk lit. pose proof (parse_digits_format d) as Hp. pose proof (all_digits_format d) as Had.
  unfold lit, format_exp. set (ds := format_uint d) in *.
  set (x := (k + Z.of_nat (String.length ds) - 1)%Z).
  set (es := "e" +:+ (if (x <? 0)%Z then "-" else "+") +:+ format_uint (Z.abs_N x)).
  destruct (split_digits ds d 1 Hp) as (a & Ha & Hb).
  destruct (all_digits_parts 1 ds Had) as [_ Had2].
  pose proof (string_drop_length 1 ds) as Hdl.
  destruct (format_uint_cons d) as (c & t & Hc). fold ds in Hc.
  assert (String.length (string_take 1 ds) = 1)%nat as Htl by (apply string_take_length; rewrite Hc; simpl; lia).
  assert (exp_part es) as Hes.
  { right. destruct (format_uint_cons (Z.abs_N x)) as (b & u & Hu). pose proof (all_digits_format (Z.abs_N x)).
    unfold es. rewrite Hu in *. destruct (x <? 0)%Z; eexists _, b, u; (split; [reflexivity|]); auto. }
  assert (lit_exponent (format_uint (Z.abs_N x)) 0 = Z.abs x) as Hx.
  { pose proof (lit_exponent_digits _ 0 _ (parse_digits_format (Z.abs_N x))) as H.
    change (Z.of_N 0) with 0%Z in H. rewrite H; lia. }
  assert (∃ f, (if (String.length ds =? 1)%nat then "" else "." +:+ string_drop 1 ds) = f ∧ frac_part f ∧
    lit_mantissa (string_take 1 ds +:+ (f +:+ es)) 0 0 false = (d, (1 - Z.of_nat (String.length ds))%Z, es))
    as (f & -> & Hf & Hm).
  { assert (mantissa_end es) as Hend by (right; by eexists).
    eexists. split; [reflexivity|]. destruct (Nat.eqb_spec (String.length ds) 1) as [H1|H1].
    - split; [by left|]. rewrite (lit_digits _ _ 0 a) by done. cbn [String.append].
      rewrite lit_end by done. rewrite H1. f_equal. f_equal.
      assert (string_drop 1 ds = "") as H0 by (rewrite Hc in *; destruct t; [done|simpl in H1; lia]).
      rewrite H0 in Hb. simpl in Hb. congruence.
    - assert (string_drop 1 ds ≠ "") as H0 
        by (intros H0; rewrite H0, Hc in Hdl; rewrite Hc in H1; simpl in *; lia).
      split; [by apply frac_digits|].
      rewrite (lit_digits _ _ 0 a), string_app_assoc, (string_app_1 "."), lit_dot by done.
      rewrite (lit_digits _ _ _ d), lit_end by done. do 2 f_equal.
      rewrite Hc in *. simpl in *. lia. }
  split.
  - rewrite (ParseFloat_sign neg _ d (1 - Z.of_nat (String.length ds)) x es); [| |exact Hm|].
    + f_equal. unfold x. lia.
    + rewrite Hc. cbn. intros r [= -> _]. apply (format_no_minus d "" t). rewrite string_app_nil_r. exact Hc.
    + unfold es. destruct (Z.ltb_spec x 0); cbn [String.append]; rewrite Hx; lia.
  - exists (if neg then "-" else ""), (string_take 1 ds), f, es. split_and!; [done|destruct neg; auto| |done|done].
    rewrite <- (string_app_nil_r (string_take _ _)). apply int_digits; [done|lia|done].
Qed.

(** The literal written for a [float64] is a JSON number, and read as the [float64]. *)
Lemma ParseFloat_json_float (x : spec_float) (lit : string) :
  valid_binary 53 1024 x = true → json_float x = Ok lit → ParseFloat lit = x ∧ json_number lit.
Proof.
  intros Hv Hj. destruct x as [s|s| |s m e]; cbn [json_float] in Hj; try done.
  - injection Hj as <-. split; [by destruct s|]. exists (if s then "-" else ""), "0", "", "".
    destruct s; split_and!; try done; auto; by left.
  - destruct (shortest m e) as [d k] eqn:Hs. injection Hj as <-.
    pose proof (shortest_reads_back s m e d k Hv Hs) as Hr.
    destruct (shortest_bounds s m e d k Hv Hs) as (Hd & Hlen & Hk). rewrite <- Hr.
    destruct (plain_range m e); [by apply format_plain_reads|by apply format_exp_reads].
Qed.

Lemma dec_float64_json (x old : spec_float) (lit : string) :
  valid_binary 53 1024 x = true → json_float x = Ok lit → dec_float64 (JNum lit) old = Some x.
Proof.
  intros Hv Hj. destruct (ParseFloat_json_float x lit Hv Hj) as [Hp _]. unfold dec_float64. rewrite Hp.
  by destruct x.
Qed.
