(* ===== verification/GoRfc3339.v ===== *)
(** [time.Time] in JSON: [MarshalJSON] writes RFC 3339 with nanoseconds, [UnmarshalJSON]
    reads it.  The strings read are taken without their JSON escapes. *)

From S2P Require Import Prelude GoStrings GoEncoding GoFmt GoTime GoJson JsonFields.

Local Open Scope string_scope.
Local Open Scope Z_scope.

(** ** Printing *)

Definition year_of (t : Time) : Z := (civil (local_seconds t / 86400)).1.1.

(** [t.MarshalJSON()] *)
Definition time_json (t : Time) : res json :=
  if (year_of t <? 0) || (9999 <? year_of t)
  then Err (EMsg "json: error calling MarshalJSON for type time.Time: Time.MarshalJSON: year outside of range [0,9999]")
  else if 24 <=? Z.abs (Z.quot (t_offset t) 60) / 60
  then Err (EMsg "json: error calling MarshalJSON for type time.Time: Time.MarshalJSON: timezone hour outside of range [0,23]")
  else Ok (JStr (format_rfc3339nano t)).

(** ** Reading *)

(** Exactly [k] digits. *)
Fixpoint take_num (k : nat) (acc : N) (s : string) : option (Z * string) :=
  match k with
  | O => Some (Z.of_N acc, s)
  | S k' => match s with
            | String a r => d ← digit_val a; take_num k' (10 * acc + d) r
            | EmptyString => None
            end
  end.

(** A literal character. *)
Definition expect (c : ascii) (s : string) : option string :=
  match s with
  | String a r => if Ascii.eqb a c then Some r else None
  | EmptyString => None
  end.

(** The hour may have one digit. *)
Definition take_hour (s : string) : option (Z * string) :=
  match take_num 2 0 s with
  | Some x => Some x
  | None => take_num 1 0 s
  end.

Definition in_range (lo hi z : Z) : option unit := if (lo <=? z) && (z <=? hi) then Some tt else None.

Definition leap (y : Z) : bool := (y mod 4 =? 0) && (negb (y mod 100 =? 0) || (y mod 400 =? 0)).
Definition days_in (m y : Z) : Z :=
  if m =? 2 then (if leap y then 29 else 28)
  else if (m =? 4) || (m =? 6) || (m =? 9) || (m =? 11) then 30 else 31.

(** The day, counted from the first of January 1970. *)
Definition civil_days (year month day : Z) : Z :=
  let y := if month <=? 2 then year - 1 else year in
  let yoe := y mod 400 in
  let mp := (month + 9) mod 12 in
  let doy := (153 * mp + 2) / 5 + day - 1 in
  y / 400 * 146097 + (yoe * 365 + yoe / 4 - yoe / 100 + doy) - 719468.

(** A point or a comma and digits: the first nine of them are the nanoseconds. *)
Fixpoint nanos (k : nat) (acc : N) (s : string) : N :=
  match k with
  | O => acc
  | S k' => match s with
            | String a r => nanos k' (10 * acc + default 0%N (digit_val a)) r
            | EmptyString => nanos k' (10 * acc) ""
            end
  end.
Definition take_frac (s : string) : Z * string :=
  match s with
  | String a r =>
      if Ascii.eqb a "." || Ascii.eqb a "," then
        match span_digits r with
        | (EmptyString, _) => (0, s)
        | (ds, r') => (Z.of_N (nanos 9 0 ds), r')
        end
      else (0, s)
  | EmptyString => (0, s)
  end.

(** The zone, to the end of the text. *)
Definition take_zone (s : string) : option Z :=
  match s with
  | String a r =>
      if String.eqb s "Z" then Some 0
      else if Ascii.eqb a "+" || Ascii.eqb a "-" then
        '(h, r) ← take_num 2 0 r; _ ← in_range 0 24 h; r ← expect ":" r;
        '(m, r) ← take_num 2 0 r; _ ← in_range 0 60 m;
        if String.eqb r "" then Some ((if Ascii.eqb a "-" then -1 else 1) * (h * 3600 + m * 60)) else None
      else None
  | EmptyString => None
  end.

(** [time.Parse(time.RFC3339, s)] *)
Definition Parse_rfc3339 (s : string) : option Time :=
  '(year, s) ← take_num 4 0 s; s ← expect "-" s;
  '(month, s) ← take_num 2 0 s; _ ← in_range 1 12 month; s ← expect "-" s;
  '(day, s) ← take_num 2 0 s; s ← expect "T" s;
  '(hour, s) ← take_hour s; _ ← in_range 0 23 hour; s ← expect ":" s;
  '(min, s) ← take_num 2 0 s; _ ← in_range 0 59 min; s ← expect ":" s;
  '(sec, s) ← take_num 2 0 s; _ ← in_range 0 59 sec;
  let '(ns, s) := take_frac s in
  offset ← take_zone s;
  _ ← in_range 1 (days_in month year) day;
  let local := civil_days year month day * 86400 + hour * 3600 + min * 60 + sec in
  Some (mkTime ((local - offset) * Second + ns) offset).

(** A [time.Time] field. *)
Definition dec_time (v : json) (old : Time) : option Time :=
  match v with
  | JStr s => Parse_rfc3339 s
  | JNull => Some old
  | _ => None
  end.

Example Parse_rfc3339_examples :
  Parse_rfc3339 "2024-02-29T20:34:56.25+08:00" = Some (mkTime 1709210096250000000 28800) ∧
  Parse_rfc3339 "1970-01-01T0:00:00Z" = Some (mkTime 0 0) ∧
  Parse_rfc3339 "2023-02-29T00:00:00Z" = None ∧ Parse_rfc3339 "1970-01-01T00:00:60Z" = None ∧
  Parse_rfc3339 "1970-01-01T00:00:00" = None.
Proof. vm_compute. done. Qed.

(** ** Lemmas *)

Lemma civil_spec (n : Z) :
  let '(y, m, d) := civil n in
  civil_days y m d = n ∧ 1 ≤ m ≤ 12 ∧ 1 ≤ d ≤ days_in m y.
Proof.
  unfold civil. set (doe := (n + 719468) mod 146097). set (era := (n + 719468) / 146097).
  assert (0 ≤ doe < 146097 ∧ n + 719468 = era * 146097 + doe) as [Hdoe Hn].
  { unfold doe, era. pose proof (Z.mod_pos_bound (n + 719468) 146097).
    pose proof (Z.div_mod (n + 719468) 146097). lia. }
  set (yoe := (doe - doe / 1460 + doe / 36524 - doe / 146096) / 365).
  set (doy := doe - (365 * yoe + yoe / 4 - yoe / 100)).
  assert (0 ≤ yoe < 400 ∧ 0 ≤ doy ≤ 365 ∧ (doy = 365 → leap (yoe + 1) = true)) as (Hyoe & Hdoy & Hleap).
  { assert (0 ≤ yoe < 400 ∧ 0 ≤ doy ≤ 365) as [Hy Hd].
    { unfold doy, yoe. clear -Hdoe. clearbody doe. Z.to_euclidean_division_equations; lia. }
    split; [done|]. split; [done|]. intros H365. unfold leap.
    assert ((yoe + 1) mod 4 = 0 ∧ ((yoe + 1) mod 100 ≠ 0 ∨ (yoe + 1) mod 400 = 0)) as [-> Hor].
    { revert H365. unfold doy, yoe. clear -Hdoe. clearbody doe. Z.to_euclidean_division_equations; lia. }
    destruct (Z.eqb_spec ((yoe + 1) mod 100) 0), (Z.eqb_spec ((yoe + 1) mod 400) 0); try done; lia. }
  set (mp := (5 * doy + 2) / 153).
  assert (0 ≤ mp ≤ 11 ∧ 153 * mp ≤ 5 * doy + 2 < 153 * mp + 153) as [Hmp Hdiv].
  { unfold mp. clear -Hdoy. clearbody doy. Z.to_euclidean_division_equations; lia. }
  clearbody mp.
  assert (0 ≤ doy - (153 * mp + 2) / 5) as Hday0.
  { clear -Hdiv. clearbody doy. Z.to_euclidean_division_equations; lia. }
  set (m := if mp <? 10 then mp + 3 else mp - 9).
  assert ((m + 9) mod 12 = mp ∧ 1 ≤ m ≤ 12 ∧ (m ≤ 2 ↔ 10 ≤ mp)) as (Hm & Hm12 & Hm2).
  { unfold m. destruct (Z.ltb_spec mp 10); Z.to_euclidean_division_equations; lia. }
  split; [|split; [done|]].
  - unfold civil_days. rewrite Hm.
    assert ((if m <=? 2 then yoe + era * 400 + (if m <=? 2 then 1 else 0) - 1
             else yoe + era * 400 + (if m <=? 2 then 1 else 0)) = yoe + era * 400) as ->
      by (destruct (m <=? 2); lia).
    rewrite Z.mod_add, Z.div_add, Z.mod_small, Z.div_small by lia. unfold doy. lia.
  - assert (doy - (153 * mp + 2) / 5 + 1 ≤ days_in m (yoe + era * 400 + (if m <=? 2 then 1 else 0))); [|lia].
    unfold days_in. destruct (Z.eqb_spec m 2) as [Hm_2|Hm_2].
    + clearbody m. rewrite Hm_2 in Hm |- *. rewrite <- Hm. change ((2 + 9) mod 12) with 11.
      change (2 <=? 2) with true. cbv iota.
      assert (leap (yoe + era * 400 + 1) = leap (yoe + 1)) as ->.
      { unfold leap. replace (yoe + era * 400 + 1) with (yoe + 1 + era * 400) by lia.
        rewrite Z.mod_add by done. replace (era * 400) with (era * 4 * 100) by lia.
        rewrite Z.mod_add by done. replace (era * 4 * 100) with (era * 100 * 4) by lia.
        by rewrite Z.mod_add. }
      change ((153 * 11 + 2) / 5) with 337. clearbody doy. destruct (leap (yoe + 1)); cbv iota; [lia|].
      assert (doy ≠ 365) by (intros H; by specialize (Hleap H)). lia.
    + assert (mp ≠ 11) as Hne by (intros ->; by apply Hm_2). unfold m. clearbody doy. clear -Hmp Hdiv Hne.
      assert (mp = 0 ∨ mp = 1 ∨ mp = 2 ∨ mp = 3 ∨ mp = 4 ∨ mp = 5 ∨ mp = 6 ∨ mp = 7 ∨ mp = 8 ∨ mp = 9 ∨ mp = 10)
        as Hcases by lia.
      destruct_or! Hcases; subst mp;
        match goal with |- _ ≤ ?r => let v := eval vm_compute in r in change r with v end;
        Z.to_euclidean_division_equations; lia.
Qed.

Lemma take_num_digits (ds r : string) (acc n : N) :
  parse_digits acc ds = Some n → take_num (String.length ds) acc (ds +:+ r) = Some (Z.of_N n, r).
Proof.
  revert acc. induction ds as [|a ds IH]; intros acc; cbn [parse_digits String.length take_num String.append].
  - by intros [= ->].
  - destruct (digit_val a) as [d|]; [|done]. cbn. apply IH.
Qed.

Lemma take_num_padded (k : nat) (n : N) (r : string) :
  (0 < k)%nat → (n < 10 ^ N.of_nat k)%N → take_num k 0 (format_padded k n +:+ r) = Some (Z.of_N n, r).
Proof.
  intros Hk Hn. rewrite <- (format_padded_length k n Hk Hn) at 1. apply take_num_digits, parse_padded.
Qed.

Lemma take_two (z : Z) (r : string) :
  0 ≤ z < 100 → take_num 2 0 (two_digits z +:+ r) = Some (z, r).
Proof. intros Hz. unfold two_digits. rewrite take_num_padded by lia. do 2 f_equal. lia. Qed.

Lemma in_range_true (lo hi z : Z) : lo ≤ z ≤ hi → in_range lo hi z = Some tt.
Proof. intros [? ?]. unfold in_range. by rewrite !(proj2 (Z.leb_le _ _)). Qed.

Lemma expect_head (c : ascii) (r : string) : expect c (String c r) = Some r.
Proof. simpl. by rewrite Ascii.eqb_refl. Qed.

(** One step of a parser on the text it is meant for. *)
Ltac rfc_step :=
  cbn [mbind option_bind];
  first [rewrite expect_head | rewrite take_two by lia | rewrite in_range_true by lia].

(** The nine digits a fraction without its zeros at the end stands for. *)
Lemma nanos_digits (ds : string) (k : nat) (acc n : N) :
  parse_digits acc ds = Some n → (String.length ds ≤ k)%nat →
  nanos k acc ds = (n * 10 ^ N.of_nat (k - String.length ds))%N.
Proof.
  revert k acc. induction ds as [|a ds IH]; intros k acc Hp Hk.
  - injection Hp as ->. simpl in *. rewrite Nat.sub_0_r. clear Hk. revert n.
    induction k as [|k IH]; intros n; [simpl; lia|]. cbn [nanos]. rewrite IH, Nat2N.inj_succ, N.pow_succ_r'. ring.
  - cbn [parse_digits] in Hp. destruct (digit_val a) as [d|] eqn:Hd; [|done].
    destruct k as [|k]; [simpl in Hk; lia|]. cbn [nanos String.length] in *. rewrite Hd. cbn [default]. unfold id.
    apply IH; [done|lia].
Qed.

(** What follows the seconds: the fraction is read to the zone. *)
Lemma take_frac_zone (ns : N) (offset : Z) :
  (ns < 1000000000)%N → take_frac (frac 9 ns +:+ format_zone offset) = (Z.of_N ns, format_zone offset).
Proof.
  intros Hns. assert (∃ c r, format_zone offset = String c r ∧ digit_val c = None ∧ (c = "Z" ∨ c = "-" ∨ c = "+")%char)
    as (c & r & Hc & Hd & Hcs).
  { unfold format_zone. destruct (offset =? 0); [by eexists _, _; split_and!; auto|].
    destruct (offset <? 0); eexists _, _; split_and!; auto. }
  destruct (frac_shape 9 ns Hns) as [[-> ->]|(q & g & -> & Hq & Hg & ->)].
  - rewrite Hc. destruct Hcs as [->|[->| ->]]; done.
  - rewrite string_app_assoc, string_app_1. unfold take_frac. cbn [Ascii.eqb Bool.eqb orb].
    rewrite span_digits_stop; [|apply all_digits_padded|].
    2: { rewrite Hc. cbn. unfold is_digit. by rewrite Hd. }
    pose proof (format_padded_length q g ltac:(lia) Hg) as Hl.
    rewrite (nanos_digits _ 9 0 g) by (rewrite ?parse_padded, ?Hl; done || lia). rewrite Hl.
    destruct (format_padded q g); [simpl in Hl; lia|done].
Qed.

(** A zone of whole minutes, less than a day from UTC. *)
Definition zone_ok (offset : Z) : Prop := offset mod 60 = 0 ∧ -86400 < offset < 86400.

Lemma take_zone_format (offset : Z) : zone_ok offset → take_zone (format_zone offset) = Some offset.
Proof.
  intros [Hm Hr]. unfold format_zone. destruct (Z.eqb_spec offset 0) as [->|Hne]; [done|].
  set (zone := Z.abs (Z.quot offset 60)).
  assert (Z.abs offset = zone * 60 ∧ 0 ≤ zone < 1440) as [Hz Hz2].
  { unfold zone. Z.to_euclidean_division_equations; lia. }
  assert (0 ≤ zone / 60 < 24 ∧ 0 ≤ zone mod 60 < 60 ∧ zone = zone / 60 * 60 + zone mod 60) as (Hh & Hmm & Hzz).
  { clear -Hz2. clearbody zone. Z.to_euclidean_division_equations; lia. }
  revert Hh Hmm Hzz. generalize (zone / 60), (zone mod 60). clearbody zone. intros h m Hh Hmm Hzz.
  assert (∀ c, (c = "-" ∨ c = "+")%char → take_zone (String c (two_digits h +:+ (":" +:+ two_digits m)))
    = Some ((if Ascii.eqb c "-" then -1 else 1) * (h * 3600 + m * 60))) as Hgen.
  { intros c Hc. unfold take_zone. 
    assert (String.eqb (String c (two_digits h +:+ (":" +:+ two_digits m))) "Z" = false) as ->
      by (destruct Hc as [->| ->]; done).
    assert (Ascii.eqb c "+" || Ascii.eqb c "-" = true) as -> by (destruct Hc as [->| ->]; done).
    rewrite string_app_1, <- (string_app_nil_r (two_digits m)). by repeat rfc_step. }
  destruct (Z.ltb_spec offset 0); rewrite string_app_1, Hgen by auto; cbn [Ascii.eqb Bool.eqb]; f_equal; lia.
Qed.

(** The times whose JSON form is read back as they are. *)
Definition time_ok (t : Time) : Prop := 0 ≤ year_of t ≤ 9999 ∧ zone_ok (t_offset t).

Lemma Parse_format_rfc3339nano (t : Time) : time_ok t → Parse_rfc3339 (format_rfc3339nano t) = Some t.
Proof.
  intros [Hy Hzone]. unfold format_rfc3339nano, format_date_time, year_of in *. cbv zeta.
  set (s := local_seconds t) in *.
  pose proof (civil_spec (s / 86400)) as Hciv. destruct (civil (s / 86400)) as [[year month] day].
  destruct Hciv as (Hdays & Hmonth & Hday). cbn [fst] in Hy.
  assert (0 ≤ s mod 86400 < 86400) as Hsod by (apply Z.mod_pos_bound; lia).
  assert (s / 86400 * 86400 + s mod 86400 = s) as Hss by (pose proof (Z.div_mod s 86400); lia).
  revert Hsod Hss. generalize (s mod 86400). intros sod Hsod Hss.
  assert (0 ≤ sod / 3600 < 24 ∧ 0 ≤ sod / 60 mod 60 < 60 ∧ 0 ≤ sod mod 60 < 60 ∧
    sod = sod / 3600 * 3600 + sod / 60 mod 60 * 60 + sod mod 60) as (Hh & Hmi & Hs & Hsum).
  { clear -Hsod. Z.to_euclidean_division_equations; lia. }
  revert Hh Hmi Hs Hsum. generalize (sod / 3600), (sod / 60 mod 60), (sod mod 60).
  intros h mi sec Hh Hmi Hs Hsum.
  assert (days_in month year ≤ 31) as H31.
  { unfold days_in. repeat case_match; lia. }
  set (ns := t_unix t mod Second).
  assert (0 ≤ ns < Second) as Hns by (apply Z.mod_pos_bound; done).
  assert (Z.to_N ns < 1000000000)%N as HnsN by (clear -Hns; clearbody ns; unfold Second in Hns; lia).
  unfold Parse_rfc3339. rewrite !string_app_assoc, !string_app_1.
  rewrite take_num_padded, Z2N.id by lia. unfold take_hour. repeat rfc_step.
  rewrite take_frac_zone by done. rewrite take_zone_format by done. repeat rfc_step.
  cbn [mbind option_bind]. rewrite Z2N.id by lia.
  destruct t as [u o]. f_equal. cbn [t_unix t_offset] in *. f_equal.
  rewrite Hdays.
  assert (s / 86400 * 86400 + h * 3600 + mi * 60 + sec = s) as -> by lia.
  unfold s, local_seconds, ns. cbn [t_unix t_offset]. unfold Second.
  pose proof (Z.div_mod u 1000000000 ltac:(done)). lia.
Qed.

Lemma digits_ascii (s : string) : all_digits s = true → all_ascii s = true.
Proof.
  induction s as [|a s IH]; [done|]. cbn [all_digits all_ascii]. intros H. destr. rewrite IH by done.
  unfold is_digit, digit_val in *. rewrite andb_true_r. apply N.ltb_lt. by destruct a as [[] [] [] [] [] [] [] []].
Qed.

Lemma padded_ascii (w : nat) (n : N) : all_ascii (format_padded w n) = true.
Proof. apply digits_ascii, all_digits_padded. Qed.

Lemma format_int_ascii (z : Z) : all_ascii (format_int z) = true.
Proof.
  unfold format_int. destruct (z <? 0)%Z; rewrite ?all_ascii_app; cbn; by rewrite digits_ascii by apply all_digits_format.
Qed.

Lemma format_rfc3339nano_valid (t : Time) : ValidString (format_rfc3339nano t) = true.
Proof.
  apply ValidString_ascii. unfold format_rfc3339nano, format_date_time, format_zone, two_digits. cbv zeta.
  destruct (civil (local_seconds t / 86400)) as [[year month] day].
  rewrite !all_ascii_app, !padded_ascii. cbn [all_ascii andb].
  destruct (frac_shape 9 (Z.to_N (t_unix t mod Second))) as [[_ ->]|(q & g & -> & _)].
  { unfold Second. pose proof (Z.mod_pos_bound (t_unix t) 1000000000 eq_refl). simpl. lia. }
  all: rewrite ?all_ascii_app, ?padded_ascii; cbn [all_ascii andb];
    destruct (t_offset t =? 0); [done|]; rewrite !all_ascii_app, !padded_ascii; by destruct (t_offset t <? 0).
Qed.

Lemma time_json_ok (t : Time) : time_ok t → time_json t = Ok (JStr (format_rfc3339nano t)).
Proof.
  intros [Hy [Hm Hr]]. unfold time_json.
  destruct (Z.ltb_spec (year_of t) 0), (Z.ltb_spec 9999 (year_of t)); try lia. cbn [orb].
  destruct (Z.leb_spec 24 (Z.abs (Z.quot (t_offset t) 60) / 60)); [|done].
  Z.to_euclidean_division_equations; lia.
Qed.
