(* ===== verification/Entry.v ===== *)
(** The data of [src/store/store.go]: [Entry], [PutResult], the error variables
    and the [Store] interface, with the JSON form in which an [Entry] is kept
    in the database, in a snapshot and in a replicated operation's result. *)

From S2P Require Import Prelude GoStrings GoEncoding GoJson JsonFields.

Local Open Scope string_scope.
Local Open Scope nat_scope.

Definition ErrKeyNotFound : error := ESentinel KeyNotFound.
Definition ErrKeyExists : error := ESentinel KeyExists.
Definition ErrRevMismatch : error := ESentinel RevMismatch.

(** [type Entry struct] *)
Record Entry := mkEntry {
  Key : string;
  Value : go_bytes;
  Revision : N;
  CreateRevision : N;
  ModRevision : N;
  Version : N;
}.

#[export] Instance Entry_eq_dec : EqDecision Entry.
Proof. solve_decision. Defined.

(** [Entry{}] *)
Definition zero_entry : Entry := mkEntry "" None 0 0 0 0.

(** [type PutResult struct]: both fields are pointers. *)
Record PutResult := mkPutResult {
  pr_Entry : option Entry;
  pr_PrevEntry : option Entry;
}.

(** [type Store interface]: [Put] returns its result pointer and its error
    together, [List] the entries read so far and its error. *)
Class Store (S : Type) := {
  store_Put : S → string → go_bytes → S * option PutResult * res unit;
  store_Get : S → string → res Entry;
  store_Delete : S → string → S * res Entry;
  store_List : S → string → list Entry * res unit;
  store_Rev : S → N;
  store_Close : S → S * res unit;
}.

(** ** JSON *)

Definition json_bytes (b : go_bytes) : json :=
  match b with
  | Some s => JStr (b64_encode s)
  | None => JNull
  end.

(** The members [json.Marshal] writes for an [Entry], by its field tags. *)
Definition entry_json (e : Entry) : json :=
  JObj [("key", JStr (Key e)); ("value", json_bytes (Value e));
        ("revision", json_uint (Revision e));
        ("create_revision", json_uint (CreateRevision e));
        ("mod_revision", json_uint (ModRevision e));
        ("version", json_uint (Version e))].

Definition set_entry_field (k : string) (v : json) (e : Entry) : option Entry :=
  let '(mkEntry ky va re cr mo ve) := e in
  if name_is "key" k then (λ x, mkEntry x va re cr mo ve) <$> dec_string v ky
  else if name_is "value" k then (λ x, mkEntry ky x re cr mo ve) <$> dec_bytes v
  else if name_is "revision" k then (λ x, mkEntry ky va x cr mo ve) <$> dec_uint64 v re
  else if name_is "create_revision" k then (λ x, mkEntry ky va re x mo ve) <$> dec_uint64 v cr
  else if name_is "mod_revision" k then (λ x, mkEntry ky va re cr x ve) <$> dec_uint64 v mo
  else if name_is "version" k then (λ x, mkEntry ky va re cr mo x) <$> dec_uint64 v ve
  else Some e.

(** [json.Marshal(e)] and [json.Unmarshal(raw, &e)] *)
Definition entry_Marshal (e : Entry) : res string := json_Marshal (entry_json e).

Definition entry_Unmarshal (raw : string) (e : Entry) : res Entry :=
  match json_parse raw with
  | None => Err (EMsg "json: syntax error")
  | Some j => res_of_option "json: cannot unmarshal" (decode_struct set_entry_field j e)
  end.

(** An entry as it comes back from JSON: its key made valid UTF-8. *)
Definition stored (e : Entry) : Entry :=
  mkEntry (ToValidUTF8 (Key e)) (Value e) (Revision e) (CreateRevision e)
    (ModRevision e) (Version e).

(** The counters of an entry fit their [uint64] fields. *)
Definition entry_ok (e : Entry) : Prop :=
  (Revision e ≤ max_uint64 ∧ CreateRevision e ≤ max_uint64 ∧
   ModRevision e ≤ max_uint64 ∧ Version e ≤ max_uint64)%N.

Lemma wf_json_bytes (b : go_bytes) : wf_json (json_bytes b).
Proof. destruct b; constructor. Qed.

Lemma wf_entry_json (e : Entry) : wf_json (entry_json e).
Proof. constructor. repeat constructor; simpl; auto using wf_json_bytes; constructor. Qed.

Lemma b64_char_ascii (n : N) : (n < 64)%N → (N_of_ascii (b64_char n) < 128)%N.
Proof.
  intros Hn.
  assert (forallb (λ i, N_of_ascii (b64_char (N.of_nat i)) <? 128)%N (seq 0 64) = true)
    as Hall by (vm_compute; reflexivity).
  rewrite forallb_forall in Hall. specialize (Hall (N.to_nat n)).
  rewrite N2Nat.id in Hall. apply N.ltb_lt, Hall, in_seq. lia.
Qed.

Lemma b64_encode_ascii (s : string) : all_ascii (b64_encode s) = true.
Proof.
  assert (∀ x, (x mod 64 < 64)%N) as Hm by (intros; apply N.mod_lt; lia).
  assert (∀ n t, (n < 64)%N → all_ascii (String (b64_char n) t) = all_ascii t) as Hc.
  { intros n t Hn. simpl. apply b64_char_ascii, N.ltb_lt in Hn. by rewrite Hn. }
  induction s as [|a|a b|a b c r IH] using string_ind3; [done|..]; cbn [b64_encode].
  - destruct (group_bytes a zero zero _ eq_refl) as (Hv & _).
    change (N_of_ascii zero) with 0%N in Hv. rewrite N.mul_0_l, !N.add_0_r in Hv.
    rewrite !Hc by auto using sextet_bound. done.
  - destruct (group_bytes a b zero _ eq_refl) as (Hv & _).
    change (N_of_ascii zero) with 0%N in Hv. rewrite !N.add_0_r in Hv.
    rewrite !Hc by auto using sextet_bound. done.
  - destruct (group_bytes a b c _ eq_refl) as (Hv & _).
    rewrite !Hc by auto using sextet_bound. done.
Qed.

Lemma dec_json_bytes (b : go_bytes) : dec_bytes (norm (json_bytes b)) = Some b.
Proof.
  destruct b as [s|]; [|done]. simpl.
  rewrite ToValidUTF8_valid by apply ValidString_ascii, b64_encode_ascii.
  by rewrite b64_roundtrip.
Qed.

(** Decoding the tree of an entry overwrites every field of the target. *)
Lemma decode_entry_json (e e0 : Entry) :
  entry_ok e → decode_struct set_entry_field (norm (entry_json e)) e0 = Some (stored e).
Proof.
  intros (Hr & Hc & Hm & Hv). destruct e as [ky va re cr mo ve], e0.
  unfold entry_json, stored. simpl in *.
  change (norm (json_uint ?n)) with (json_uint n).
  repeat match goal with
  | |- context [ToValidUTF8 (String ?a ?s)] =>
      change (ToValidUTF8 (String a s)) with (String a s)
  end.
  simpl. rewrite dec_json_bytes. simpl.
  do 4 (rewrite ParseUint_format by done; simpl). done.
Qed.

Lemma entry_roundtrip (e e0 : Entry) :
  entry_ok e → ∃ raw, entry_Marshal e = Ok raw ∧ entry_Unmarshal raw e0 = Ok (stored e).
Proof.
  intros Hok. destruct (json_parse_Marshal _ (wf_entry_json e)) as (raw & Hm & Hp).
  exists raw. split; [done|]. unfold entry_Unmarshal.
  by rewrite Hp, decode_entry_json.
Qed.
