(* ===== verification/BoltDB.v ===== *)
(** The interface to bbolt ([go.etcd.io/bbolt], not part of this repository):
    the calls [src/store/bolt.go] makes, as a class [Bolt], and what bbolt
    documents about them, as a class [BoltLaws].  The store is modelled and
    verified against the two classes; [MemDb] is a small database that satisfies
    them, on which concrete runs are evaluated. *)

From S2P Require Import Prelude GoStrings.

Local Open Scope nat_scope.

(** [db] is an open database file, [tx] the view of it inside a transaction.
    [bolt_Update db fn s] runs the closure [fn] in a read-write transaction, and
    [bolt_View db fn s] in a read-only one; [s] are the variables the closure
    captures and assigns, which keep what it assigned even when the transaction
    is rolled back. *)
Class Bolt (db tx : Type) := {
  bolt_Update {S : Type} : db → (S → tx → S * res tx) → S → db * S * res unit;
  bolt_View {S : Type} : db → (S → tx → S * res unit) → S → S * res unit;
  bolt_Close : db → db * res unit;
  tx_CreateBucketIfNotExists : tx → string → res tx;
  (** [tx.Bucket(name) != nil] *)
  tx_Bucket : tx → string → bool;
  bucket_Get : tx → string → string → option string;
  bucket_Put : tx → string → string → string → res tx;
  bucket_Delete : tx → string → string → res tx;
  (** The pairs [Seek(k)] and then [Next], repeated, return before [nil]. *)
  cursor_Seek : tx → string → string → list (string * string);
}.

(** The limits [Bucket.Put] documents: [MaxKeySize] and [MaxValueSize]; an empty
    key is refused with [ErrKeyRequired]. *)
Definition key_ok (k : string) : Prop :=
  (0 < N.of_nat (String.length k) ≤ 32768)%N.
Definition value_ok (v : string) : Prop := (N.of_nat (String.length v) ≤ 2147483646)%N.

#[export] Instance key_ok_dec (k : string) : Decision (key_ok k).
Proof. unfold key_ok. apply _. Defined.
#[export] Instance value_ok_dec (v : string) : Decision (value_ok v).
Proof. unfold value_ok. apply _. Defined.

(** Keys are ordered bytewise. *)
Definition key_le (x y : string * string) : Prop := String.le (x.1) (y.1).

(** The documented behaviour: a database is its buckets ([contents]); reads see
    the last committed contents; a transaction whose closure fails is rolled
    back; one whose closure succeeds is committed, or the commit fails and it is
    rolled back, which a [writable] database excludes. *)
Class BoltLaws (db tx : Type) `{Bolt db tx} := {
  committed : db → tx;
  usable : db → Prop;
  writable : db → Prop;
  contents : tx → gmap string (gmap string string);

  View_law {S} d (f : S → tx → S * res unit) s :
    usable d → bolt_View d f s = f s (committed d);
  Update_fail_law {S} d (f : S → tx → S * res tx) s s' r :
    usable d → f s (committed d) = (s', r) → is_ok r = false →
    ∃ d', bolt_Update d f s = (d', s', match r with Err e => Err e | _ => Panic end)
          ∧ usable d' ∧ contents (committed d') = contents (committed d)
          ∧ (writable d → writable d');
  Update_law {S} d (f : S → tx → S * res tx) s s' t :
    usable d → f s (committed d) = (s', Ok t) →
    ∃ d' r, bolt_Update d f s = (d', s', r) ∧ usable d' ∧
      ((r = Ok tt ∧ contents (committed d') = contents t) ∨
       (∃ e, r = Err e ∧ contents (committed d') = contents (committed d)));
  Update_writable_law {S} d (f : S → tx → S * res tx) s s' t :
    usable d → writable d → f s (committed d) = (s', Ok t) →
    ∃ d', bolt_Update d f s = (d', s', Ok tt) ∧ writable d';

  Create_law t b :
    ∃ t', tx_CreateBucketIfNotExists t b = Ok t' ∧
          contents t' = match contents t !! b with
                        | Some _ => contents t
                        | None => <[b := ∅]> (contents t)
                        end;
  Bucket_law t b : tx_Bucket t b = bool_decide (is_Some (contents t !! b));
  Get_law t b k : bucket_Get t b k = contents t !! b ≫= λ m, m !! k;
  Put_law t b m k v :
    contents t !! b = Some m → key_ok k → value_ok v →
    ∃ t', bucket_Put t b k v = Ok t' ∧ contents t' = <[b := <[k := v]> m]> (contents t);
  Put_refused_law t b m k v :
    contents t !! b = Some m → ¬ (key_ok k ∧ value_ok v) →
    ∃ e, bucket_Put t b k v = Err e;
  Delete_law t b m k :
    contents t !! b = Some m →
    ∃ t', bucket_Delete t b k = Ok t' ∧ contents t' = <[b := delete k m]> (contents t);
  Seek_law t b m p :
    contents t !! b = Some m →
    StronglySorted key_le (cursor_Seek t b p) ∧ NoDup (cursor_Seek t b p).*1 ∧
    ∀ k v, (k, v) ∈ cursor_Seek t b p ↔ m !! k = Some v ∧ String.le p k;
}.

(** ** A database in memory *)

Module MemDb.
(** [io_ok = false]: every commit fails, as on a full disk. *)
Record t := mk { mem : gmap string (gmap string string); io_ok : bool }.
Abbreviation tx := (gmap string (gmap string string)).

Definition Update {S : Type} (d : t) (f : S → tx → S * res tx) (s : S) : t * S * res unit :=
  match f s (mem d) with
  | (s', Ok m) =>
      if io_ok d then (mk m true, s', Ok tt)
      else (d, s', Err (EMsg "write: no space left on device"))
  | (s', Err e) => (d, s', Err e)
  | (s', Panic) => (d, s', Panic)
  end.

Definition Put (m : tx) (b k v : string) : res tx :=
  match m !! b with
  | None => Panic
  | Some kv =>
      if decide (key_ok k ∧ value_ok v) then Ok (<[b := <[k := v]> kv]> m)
      else Err (EMsg "key required or too large, or value too large")
  end.

Definition Delete (m : tx) (b k : string) : res tx :=
  match m !! b with
  | None => Panic
  | Some kv => Ok (<[b := delete k kv]> m)
  end.

#[export] Instance key_le_dec : RelDecision key_le := λ x y, String.le_dec (x.1) (y.1).
#[export] Instance key_le_trans : Transitive key_le.
Proof. intros x y z. unfold key_le. apply (transitivity (R:=String.le)). Qed.
#[export] Instance key_le_total : Total key_le.
Proof. intros x y. apply (total String.le). Qed.

Definition Seek (m : tx) (b p : string) : list (string * string) :=
  match m !! b with
  | None => []
  | Some kv => filter (λ x, String.le p (x.1)) (merge_sort key_le (map_to_list kv))
  end.

#[global] Instance bolt : Bolt t tx := {|
  bolt_Update S := Update;
  bolt_View S d f s := f s (mem d);
  bolt_Close d := (d, Ok tt);
  tx_CreateBucketIfNotExists m b :=
    Ok (match m !! b with Some _ => m | None => <[b := ∅]> m end);
  tx_Bucket m b := bool_decide (is_Some (m !! b));
  bucket_Get m b k := m !! b ≫= λ kv, kv !! k;
  bucket_Put := Put;
  bucket_Delete := Delete;
  cursor_Seek := Seek;
|}.

Lemma Seek_spec (m : tx) (b : string) (kv : gmap string string) (p : string) :
  m !! b = Some kv →
  StronglySorted key_le (Seek m b p) ∧ NoDup (Seek m b p).*1 ∧
  ∀ k v, (k, v) ∈ Seek m b p ↔ kv !! k = Some v ∧ String.le p k.
Proof.
  intros Hb. unfold Seek. rewrite Hb. split_and!.
  - apply StronglySorted_filter, StronglySorted_merge_sort; apply _.
  - apply NoDup_fmap_fst.
    + intros k v1 v2. rewrite !list_elem_of_filter, !merge_sort_Permutation.
      intros [_ H1%elem_of_map_to_list] [_ H2%elem_of_map_to_list]. congruence.
    + apply NoDup_filter. rewrite merge_sort_Permutation. apply NoDup_map_to_list.
  - intros k v. rewrite list_elem_of_filter, merge_sort_Permutation, elem_of_map_to_list.
    simpl. tauto.
Qed.

#[global] Program Instance laws : BoltLaws t tx := {|
  committed := mem;
  usable _ := True;
  writable d := io_ok d = true;
  contents m := m;
|}.
Next Obligation. done. Qed.
Next Obligation.
  intros S d f s s' r _ Hf Hr. exists d. simpl. unfold Update. rewrite Hf.
  by destruct r.
Qed.
Next Obligation.
  intros S d f s s' m _ Hf. simpl. unfold Update. rewrite Hf.
  destruct (io_ok d); eexists _, _; (split; [reflexivity|]); split; [done| |done|]; eauto.
Qed.
Next Obligation.
  intros S d f s s' m _ Hw Hf. simpl. unfold Update. rewrite Hf, Hw. by eexists.
Qed.
Next Obligation. intros m b. eexists. split; [reflexivity|]. by destruct (m !! b). Qed.
Next Obligation. done. Qed.
Next Obligation. done. Qed.
Next Obligation.
  intros m b kv k v Hb Hk Hv. simpl. unfold Put. rewrite Hb, decide_True by done. eauto.
Qed.
Next Obligation.
  intros m b kv k v Hb Hn. simpl. unfold Put. rewrite Hb, decide_False by done. eauto.
Qed.
Next Obligation. intros m b kv k Hb. simpl. unfold Delete. rewrite Hb. eauto. Qed.
Next Obligation. intros m b kv p Hb. by apply Seek_spec. Qed.

(** A new database file. *)
Definition fresh : t := mk ∅ true.
End MemDb.
