(* ===== verification/Kv.v ===== *)
(** The abstract specification of the versioned key-value store: a finite map
    of entries and a revision counter, with the operations a client of
    [store.Store] may rely on.  [BoltStore] is proved to implement it. *)

From S2P Require Import Prelude GoStrings GoEncoding JsonFields Entry.

Local Open Scope N_scope.

Record kv := mkKv {
  kv_map : gmap string Entry;
  kv_rev : N;
}.

Definition kv_empty : kv := mkKv ∅ 0.

(** The entry a [Put] writes: the next revision, and the creation revision and
    version of the entry it replaces. *)
Definition kv_next (s : kv) (k : string) (v : go_bytes) : Entry :=
  match kv_map s !! k with
  | Some p => mkEntry k v (kv_rev s + 1) (CreateRevision p) (kv_rev s + 1) (Version p + 1)
  | None => mkEntry k v (kv_rev s + 1) (kv_rev s + 1) (kv_rev s + 1) 1
  end.

Definition kv_put (s : kv) (k : string) (v : go_bytes) : kv :=
  mkKv (<[k := stored (kv_next s k v)]> (kv_map s)) (kv_rev s + 1).

Definition kv_delete (s : kv) (k : string) : kv :=
  match kv_map s !! k with
  | Some _ => mkKv (delete k (kv_map s)) (kv_rev s + 1)
  | None => s
  end.

(** The entry a successful [Delete] returns: the last one, at the new revision. *)
Definition kv_deleted (s : kv) (e : Entry) : Entry :=
  mkEntry (Key e) (Value e) (kv_rev s + 1) (CreateRevision e) (ModRevision e) (Version e).

(** Keys in byte order. *)
Definition entry_le (x y : string * Entry) : Prop := String.le (x.1) (y.1).
#[export] Instance entry_le_dec : RelDecision entry_le := λ x y, String.le_dec (x.1) (y.1).
#[export] Instance entry_le_trans : Transitive entry_le.
Proof. intros x y z. unfold entry_le. apply (transitivity (R:=String.le)). Qed.
#[export] Instance entry_le_total : Total entry_le.
Proof. intros x y. apply (total String.le). Qed.

(** The entries whose key starts with [prefix], in key order. *)
Definition kv_list (s : kv) (prefix : string) : list Entry :=
  (filter (λ x, HasPrefix (x.1) prefix = true)
     (merge_sort entry_le (map_to_list (kv_map s)))).*2.

(** ** Invariant *)

(** An entry at [k] in a store at revision [rev]: it was created no later than
    it was last modified, in a revision of the store, and its version counts at
    most one modification per revision since. *)
Definition kv_entry_ok (rev : N) (k : string) (e : Entry) : Prop :=
  Key e = ToValidUTF8 k ∧ Revision e = ModRevision e ∧
  1 ≤ CreateRevision e ≤ ModRevision e ∧ ModRevision e ≤ rev ∧
  1 ≤ Version e ≤ ModRevision e - CreateRevision e + 1.

(** Every entry is well formed and no two were written in one revision. *)
Record kv_ok (s : kv) : Prop := {
  ok_entry k e : kv_map s !! k = Some e → kv_entry_ok (kv_rev s) k e;
  ok_unique k1 k2 e1 e2 :
    kv_map s !! k1 = Some e1 → kv_map s !! k2 = Some e2 →
    ModRevision e1 = ModRevision e2 → k1 = k2;
}.

Lemma kv_ok_empty : kv_ok kv_empty.
Proof. split; intros *; cbn; rewrite lookup_empty; done. Qed.

Lemma kv_next_ok (s : kv) (k : string) (v : go_bytes) :
  kv_ok s → kv_entry_ok (kv_rev s + 1) k (stored (kv_next s k v)).
Proof.
  intros Hok. unfold kv_next, kv_entry_ok, stored.
  destruct (kv_map s !! k) as [p|] eqn:Hp; simpl; split_and!; try done; try lia.
  - destruct (ok_entry s Hok k p Hp) as (_ & _ & ? & ? & ?). lia.
  - destruct (ok_entry s Hok k p Hp) as (_ & _ & ? & ? & ?). lia.
  - destruct (ok_entry s Hok k p Hp) as (_ & _ & ? & ? & ?). lia.
Qed.

Lemma kv_entry_ok_mono (r r' : N) (k : string) (e : Entry) :
  kv_entry_ok r k e → r ≤ r' → kv_entry_ok r' k e.
Proof. unfold kv_entry_ok. intros. destr. split_and!; try done; lia. Qed.

Lemma kv_next_ModRevision (s : kv) (k : string) (v : go_bytes) :
  ModRevision (kv_next s k v) = kv_rev s + 1.
Proof. unfold kv_next. by destruct (kv_map s !! k). Qed.

Lemma kv_put_ok (s : kv) (k : string) (v : go_bytes) : kv_ok s → kv_ok (kv_put s k v).
Proof.
  intros Hok. split.
  - intros k' e. cbn. destruct (decide (k = k')) as [<-|Hne].
    + rewrite lookup_insert_eq. intros [= <-]. by apply kv_next_ok.
    + rewrite lookup_insert_ne by done. intros He.
      eapply kv_entry_ok_mono; [by eapply ok_entry|lia].
  - assert (∀ k' e, kv_map s !! k' = Some e → ModRevision e < kv_rev s + 1) as Hlt.
    { intros k' e He. destruct (ok_entry s Hok k' e He) as (_ & _ & _ & ? & _). lia. }
    intros k1 k2 e1 e2. cbn.
    destruct (decide (k = k1)) as [<-|H1], (decide (k = k2)) as [<-|H2]; [done|..];
      rewrite ?lookup_insert_eq, ?lookup_insert_ne by done.
    + intros [= <-] He2 Heq. simpl in Heq. rewrite kv_next_ModRevision in Heq.
      apply Hlt in He2. lia.
    + intros He1 [= <-] Heq. simpl in Heq. rewrite kv_next_ModRevision in Heq.
      apply Hlt in He1. lia.
    + apply (ok_unique s Hok).
Qed.

Lemma kv_delete_ok (s : kv) (k : string) : kv_ok s → kv_ok (kv_delete s k).
Proof.
  intros Hok. unfold kv_delete. destruct (kv_map s !! k) as [p|]; [|done]. split.
  - intros k' e. cbn. rewrite lookup_delete_Some. intros [_ He].
    eapply kv_entry_ok_mono; [by eapply ok_entry|lia].
  - intros k1 k2 e1 e2. cbn. rewrite !lookup_delete_Some. intros [_ H1] [_ H2].
    by eapply (ok_unique s Hok).
Qed.

(** ** Histories *)

Inductive kv_op : Set :=
  | OpPut (k : string) (v : go_bytes)
  | OpDelete (k : string).

Definition kv_step (s : kv) (o : kv_op) : kv :=
  match o with
  | OpPut k v => kv_put s k v
  | OpDelete k => kv_delete s k
  end.

Definition kv_run (s : kv) (l : list kv_op) : kv := foldl kv_step s l.

(** An operation that changes the store: every one but a delete of a missing key. *)
Definition effective (s : kv) (o : kv_op) : bool :=
  match o with
  | OpPut _ _ => true
  | OpDelete k => bool_decide (is_Some (kv_map s !! k))
  end.

Lemma kv_step_ok (s : kv) (o : kv_op) : kv_ok s → kv_ok (kv_step s o).
Proof. destruct o; [apply kv_put_ok|apply kv_delete_ok]. Qed.

Lemma kv_run_ok (l : list kv_op) (s : kv) : kv_ok s → kv_ok (kv_run s l).
Proof. revert s. induction l as [|o l IH]; intros s Hs; [done|]. by apply IH, kv_step_ok. Qed.

Lemma kv_step_rev (s : kv) (o : kv_op) :
  kv_rev (kv_step s o) = if effective s o then kv_rev s + 1 else kv_rev s.
Proof.
  destruct o as [k v|k]; [done|]. simpl. unfold kv_delete.
  destruct (kv_map s !! k); [by rewrite bool_decide_true|by rewrite bool_decide_false].
Qed.

Lemma kv_step_rev_le (s : kv) (o : kv_op) : kv_rev s ≤ kv_rev (kv_step s o).
Proof. rewrite kv_step_rev. destruct (effective s o); lia. Qed.

#[export] Hint Resolve kv_ok_empty kv_put_ok kv_delete_ok kv_step_ok kv_run_ok : paladin.

(** Keys that are valid UTF-8 are kept as they are. *)
Lemma kv_put_get (s : kv) (k : string) (v : go_bytes) :
  kv_map (kv_put s k v) !! k = Some (stored (kv_next s k v)).
Proof. apply lookup_insert_eq. Qed.

Lemma kv_put_get_other (s : kv) (k k' : string) (v : go_bytes) :
  k ≠ k' → kv_map (kv_put s k v) !! k' = kv_map s !! k'.
Proof. intros H. by apply lookup_insert_ne. Qed.

(** ** Lists *)

Lemma kv_list_elem (s : kv) (p : string) (e : Entry) :
  e ∈ kv_list s p ↔ ∃ k, HasPrefix k p = true ∧ kv_map s !! k = Some e.
Proof.
  unfold kv_list. rewrite list_elem_of_fmap. split.
  - intros ([k e'] & -> & Hin). rewrite list_elem_of_filter, merge_sort_Permutation,
      elem_of_map_to_list in Hin. by exists k.
  - intros (k & Hp & He). exists (k, e). split; [done|].
    by rewrite list_elem_of_filter, merge_sort_Permutation, elem_of_map_to_list.
Qed.

(** The keys of the store are valid UTF-8, so entries carry their own key. *)
Definition kv_valid (s : kv) : Prop :=
  ∀ k e, kv_map s !! k = Some e → ValidString k = true.

Lemma kv_valid_Key (s : kv) (k : string) (e : Entry) :
  kv_ok s → kv_valid s → kv_map s !! k = Some e → Key e = k.
Proof.
  intros Hok Hv He. destruct (ok_entry s Hok k e He) as (-> & _).
  apply ToValidUTF8_valid. by eapply Hv.
Qed.

Lemma kv_list_keys (s : kv) (p : string) :
  kv_ok s → kv_valid s → NoDup (Key <$> kv_list s p).
Proof.
  intros Hok Hv. unfold kv_list.
  set (l := filter _ (merge_sort entry_le (map_to_list (kv_map s)))).
  assert (∀ k e, (k, e) ∈ l → kv_map s !! k = Some e) as Hl.
  { intros k e. unfold l. rewrite list_elem_of_filter, merge_sort_Permutation,
      elem_of_map_to_list. by intros [_ ?]. }
  assert (Key <$> l.*2 = l.*1) as ->.
  { rewrite <- list_fmap_compose. apply list_fmap_ext. intros i [k e] Hi.
    apply list_elem_of_lookup_2, Hl in Hi. simpl. by apply (kv_valid_Key s). }
  apply NoDup_fmap_fst.
  - intros k e1 e2 H1%Hl H2%Hl. congruence.
  - apply NoDup_filter. rewrite merge_sort_Permutation. apply NoDup_map_to_list.
Qed.

Lemma kv_list_entry_ok (s : kv) (p : string) :
  kv_ok s → kv_rev s ≤ max_uint64 → Forall entry_ok (kv_list s p).
Proof.
  intros Hok Hmax. apply Forall_forall. intros e (k & _ & He)%kv_list_elem.
  destruct (ok_entry s Hok k e He) as (_ & ? & ? & ? & ?). unfold entry_ok. lia.
Qed.

(** What is in the store is already as JSON keeps it. *)
Lemma kv_list_stored (s : kv) (p : string) : kv_ok s → stored <$> kv_list s p = kv_list s p.
Proof.
  intros Hok. rewrite <- (list_fmap_id (kv_list s p)) at 2. apply list_fmap_ext.
  intros i e (k & _ & He)%list_elem_of_lookup_2%kv_list_elem.
  destruct (ok_entry s Hok k e He) as (Hk & _). destruct e. unfold stored. simpl in *.
  by rewrite Hk, ToValidUTF8_idem.
Qed.
