(* ===== verification/StoreSpec.v ===== *)
(** What the [Store] interface promises to the layers above it, as a class of
    laws over the abstract state of [Kv]: the HTTP server and the replicated
    state machine are verified against [StoreLaws], and [BoltStore] and
    [WatchableStore] discharge it.  Also histories of store calls and the
    simulation every lawful store enjoys. *)

From S2P Require Import Prelude GoStrings GoEncoding GoJson JsonFields Entry BoltDB Kv.

Local Open Scope N_scope.

(** The JSON of the entry a [Put] writes is small enough for the database. *)
Definition fits (e : Entry) : Prop :=
  ∀ raw, entry_Marshal e = Ok raw → value_ok raw.

#[export] Instance fits_dec (e : Entry) : Decision (fits e).
Proof.
  unfold fits. destruct (entry_Marshal e) as [raw| |].
  - destruct (decide (value_ok raw)) as [Hv|Hv]; [left|right]; naive_solver.
  - left. by intros ? [=].
  - left. by intros ? [=].
Defined.

(** What [Put] needs of the key, the value and the revision, in a store that
    takes [lim] mutations before one of its counters wraps. *)
Definition can_put (lim : N) (a : kv) (k : string) (v : go_bytes) : Prop :=
  key_ok k ∧ fits (kv_next a k v) ∧ kv_rev a < lim.

Definition put_result (a : kv) (k : string) (v : go_bytes) : PutResult :=
  mkPutResult (Some (kv_next a k v)) (kv_map a !! k).

(** [store_rep s a]: the store [s] is in the abstract state [a] and its medium
    accepts writes. *)
Class StoreLaws (S : Type) `{Store S} := {
  store_rep : S → kv → Prop;
  store_limit : N;
  law_limit : store_limit ≤ max_uint64;
  law_ok s a : store_rep s a → kv_ok a;
  law_max s a : store_rep s a → kv_rev a ≤ max_uint64;
  law_Put s a k v :
    store_rep s a → can_put store_limit a k v →
    ∃ s', store_Put s k v = (s', Some (put_result a k v), Ok tt) ∧
          store_rep s' (kv_put a k v);
  law_Put_refused s a k v :
    store_rep s a → kv_rev a < store_limit → ¬ (key_ok k ∧ fits (kv_next a k v)) →
    ∃ s' r e, store_Put s k v = (s', r, Err e) ∧ store_rep s' a;
  law_Get s a k :
    store_rep s a →
    store_Get s k = match kv_map a !! k with Some e => Ok e | None => Err ErrKeyNotFound end;
  law_Delete s a k e :
    store_rep s a → kv_rev a < store_limit → kv_map a !! k = Some e →
    ∃ s', store_Delete s k = (s', Ok (kv_deleted a e)) ∧ store_rep s' (kv_delete a k);
  law_Delete_missing s a k :
    store_rep s a → kv_rev a < store_limit → kv_map a !! k = None →
    ∃ s', store_Delete s k = (s', Err ErrKeyNotFound) ∧ store_rep s' a;
  law_List s a p : store_rep s a → store_List s p = (kv_list a p, Ok tt);
  law_Rev s a : store_rep s a → store_Rev s = kv_rev a;
}.

(** ** Histories of calls *)

Inductive call : Set :=
  | CPut (k : string) (v : go_bytes)
  | CDelete (k : string)
  | CGet (k : string)
  | CList (p : string)
  | CRev.

Inductive reply : Type :=
  | RPut (r : option PutResult) (err : res unit)
  | REntry (r : res Entry)
  | RList (l : list Entry) (err : res unit)
  | RRev (n : N).

(** One call of a store, and the reply the specification gives. *)
Definition do_call {S} `{Store S} (s : S) (c : call) : S * reply :=
  match c with
  | CPut k v => let '(s', r, err) := store_Put s k v in (s', RPut r err)
  | CDelete k => let '(s', r) := store_Delete s k in (s', REntry r)
  | CGet k => (s, REntry (store_Get s k))
  | CList p => let '(l, err) := store_List s p in (s, RList l err)
  | CRev => (s, RRev (store_Rev s))
  end.

Definition spec_call (a : kv) (c : call) : kv * reply :=
  match c with
  | CPut k v => (kv_put a k v, RPut (Some (put_result a k v)) (Ok tt))
  | CDelete k =>
      (kv_delete a k,
       REntry match kv_map a !! k with
              | Some e => Ok (kv_deleted a e)
              | None => Err ErrKeyNotFound
              end)
  | CGet k =>
      (a, REntry match kv_map a !! k with Some e => Ok e | None => Err ErrKeyNotFound end)
  | CList p => (a, RList (kv_list a p) (Ok tt))
  | CRev => (a, RRev (kv_rev a))
  end.

(** The call is within the database's limits and the counters do not wrap. *)
Definition admissible (lim : N) (a : kv) (c : call) : Prop :=
  match c with
  | CPut k v => can_put lim a k v
  | CDelete _ => kv_rev a < lim
  | _ => True
  end.

Fixpoint run_calls {S} `{Store S} (s : S) (l : list call) : S * list reply :=
  match l with
  | [] => (s, [])
  | c :: l' =>
      let '(s1, r) := do_call s c in
      let '(s2, rs) := run_calls s1 l' in (s2, r :: rs)
  end.

Fixpoint spec_calls (a : kv) (l : list call) : kv * list reply :=
  match l with
  | [] => (a, [])
  | c :: l' =>
      let '(a1, r) := spec_call a c in
      let '(a2, rs) := spec_calls a1 l' in (a2, r :: rs)
  end.

Fixpoint admissible_calls (lim : N) (a : kv) (l : list call) : Prop :=
  match l with
  | [] => True
  | c :: l' => admissible lim a c ∧ admissible_calls lim (spec_call a c).1 l'
  end.

Section simulation.
Context {S : Type} `{StoreLaws S}.

(** One call: the reply is the specification's and the states stay related. *)
Lemma do_call_spec (s : S) (a : kv) (c : call) :
  store_rep s a → admissible store_limit a c →
  (do_call s c).2 = (spec_call a c).2 ∧ store_rep (do_call s c).1 (spec_call a c).1.
Proof.
  intros Hrep Hadm. destruct c as [k v|k|k|p|]; simpl in *.
  - by destruct (law_Put s a k v Hrep Hadm) as (s' & -> & ?).
  - unfold kv_delete. destruct (kv_map a !! k) as [e|] eqn:He.
    + destruct (law_Delete s a k e Hrep Hadm He) as (s' & -> & Hr).
      unfold kv_delete in Hr. by rewrite He in Hr.
    + by destruct (law_Delete_missing s a k Hrep Hadm He) as (s' & -> & ?).
  - by rewrite (law_Get s a k Hrep).
  - by rewrite (law_List s a p Hrep).
  - by rewrite (law_Rev s a Hrep).
Qed.

Lemma run_calls_spec (l : list call) (s : S) (a : kv) :
  store_rep s a → admissible_calls store_limit a l →
  (run_calls s l).2 = (spec_calls a l).2 ∧
  store_rep (run_calls s l).1 (spec_calls a l).1.
Proof.
  revert s a. induction l as [|c l IH]; intros s a Hrep Hadm; [done|].
  destruct Hadm as [Hc Hl]. destruct (do_call_spec s a c Hrep Hc) as [Hr Hrep'].
  simpl. destruct (do_call s c) as [s1 r], (spec_call a c) as [a1 r']. simpl in *. subst r'.
  destruct (IH s1 a1 Hrep' Hl) as [Hrs Hrep2].
  destruct (run_calls s1 l) as [s2 rs], (spec_calls a1 l) as [a2 rs']. simpl in *. by subst.
Qed.
End simulation.

Lemma spec_call_ok (a : kv) (c : call) : kv_ok a → kv_ok (spec_call a c).1.
Proof. destruct c; simpl; auto with paladin. Qed.

Lemma spec_calls_ok (l : list call) (a : kv) : kv_ok a → kv_ok (spec_calls a l).1.
Proof.
  revert a. induction l as [|c l IH]; intros a Ha; [done|]. simpl.
  pose proof (spec_call_ok a c Ha) as H1. destruct (spec_call a c) as [a1 r]. simpl in H1.
  specialize (IH a1 H1). by destruct (spec_calls a1 l).
Qed.

Lemma kv_next_entry_ok (a : kv) (k : string) (v : go_bytes) :
  kv_ok a → (kv_rev a < max_uint64)%N → entry_ok (kv_next a k v).
Proof.
  intros Hok Hrev. unfold kv_next, entry_ok.
  destruct (kv_map a !! k) as [p|] eqn:Hp; simpl; [|lia].
  destruct (ok_entry a Hok k p Hp) as (_ & _ & ? & ? & ?). lia.
Qed.

(** ** Sizes *)

Lemma quote_ascii_length (a : ascii) : (String.length (quote_ascii a) ≤ 6)%nat.
Proof. unfold quote_ascii, u00_escape. repeat case_match; simpl; lia. Qed.

(** A character takes at most six bytes for each of its own. *)
Lemma quote_length (s : string) : (String.length (quote s) ≤ 6 * String.length s + 2)%nat.
Proof.
  unfold quote. cbn [String.length]. rewrite string_length_app. simpl.
  enough (String.length (sconcat (quote_unit <$> utf8_units s)) ≤ 6 * String.length s)%nat by lia.
  induction s as [|s c r Hd IH|a r Hd IH] using utf8_ind; [simpl; lia|..].
  - rewrite (utf8_units_rune _ _ _ Hd). cbn [fmap list_fmap sconcat foldr].
    fold (sconcat (quote_unit <$> utf8_units r)). rewrite string_length_app.
    destruct (DecodeRune_spec _ _ _ Hd) as (-> & _ & _). rewrite string_length_app.
    enough (String.length (quote_unit (URune c)) ≤ 6 * String.length c)%nat by lia.
    destruct (DecodeRune_cases _ _ _ Hd) as [(a & -> & _)|(a & b & c' & -> & _)].
    + apply quote_ascii_length.
    + unfold quote_unit. repeat case_match; simpl; lia.
  - rewrite (utf8_units_bad _ _ Hd). cbn [fmap list_fmap sconcat foldr].
    fold (sconcat (quote_unit <$> utf8_units r)). rewrite string_length_app.
    cbn [quote_unit String.length]. lia.
Qed.

Lemma b64_length (s : string) : (String.length (b64_encode s) ≤ 2 * String.length s + 4)%nat.
Proof.
  induction s as [|a|a b|a b c r IH] using string_ind3; cbn [b64_encode String.length]; lia.
Qed.

Lemma format_uint_length (n : N) :
  n ≤ max_uint64 → (String.length (format_uint n) ≤ 64)%nat.
Proof.
  intros Hn. unfold format_uint.
  pose proof (format_go_length (S (N.to_nat (N.log2 n))) n "") as Hl. simpl in Hl.
  assert (N.log2 n ≤ N.log2 max_uint64) as Hlog by (by apply N.log2_le_mono).
  change (N.log2 max_uint64) with 63 in Hlog. simpl. lia.
Qed.

(** An entry whose key and value are far below the database's limits fits: the
    HTTP layer never sends a value over 1 MiB. *)
Lemma entry_fits (e : Entry) :
  entry_ok e → N.of_nat (String.length (Key e)) ≤ 32768 →
  N.of_nat (String.length (bytes_to_string (Value e))) ≤ 100000000 → fits e.
Proof.
  intros (Hr & Hc & Hm & Hv) Hk Hval raw Hraw. unfold value_ok.
  assert (raw = render (λ _, "") "" 0 (entry_json e)) as -> by (symmetry; by injection Hraw).
  destruct e as [ky va re cr mo ve]. cbn [Key Value Revision CreateRevision ModRevision Version] in *.
  pose proof (quote_length ky).
  pose proof (format_uint_length _ Hr). pose proof (format_uint_length _ Hc).
  pose proof (format_uint_length _ Hm). pose proof (format_uint_length _ Hv).
  assert (String.length (render (λ _, "") "" 1 (json_bytes va))
    ≤ 12 * String.length (bytes_to_string va) + 26)%nat as Hb.
  { destruct va as [s|]; cbn [json_bytes render bytes_to_string default]; [|simpl; lia].
    pose proof (quote_length (b64_encode s)). pose proof (b64_length s). unfold id. lia. }
  unfold entry_json, json_uint. cbn [render map join fst snd Key Value Revision CreateRevision
    ModRevision Version].
  rewrite !string_length_app.
  repeat match goal with
  | |- context [String.length (quote ?c)] =>
      lazymatch c with
      | String _ _ => let n := eval vm_compute in (String.length (quote c)) in
          change (String.length (quote c)) with n
      end
  end.
  cbn [String.length]. lia.
Qed.

Lemma can_put_small (lim : N) (a : kv) (k : string) (v : go_bytes) :
  kv_ok a → kv_rev a < lim → lim ≤ max_uint64 → key_ok k →
  N.of_nat (String.length (bytes_to_string v)) ≤ 100000000 → can_put lim a k v.
Proof.
  intros Hok Hlt Hlim Hk Hv. split_and!; [done| |done]. apply entry_fits.
  - apply kv_next_entry_ok; [done|lia].
  - unfold kv_next. unfold key_ok in Hk. case_match; simpl; lia.
  - unfold kv_next. by case_match.
Qed.
