(* ===== verification/BoltStore.v ===== *)
(** [src/store/bolt.go]: [BoltStore], the key-value store in a bbolt file.  The
    bucket [data] holds the JSON of each entry under its key and the bucket
    [meta] the revision as eight big-endian bytes; the revision is also cached
    in memory.  Every method holds the mutex from its first line to its return,
    so a method is one atomic step here. *)

From S2P Require Import Prelude GoStrings GoEncoding GoJson JsonFields Entry BoltDB Kv StoreSpec.

Local Open Scope string_scope.
Local Open Scope nat_scope.
Local Open Scope go_scope.

Definition bucketData : string := "data".
Definition bucketMeta : string := "meta".
Definition keyRev : string := "rev".

(** [type BoltStore struct], without its mutex. *)
Record BoltStore (db : Type) := mkBoltStore {
  bs_db : db;
  bs_rev : N;
}.
Arguments mkBoltStore {db} _ _.
Arguments bs_db {db} _.
Arguments bs_rev {db} _.

Section operations.
Context {db tx : Type} `{!Bolt db tx}.

(** The closure of [NewBoltStore] that creates the buckets. *)
Definition create_buckets (c : unit) (t : tx) : unit * res tx :=
  try! t1 := tx_CreateBucketIfNotExists t bucketData keep c in
  try! t2 := tx_CreateBucketIfNotExists t1 bucketMeta keep c in
  (c, Ok t2).

(** The closure that loads the revision; [rev] is the captured variable. *)
Definition load_rev (rev : N) (t : tx) : N * res unit :=
  if negb (tx_Bucket t bucketMeta) then (rev, Panic)
  else match bucket_Get t bucketMeta keyRev with
       | Some v => try! n := BE_Uint64 v keep rev in (n, Ok tt)
       | None => (rev, Ok tt)
       end.

(** [NewBoltStore(path)], from what [bolt.Open(path)] returns.  An error of the
    read-only transaction is dropped, as in the source. *)
Definition NewBoltStore (opened : res db) : res (BoltStore db) :=
  d ← wrap_err "open bolt db" opened;
  match bolt_Update d create_buckets tt with
  | (_, _, Err e) => Err e
  | (_, _, Panic) => Panic
  | (d', _, Ok _) =>
      match bolt_View d' load_rev 0%N with
      | (_, Panic) => Panic
      | (rev, _) => Ok (mkBoltStore d' rev)
      end
  end.

(** The closure of [Put]; it captures [s.rev] and [result]. *)
Definition put_tx (key : string) (value : go_bytes)
    (c : N * PutResult) (t : tx) : (N * PutResult) * res tx :=
  let '(rev, result) := c in
  if negb (tx_Bucket t bucketData) || negb (tx_Bucket t bucketMeta) then (c, Panic) else
  try! prev :=
    match bucket_Get t bucketData key with
    | Some raw => wrap_err "unmarshal prev entry" (Some <$> entry_Unmarshal raw zero_entry)
    | None => Ok None
    end keep c in
  let newRev := u64_add rev 1 in
  let entry :=
    match prev with
    | Some p =>
        mkEntry key value newRev (CreateRevision p) newRev (u64_add (Version p) 1)
    | None => mkEntry key value newRev newRev newRev 1
    end in
  let result :=
    match prev with
    | Some p => mkPutResult (pr_Entry result) (Some p)
    | None => result
    end in
  try! encoded := wrap_err "marshal entry" (entry_Marshal entry) keep (rev, result) in
  try! t1 := bucket_Put t bucketData key encoded keep (rev, result) in
  try! t2 := bucket_Put t1 bucketMeta keyRev (BE_PutUint64 newRev) keep (rev, result) in
  ((newRev, mkPutResult (Some entry) (pr_PrevEntry result)), Ok t2).

(** [func (s *BoltStore) Put]: the result pointer is never [nil]. *)
Definition BoltStore_Put (s : BoltStore db) (key : string) (value : go_bytes)
    : BoltStore db * option PutResult * res unit :=
  let '(d, (rev, result), err) :=
    bolt_Update (bs_db s) (put_tx key value) (bs_rev s, mkPutResult None None) in
  (mkBoltStore d rev, Some result, err).

(** The closure of [Get]; it captures [entry]. *)
Definition get_tx (key : string) (entry : Entry) (t : tx) : Entry * res unit :=
  if negb (tx_Bucket t bucketData) then (entry, Panic) else
  match bucket_Get t bucketData key with
  | None => (entry, Err ErrKeyNotFound)
  | Some raw => try! e := entry_Unmarshal raw entry keep entry in (e, Ok tt)
  end.

Definition BoltStore_Get (s : BoltStore db) (key : string) : res Entry :=
  match bolt_View (bs_db s) (get_tx key) zero_entry with
  | (entry, Ok _) => Ok entry
  | (_, Err e) => Err e
  | (_, Panic) => Panic
  end.

(** The closure of [Delete]; it captures [s.rev] and [deleted]. *)
Definition delete_tx (key : string) (c : N * Entry) (t : tx) : (N * Entry) * res tx :=
  let '(rev, deleted) := c in
  if negb (tx_Bucket t bucketData) || negb (tx_Bucket t bucketMeta) then (c, Panic) else
  match bucket_Get t bucketData key with
  | None => (c, Err ErrKeyNotFound)
  | Some raw =>
      try! deleted := entry_Unmarshal raw deleted keep c in
      try! t1 := bucket_Delete t bucketData key keep (rev, deleted) in
      let newRev := u64_add rev 1 in
      try! t2 := bucket_Put t1 bucketMeta keyRev (BE_PutUint64 newRev) keep (rev, deleted) in
      ((newRev, mkEntry (Key deleted) (Value deleted) newRev (CreateRevision deleted)
                  (ModRevision deleted) (Version deleted)), Ok t2)
  end.

Definition BoltStore_Delete (s : BoltStore db) (key : string) : BoltStore db * res Entry :=
  let '(d, (rev, deleted), err) :=
    bolt_Update (bs_db s) (delete_tx key) (bs_rev s, zero_entry) in
  (mkBoltStore d rev,
   match err with Ok _ => Ok deleted | Err e => Err e | Panic => Panic end).

(** The loop of [List] over the cursor. *)
Fixpoint list_loop (prefix : string) (cursor : list (string * string))
    (entries : list Entry) : list Entry * res unit :=
  match cursor with
  | [] => (entries, Ok tt)
  | (k, v) :: cursor' =>
      if HasPrefix k prefix then
        try! entry := entry_Unmarshal v zero_entry keep entries in
        list_loop prefix cursor' (entries ++ [entry])%list
      else (entries, Ok tt)
  end.

Definition list_tx (prefix : string) (entries : list Entry) (t : tx) : list Entry * res unit :=
  if negb (tx_Bucket t bucketData) then (entries, Panic)
  else list_loop prefix (cursor_Seek t bucketData prefix) entries.

Definition BoltStore_List (s : BoltStore db) (prefix : string) : list Entry * res unit :=
  bolt_View (bs_db s) (list_tx prefix) [].

Definition BoltStore_Rev (s : BoltStore db) : N := bs_rev s.

Definition BoltStore_Close (s : BoltStore db) : BoltStore db * res unit :=
  let '(d, err) := bolt_Close (bs_db s) in (mkBoltStore d (bs_rev s), err).

#[export] Instance bolt_store : Store (BoltStore db) := {|
  store_Put := BoltStore_Put;
  store_Get := BoltStore_Get;
  store_Delete := BoltStore_Delete;
  store_List := BoltStore_List;
  store_Rev := BoltStore_Rev;
  store_Close := BoltStore_Close;
|}.
End operations.

(** ** Refinement of the specification *)

(** A raw value of the [data] bucket is the JSON of an entry; decoding it gives
    the entry whatever struct it is decoded into. *)
Definition decodes (raw : string) (e : Entry) : Prop :=
  ∀ e0, entry_Unmarshal raw e0 = Ok e.

(** The [data] bucket holds the entries of the specification state. *)
Definition rep_data (data : gmap string string) (m : gmap string Entry) : Prop :=
  ∀ k, match data !! k, m !! k with
       | Some raw, Some e => decodes raw e
       | None, None => True
       | _, _ => False
       end.

(** The [meta] bucket holds the revision, once there is one. *)
Definition rep_meta (meta : gmap string string) (rev : N) : Prop :=
  match meta !! keyRev with
  | Some v => v = BE_PutUint64 rev
  | None => rev = 0%N
  end.

(** The contents of a database represent the state [a]. *)
Definition represents (c : gmap string (gmap string string)) (a : kv) : Prop :=
  ∃ data meta, c !! bucketData = Some data ∧ c !! bucketMeta = Some meta ∧
    rep_data data (kv_map a) ∧ rep_meta meta (kv_rev a).

Lemma rep_data_lookup (data : gmap string string) (m : gmap string Entry) (k : string) :
  rep_data data m →
  match m !! k with
  | Some e => ∃ raw, data !! k = Some raw ∧ decodes raw e
  | None => data !! k = None
  end.
Proof. intros H. specialize (H k). destruct (m !! k), (data !! k); eauto; done. Qed.

Lemma rep_data_insert (data : gmap string string) (m : gmap string Entry) k raw e :
  rep_data data m → decodes raw e → rep_data (<[k := raw]> data) (<[k := e]> m).
Proof.
  intros H Hd k'. destruct (decide (k = k')) as [<-|Hne].
  - by rewrite !lookup_insert_eq.
  - rewrite !lookup_insert_ne by done. apply H.
Qed.

Lemma rep_data_delete (data : gmap string string) (m : gmap string Entry) k :
  rep_data data m → rep_data (delete k data) (delete k m).
Proof.
  intros H k'. destruct (decide (k = k')) as [<-|Hne].
  - by rewrite !lookup_delete_eq.
  - rewrite !lookup_delete_ne by done. apply H.
Qed.

Lemma keyRev_ok : key_ok keyRev.
Proof. unfold key_ok. simpl. lia. Qed.

Lemma BE_value_ok (n : N) : value_ok (BE_PutUint64 n).
Proof. unfold value_ok. simpl. lia. Qed.

#[export] Hint Resolve keyRev_ok BE_value_ok : paladin.

(** The cursor loop reads the entries of a sorted cursor that have the prefix. *)
Definition dec_raw (raw : string) : Entry :=
  match entry_Unmarshal raw zero_entry with Ok e => e | _ => zero_entry end.

Lemma list_loop_spec (p : string) (cur : list (string * string)) (acc : list Entry) :
  StronglySorted key_le cur →
  (∀ k raw, (k, raw) ∈ cur → String.le p k ∧ ∃ e, decodes raw e) →
  list_loop p cur acc
  = ((acc ++ ((λ x, dec_raw (x.2)) <$> filter (λ x, HasPrefix (x.1) p = true) cur))%list, Ok tt).
Proof.
  intros Hs. revert acc. induction Hs as [|[k raw] cur Hs IH Hx]; intros acc Hall.
  { simpl. by rewrite app_nil_r. }
  destruct (Hall k raw) as (Hpk & e & He); [by left|]. cbn [list_loop]. rewrite filter_cons.
  cbn [fst]. destruct (HasPrefix k p) eqn:Hk.
  - rewrite decide_True by done. rewrite He, IH by (intros; apply Hall; by right).
    rewrite <- app_assoc. cbn. unfold dec_raw at 2. by rewrite He.
  - rewrite decide_False by done.
    assert (filter (λ x : string * string, HasPrefix x.1 p = true) cur = []) as ->.
    { apply filter_none. intros [k' raw'] Hin Hp. rewrite Forall_forall in Hx.
      pose proof (Hx _ Hin) as Hle.
      rewrite (prefix_contiguous p k k' Hpk Hle Hp) in Hk. done. }
    simpl. by rewrite app_nil_r.
Qed.

Section refinement.
Context {db tx : Type} `{!Bolt db tx, !BoltLaws db tx}.

(** The store is open on a database that represents [a], with the revision
    cached in memory equal to the one on disk. *)
Record refines (s : BoltStore db) (a : kv) : Prop := {
  ref_usable : usable (bs_db s);
  ref_rep : represents (contents (committed (bs_db s))) a;
  ref_rev : bs_rev s = kv_rev a;
  ref_ok : kv_ok a;
  ref_max : (kv_rev a ≤ max_uint64)%N;
}.

Lemma Bucket_some (t : tx) (b : string) m : contents t !! b = Some m → tx_Bucket t b = true.
Proof. intros H. rewrite Bucket_law, H. by apply bool_decide_eq_true. Qed.

Lemma Get_some (t : tx) (b k : string) m : contents t !! b = Some m → bucket_Get t b k = m !! k.
Proof. intros H. by rewrite Get_law, H. Qed.

Lemma put_tx_prev (t : tx) (a : kv) (k : string) :
  represents (contents t) a →
  match bucket_Get t bucketData k with
  | Some raw => wrap_err "unmarshal prev entry" (Some <$> entry_Unmarshal raw zero_entry)
  | None => Ok None
  end = Ok (kv_map a !! k).
Proof.
  intros (data & meta & Hd & Hm & Hrd & _). rewrite (Get_some _ _ _ _ Hd).
  pose proof (rep_data_lookup data (kv_map a) k Hrd) as Hl.
  destruct (kv_map a !! k) as [e|]; [|by rewrite Hl].
  destruct Hl as (raw & -> & He). by rewrite He.
Qed.

(** The entry the closure builds is the specification's. *)
Lemma put_tx_entry (a : kv) (k : string) (v : go_bytes) :
  kv_ok a → (kv_rev a < max_uint64)%N →
  match kv_map a !! k with
  | Some p => mkEntry k v (u64_add (kv_rev a) 1) (CreateRevision p)
                (u64_add (kv_rev a) 1) (u64_add (Version p) 1)
  | None => mkEntry k v (u64_add (kv_rev a) 1) (u64_add (kv_rev a) 1)
              (u64_add (kv_rev a) 1) 1
  end = kv_next a k v.
Proof.
  intros Hok Hrev. unfold kv_next. rewrite u64_add_small by lia.
  destruct (kv_map a !! k) as [p|] eqn:Hp; [|done].
  destruct (ok_entry a Hok k p Hp) as (_ & _ & ? & ? & ?).
  by rewrite u64_add_small by lia.
Qed.

Lemma put_tx_ok (t : tx) (a : kv) (k : string) (v : go_bytes) :
  represents (contents t) a → kv_ok a → (kv_rev a < max_uint64)%N →
  key_ok k → fits (kv_next a k v) →
  ∃ t', put_tx k v (kv_rev a, mkPutResult None None) t
        = ((kv_rev a + 1, mkPutResult (Some (kv_next a k v)) (kv_map a !! k))%N, Ok t')
      ∧ represents (contents t') (kv_put a k v).
Proof.
  intros Hrep Hok Hrev Hk Hfits. pose proof Hrep as (data & meta & Hd & Hm & Hrd & Hrm).
  destruct (entry_roundtrip _ zero_entry (kv_next_entry_ok a k v Hok Hrev)) as (raw & Hraw & _).
  destruct (Put_law _ _ _ k raw Hd Hk (Hfits raw Hraw)) as (t1 & Ht1 & Hc1).
  assert (contents t1 !! bucketMeta = Some meta) as Hm1 by (by rewrite Hc1, lookup_insert_ne).
  destruct (Put_law _ _ _ keyRev (BE_PutUint64 (kv_rev a + 1)) Hm1 keyRev_ok (BE_value_ok _))
    as (t2 & Ht2 & Hc2).
  exists t2. split.
  - unfold put_tx. rewrite (Bucket_some _ _ _ Hd), (Bucket_some _ _ _ Hm).
    cbn [negb orb]. rewrite (put_tx_prev _ _ _ Hrep).
    cbn zeta. rewrite (put_tx_entry a k v Hok Hrev), Hraw. cbn [wrap_err].
    rewrite Ht1. rewrite u64_add_small by lia. rewrite Ht2.
    by destruct (kv_map a !! k).
  - exists (<[k := raw]> data), (<[keyRev := BE_PutUint64 (kv_rev a + 1)]> meta).
    rewrite Hc2, lookup_insert_ne, Hc1, lookup_insert_eq, lookup_insert_eq by done.
    split_and!; [done..| |].
    + apply rep_data_insert; [done|]. intros e0.
      destruct (entry_roundtrip _ e0 (kv_next_entry_ok a k v Hok Hrev)) as (raw' & Hr' & Hu).
      congruence.
    + unfold rep_meta. by rewrite lookup_insert_eq.
Qed.

Lemma delete_tx_ok (t : tx) (a : kv) (k : string) (e : Entry) :
  represents (contents t) a → kv_map a !! k = Some e → (kv_rev a < max_uint64)%N →
  ∃ t', delete_tx k (kv_rev a, zero_entry) t = ((kv_rev a + 1, kv_deleted a e)%N, Ok t')
      ∧ represents (contents t') (kv_delete a k).
Proof.
  intros (data & meta & Hd & Hm & Hrd & Hrm) He Hrev.
  pose proof (rep_data_lookup data (kv_map a) k Hrd) as Hl. rewrite He in Hl.
  destruct Hl as (raw & Hraw & Hdec).
  destruct (Delete_law _ _ _ k Hd) as (t1 & Ht1 & Hc1).
  assert (contents t1 !! bucketMeta = Some meta) as Hm1 by (by rewrite Hc1, lookup_insert_ne).
  destruct (Put_law _ _ _ keyRev (BE_PutUint64 (kv_rev a + 1)) Hm1 keyRev_ok (BE_value_ok _))
    as (t2 & Ht2 & Hc2).
  exists t2. split.
  - unfold delete_tx. rewrite (Bucket_some _ _ _ Hd), (Bucket_some _ _ _ Hm).
    cbn [negb orb]. rewrite (Get_some _ _ _ _ Hd), Hraw, Hdec, Ht1.
    cbn zeta. by rewrite u64_add_small, Ht2 by lia.
  - exists (delete k data), (<[keyRev := BE_PutUint64 (kv_rev a + 1)]> meta).
    unfold kv_delete. rewrite He, Hc2, lookup_insert_ne, Hc1, !lookup_insert_eq by done.
    split_and!; [done..| |].
    + by apply rep_data_delete.
    + unfold rep_meta. by rewrite lookup_insert_eq.
Qed.

Lemma delete_tx_missing (t : tx) (a : kv) (k : string) (c : N * Entry) :
  represents (contents t) a → kv_map a !! k = None →
  delete_tx k c t = (c, Err ErrKeyNotFound).
Proof.
  intros (data & meta & Hd & Hm & Hrd & Hrm) He. destruct c as [rev del].
  pose proof (rep_data_lookup data (kv_map a) k Hrd) as Hl. rewrite He in Hl.
  unfold delete_tx. rewrite (Bucket_some _ _ _ Hd), (Bucket_some _ _ _ Hm).
  cbn [negb orb]. by rewrite (Get_some _ _ _ _ Hd), Hl.
Qed.

(** The store after an update whose commit failed: the database is as before,
    the cached revision is the one that was not committed. *)
Definition ahead (s : BoltStore db) (a : kv) : Prop :=
  usable (bs_db s) ∧ represents (contents (committed (bs_db s))) a ∧
  bs_rev s = (kv_rev a + 1)%N.

Lemma Put_spec (s : BoltStore db) (a : kv) (k : string) (v : go_bytes) :
  refines s a → can_put max_uint64 a k v →
  ∃ s' err,
    BoltStore_Put s k v
    = (s', Some (mkPutResult (Some (kv_next a k v)) (kv_map a !! k)), err) ∧
    ((err = Ok tt ∧ refines s' (kv_put a k v)) ∨ (∃ e, err = Err e ∧ ahead s' a)).
Proof.
  intros [Hu Hrep Hr Hok Hmax] (Hk & Hfits & Hrev).
  destruct (put_tx_ok _ a k v Hrep Hok Hrev Hk Hfits) as (t' & Hput & Hrep').
  destruct (Update_law _ _ _ _ _ Hu Hput) as (d' & r & Hup & Hu' & Hcase).
  unfold BoltStore_Put. rewrite Hr, Hup. eexists _, r. split; [done|].
  destruct Hcase as [(-> & Hc)|(e & -> & Hc)]; [left|right].
  - split; [done|]. split; cbn; [done|by rewrite Hc|done|by apply kv_put_ok|lia].
  - exists e. split; [done|]. split_and!; [done|cbn; by rewrite Hc|done].
Qed.

Lemma Put_writable (s : BoltStore db) (a : kv) (k : string) (v : go_bytes) :
  refines s a → can_put max_uint64 a k v → writable (bs_db s) →
  ∃ s', BoltStore_Put s k v
        = (s', Some (mkPutResult (Some (kv_next a k v)) (kv_map a !! k)), Ok tt) ∧
        refines s' (kv_put a k v) ∧ writable (bs_db s').
Proof.
  intros Href Hcan Hw. destruct (Put_spec s a k v Href Hcan) as (s' & err & Heq & Hcase).
  destruct Href as [Hu Hrep Hr Hok Hmax], Hcan as (Hk & Hfits & Hrev).
  destruct (put_tx_ok _ a k v Hrep Hok Hrev Hk Hfits) as (t' & Hput & _).
  destruct (Update_writable_law _ _ _ _ _ Hu Hw Hput) as (d' & Hup & Hw').
  unfold BoltStore_Put in Heq. rewrite Hr, Hup in Heq. injection Heq as <- <-.
  exists (mkBoltStore d' (kv_rev a + 1)). split.
  { unfold BoltStore_Put. by rewrite Hr, Hup. }
  destruct Hcase as [[_ ?]|(e & [=] & _)]. done.
Qed.

(** A key bbolt refuses: nothing changes, the cached revision included. *)
Lemma Put_refused (s : BoltStore db) (a : kv) (k : string) (v : go_bytes) :
  refines s a → (kv_rev a < max_uint64)%N →
  ¬ (key_ok k ∧ fits (kv_next a k v)) →
  ∃ s' r e, BoltStore_Put s k v = (s', Some r, Err e) ∧ refines s' a ∧
            (writable (bs_db s) → writable (bs_db s')).
Proof.
  intros [Hu Hrep Hr Hok Hmax] Hrev Hbad.
  pose proof Hrep as (data & meta & Hd & Hm & Hrd & Hrm).
  destruct (entry_roundtrip _ zero_entry (kv_next_entry_ok a k v Hok Hrev)) as (raw & Hraw & _).
  destruct (Put_refused_law _ _ _ k raw Hd) as (e & He).
  { intros [? Hv]. apply Hbad. split; [done|]. intros raw' Hr'. congruence. }
  assert (∃ res, put_tx k v (kv_rev a, mkPutResult None None) (committed (bs_db s))
                 = ((kv_rev a, res), Err e)) as [res Hput].
  { unfold put_tx. rewrite (Bucket_some _ _ _ Hd), (Bucket_some _ _ _ Hm).
    cbn [negb orb]. rewrite (put_tx_prev _ _ _ Hrep).
    cbn zeta. rewrite (put_tx_entry a k v Hok Hrev), Hraw. cbn [wrap_err].
    rewrite He. by eexists. }
  destruct (Update_fail_law _ _ _ _ _ Hu Hput eq_refl) as (d' & Hup & Hu' & Hc & Hw).
  unfold BoltStore_Put. rewrite Hr, Hup. eexists _, _, e. split; [done|].
  split; [|exact Hw]. split; cbn; [done|by rewrite Hc|done..].
Qed.

Lemma Delete_spec (s : BoltStore db) (a : kv) (k : string) :
  refines s a → (kv_rev a < max_uint64)%N →
  ∃ s' r, BoltStore_Delete s k = (s', r) ∧
    match kv_map a !! k with
    | None => r = Err ErrKeyNotFound ∧ refines s' a ∧
              (writable (bs_db s) → writable (bs_db s'))
    | Some e => (r = Ok (kv_deleted a e) ∧ refines s' (kv_delete a k)) ∨
                (∃ err, r = Err err ∧ ahead s' a)
    end.
Proof.
  intros [Hu Hrep Hr Hok Hmax] Hrev. unfold BoltStore_Delete. rewrite Hr.
  destruct (kv_map a !! k) as [e|] eqn:He.
  - destruct (delete_tx_ok _ a k e Hrep He Hrev) as (t' & Hdel & Hrep').
    destruct (Update_law _ _ _ _ _ Hu Hdel) as (d' & r & -> & Hu' & Hcase).
    eexists _, _. split; [done|].
    assert (kv_rev (kv_delete a k) = kv_rev a + 1)%N as Hrev'
      by (unfold kv_delete; by rewrite He).
    destruct Hcase as [(-> & Hc)|(err & -> & Hc)]; [left|right].
    + split; [done|]. split; cbn; [done|by rewrite Hc|done|by apply kv_delete_ok|lia].
    + exists err. split; [done|]. split_and!; [done|cbn; by rewrite Hc|done].
  - pose proof (delete_tx_missing _ a k (kv_rev a, zero_entry) Hrep He) as Hdel.
    destruct (Update_fail_law _ _ _ _ _ Hu Hdel eq_refl) as (d' & -> & Hu' & Hc & Hw).
    eexists _, _. split; [done|]. split; [done|]. split; [|exact Hw].
    split; cbn; [done|by rewrite Hc|done..].
Qed.

Lemma Delete_writable (s : BoltStore db) (a : kv) (k : string) (e : Entry) :
  refines s a → (kv_rev a < max_uint64)%N → kv_map a !! k = Some e → writable (bs_db s) →
  ∃ s', BoltStore_Delete s k = (s', Ok (kv_deleted a e)) ∧
        refines s' (kv_delete a k) ∧ writable (bs_db s').
Proof.
  intros Href Hrev He Hw. destruct (Delete_spec s a k Href Hrev) as (s' & r & Heq & Hcase).
  rewrite He in Hcase. destruct Href as [Hu Hrep Hr Hok Hmax].
  destruct (delete_tx_ok _ a k e Hrep He Hrev) as (t' & Hdel & _).
  destruct (Update_writable_law _ _ _ _ _ Hu Hw Hdel) as (d' & Hup & Hw').
  unfold BoltStore_Delete in Heq |- *. rewrite Hr, Hup in Heq |- *.
  injection Heq as <- <-. eexists. split; [done|].
  destruct Hcase as [[_ ?]|(e' & [=] & _)]. done.
Qed.

Lemma Get_reads (s : BoltStore db) (a : kv) (k : string) :
  usable (bs_db s) → represents (contents (committed (bs_db s))) a →
  BoltStore_Get s k = match kv_map a !! k with
                      | Some e => Ok e
                      | None => Err ErrKeyNotFound
                      end.
Proof.
  intros Hu (data & meta & Hd & Hm & Hrd & Hrm).
  unfold BoltStore_Get, get_tx. rewrite View_law by done.
  rewrite (Bucket_some _ _ _ Hd), (Get_some _ _ _ _ Hd). cbn [negb].
  pose proof (rep_data_lookup data (kv_map a) k Hrd) as Hl.
  destruct (kv_map a !! k) as [e|]; [|by rewrite Hl].
  destruct Hl as (raw & -> & Hdec). by rewrite Hdec.
Qed.

Lemma Get_spec (s : BoltStore db) (a : kv) (k : string) :
  refines s a →
  BoltStore_Get s k = match kv_map a !! k with
                      | Some e => Ok e
                      | None => Err ErrKeyNotFound
                      end.
Proof. intros [Hu Hrep _ _ _]. by apply Get_reads. Qed.

Lemma List_spec (s : BoltStore db) (a : kv) (p : string) :
  refines s a → BoltStore_List s p = (kv_list a p, Ok tt).
Proof.
  intros [Hu (data & meta & Hd & Hm & Hrd & Hrm) Hr Hok Hmax].
  unfold BoltStore_List, list_tx. rewrite View_law by done.
  rewrite (Bucket_some _ _ _ Hd). cbn [negb].
  destruct (Seek_law _ _ _ p Hd) as (Hsort & Hnd & Hin).
  assert (∀ k raw, (k, raw) ∈ cursor_Seek (committed (bs_db s)) bucketData p →
            ∃ e, kv_map a !! k = Some e ∧ decodes raw e) as Hdec.
  { intros k raw Hk. apply Hin in Hk as [Hk _]. specialize (Hrd k). rewrite Hk in Hrd.
    destruct (kv_map a !! k); [eauto|done]. }
  rewrite list_loop_spec; [|done|].
  2:{ intros k raw Hk. destruct (Hdec k raw Hk) as (e & _ & ?).
      apply Hin in Hk as [_ ?]. eauto. }
  simpl. f_equal. unfold kv_list.
  set (cur := cursor_Seek _ _ _) in *.
  set (l1 := (λ x, (x.1, dec_raw (x.2))) <$> filter (λ x, HasPrefix (x.1) p = true) cur).
  set (l2 := filter (λ x, HasPrefix (x.1) p = true) (merge_sort entry_le (map_to_list (kv_map a)))).
  transitivity (l1.*2); [subst l1; by rewrite <- list_fmap_compose|].
  assert (∀ k e, (k, e) ∈ l2 ↔ kv_map a !! k = Some e ∧ HasPrefix k p = true) as H2.
  { intros k e. subst l2. rewrite list_elem_of_filter, merge_sort_Permutation,
      elem_of_map_to_list. simpl. tauto. }
  assert (∀ k e, (k, e) ∈ l1 ↔ kv_map a !! k = Some e ∧ HasPrefix k p = true) as H1.
  { intros k e. subst l1. rewrite list_elem_of_fmap. split.
    - intros ([k' raw] & [= -> ->] & [Hp Hk]%list_elem_of_filter). simpl in *.
      destruct (Hdec _ _ Hk) as (e & He & Hd'). unfold dec_raw. by rewrite Hd'.
    - intros [He Hp]. pose proof (rep_data_lookup data (kv_map a) k Hrd) as Hl.
      rewrite He in Hl. destruct Hl as (raw & Hraw & Hd'). exists (k, raw). simpl.
      unfold dec_raw. rewrite Hd'. split; [done|].
      apply list_elem_of_filter. split; [done|]. apply Hin. split; [done|].
      by apply HasPrefix_le. }
  f_equal. apply (StronglySorted_unique_strong entry_le).
  - intros [k1 e1] [k2 e2] [Hk1 _]%H1 [Hk2 _]%H2 Hle1 Hle2.
    assert (k1 = k2) as -> by (by apply (anti_symm String.le)). congruence.
  - subst l1. apply (StronglySorted_fmap key_le); [done|]. by apply StronglySorted_filter.
  - subst l2. apply StronglySorted_filter, StronglySorted_merge_sort; apply _.
  - apply NoDup_Permutation.
    + apply (NoDup_fmap_1 fst). subst l1. rewrite <- list_fmap_compose.
      eapply sublist_NoDup; [exact Hnd|]. apply fmap_sublist, sublist_filter.
    + subst l2. apply NoDup_filter. rewrite merge_sort_Permutation. apply NoDup_map_to_list.
    + intros [k e]. by rewrite H1, H2.
Qed.

(** Opening a file: one that represents [a], or a new one without buckets. *)
Definition opens (d : db) (a : kv) : Prop :=
  usable d ∧ kv_ok a ∧ (kv_rev a ≤ max_uint64)%N ∧
  (represents (contents (committed d)) a ∨
   (contents (committed d) !! bucketData = None ∧
    contents (committed d) !! bucketMeta = None ∧ a = kv_empty)).

Lemma create_buckets_ok (t : tx) (a : kv) :
  represents (contents t) a ∨
  (contents t !! bucketData = None ∧ contents t !! bucketMeta = None ∧ a = kv_empty) →
  ∃ t', create_buckets tt t = (tt, Ok t') ∧ represents (contents t') a.
Proof.
  intros Hcase. destruct (Create_law t bucketData) as (t1 & H1 & Hc1).
  destruct (Create_law t1 bucketMeta) as (t2 & H2 & Hc2).
  exists t2. unfold create_buckets. rewrite H1, H2. split; [done|].
  destruct Hcase as [(data & meta & Hd & Hm & Hrd & Hrm)|(Hd & Hm & ->)].
  - rewrite Hd in Hc1. rewrite Hc1, Hm in Hc2. rewrite Hc2. by exists data, meta.
  - rewrite Hd in Hc1. rewrite Hc1, lookup_insert_ne, Hm in Hc2 by done.
    rewrite Hc2. exists ∅, ∅.
    rewrite lookup_insert_ne, !lookup_insert_eq by done.
    split_and!; [done..| |done]. intros k. by rewrite !lookup_empty.
Qed.

Lemma load_rev_ok (t : tx) (a : kv) :
  represents (contents t) a → (kv_rev a ≤ max_uint64)%N → load_rev 0 t = (kv_rev a, Ok tt).
Proof.
  intros (data & meta & Hd & Hm & Hrd & Hrm) Hmax. unfold load_rev.
  rewrite (Bucket_some _ _ _ Hm), (Get_some _ _ _ _ Hm). cbn [negb].
  unfold rep_meta in Hrm. destruct (meta !! keyRev) as [v|]; [|by rewrite Hrm].
  by rewrite Hrm, BE_roundtrip.
Qed.

Lemma New_spec (d : db) (a : kv) :
  opens d a →
  (∃ s, NewBoltStore (Ok d) = Ok s ∧ refines s a) ∨ (∃ e, NewBoltStore (Ok d) = Err e).
Proof.
  intros (Hu & Hok & Hmax & Hcase).
  destruct (create_buckets_ok (committed d) a Hcase) as (t' & Hcr & Hrep).
  destruct (Update_law _ _ _ _ _ Hu Hcr) as (d' & r & Hup & Hu' & Hr).
  unfold NewBoltStore. cbn [wrap_err mbind res_bind]. rewrite Hup.
  destruct Hr as [(-> & Hc)|(e & -> & Hc)]; [left|right; by eexists].
  rewrite <- Hc in Hrep. rewrite View_law, (load_rev_ok _ _ Hrep Hmax) by done.
  eexists. split; [done|]. by split.
Qed.

Lemma New_writable (d : db) (a : kv) :
  opens d a → writable d →
  ∃ s, NewBoltStore (Ok d) = Ok s ∧ refines s a ∧ writable (bs_db s).
Proof.
  intros Hop Hw. pose proof (New_spec d a Hop) as Hcase.
  destruct Hop as (Hu & Hok & Hmax & Hcr0).
  destruct (create_buckets_ok (committed d) a Hcr0) as (t' & Hcr & _).
  destruct (Update_writable_law _ _ _ _ _ Hu Hw Hcr) as (d' & Hup & Hw').
  unfold NewBoltStore in Hcase |- *. cbn [wrap_err mbind res_bind] in Hcase |- *.
  rewrite Hup in Hcase |- *.
  destruct (bolt_View d' load_rev 0%N) as [rev [| |]],
    Hcase as [(s & Heq & Hs)|(err & Heq)]; simplify_eq; eauto.
Qed.

Lemma refines_opens (s : BoltStore db) (a : kv) : refines s a → opens (bs_db s) a.
Proof. intros [Hu Hrep Hr Hok Hmax]. split_and!; auto. Qed.

(** [BoltStore] keeps the promises of the [Store] interface. *)
#[export] Program Instance bolt_store_laws : StoreLaws (BoltStore db) := {|
  store_rep s a := refines s a ∧ writable (bs_db s);
  store_limit := max_uint64;
|}.
Next Obligation. done. Qed.
Next Obligation. intros s a [Hr _]. apply Hr. Qed.
Next Obligation. intros s a [Hr _]. apply Hr. Qed.
Next Obligation.
  intros s a k v [Hr Hw] Hcan. destruct (Put_writable s a k v Hr Hcan Hw) as (s' & ? & ? & ?).
  by exists s'.
Qed.
Next Obligation.
  intros s a k v [Hr Hw] Hrev Hbad.
  destruct (Put_refused s a k v Hr Hrev Hbad) as (s' & r & e & Heq & Hr' & Hw').
  exists s', (Some r), e. auto.
Qed.
Next Obligation. intros s a k [Hr _]. by apply Get_spec. Qed.
Next Obligation.
  intros s a k e [Hr Hw] Hrev He.
  destruct (Delete_writable s a k e Hr Hrev He Hw) as (s' & ? & ? & ?). by exists s'.
Qed.
Next Obligation.
  intros s a k [Hr Hw] Hrev He. destruct (Delete_spec s a k Hr Hrev) as (s' & r & Heq & Hc).
  rewrite He in Hc. destruct Hc as (-> & ? & ?). exists s'. auto.
Qed.
Next Obligation. intros s a p [Hr _]. by apply List_spec. Qed.
Next Obligation. intros s a [Hr _]. apply Hr. Qed.
End refinement.

(** ** Properties *)

Section properties.
Context {db tx : Type} `{!Bolt db tx, !BoltLaws db tx}.

Lemma opened_run (d : db) (a : kv) (s : BoltStore db) (l : list call) :
  opens d a → writable d → NewBoltStore (Ok d) = Ok s → admissible_calls max_uint64 a l →
  (run_calls s l).2 = (spec_calls a l).2 ∧
  refines (run_calls s l).1 (spec_calls a l).1.
Proof.
  intros Hop Hw Hnew Hadm.
  destruct (New_writable d a Hop Hw) as (s0 & Hs0 & Href & Hws).
  rewrite Hnew in Hs0. injection Hs0 as <-.
  assert (store_rep s a) as Hrep by exact (conj Href Hws).
  by destruct (run_calls_spec l s a Hrep Hadm) as [Hr [Hrep' _]].
Qed.

(** C1: a [BoltStore] opened on a file in state [a] answers every history of
    puts, deletes, gets, lists and revision reads as the specification does,
    and ends in a state that represents the specification's. *)
Theorem bolt_history_refines (d : db) (a : kv) (s : BoltStore db) (l : list call) :
  opens d a → writable d → NewBoltStore (Ok d) = Ok s → admissible_calls max_uint64 a l →
  (run_calls s l).2 = (spec_calls a l).2 ∧
  refines (run_calls s l).1 (spec_calls a l).1.
Proof.
  apply opened_run.
Qed.

(** C11: what a history of calls wrote survives closing and reopening the file:
    the reopened store has the same revision and answers every read alike. *)
Theorem bolt_reopen (d : db) (a : kv) (s s2 : BoltStore db) (l : list call) :
  opens d a → writable d → NewBoltStore (Ok d) = Ok s → admissible_calls max_uint64 a l →
  let s1 := (run_calls s l).1 in
  NewBoltStore (Ok (bs_db s1)) = Ok s2 →
  BoltStore_Rev s2 = BoltStore_Rev s1 ∧
  (∀ k, BoltStore_Get s2 k = BoltStore_Get s1 k) ∧
  (∀ p, BoltStore_List s2 p = BoltStore_List s1 p).
Proof.
  intros Hop Hw Hnew Hadm s1 Hnew2.
  destruct (opened_run d a s l Hop Hw Hnew Hadm) as [_ Href1].
  destruct (New_spec _ _ (refines_opens _ _ Href1)) as [(s3 & H3 & Href3)|(e & He)];
    [|unfold s1 in *; congruence].
  unfold s1 in *. rewrite Hnew2 in H3. injection H3 as <-.
  split_and!.
  - unfold BoltStore_Rev. by rewrite (ref_rev _ _ Href3), (ref_rev _ _ Href1).
  - intros k. by rewrite (Get_spec _ _ _ Href3), (Get_spec _ _ _ Href1).
  - intros p. by rewrite (List_spec _ _ _ Href3), (List_spec _ _ _ Href1).
Qed.

(** C29: after any history on a new database every entry that can be read was
    created no later than it was modified and in a revision the store has
    reached, counts at least one and at most one version per revision since its
    creation, and shares its modification revision with no other key. *)
Theorem bolt_entries_well_formed (d : db) (s : BoltStore db) (l : list call)
    (k k' : string) (e e' : Entry) :
  opens d kv_empty → writable d → NewBoltStore (Ok d) = Ok s →
  admissible_calls max_uint64 kv_empty l →
  let s1 := (run_calls s l).1 in
  BoltStore_Get s1 k = Ok e →
  (Revision e = ModRevision e ∧ 1 ≤ CreateRevision e ≤ ModRevision e ∧
   ModRevision e ≤ BoltStore_Rev s1 ∧
   1 ≤ Version e ≤ ModRevision e - CreateRevision e + 1)%N ∧
  (BoltStore_Get s1 k' = Ok e' → ModRevision e = ModRevision e' → k = k').
Proof.
  intros Hop Hw Hnew Hadm s1 Hget.
  destruct (opened_run d _ s l Hop Hw Hnew Hadm) as [_ Href1].
  pose proof (ref_ok _ _ Href1) as Hok. fold s1 in Href1.
  rewrite (Get_spec _ _ _ Href1) in Hget.
  destruct (kv_map _ !! k) as [e0|] eqn:He; [|done]. injection Hget as <-.
  destruct (ok_entry _ Hok _ _ He) as (_ & ? & ? & ? & ?). split.
  - unfold BoltStore_Rev. rewrite (ref_rev _ _ Href1). done.
  - rewrite (Get_spec _ _ _ Href1). intros Hget' Heq.
    destruct (kv_map _ !! k') as [e0'|] eqn:He'; [|done]. injection Hget' as <-.
    by eapply (ok_unique _ Hok).
Qed.

(** C30: [List(prefix)] succeeds and returns exactly the entries that [Get]
    finds under a key starting with [prefix], each once, in the byte order of
    their keys. *)
Theorem bolt_list_complete (s : BoltStore db) (a : kv) (p : string) :
  refines s a →
  ∃ ks, StronglySorted String.le ks ∧ NoDup ks ∧
    (∀ k, k ∈ ks ↔ HasPrefix k p = true ∧ is_ok (BoltStore_Get s k) = true) ∧
    ∃ es, BoltStore_List s p = (es, Ok tt) ∧ Forall2 (λ k e, BoltStore_Get s k = Ok e) ks es.
Proof.
  intros Href. set (l := filter (λ x, HasPrefix (x.1) p = true)
    (merge_sort entry_le (map_to_list (kv_map a)))).
  assert (∀ k e, (k, e) ∈ l ↔ HasPrefix k p = true ∧ kv_map a !! k = Some e) as Hl.
  { intros k e. unfold l. by rewrite list_elem_of_filter, merge_sort_Permutation,
      elem_of_map_to_list. }
  exists (l.*1). split_and!.
  - apply (StronglySorted_fmap entry_le); [done|].
    apply StronglySorted_filter, StronglySorted_merge_sort; apply _.
  - apply NoDup_fmap_fst.
    + intros k e1 e2 [_ H1]%Hl [_ H2]%Hl. congruence.
    + apply NoDup_filter. rewrite merge_sort_Permutation. apply NoDup_map_to_list.
  - intros k. rewrite (Get_spec _ _ _ Href), list_elem_of_fmap. split.
    + intros ([k' e] & -> & [Hp He]%Hl). simpl. by rewrite He.
    + intros [Hp Hok]. destruct (kv_map a !! k) as [e|] eqn:He; [|done].
      exists (k, e). split; [done|]. by apply Hl.
  - exists (l.*2). split; [by rewrite (List_spec _ _ _ Href)|].
    apply Forall2_fmap_l, Forall2_fmap_r, Forall_Forall2_diag, Forall_forall.
    intros [k e] [_ He]%Hl. simpl. by rewrite (Get_spec _ _ _ Href), He.
Qed.

(** when the commit of a [Put] fails, the call returns the error and the
    database keeps every key, but the revision cached in memory has already
    advanced: [Rev] is one ahead of the database, and a restart takes it back. *)
Theorem bolt_put_failed_commit (s s' : BoltStore db) (a : kv) (k : string) (v : go_bytes)
    (r : option PutResult) (e : error) :
  refines s a → can_put max_uint64 a k v → BoltStore_Put s k v = (s', r, Err e) →
  BoltStore_Rev s' = (BoltStore_Rev s + 1)%N ∧
  (∀ k', BoltStore_Get s' k' = BoltStore_Get s k') ∧
  (∀ s2, NewBoltStore (Ok (bs_db s')) = Ok s2 → BoltStore_Rev s2 = BoltStore_Rev s).
Proof.
  intros Href Hcan Hput. destruct (Put_spec s a k v Href Hcan) as (s1 & err & Heq & Hcase).
  rewrite Hput in Heq. simplify_eq. destruct Hcase as [[[=] _]|(e' & _ & Hu & Hrep & Hrev)].
  destruct Href as [Hu0 Hrep0 Hr0 Hok Hmax]. unfold BoltStore_Rev. split_and!.
  - by rewrite Hrev, Hr0.
  - intros k'. by rewrite (Get_reads s1 a), (Get_reads s a).
  - intros s2 Hnew. destruct (New_spec (bs_db s1) a) as [(s3 & H3 & Href3)|(e3 & H3)];
      [split_and!; auto|..]; rewrite Hnew in H3; [|done]. injection H3 as <-.
    by rewrite (ref_rev _ _ Href3), Hr0.
Qed.
End properties.

(** ** Concrete runs *)

Ltac solve_can_put :=
  split_and!;
  [split; vm_compute; first [reflexivity|discriminate]
  |apply (bool_decide_unpack _); vm_compute; exact I
  |vm_compute; reflexivity].

Lemma fresh_opens : opens MemDb.fresh kv_empty.
Proof. split_and!; [done|apply kv_ok_empty|done|]. right. by split_and!. Qed.

Definition demo_calls : list call :=
  [CPut "public/prod/db_host" (Some "10.0.0.1"); CPut "public/prod/db_port" (Some "3306");
   CPut "public/prod/db_host" (Some "10.0.0.2"); CGet "public/prod/db_host";
   CDelete "public/prod/db_port"; CGet "public/prod/db_port"; CList "public/"; CRev].

Lemma demo_admissible : admissible_calls max_uint64 kv_empty demo_calls.
Proof. repeat (split; [first [solve_can_put|vm_compute; reflexivity|done]|]). done. Qed.

Definition demo_store : BoltStore MemDb.t :=
  match NewBoltStore (Ok MemDb.fresh) with Ok s => s | _ => mkBoltStore MemDb.fresh 0 end.

Lemma demo_new : NewBoltStore (Ok MemDb.fresh) = Ok demo_store.
Proof. vm_compute. reflexivity. Qed.

(** A store on a database whose commits fail. *)
Definition full_disk : BoltStore MemDb.t := mkBoltStore (MemDb.mk (MemDb.mem (bs_db demo_store)) false) 0.

Lemma demo_refines : refines demo_store kv_empty.
Proof.
  destruct (New_writable MemDb.fresh kv_empty fresh_opens eq_refl) as (s & Hs & Href & _).
  rewrite demo_new in Hs. by injection Hs as ->.
Qed.

Lemma full_disk_refines : refines full_disk kv_empty.
Proof. destruct demo_refines as [Hu Hrep Hr Hok Hm]. by split. Qed.

Lemma bolt_history_refines_witness :
  (run_calls demo_store demo_calls).2 = (spec_calls kv_empty demo_calls).2 ∧
  refines (run_calls demo_store demo_calls).1 (spec_calls kv_empty demo_calls).1.
Proof.
  apply (bolt_history_refines MemDb.fresh kv_empty demo_store demo_calls fresh_opens
           eq_refl demo_new demo_admissible).
Defined.

Definition demo_reopened : BoltStore MemDb.t :=
  match NewBoltStore (Ok (bs_db (run_calls demo_store demo_calls).1)) with
  | Ok s => s | _ => demo_store end.

Lemma bolt_reopen_witness :
  BoltStore_Rev demo_reopened = 4%N ∧
  (∀ k, BoltStore_Get demo_reopened k = BoltStore_Get (run_calls demo_store demo_calls).1 k).
Proof.
  assert (NewBoltStore (Ok (bs_db (run_calls demo_store demo_calls).1)) = Ok demo_reopened)
    as Hnew by (vm_compute; reflexivity).
  destruct (bolt_reopen MemDb.fresh kv_empty demo_store demo_reopened demo_calls fresh_opens
              eq_refl demo_new demo_admissible Hnew) as (Hrev & Hget & _).
  split; [vm_compute; reflexivity|exact Hget].
Defined.

Lemma bolt_entries_well_formed_witness :
  ∃ e, BoltStore_Get (run_calls demo_store demo_calls).1 "public/prod/db_host" = Ok e ∧
       (1 ≤ CreateRevision e ≤ ModRevision e)%N.
Proof.
  eexists. split; [vm_compute; reflexivity|].
  apply (bolt_entries_well_formed MemDb.fresh demo_store demo_calls "public/prod/db_host" ""
           _ zero_entry fresh_opens eq_refl demo_new demo_admissible).
  vm_compute. reflexivity.
Defined.

Lemma bolt_list_complete_witness :
  ∃ ks, NoDup ks ∧ ∀ k, k ∈ ks ↔
    HasPrefix k "public/" = true ∧ is_ok (BoltStore_Get (run_calls demo_store demo_calls).1 k) = true.
Proof.
  destruct bolt_history_refines_witness as [_ Href].
  destruct (bolt_list_complete _ _ "public/" Href) as (ks & _ & Hnd & Hks & _). eauto.
Defined.

Lemma bolt_put_failed_commit_witness :
  ∃ s' r e, BoltStore_Put full_disk "k" (Some "v") = (s', r, Err e) ∧
            BoltStore_Rev full_disk = 0%N ∧ BoltStore_Rev s' = 1%N.
Proof.
  eexists _, _, _. split; [vm_compute; reflexivity|]. split; [reflexivity|].
  rewrite (proj1 (bolt_put_failed_commit full_disk _ kv_empty "k" (Some "v") _ _
             full_disk_refines ltac:(solve_can_put) ltac:(vm_compute; reflexivity))).
  reflexivity.
Defined.
