(* ===== verification/WatchCache.v ===== *)
(** [src/store/watch.go]: [WatchCache], the ring buffer of the latest events, and
    the long poll [WaitForEvents] over it.  [Append], [Len], [Close] and each
    pass of [WaitForEvents] hold the mutex, so each is one atomic step; the
    waits of [WaitForEvents] are a list of wake-ups in the functional model and
    a step relation, with the condition variable and the timer goroutine
    explicit, in the concurrent one. *)

From S2P Require Import Prelude GoStrings GoEncoding JsonFields Entry.

Local Open Scope string_scope.
Local Open Scope nat_scope.

(** [type EventType int] *)
Definition EventType : Type := Z.
Definition EventPut : EventType := 0%Z.
Definition EventDelete : EventType := 1%Z.

Definition EventType_String (t : EventType) : string :=
  if Z.eqb t EventPut then "PUT" else if Z.eqb t EventDelete then "DELETE" else "UNKNOWN".

(** [type Event struct]: both entries are pointers. *)
Record Event := mkEvent {
  ev_Type : EventType;
  ev_Entry : option Entry;
  ev_PrevEntry : option Entry;
}.

#[export] Instance Event_eq_dec : EqDecision Event.
Proof. unfold EqDecision, Decision, EventType. intros [] []; decide equality; solve_decision. Defined.

Definition zero_event : Event := mkEvent EventPut None None.

(** [type WatchCache struct], without its mutex and condition variable. *)
Record WatchCache := mkWatchCache {
  wc_buf : list Event;
  wc_capacity : Z;
  wc_count : Z;
  wc_closed : bool;
}.

(** [make] panics on a negative length. *)
Definition NewWatchCache (capacity : Z) : res WatchCache :=
  if (capacity <? 0)%Z then Panic
  else Ok (mkWatchCache (replicate (Z.to_nat capacity) zero_event) capacity 0 false).

(** [a % b] on [int]: truncated, and division by zero panics. *)
Definition int_rem (a b : Z) : res Z := if (b =? 0)%Z then Panic else Ok (Z.rem a b).

Definition WatchCache_Append (wc : WatchCache) (event : Event) : res WatchCache :=
  pos ← int_rem (wc_count wc) (wc_capacity wc);
  buf ← slice_set (wc_buf wc) pos event;
  Ok (mkWatchCache buf (wc_capacity wc) (int64 (wc_count wc + 1)) (wc_closed wc)).

(** The body of the loop of [getEventsLocked], at index [i]; dereferencing a
    [nil] entry panics. *)
Definition scan_event (wc : WatchCache) (afterRev : N) (prefix : string) (i : Z)
    (result : list Event) : res (list Event) :=
  pos ← int_rem i (wc_capacity wc);
  ev ← slice_get (wc_buf wc) pos;
  entry ← deref (ev_Entry ev);
  Ok (if (Revision entry <=? afterRev)%N then result
      else if negb (String.eqb prefix "") && negb (HasPrefix (Key entry) prefix) then result
      else (result ++ [ev])%list).

(** [n] iterations from [i] on. *)
Fixpoint scan_events (wc : WatchCache) (afterRev : N) (prefix : string) (n : nat) (i : Z)
    (result : list Event) : res (list Event) :=
  match n with
  | O => Ok result
  | S n' =>
      result' ← scan_event wc afterRev prefix i result;
      scan_events wc afterRev prefix n' (i + 1) result'
  end.

Definition oldest_index (wc : WatchCache) : Z :=
  if (wc_capacity wc <? wc_count wc)%Z then int64 (wc_count wc - wc_capacity wc) else 0.

Definition getEventsLocked (wc : WatchCache) (afterRev : N) (prefix : string)
    : res (list Event) :=
  if (wc_count wc =? 0)%Z then Ok []
  else
    let oldest := oldest_index wc in
    scan_events wc afterRev prefix (Z.to_nat (wc_count wc - oldest)) oldest [].

Definition WatchCache_Len (wc : WatchCache) : Z :=
  if (wc_count wc <? wc_capacity wc)%Z then wc_count wc else wc_capacity wc.

Definition WatchCache_Close (wc : WatchCache) : WatchCache :=
  mkWatchCache (wc_buf wc) (wc_capacity wc) (wc_count wc) true.

(** One pass of the loop of [WaitForEvents] at time [now]: return, or wait for
    the given time at most. *)
Inductive pass : Type :=
  | Return (events : list Event)
  | Wait (remaining : Z)
  | PassPanic.

Definition wait_pass (wc : WatchCache) (afterRev : N) (prefix : string) (deadline now : Z)
    : pass :=
  if wc_closed wc then Return []
  else match getEventsLocked wc afterRev prefix with
       | Ok (ev :: evs) => Return (ev :: evs)
       | Ok [] =>
           let remaining := (deadline - now)%Z in
           if (remaining <=? 0)%Z then Return [] else Wait remaining
       | _ => PassPanic
       end.

(** [WaitForEvents]: [l] is the cache and the time at the first pass and then at
    each wake-up; [None] when the call still waits after them. *)
Fixpoint WaitForEvents_from (afterRev : N) (prefix : string) (deadline : Z)
    (l : list (WatchCache * Z)) : option (res (list Event)) :=
  match l with
  | [] => None
  | (wc, now) :: l' =>
      match wait_pass wc afterRev prefix deadline now with
      | Return events => Some (Ok events)
      | PassPanic => Some Panic
      | Wait _ => WaitForEvents_from afterRev prefix deadline l'
      end
  end.

Definition WaitForEvents (afterRev : N) (prefix : string) (timeout start : Z)
    (l : list (WatchCache * Z)) : option (res (list Event)) :=
  WaitForEvents_from afterRev prefix (start + timeout) l.

(** A call that still waits goes on with the next wake-up. *)
Lemma WaitForEvents_app (r : N) (p : string) (timeout start : Z) (l l' : list (WatchCache * Z)) :
  WaitForEvents r p timeout start l = None →
  WaitForEvents r p timeout start (l ++ l') = WaitForEvents r p timeout start l'.
Proof.
  unfold WaitForEvents. generalize (start + timeout)%Z. intros dl.
  induction l as [|[wc now] l IH]; intros Hw; [done|]. simpl in *.
  by destruct (wait_pass wc r p dl now); [done|apply IH|done].
Qed.

(** ** The ring buffer against the history of events *)

(** The revision and the key of an event, as the scan reads them. *)
Definition ev_rev (e : Event) : N :=
  match ev_Entry e with Some en => Revision en | None => 0%N end.
Definition ev_key (e : Event) : string :=
  match ev_Entry e with Some en => Key en | None => "" end.

Definition ev_match (afterRev : N) (prefix : string) (e : Event) : Prop :=
  (afterRev < ev_rev e)%N ∧ HasPrefix (ev_key e) prefix = true.

#[export] Instance ev_match_dec (r : N) (p : string) (e : Event) : Decision (ev_match r p e).
Proof. unfold ev_match. apply _. Defined.

(** The part of the history a buffer of [cap] events still holds. *)
Definition window (cap : nat) (h : list Event) : list Event := drop (length h - cap) h.

(** [wc] is open or closed after the events [h] since it was made. *)
Record wc_rep (wc : WatchCache) (h : list Event) : Prop := {
  rep_capacity : (0 < wc_capacity wc < two63)%Z;
  rep_length : Z.of_nat (length (wc_buf wc)) = wc_capacity wc;
  rep_count : wc_count wc = Z.of_nat (length h);
  rep_small : (wc_count wc < two63)%Z;
  rep_entries : Forall (λ e, is_Some (ev_Entry e)) h;
  rep_buf i e : (wc_count wc - wc_capacity wc ≤ Z.of_nat i)%Z → h !! i = Some e →
    wc_buf wc !! Z.to_nat (Z.of_nat i mod wc_capacity wc) = Some e;
}.

Lemma NewWatchCache_rep (cap : Z) :
  (0 < cap < two63)%Z → ∃ wc, NewWatchCache cap = Ok wc ∧ wc_rep wc [] ∧ wc_closed wc = false.
Proof.
  intros Hc. unfold NewWatchCache. destruct (Z.ltb_spec cap 0); [lia|].
  eexists. split; [reflexivity|]. split; [|done].
  split; cbn; [done|rewrite length_replicate; lia|done|unfold two63; lia|constructor|done].
Qed.

Lemma int_rem_mod (i cap : Z) : (0 ≤ i)%Z → (0 < cap)%Z → int_rem i cap = Ok (i mod cap)%Z.
Proof.
  intros Hi Hc. unfold int_rem. destruct (Z.eqb_spec cap 0); [lia|].
  by rewrite Z.rem_mod_nonneg.
Qed.

Section ring.
Context (wc : WatchCache) (h : list Event) (Hrep : wc_rep wc h).

Lemma ring_pos (i : Z) : (0 ≤ i mod wc_capacity wc < Z.of_nat (length (wc_buf wc)))%Z.
Proof.
  destruct Hrep as [? Hl _ _ _ _]. rewrite Hl. apply Z.mod_pos_bound. lia.
Qed.

Lemma Append_rep (e : Event) :
  is_Some (ev_Entry e) → (wc_count wc + 1 < two63)%Z →
  ∃ wc', WatchCache_Append wc e = Ok wc' ∧ wc_rep wc' (h ++ [e]) ∧
         wc_closed wc' = wc_closed wc ∧ wc_capacity wc' = wc_capacity wc.
Proof.
  intros He Hsmall. pose proof (ring_pos (wc_count wc)) as Hpos.
  destruct Hrep as [Hc Hl Hn Hs Hall Hbuf]. unfold WatchCache_Append.
  rewrite int_rem_mod by lia. simpl.
  rewrite <- (Z2Nat.id (_ mod _)) by lia. rewrite slice_set_insert by lia. simpl.
  eexists. split; [reflexivity|]. split; [|done].
  split; cbn; [done|rewrite length_insert; lia|..].
  - rewrite int64_small, length_app by (unfold two63 in *; lia). simpl. lia.
  - rewrite int64_small by (unfold two63 in *; lia). lia.
  - apply Forall_app. auto.
  - rewrite int64_small by (unfold two63 in *; lia). intros i e' Hi Hlk.
    rewrite lookup_app_Some in Hlk. destruct Hlk as [Hlk|[Hge Hlk]].
    + assert (i < length h) as Hlt by (by eapply lookup_lt_Some).
      rewrite list_lookup_insert_ne; [apply Hbuf; [lia|done]|].
      rewrite Z2Nat.inj_iff by (try apply Z.mod_pos_bound; lia). intros Heq.
      assert (wc_count wc - Z.of_nat i = wc_capacity wc *
        (wc_count wc / wc_capacity wc - Z.of_nat i / wc_capacity wc))%Z as Hd.
      { pose proof (Z.div_mod (wc_count wc) (wc_capacity wc)).
        pose proof (Z.div_mod (Z.of_nat i) (wc_capacity wc)). lia. }
      assert (1 ≤ wc_count wc / wc_capacity wc - Z.of_nat i / wc_capacity wc)%Z by nia. nia.
    + apply list_lookup_singleton_Some in Hlk as [Hi0 ->].
      replace (Z.of_nat i) with (wc_count wc) by lia.
      apply list_lookup_insert_eq. lia.
Qed.

Lemma scan_event_spec (r : N) (p : string) (i : nat) (e : Event) (result : list Event) :
  (wc_count wc - wc_capacity wc ≤ Z.of_nat i)%Z → h !! i = Some e →
  scan_event wc r p (Z.of_nat i) result = Ok (result ++ filter (ev_match r p) [e])%list.
Proof.
  intros Hi He. pose proof (ring_pos (Z.of_nat i)) as Hpos.
  destruct Hrep as [Hc Hl Hn Hs Hall Hbuf]. unfold scan_event.
  rewrite int_rem_mod by lia. simpl.
  rewrite <- (Z2Nat.id (_ mod _)) by lia.
  rewrite (slice_get_lookup _ _ e) by (by apply Hbuf). simpl.
  pose proof (Forall_lookup_1 _ _ _ _ Hall He) as [en Hen]. simpl in Hen. rewrite Hen. simpl.
  unfold ev_match, ev_rev, ev_key. rewrite filter_cons, filter_nil.
  destruct (N.leb_spec (Revision en) r).
  { rewrite decide_False, app_nil_r; [done|]. rewrite Hen. lia. }
  destruct (String.eqb_spec p "") as [->|Hne]; simpl.
  { rewrite decide_True; [done|]. rewrite Hen. split; [lia|]. done. }
  destruct (HasPrefix (Key en) p) eqn:Hp; simpl.
  - rewrite decide_True; [done|]. rewrite Hen. split; [lia|done].
  - rewrite decide_False, app_nil_r; [done|]. rewrite Hen, Hp. by intros [_ ?].
Qed.

Lemma scan_events_spec (r : N) (p : string) (n i : nat) (result : list Event) :
  (wc_count wc - wc_capacity wc ≤ Z.of_nat i)%Z → i + n = length h →
  scan_events wc r p n (Z.of_nat i) result
  = Ok (result ++ filter (ev_match r p) (drop i h))%list.
Proof.
  revert i result. induction n as [|n IH]; intros i result Hi Hlen; cbn [scan_events].
  - rewrite drop_ge, filter_nil, app_nil_r by lia. done.
  - destruct (lookup_lt_is_Some_2 h i) as [e He]; [lia|].
    rewrite (scan_event_spec _ _ _ _ _ Hi He). cbn [mbind res_bind].
    replace (Z.of_nat i + 1)%Z with (Z.of_nat (S i)) by lia.
    rewrite IH by lia. rewrite (drop_S _ _ _ He), <- app_assoc.
    by rewrite <- filter_app.
Qed.

(** The scan returns the matching events still in the window, oldest first. *)
Lemma getEventsLocked_spec (r : N) (p : string) :
  getEventsLocked wc r p
  = Ok (filter (ev_match r p) (window (Z.to_nat (wc_capacity wc)) h)).
Proof.
  pose proof Hrep as [Hc Hl Hn Hs _ _]. unfold getEventsLocked, oldest_index, window.
  destruct (Z.eqb_spec (wc_count wc) 0) as [H0|H0].
  { assert (length h = 0) as ->%nil_length_inv by lia. done. }
  destruct (Z.ltb_spec (wc_capacity wc) (wc_count wc)).
  - rewrite int64_small by (unfold two63 in *; lia).
    replace (wc_count wc - wc_capacity wc)%Z
      with (Z.of_nat (length h - Z.to_nat (wc_capacity wc))) by lia.
    rewrite scan_events_spec by lia. done.
  - change 0%Z with (Z.of_nat 0). rewrite scan_events_spec by lia.
    by replace (length h - Z.to_nat (wc_capacity wc)) with 0 by lia.
Qed.

Lemma WatchCache_Len_spec :
  WatchCache_Len wc = Z.min (Z.of_nat (length h)) (wc_capacity wc).
Proof.
  destruct Hrep as [Hc Hl Hn Hs _ _]. unfold WatchCache_Len.
  destruct (Z.ltb_spec (wc_count wc) (wc_capacity wc)); lia.
Qed.

Lemma WatchCache_Close_rep : wc_rep (WatchCache_Close wc) h.
Proof. by destruct Hrep. Qed.
End ring.

(** [Append] called for each event in turn. *)
Fixpoint append_all (wc : WatchCache) (es : list Event) : res WatchCache :=
  match es with
  | [] => Ok wc
  | e :: es' => wc' ← WatchCache_Append wc e; append_all wc' es'
  end.

Lemma append_all_rep (es : list Event) (wc : WatchCache) (h : list Event) :
  wc_rep wc h → Forall (λ e, is_Some (ev_Entry e)) es →
  (Z.of_nat (length h + length es) < two63)%Z →
  ∃ wc', append_all wc es = Ok wc' ∧ wc_rep wc' (h ++ es) ∧
         wc_closed wc' = wc_closed wc ∧ wc_capacity wc' = wc_capacity wc.
Proof.
  revert wc h. induction es as [|e es IH]; intros wc h Hrep Hall Hlen.
  - exists wc. by rewrite app_nil_r.
  - inversion_clear Hall as [|? ? He Hes]. simpl in Hlen.
    destruct (Append_rep wc h Hrep e He) as (wc1 & Ha & Hrep1 & Hc1 & Hk1).
    { rewrite (rep_count _ _ Hrep). unfold two63 in *. lia. }
    destruct (IH wc1 (h ++ [e])%list Hrep1 Hes) as (wc' & Hall' & Hrep' & Hc' & Hk').
    { rewrite length_app. simpl. lia. }
    exists wc'. simpl. rewrite Ha. cbn [mbind res_bind]. rewrite <- app_assoc in Hrep'.
    split_and!; [done|done|congruence|congruence].
Qed.

(** Revisions grow along the history. *)
Definition ev_lt (x y : Event) : Prop := (ev_rev x < ev_rev y)%N.

Lemma sorted_app_lt (l1 l2 : list Event) (x y : Event) :
  StronglySorted ev_lt (l1 ++ l2) → x ∈ l1 → y ∈ l2 → ev_lt x y.
Proof.
  induction l1 as [|z l1 IH]; [set_solver|]. simpl. intros [Hs Hall]%StronglySorted_inv.
  rewrite Forall_forall in Hall. intros [->|Hx]%elem_of_cons Hy; [|by apply IH].
  apply Hall. apply elem_of_app. by right.
Qed.

Definition evicted (cap : nat) (h : list Event) : list Event := take (length h - cap) h.

Lemma evicted_window (cap : nat) (h : list Event) :
  (evicted cap h ++ window cap h)%list = h.
Proof. apply take_drop. Qed.

(** A reader that is past every evicted event misses nothing. *)
Lemma filter_window_complete (cap : nat) (h : list Event) (r : N) (p : string) :
  Forall (λ e, (ev_rev e ≤ r)%N) (evicted cap h) →
  filter (ev_match r p) (window cap h) = filter (ev_match r p) h.
Proof.
  intros Hall. rewrite <- (evicted_window cap h) at 2.
  rewrite filter_app, (filter_none (ev_match r p) (evicted cap h)); [done|].
  rewrite Forall_forall in Hall. intros e He [Hlt _]. specialize (Hall e He). simpl in Hall. lia.
Qed.

(** A reader that is behind the last evicted event is answered as one that has it. *)
Lemma filter_window_behind (cap : nat) (h : list Event) (r : N) (p : string) (e : Event) :
  StronglySorted ev_lt h → last (evicted cap h) = Some e → (r ≤ ev_rev e)%N →
  filter (ev_match r p) (window cap h) = filter (ev_match (ev_rev e) p) (window cap h).
Proof.
  intros Hs [l Hl]%last_Some Hr. apply filter_ext_in. intros x Hx.
  rewrite <- (evicted_window cap h) in Hs.
  assert (ev_lt e x) as Hlt.
  { eapply sorted_app_lt; [exact Hs| |done]. rewrite Hl. set_solver. }
  unfold ev_match, ev_lt in *. split; intros [??]; split; (lia || done).
Qed.

(** ** The condition variable and the timer *)

(** What a goroutine inside [WaitForEvents] is doing. *)
Inductive waiter : Type :=
  | Ready                        (** about to make a pass, once it has the mutex *)
  | Starting                     (** has started the timer goroutine and holds the
                                     mutex; not yet registered by [cond.Wait] *)
  | Blocked                      (** registered, mutex released *)
  | Returned (events : list Event)
  | Crashed.

(** One waiter and its cache; [w_timer] is when the timer goroutine of the
    current wait fires, [None] when it has fired or was stopped. *)
Record wsys := mkWsys {
  w_wc : WatchCache;
  w_hist : list Event;
  w_now : Z;
  w_waiter : waiter;
  w_timer : option Z;
}.

(** [cond.Broadcast]: only a registered waiter is woken. *)
Definition broadcast (w : waiter) : waiter :=
  match w with Blocked => Ready | _ => w end.

Section concurrent.
Context (afterRev : N) (prefix : string) (deadline : Z).

(** Steps that do not need the other writers: the clock, the waiter itself and
    its timer goroutine, which broadcasts without the mutex. *)
Inductive own_step : wsys → wsys → Prop :=
  | step_tick wc h now now' w t :
      (now ≤ now')%Z → own_step (mkWsys wc h now w t) (mkWsys wc h now' w t)
  | step_return wc h now t evs :
      wait_pass wc afterRev prefix deadline now = Return evs →
      own_step (mkWsys wc h now Ready t) (mkWsys wc h now (Returned evs) None)
  | step_crash wc h now t :
      wait_pass wc afterRev prefix deadline now = PassPanic →
      own_step (mkWsys wc h now Ready t) (mkWsys wc h now Crashed None)
  | step_wait wc h now t remaining :
      wait_pass wc afterRev prefix deadline now = Wait remaining →
      own_step (mkWsys wc h now Ready t) (mkWsys wc h now Starting (Some (now + remaining)%Z))
  | step_register wc h now t :
      own_step (mkWsys wc h now Starting t) (mkWsys wc h now Blocked t)
  | step_fire wc h now w at_ :
      (at_ ≤ now)%Z →
      own_step (mkWsys wc h now w (Some at_)) (mkWsys wc h now (broadcast w) None).

(** Steps of the others: [Append] and [Close] take the mutex, which a
    [Starting] waiter holds; another waiter's timer broadcasts without it. *)
Inductive other_step : wsys → wsys → Prop :=
  | step_append wc wc' h now w t e :
      w ≠ Starting → is_Some (ev_Entry e) → (wc_count wc + 1 < two63)%Z →
      WatchCache_Append wc e = Ok wc' →
      other_step (mkWsys wc h now w t) (mkWsys wc' (h ++ [e]) now (broadcast w) t)
  | step_close wc h now w t :
      w ≠ Starting →
      other_step (mkWsys wc h now w t) (mkWsys (WatchCache_Close wc) h now (broadcast w) t)
  | step_spurious wc h now w t :
      other_step (mkWsys wc h now w t) (mkWsys wc h now (broadcast w) t).

Definition wstep (s s' : wsys) : Prop := own_step s s' ∨ other_step s s'.

(** What a waiter knows: while it waits the cache is open and holds nothing
    for it; what it returned was in the window at some point of the history. *)
Definition waiter_ok (s : wsys) : Prop :=
  match w_waiter s with
  | Ready => True
  | Starting | Blocked =>
      wc_closed (w_wc s) = false ∧ getEventsLocked (w_wc s) afterRev prefix = Ok []
  | Returned evs =>
      ∃ h, h `prefix_of` w_hist s ∧
        (evs = filter (ev_match afterRev prefix)
                 (window (Z.to_nat (wc_capacity (w_wc s))) h) ∨ evs = []) ∧
        (evs = [] → wc_closed (w_wc s) = true ∨ (deadline ≤ w_now s)%Z)
  | Crashed => False
  end.

Definition wsys_ok (s : wsys) : Prop := wc_rep (w_wc s) (w_hist s) ∧ waiter_ok s.

Lemma wait_pass_spec (wc : WatchCache) (h : list Event) (now : Z) :
  wc_rep wc h →
  match wait_pass wc afterRev prefix deadline now with
  | Return evs =>
      (evs = filter (ev_match afterRev prefix) (window (Z.to_nat (wc_capacity wc)) h) ∨ evs = [])
      ∧ (evs = [] → wc_closed wc = true ∨ (deadline ≤ now)%Z)
  | Wait remaining =>
      wc_closed wc = false ∧ getEventsLocked wc afterRev prefix = Ok [] ∧
      remaining = (deadline - now)%Z ∧ (0 < remaining)%Z
  | PassPanic => False
  end.
Proof.
  intros Hrep. unfold wait_pass. destruct (wc_closed wc); [auto|].
  rewrite (getEventsLocked_spec wc h Hrep).
  destruct (filter _ _) as [|e l]; [|by split; [left|]].
  destruct (Z.leb_spec (deadline - now) 0); [|by auto].
  split; [auto|]. intros _. right. lia.
Qed.

Lemma broadcast_ok (wc : WatchCache) (h : list Event) (now : Z) (w : waiter) (t : option Z) :
  waiter_ok (mkWsys wc h now w t) → waiter_ok (mkWsys wc h now (broadcast w) None).
Proof. by destruct w. Qed.

Lemma own_step_ok (s s' : wsys) : own_step s s' → wsys_ok s → wsys_ok s'.
Proof.
  intros Hstep [Hrep Hok].
  destruct Hstep as [wc h now now' w t Hle|wc h now t evs Hp|wc h now t Hp|wc h now t rem Hp
    |wc h now t|wc h now w at_ Hle]; simpl in *;
    (split; [done|]); try pose proof (wait_pass_spec wc h now Hrep) as Hsp;
    try rewrite Hp in Hsp.
  - destruct w; try done. destruct Hok as (h0 & Hpre & Hevs & Hnil).
    exists h0. split_and!; [done|done|]. intros Hn. destruct (Hnil Hn); [auto|]. right. simpl in *. lia.
  - exists h. by destruct Hsp.
  - done.
  - by destruct Hsp as (? & ? & _).
  - done.
  - by eapply broadcast_ok.
Qed.

Lemma other_step_ok (s s' : wsys) : other_step s s' → wsys_ok s → wsys_ok s'.
Proof.
  intros Hstep [Hrep Hok].
  destruct Hstep as [wc wc' h now w t e Hns He Hsm Ha|wc h now w t Hns|wc h now w t].
  - destruct (Append_rep wc h Hrep e He Hsm) as (wc1 & Ha1 & Hrep1 & Hc1 & Hk1).
    rewrite Ha in Ha1. injection Ha1 as <-. split; [done|].
    destruct w; try done. destruct Hok as (h0 & Hpre & Hevs & Hnil). exists h0.
    cbn in *. rewrite Hk1, Hc1. split_and!; [|done|done]. by apply prefix_app_r.
  - split; [by apply WatchCache_Close_rep|]. destruct w; try done.
    destruct Hok as (h0 & Hpre & Hevs & Hnil). exists h0. split_and!; [done|done|]. by left.
  - split; [done|]. by destruct w.
Qed.

Lemma wstep_ok (s s' : wsys) : wsys_ok s → rtc wstep s s' → wsys_ok s'.
Proof.
  intros Hok Hsteps. induction Hsteps as [|s1 s2 s3 [Hs|Hs] _ IH]; [done|..]; apply IH.
  - by eapply own_step_ok.
  - by eapply other_step_ok.
Qed.
End concurrent.

(** ** Properties *)

(** C14: After any events the buffer of a new cache answers a scan with the matching
    ones among the last [cap], oldest first, and counts at most [cap]. *)
Theorem watch_cache_window (cap : Z) (wc : WatchCache) (es : list Event) (r : N) (p : string) :
  (0 < cap < two63)%Z → NewWatchCache cap = Ok wc →
  Forall (λ e, is_Some (ev_Entry e)) es → (Z.of_nat (length es) < two63)%Z →
  ∃ wc', append_all wc es = Ok wc' ∧
    getEventsLocked wc' r p = Ok (filter (ev_match r p) (window (Z.to_nat cap) es)) ∧
    WatchCache_Len wc' = Z.min (Z.of_nat (length es)) cap.
Proof.
  intros Hcap Hnew Hes Hlen. destruct (NewWatchCache_rep cap Hcap) as (wc0 & H0 & Hrep & _).
  assert (wc_capacity wc0 = cap) as Hc0.
  { unfold NewWatchCache in H0. case_match; [done|]. by injection H0 as <-. }
  rewrite Hnew in H0. injection H0 as <-.
  destruct (append_all_rep es wc [] Hrep Hes Hlen) as (wc' & Ha & Hrep' & _ & Hk).
  exists wc'. rewrite (getEventsLocked_spec _ _ Hrep'), (WatchCache_Len_spec _ _ Hrep').
  by rewrite Hk, Hc0.
Qed.

(** A reader that has seen every evicted event is given every later matching
    event of the whole history; one that is behind the last evicted event [e] is
    given exactly what a reader at [e] is given: the reply does not tell it that
    the events it misses are gone. *)
Theorem watch_cache_eviction (wc : WatchCache) (h : list Event) (r : N) (p : string) :
  wc_rep wc h → StronglySorted ev_lt h →
  let old := evicted (Z.to_nat (wc_capacity wc)) h in
  (Forall (λ e, (ev_rev e ≤ r)%N) old →
   getEventsLocked wc r p = Ok (filter (ev_match r p) h)) ∧
  (∀ e, last old = Some e → (r ≤ ev_rev e)%N →
   getEventsLocked wc r p = getEventsLocked wc (ev_rev e) p).
Proof.
  intros Hrep Hs old. split.
  - intros Hall. by rewrite (getEventsLocked_spec _ _ Hrep), filter_window_complete.
  - intros e Hlast Hr. rewrite !(getEventsLocked_spec _ _ Hrep). f_equal.
    by apply filter_window_behind.
Qed.

(** C8: However the goroutines interleave, a waiter blocked in [cond.Wait] has
    nothing to read and its cache is open: an [Append] or a [Close] never goes
    unnoticed.  A call that has returned gave the matching events of the window
    at some moment, or nothing, and then only after [Close] or the deadline. *)
Theorem wait_no_lost_wakeup (wc : WatchCache) (h : list Event) (now : Z)
    (r : N) (p : string) (deadline : Z) (s : wsys) :
  wc_rep wc h → rtc (wstep r p deadline) (mkWsys wc h now Ready None) s →
  (w_waiter s = Blocked →
   wc_closed (w_wc s) = false ∧
   filter (ev_match r p) (window (Z.to_nat (wc_capacity (w_wc s))) (w_hist s)) = []) ∧
  (∀ evs, w_waiter s = Returned evs →
   (∃ h', h' `prefix_of` w_hist s ∧
      evs = filter (ev_match r p) (window (Z.to_nat (wc_capacity (w_wc s))) h')) ∨
   (evs = [] ∧ (wc_closed (w_wc s) = true ∨ (deadline ≤ w_now s)%Z))) ∧
  w_waiter s ≠ Crashed.
Proof.
  intros Hrep Hsteps.
  assert (wsys_ok r p deadline (mkWsys wc h now Ready None)) as H0 by done.
  destruct (wstep_ok r p deadline _ s H0 Hsteps) as [Hrep' Hok].
  unfold waiter_ok in Hok. split_and!.
  - intros Hw. rewrite Hw in Hok. destruct Hok as [Hc Hg]. split; [done|].
    rewrite (getEventsLocked_spec _ _ Hrep') in Hg. by injection Hg.
  - intros evs Hw. rewrite Hw in Hok. destruct Hok as (h' & Hpre & [Hevs|Hevs] & Hnil); eauto.
  - intros Hw. by rewrite Hw in Hok.
Qed.

(** C40: The timer goroutine broadcasts without the mutex, so it can do so between
    the start of the timer and the registration in [cond.Wait]: an open, empty
    cache can reach a state past the deadline in which the waiter is blocked and
    stays blocked as long as no other goroutine broadcasts. *)
Theorem wait_timeout_missed (wc : WatchCache) (h : list Event) (r : N) (p : string)
    (now timeout : Z) :
  wc_rep wc h → wc_closed wc = false → getEventsLocked wc r p = Ok [] → (0 < timeout)%Z →
  ∃ s, rtc (own_step r p (now + timeout)) (mkWsys wc h now Ready None) s ∧
    w_waiter s = Blocked ∧ (now + timeout ≤ w_now s)%Z ∧
    ∀ s', rtc (own_step r p (now + timeout)) s s' → w_waiter s' = Blocked.
Proof.
  intros Hrep Hopen Hnone Ht.
  assert (wait_pass wc r p (now + timeout) now = Wait timeout) as Hp.
  { unfold wait_pass. rewrite Hopen, Hnone.
    replace (now + timeout - now)%Z with timeout by lia.
    destruct (Z.leb_spec timeout 0); [lia|done]. }
  exists (mkWsys wc h (now + timeout) Blocked None). split_and!; [|done|done|].
  - eapply rtc_l; [by apply step_wait|].
    eapply rtc_l; [apply (step_tick _ _ _ _ _ now (now + timeout)); lia|].
    eapply rtc_l; [apply step_fire; lia|]. simpl.
    eapply rtc_l; [apply step_register|]. done.
  - intros s' Hsteps.
    assert (w_waiter s' = Blocked ∧ w_timer s' = None) as [? _]; [|done].
    remember (mkWsys wc h (now + timeout) Blocked None) as s0 eqn:H0.
    assert (w_waiter s0 = Blocked ∧ w_timer s0 = None) as Hs0 by (by subst).
    clear H0. induction Hsteps as [|s1 s2 s3 Hs _ IH]; [done|]. apply IH.
    by destruct Hs; destruct Hs0; simplify_eq/=.
Qed.

(** C37: [WaitForEvents] returns whatever it is woken by, once one of the wake-ups
    comes at or after the deadline or finds the cache closed. *)
Theorem wait_returns (r : N) (p : string) (timeout start : Z) (l : list (WatchCache * Z)) :
  Forall (λ x, ∃ h, wc_rep x.1 h) l →
  Exists (λ x, wc_closed x.1 = true ∨ (start + timeout ≤ x.2)%Z) l →
  ∃ evs, WaitForEvents r p timeout start l = Some (Ok evs).
Proof.
  unfold WaitForEvents. intros Hall Hex. induction Hex as [[wc now] l Hx|[wc now] l Hex IH];
    inversion_clear Hall as [|? ? [h Hrep] Hall']; simpl;
    pose proof (wait_pass_spec r p (start + timeout) wc h now Hrep) as Hsp;
    destruct (wait_pass _ _ _ _ _) as [evs|rem|]; try done; eauto.
  destruct Hsp as (Hc & _ & -> & Hpos). simpl in Hx. destruct Hx; [congruence|lia].
Qed.

(** ** Concrete runs *)

Definition demo_event (n : N) (k : string) : Event :=
  mkEvent EventPut (Some (mkEntry k (Some "v") n n n 1)) None.
Definition demo_events : list Event :=
  [demo_event 1 "a/x"; demo_event 2 "b/y"; demo_event 3 "a/z"].

Definition demo_cache : WatchCache :=
  match NewWatchCache 2 ≫= λ wc, append_all wc demo_events with
  | Ok wc => wc
  | _ => mkWatchCache [] 0 0 true
  end.

Lemma demo_entries : Forall (λ e, is_Some (ev_Entry e)) demo_events.
Proof. repeat constructor; eauto. Qed.

Lemma demo_cache_rep : wc_rep demo_cache demo_events.
Proof.
  destruct (NewWatchCache_rep 2) as (wc & Hnew & Hrep & _); [by vm_compute|].
  destruct (append_all_rep demo_events wc [] Hrep demo_entries) as (wc' & Ha & Hrep' & _);
    [by vm_compute|].
  unfold demo_cache. rewrite Hnew. cbn [mbind res_bind]. by rewrite Ha.
Qed.

Lemma demo_sorted : StronglySorted ev_lt demo_events.
Proof. repeat constructor. Qed.

Lemma watch_cache_window_witness :
  ∃ wc, NewWatchCache 2 ≫= (λ wc, append_all wc demo_events) = Ok wc ∧
        getEventsLocked wc 0 "a/" = Ok [demo_event 3 "a/z"].
Proof.
  destruct (watch_cache_window 2 (mkWatchCache [zero_event; zero_event] 2 0 false)
    demo_events 0 "a/" ltac:(by vm_compute) eq_refl demo_entries ltac:(by vm_compute))
    as (wc & Ha & Hg & _).
  exists wc. split; [exact Ha|]. rewrite Hg. vm_compute. reflexivity.
Defined.

(** The first event is evicted: a reader at revision 0 is answered as one at 1. *)
Lemma watch_cache_eviction_witness :
  getEventsLocked demo_cache 0 "" = getEventsLocked demo_cache 1 "" ∧
  getEventsLocked demo_cache 1 "" = Ok (filter (ev_match 1 "") demo_events).
Proof.
  split.
  - apply (proj2 (watch_cache_eviction demo_cache demo_events 0 "" demo_cache_rep demo_sorted)
             (demo_event 1 "a/x")); [vm_compute; reflexivity|vm_compute; discriminate].
  - apply (proj1 (watch_cache_eviction demo_cache demo_events 1 "" demo_cache_rep demo_sorted)).
    repeat constructor. vm_compute. discriminate.
Defined.

(** A waiter at revision 3 is blocked, and woken by the next append. *)
Lemma wait_no_lost_wakeup_witness :
  ∃ s, rtc (wstep 3 "" 100) (mkWsys demo_cache demo_events 0 Ready None) s ∧
       w_waiter s = Blocked ∧ wc_closed (w_wc s) = false.
Proof.
  assert (rtc (wstep 3 "" 100) (mkWsys demo_cache demo_events 0 Ready None)
            (mkWsys demo_cache demo_events 0 Blocked (Some 100%Z))) as Hs.
  { eapply rtc_l; [left; apply (step_wait _ _ _ _ _ _ _ 100); vm_compute; reflexivity|].
    eapply rtc_once. left. apply step_register. }
  eexists. split; [exact Hs|]. split; [reflexivity|].
  apply (proj1 (wait_no_lost_wakeup demo_cache demo_events 0 3 "" 100 _ demo_cache_rep Hs)).
  reflexivity.
Defined.

Lemma wait_timeout_missed_witness :
  ∃ s, w_waiter s = Blocked ∧ (100 ≤ w_now s)%Z.
Proof.
  destruct (wait_timeout_missed demo_cache demo_events 3 "" 0 100 demo_cache_rep
    ltac:(vm_compute; reflexivity) ltac:(vm_compute; reflexivity) ltac:(lia))
    as (s & _ & Hb & Hn & _).
  exists s. split; [exact Hb|exact Hn].
Defined.

Lemma wait_returns_witness :
  ∃ evs, WaitForEvents 3 "" 100 0 [(demo_cache, 0%Z); (demo_cache, 100%Z)] = Some (Ok evs).
Proof.
  apply (wait_returns 3 "" 100 0 [(demo_cache, 0%Z); (demo_cache, 100%Z)]).
  - repeat constructor; exists demo_events; apply demo_cache_rep.
  - apply Exists_cons_tl, Exists_cons_hd. right. vm_compute. discriminate.
Defined.
