(* ===== verification/Watchable.v ===== *)
(** [src/store/watchable.go]: [WatchableStore], a store that appends an event to
    a [WatchCache] after each mutation.  It is verified against the [StoreLaws] of
    the store inside and keeps them itself; its events, replayed over a snapshot,
    reconstruct the store. *)

From S2P Require Import Prelude GoStrings GoEncoding JsonFields Entry BoltDB Kv StoreSpec.
From S2P Require Import BoltStore WatchCache.

Local Open Scope string_scope.
Local Open Scope nat_scope.

(** [type WatchableStore struct]; [S] is the embedded store. *)
Record WatchableStore (S : Type) := mkWatchableStore {
  ws_BoltStore : S;
  ws_wc : WatchCache;
}.
Arguments mkWatchableStore {S} _ _.
Arguments ws_BoltStore {S} _.
Arguments ws_wc {S} _.

Definition defaultWatchCacheSize : Z := 4096.

Section operations.
Context {S : Type} `{!Store S}.

Definition NewWatchableStore (bs : S) : res (WatchableStore S) :=
  wc ← NewWatchCache defaultWatchCacheSize;
  Ok (mkWatchableStore bs wc).

(** The call of [Append] after a mutation that left the store [bs]. *)
Definition append_event (bs : S) (wc : WatchCache) (event : Event)
    : WatchableStore S * res unit :=
  match WatchCache_Append wc event with
  | Ok wc' => (mkWatchableStore bs wc', Ok tt)
  | Err e => (mkWatchableStore bs wc, Err e)
  | Panic => (mkWatchableStore bs wc, Panic)
  end.

Definition WatchableStore_Put (ws : WatchableStore S) (key : string) (value : go_bytes)
    : WatchableStore S * option PutResult * res unit :=
  let '(bs, result, err) := store_Put (ws_BoltStore ws) key value in
  match err with
  | Err e => (mkWatchableStore bs (ws_wc ws), None, Err e)
  | Panic => (mkWatchableStore bs (ws_wc ws), None, Panic)
  | Ok _ =>
      match result with
      | None => (mkWatchableStore bs (ws_wc ws), None, Panic)
      | Some r =>
          let '(ws', err') :=
            append_event bs (ws_wc ws) (mkEvent EventPut (pr_Entry r) (pr_PrevEntry r)) in
          (ws', result, err')
      end
  end.

Definition WatchableStore_Delete (ws : WatchableStore S) (key : string)
    : WatchableStore S * res Entry :=
  let '(bs, deleted) := store_Delete (ws_BoltStore ws) key in
  match deleted with
  | Err e => (mkWatchableStore bs (ws_wc ws), Err e)
  | Panic => (mkWatchableStore bs (ws_wc ws), Panic)
  | Ok e =>
      let '(ws', err) := append_event bs (ws_wc ws) (mkEvent EventDelete (Some e) None) in
      (ws', match err with Ok _ => Ok e | Err x => Err x | Panic => Panic end)
  end.

Definition WatchableStore_Close (ws : WatchableStore S) : WatchableStore S * res unit :=
  let '(bs, err) := store_Close (ws_BoltStore ws) in
  (mkWatchableStore bs (WatchCache_Close (ws_wc ws)), err).

(** [Get], [List] and [Rev] are promoted from the embedded store. *)
#[export] Instance watchable_store : Store (WatchableStore S) := {|
  store_Put := WatchableStore_Put;
  store_Get ws := store_Get (ws_BoltStore ws);
  store_Delete := WatchableStore_Delete;
  store_List ws := store_List (ws_BoltStore ws);
  store_Rev ws := store_Rev (ws_BoltStore ws);
  store_Close := WatchableStore_Close;
|}.
End operations.

(** ** The event log *)

(** The event a successful call emits in state [a]. *)
Definition call_events (a : kv) (c : call) : list Event :=
  match c with
  | CPut k v => [mkEvent EventPut (Some (kv_next a k v)) (kv_map a !! k)]
  | CDelete k =>
      match kv_map a !! k with
      | Some e => [mkEvent EventDelete (Some (kv_deleted a e)) None]
      | None => []
      end
  | _ => []
  end.

Fixpoint calls_events (a : kv) (l : list call) : list Event :=
  match l with
  | [] => []
  | c :: l' => (call_events a c ++ calls_events (spec_call a c).1 l')%list
  end.

(** A call counts one revision and emits one event at most. *)
Lemma spec_calls_rev_bound (l : list call) (a : kv) :
  (kv_rev (spec_calls a l).1 ≤ kv_rev a + N.of_nat (length l))%N ∧
  length (calls_events a l) ≤ length l.
Proof.
  revert a. induction l as [|c l IH]; intros a; simpl; [lia|].
  assert ((kv_rev (spec_call a c).1 ≤ kv_rev a + 1)%N ∧ length (call_events a c) ≤ 1) as [Hr Hl].
  { destruct c; simpl; unfold kv_delete; try case_match; simpl; lia. }
  destruct (spec_call a c) as [a1 r]. simpl in *. specialize (IH a1).
  destruct (spec_calls a1 l). simpl in *. rewrite length_app. lia.
Qed.

(** What a consumer of the events does with its copy of the entries. *)
Definition replay_event (m : gmap string Entry) (ev : Event) : gmap string Entry :=
  match ev_Entry ev with
  | Some e => if Z.eqb (ev_Type ev) EventPut then <[Key e := e]> m else delete (Key e) m
  | None => m
  end.

Definition replay (m : gmap string Entry) (evs : list Event) : gmap string Entry :=
  foldl replay_event m evs.

(** The part of a map under a prefix. *)
Definition under (p : string) (m : gmap string Entry) : gmap string Entry :=
  filter (λ x, HasPrefix x.1 p = true) m.

(** The keys written and deleted are valid UTF-8. *)
Definition call_valid (c : call) : Prop :=
  match c with
  | CPut k _ | CDelete k => ValidString k = true
  | _ => True
  end.

Lemma under_insert (p k : string) (e : Entry) (m : gmap string Entry) :
  under p (<[k := e]> m) = if HasPrefix k p then <[k := e]> (under p m) else under p m.
Proof.
  unfold under. destruct (HasPrefix k p) eqn:Hp.
  - by rewrite map_filter_insert_True.
  - rewrite map_filter_insert_False by (simpl; congruence).
    apply map_eq. intros i.
    destruct (decide (i = k)) as [->|Hne].
    + transitivity (None (A:=Entry)); [|symmetry]; apply map_lookup_filter_None; right;
        simpl; congruence.
    + by rewrite !map_lookup_filter, lookup_delete_ne.
Qed.

Lemma under_delete (p k : string) (m : gmap string Entry) :
  under p (delete k m) = if HasPrefix k p then delete k (under p m) else under p m.
Proof.
  unfold under. rewrite map_filter_delete. destruct (HasPrefix k p) eqn:Hp; [done|].
  apply delete_id, map_lookup_filter_None. right. simpl. congruence.
Qed.

Lemma stored_valid (e : Entry) : ValidString (Key e) = true → stored e = e.
Proof. destruct e. intros Hv. unfold stored. simpl in *. by rewrite ToValidUTF8_valid. Qed.

Lemma kv_next_Key (a : kv) (k : string) (v : go_bytes) : Key (kv_next a k v) = k.
Proof. unfold kv_next. by destruct (kv_map a !! k). Qed.

Lemma kv_next_Value (a : kv) (k : string) (v : go_bytes) : Value (kv_next a k v) = v.
Proof. unfold kv_next. by destruct (kv_map a !! k). Qed.

Lemma kv_next_Revision (a : kv) (k : string) (v : go_bytes) :
  Revision (kv_next a k v) = (kv_rev a + 1)%N.
Proof. unfold kv_next. by destruct (kv_map a !! k). Qed.

Lemma call_events_rev (a : kv) (c : call) :
  Forall (λ e, is_Some (ev_Entry e) ∧ ev_rev e = (kv_rev a + 1)%N ∧
               kv_rev (spec_call a c).1 = (kv_rev a + 1)%N) (call_events a c).
Proof.
  destruct c as [k v|k| | |]; simpl; try constructor; try done.
  - unfold ev_rev. simpl. by rewrite kv_next_Revision.
  - unfold kv_delete. destruct (kv_map a !! k); repeat constructor. by eexists.
Qed.

Lemma spec_call_rev_le (a : kv) (c : call) : (kv_rev a ≤ kv_rev (spec_call a c).1)%N.
Proof. destruct c; simpl; unfold kv_delete; try lia. case_match; simpl; lia. Qed.

Lemma calls_events_rev (l : list call) (a : kv) :
  Forall (λ e, is_Some (ev_Entry e) ∧
    (kv_rev a < ev_rev e ≤ kv_rev (spec_calls a l).1)%N) (calls_events a l)
  ∧ (kv_rev a ≤ kv_rev (spec_calls a l).1)%N.
Proof.
  revert a. induction l as [|c l IH]; intros a; simpl; [by split; [constructor|]|].
  pose proof (call_events_rev a c) as Hc. pose proof (spec_call_rev_le a c) as Hle.
  destruct (spec_call a c) as [a1 r]. simpl in *. destruct (IH a1) as [Hl Hle1].
  destruct (spec_calls a1 l) as [a2 rs]. simpl in *. split; [|lia]. apply Forall_app. split.
  - eapply Forall_impl; [exact Hc|]. simpl. intros e (? & -> & ?). split; [done|lia].
  - eapply Forall_impl; [exact Hl|]. simpl. intros e (? & ?). split; [done|lia].
Qed.

Lemma calls_events_sorted (l : list call) (a : kv) : StronglySorted ev_lt (calls_events a l).
Proof.
  revert a. induction l as [|c l IH]; intros a; simpl; [constructor|].
  pose proof (call_events_rev a c) as Hc.
  assert (length (call_events a c) ≤ 1) as Hlen.
  { destruct c; simpl; try lia. case_match; simpl; lia. }
  destruct (call_events a c) as [|e [|??]]; simpl in *; [apply IH| |lia].
  constructor; [apply IH|]. apply Forall_cons in Hc as [(_ & He & Ha) _].
  eapply Forall_impl; [apply calls_events_rev|]. unfold ev_lt. intros e'. simpl. lia.
Qed.

Lemma filter_event (r : N) (p : string) (e : Event) :
  filter (ev_match r p) [e]
  = if (r <? ev_rev e)%N && HasPrefix (ev_key e) p then [e] else [].
Proof.
  rewrite filter_cons, filter_nil. destruct (decide (ev_match r p e)) as [[Hr Hp]|Hn].
  - apply N.ltb_lt in Hr. by rewrite Hr, Hp.
  - destruct (_ && _) eqn:Hb; [|done]. exfalso. apply Hn.
    apply andb_true_iff in Hb as [Hr%N.ltb_lt Hp]. by split.
Qed.

(** Replaying the matching events of a call over the part of the map under a
    prefix gives the part of the new map under the prefix. *)
Lemma replay_call (a : kv) (c : call) (r : N) (p : string) :
  kv_ok a → call_valid c → (r ≤ kv_rev a)%N →
  replay (under p (kv_map a)) (filter (ev_match r p) (call_events a c))
  = under p (kv_map (spec_call a c).1).
Proof.
  intros Hok Hv Hr. assert ((r <? kv_rev a + 1)%N = true) as Hlt by (apply N.ltb_lt; lia).
  destruct c as [k v|k| | |]; try done; simpl in *.
  - rewrite under_insert, filter_event. unfold ev_rev, ev_key. cbn [ev_Entry].
    rewrite !kv_next_Key, kv_next_Revision, Hlt.
    rewrite stored_valid by (by rewrite kv_next_Key). simpl.
    destruct (HasPrefix k p); [|done]. simpl. unfold replay_event. simpl.
    by rewrite kv_next_Key.
  - unfold kv_delete. destruct (kv_map a !! k) as [e|] eqn:He; [|done].
    destruct (ok_entry a Hok k e He) as (Hk & _). rewrite ToValidUTF8_valid in Hk by done.
    rewrite filter_event. unfold ev_rev, ev_key, kv_deleted. cbn. rewrite under_delete, Hk, Hlt.
    simpl. destruct (HasPrefix k p); [|done]. simpl. unfold replay_event. done.
Qed.

Lemma replay_calls (l : list call) (a : kv) (r : N) (p : string) :
  kv_ok a → Forall call_valid l → (r ≤ kv_rev a)%N →
  replay (under p (kv_map a)) (filter (ev_match r p) (calls_events a l))
  = under p (kv_map (spec_calls a l).1).
Proof.
  revert a. induction l as [|c l IH]; intros a Hok Hv Hr; [done|].
  apply Forall_cons in Hv as [Hc Hl]. simpl. rewrite filter_app. unfold replay.
  rewrite foldl_app. fold (replay (under p (kv_map a)) (filter (ev_match r p) (call_events a c))).
  rewrite replay_call by done.
  pose proof (spec_call_ok a c Hok) as Hok1. pose proof (spec_call_rev_le a c) as Hle.
  destruct (spec_call a c) as [a1 rp]. simpl in *.
  specialize (IH a1 Hok1 Hl ltac:(lia)). unfold replay in IH. rewrite IH.
  by destruct (spec_calls a1 l).
Qed.

(** ** Refinement *)

Section refinement.
Context {S : Type} `{StoreLaws S}.

(** [ws] is in state [a] and its cache was given the events [h]: one per
    revision at most, in order, none beyond the store's revision. *)
Record ws_rep (ws : WatchableStore S) (a : kv) (h : list Event) : Prop := {
  ws_store : store_rep (ws_BoltStore ws) a;
  ws_cache : wc_rep (ws_wc ws) h;
  ws_length : (N.of_nat (length h) ≤ kv_rev a)%N;
  ws_sorted : StronglySorted ev_lt h;
  ws_bound : Forall (λ e, (ev_rev e ≤ kv_rev a)%N) h;
}.

(** The mutations until the revision or the [int] counter of the cache wraps. *)
Definition watch_limit : N := N.min store_limit 9223372036854775807.

Lemma NewWatchableStore_rep (s : S) (a : kv) :
  store_rep s a → ∃ ws, NewWatchableStore s = Ok ws ∧ ws_rep ws a [] ∧
    ws_BoltStore ws = s ∧ wc_closed (ws_wc ws) = false ∧
    wc_capacity (ws_wc ws) = defaultWatchCacheSize.
Proof.
  intros Hs. destruct (NewWatchCache_rep defaultWatchCacheSize) as (wc & Hn & Hrep & Hc).
  { by vm_compute. }
  unfold NewWatchableStore. rewrite Hn. cbn [mbind res_bind]. eexists.
  split; [reflexivity|]. split_and!; [|done|done|].
  - split; simpl; [done|done|lia|constructor|constructor].
  - unfold NewWatchCache in Hn. simpl in Hn. by injection Hn as <-.
Qed.

(** One event more, at the next revision, after a mutation to state [a']. *)
Lemma append_event_rep (ws : WatchableStore S) (a a' : kv) (h : list Event) (s' : S) (e : Event) :
  ws_rep ws a h → store_rep s' a' → is_Some (ev_Entry e) →
  (kv_rev a < watch_limit)%N → ev_rev e = (kv_rev a + 1)%N → kv_rev a' = (kv_rev a + 1)%N →
  ∃ ws', append_event s' (ws_wc ws) e = (ws', Ok tt) ∧ ws_rep ws' a' (h ++ [e]) ∧
    wc_closed (ws_wc ws') = wc_closed (ws_wc ws) ∧
    wc_capacity (ws_wc ws') = wc_capacity (ws_wc ws).
Proof.
  intros [Hs Hc Hl Hso Hb] Hs' He Hlim Her Har. unfold watch_limit in Hlim.
  destruct (Append_rep _ _ Hc e He) as (wc' & Ha & Hrep' & Hcl & Hk).
  { rewrite (rep_count _ _ Hc). unfold two63. lia. }
  unfold append_event. rewrite Ha. eexists. split; [reflexivity|]. split_and!; [|done|done].
  split; simpl; [done|done|rewrite length_app; simpl; lia|..].
  - clear -Hso Hb Her. induction h as [|x h IH]; simpl; [repeat constructor|].
    apply StronglySorted_inv in Hso as [Hso Hx]. apply Forall_cons in Hb as [Hbx Hb].
    constructor; [by apply IH|]. apply Forall_app. split; [done|].
    constructor; [|done]. unfold ev_lt. simpl in *. lia.
  - apply Forall_app. split; [|constructor; [lia|done]].
    eapply Forall_impl; [exact Hb|]. simpl. intros x. lia.
Qed.

Lemma ws_Put_spec (ws : WatchableStore S) (a : kv) (h : list Event) (k : string) (v : go_bytes) :
  ws_rep ws a h → can_put watch_limit a k v →
  ∃ ws', WatchableStore_Put ws k v = (ws', Some (put_result a k v), Ok tt) ∧
    ws_rep ws' (kv_put a k v) (h ++ call_events a (CPut k v)) ∧
    wc_closed (ws_wc ws') = wc_closed (ws_wc ws) ∧
    wc_capacity (ws_wc ws') = wc_capacity (ws_wc ws).
Proof.
  intros Hrep (Hk & Hf & Hlim).
  destruct (law_Put _ _ k v (ws_store _ _ _ Hrep)) as (s' & Hput & Hs').
  { split_and!; [done|done|]. unfold watch_limit in Hlim. lia. }
  destruct (append_event_rep ws a (kv_put a k v) h s'
    (mkEvent EventPut (Some (kv_next a k v)) (kv_map a !! k)) Hrep Hs')
    as (ws' & Ha & Hrep'); [by eexists|done| |done|].
  { unfold ev_rev. simpl. apply kv_next_Revision. }
  exists ws'. unfold WatchableStore_Put. rewrite Hput. simpl. by rewrite Ha.
Qed.

Lemma ws_Put_refused (ws : WatchableStore S) (a : kv) (h : list Event) (k : string) (v : go_bytes) :
  ws_rep ws a h → (kv_rev a < watch_limit)%N → ¬ (key_ok k ∧ fits (kv_next a k v)) →
  ∃ ws' e, WatchableStore_Put ws k v = (ws', None, Err e) ∧ ws_rep ws' a h ∧
    ws_wc ws' = ws_wc ws.
Proof.
  intros Hrep Hlim Hbad. unfold watch_limit in Hlim.
  destruct (law_Put_refused _ _ k v (ws_store _ _ _ Hrep)) as (s' & r & e & Hput & Hs');
    [lia|done|].
  eexists _, e. unfold WatchableStore_Put. rewrite Hput. split; [reflexivity|].
  by destruct Hrep.
Qed.

Lemma ws_Delete_spec (ws : WatchableStore S) (a : kv) (h : list Event) (k : string) :
  ws_rep ws a h → (kv_rev a < watch_limit)%N →
  ∃ ws', WatchableStore_Delete ws k
      = (ws', match kv_map a !! k with
              | Some e => Ok (kv_deleted a e)
              | None => Err ErrKeyNotFound
              end) ∧
    ws_rep ws' (kv_delete a k) (h ++ call_events a (CDelete k)) ∧
    wc_closed (ws_wc ws') = wc_closed (ws_wc ws) ∧
    wc_capacity (ws_wc ws') = wc_capacity (ws_wc ws).
Proof.
  intros Hrep Hlim. pose proof (ws_store _ _ _ Hrep) as Hs.
  assert (kv_rev a < store_limit)%N as Hl by (unfold watch_limit in Hlim; lia).
  unfold WatchableStore_Delete. simpl. destruct (kv_map a !! k) as [e|] eqn:He.
  - destruct (law_Delete _ _ k e Hs Hl He) as (s' & -> & Hs').
    destruct (append_event_rep ws a (kv_delete a k) h s'
      (mkEvent EventDelete (Some (kv_deleted a e)) None) Hrep Hs')
      as (ws' & -> & Hrep'); [by eexists|done|done| |].
    { unfold kv_delete. by rewrite He. }
    by exists ws'.
  - destruct (law_Delete_missing _ _ k Hs Hl He) as (s' & -> & Hs').
    eexists. split; [reflexivity|]. rewrite app_nil_r. unfold kv_delete. rewrite He.
    by destruct Hrep.
Qed.

(** [WatchableStore] keeps the promises of the store it wraps. *)
#[export] Program Instance watchable_store_laws : StoreLaws (WatchableStore S) := {|
  store_rep ws a := ∃ h, ws_rep ws a h;
  store_limit := watch_limit;
|}.
Next Obligation. unfold watch_limit. pose proof law_limit. lia. Qed.
Next Obligation. intros ws a [h [Hs]]. by apply (law_ok (ws_BoltStore ws) a). Qed.
Next Obligation. intros ws a [h [Hs]]. by apply (law_max (ws_BoltStore ws) a). Qed.
Next Obligation.
  intros ws a k v [h Hrep] Hcan. destruct (ws_Put_spec ws a h k v Hrep Hcan) as (ws' & Hp & Hr & _).
  exists ws'. eauto.
Qed.
Next Obligation.
  intros ws a k v [h Hrep] Hlim Hbad.
  destruct (ws_Put_refused ws a h k v Hrep Hlim Hbad) as (ws' & e & Hp & Hr & _).
  exists ws', None, e. eauto.
Qed.
Next Obligation. intros ws a k [h [Hs]]. by apply (law_Get (ws_BoltStore ws) a). Qed.
Next Obligation.
  intros ws a k e [h Hrep] Hlim He. destruct (ws_Delete_spec ws a h k Hrep Hlim) as (ws' & Hd & Hr & _).
  rewrite He in Hd. exists ws'. eauto.
Qed.
Next Obligation.
  intros ws a k [h Hrep] Hlim He. destruct (ws_Delete_spec ws a h k Hrep Hlim) as (ws' & Hd & Hr & _).
  unfold kv_delete in Hr. rewrite He in Hd, Hr. exists ws'. eauto.
Qed.
Next Obligation. intros ws a p [h [Hs]]. by apply (law_List (ws_BoltStore ws) a). Qed.
Next Obligation. intros ws a [h [Hs]]. by apply (law_Rev (ws_BoltStore ws) a). Qed.

(** A history of calls adds its events to the cache. *)
Lemma run_calls_ws (l : list call) (ws : WatchableStore S) (a : kv) (h : list Event) :
  ws_rep ws a h → admissible_calls watch_limit a l →
  ws_rep (run_calls ws l).1 (spec_calls a l).1 (h ++ calls_events a l) ∧
  wc_closed (ws_wc (run_calls ws l).1) = wc_closed (ws_wc ws) ∧
  wc_capacity (ws_wc (run_calls ws l).1) = wc_capacity (ws_wc ws).
Proof.
  revert ws a h. induction l as [|c l IH]; intros ws a h Hrep Hadm.
  { simpl. by rewrite app_nil_r. }
  destruct Hadm as [Hc Hl].
  assert (∃ ws1, (do_call ws c).1 = ws1 ∧
    ws_rep ws1 (spec_call a c).1 (h ++ call_events a c) ∧
    wc_closed (ws_wc ws1) = wc_closed (ws_wc ws) ∧
    wc_capacity (ws_wc ws1) = wc_capacity (ws_wc ws)) as (ws1 & Hd & Hrep1 & Hcl1 & Hk1).
  { destruct c as [k v|k|k|p|]; simpl in *; rewrite ?app_nil_r; eauto.
    - destruct (ws_Put_spec ws a h k v Hrep Hc) as (ws' & -> & ?). eauto.
    - destruct (ws_Delete_spec ws a h k Hrep Hc) as (ws' & -> & ?). eauto.
    - destruct (store_List (ws_BoltStore ws) p). eauto. }
  simpl. destruct (do_call ws c) as [ws1' rp], (spec_call a c) as [a1 rp']. simpl in *. subst ws1'.
  destruct (IH ws1 a1 _ Hrep1 Hl) as (Hrep2 & Hcl2 & Hk2).
  destruct (run_calls ws1 l) as [ws2 rs], (spec_calls a1 l) as [a2 rs']. simpl in *.
  rewrite app_assoc. split_and!; [done|congruence|congruence].
Qed.
End refinement.

(** ** Properties *)

(** [m] is what [Get] finds in [s] under the keys that start with [p]. *)
Definition snapshot {S} `{Store S} (s : S) (p : string) (m : gmap string Entry) : Prop :=
  ∀ k, m !! k = if HasPrefix k p
                then match store_Get s k with Ok e => Some e | _ => None end
                else None.

Lemma snapshot_under {S} `{StoreLaws S} (s : S) (a : kv) (p : string) (m : gmap string Entry) :
  store_rep s a → snapshot s p m ↔ m = under p (kv_map a).
Proof.
  intros Hs.
  assert (∀ k, under p (kv_map a) !! k
    = if HasPrefix k p then match store_Get s k with Ok e => Some e | _ => None end else None)
    as Hu.
  { intros k. rewrite (law_Get s a k Hs). unfold under. rewrite map_lookup_filter.
    destruct (kv_map a !! k); simpl; [|by case_match].
    by destruct (HasPrefix k p) eqn:Hp. }
  split.
  - intros Hm. apply map_eq. intros k. by rewrite Hm, Hu.
  - intros -> k. apply Hu.
Qed.

Lemma window_recent (h1 h2 : list Event) (cap : nat) (r : N) :
  Forall (λ e, (ev_rev e ≤ r)%N) h1 → length h2 ≤ cap →
  Forall (λ e, (ev_rev e ≤ r)%N) (evicted cap (h1 ++ h2)).
Proof.
  intros Hall Hlen. unfold evicted. rewrite length_app, take_app_le by lia.
  by apply Forall_take.
Qed.

(** A reader at the revision of the last of the events [h1] is given the matching
    ones of the events [h2] after them, while the cache holds these. *)
Lemma getEvents_recent (wc : WatchCache) (h1 h2 : list Event) (r : N) (p : string) :
  wc_rep wc (h1 ++ h2) → Forall (λ e, (ev_rev e ≤ r)%N) h1 →
  (Z.of_nat (length h2) ≤ wc_capacity wc)%Z →
  getEventsLocked wc r p = Ok (filter (ev_match r p) h2).
Proof.
  intros Hrep Hb Hlen. rewrite (getEventsLocked_spec _ _ Hrep).
  rewrite filter_window_complete by (apply window_recent; [done|lia]).
  rewrite filter_app, (filter_none _ h1); [done|].
  rewrite Forall_forall in Hb. intros e He [Hlt _]. specialize (Hb e He). simpl in Hb. lia.
Qed.

Section properties.
Context {S : Type} `{StoreLaws S}.

(** C2: A consumer that took a snapshot of the keys under a prefix, then asks the
    watch cache for the events after the snapshot's revision and replays them,
    holds the current entries under the prefix, as long as no more than the
    cache's capacity of mutations came in between. *)
Theorem watch_reconstructs (s : S) (a : kv) (ws : WatchableStore S) (l1 l2 : list call)
    (p : string) (m : gmap string Entry) :
  store_rep s a → NewWatchableStore s = Ok ws →
  let a1 := (spec_calls a l1).1 in
  let ws1 := (run_calls ws l1).1 in
  let ws2 := (run_calls ws1 l2).1 in
  admissible_calls watch_limit a l1 → admissible_calls watch_limit a1 l2 →
  Forall call_valid l2 → (Z.of_nat (length (calls_events a1 l2)) ≤ defaultWatchCacheSize)%Z →
  snapshot ws1 p m →
  ∃ evs, getEventsLocked (ws_wc ws2) (store_Rev ws1) p = Ok evs ∧
         snapshot ws2 p (replay m evs).
Proof.
  intros Hs Hnew a1 ws1 ws2 Hadm1 Hadm2 Hvalid Hlen Hm.
  destruct (NewWatchableStore_rep s a Hs) as (ws0 & Hn & Hrep0 & _ & _ & Hcap).
  rewrite Hnew in Hn. injection Hn as <-.
  destruct (run_calls_ws l1 ws a [] Hrep0 Hadm1) as (Hrep1 & _ & Hk1).
  destruct (run_calls_ws l2 ws1 a1 _ Hrep1 Hadm2) as (Hrep2 & _ & Hk2).
  assert (store_rep ws1 a1) as Hs1 by (eexists; exact Hrep1).
  assert (store_rep ws2 (spec_calls a1 l2).1) as Hs2 by (eexists; exact Hrep2).
  exists (filter (ev_match (kv_rev a1) p) (calls_events a1 l2)).
  fold ws1 in Hk1, Hk2. fold ws2 in Hrep2, Hk2. fold a1 in Hrep1. rewrite Hk1 in Hk2.
  rewrite (law_Rev ws1 a1 Hs1). split.
  - apply (getEvents_recent _ ([] ++ calls_events a l1)%list); [apply (ws_cache _ _ _ Hrep2)| |].
    + apply (ws_bound _ _ _ Hrep1).
    + by rewrite Hk2, Hcap.
  - rewrite (snapshot_under ws1 a1 p m Hs1) in Hm. subst m.
    rewrite (snapshot_under ws2 _ p _ Hs2). apply replay_calls; [|done|done].
    by apply (law_ok ws1 a1).
Qed.

(** The newest event is found by a reader at the previous revision. *)
Lemma last_event (ws : WatchableStore S) (a : kv) (h : list Event) (e : Event) (r : N) :
  ws_rep ws a (h ++ [e]) → Forall (λ x, (ev_rev x ≤ r)%N) h → (r < ev_rev e)%N →
  getEventsLocked (ws_wc ws) r "" = Ok [e].
Proof.
  intros Hrep Hb Hr. rewrite (getEvents_recent _ h [e]); [|apply Hrep|done|].
  - rewrite filter_event. apply N.ltb_lt in Hr. by rewrite Hr.
  - pose proof (rep_capacity _ _ (ws_cache _ _ _ Hrep)). simpl. lia.
Qed.

(** [Put] either writes the next revision and appends one event, with the new
    entry and the one [Get] found before, or returns an error and leaves the
    store's contents, its revision and the cache alone. *)
Theorem watchable_put_branches (ws ws' : WatchableStore S) (a : kv) (h : list Event)
    (k : string) (v : go_bytes) (r : option PutResult) (err : res unit) :
  ws_rep ws a h → (kv_rev a < watch_limit)%N → WatchableStore_Put ws k v = (ws', r, err) →
  match err with
  | Ok _ => ∃ e prev, r = Some (mkPutResult (Some e) prev) ∧
      Key e = k ∧ Value e = v ∧ Revision e = store_Rev ws' ∧
      store_Rev ws' = (store_Rev ws + 1)%N ∧
      prev = match store_Get ws k with Ok p => Some p | _ => None end ∧
      getEventsLocked (ws_wc ws') (store_Rev ws) "" = Ok [mkEvent EventPut (Some e) prev]
  | Err _ => r = None ∧ ws_wc ws' = ws_wc ws ∧ store_Rev ws' = store_Rev ws ∧
      ∀ k', store_Get ws' k' = store_Get ws k'
  | Panic => False
  end.
Proof.
  intros Hrep Hlim Hput. assert (store_rep ws a) as Hs by (by exists h).
  destruct (decide (key_ok k ∧ fits (kv_next a k v))) as [[Hk Hf]|Hbad].
  - destruct (ws_Put_spec ws a h k v Hrep) as (ws1 & Hp & Hrep' & _); [by split_and!|].
    rewrite Hput in Hp. injection Hp as <- -> ->.
    assert (store_rep ws' (kv_put a k v)) as Hs' by (eexists; exact Hrep').
    rewrite (law_Rev ws a Hs), (law_Rev ws' _ Hs'), (law_Get ws a k Hs).
    exists (kv_next a k v), (kv_map a !! k). rewrite kv_next_Key, kv_next_Revision.
    rewrite kv_next_Value.
    split_and!; try done; [by destruct (kv_map a !! k)|].
    eapply last_event; [exact Hrep'|apply (ws_bound _ _ _ Hrep)|].
    unfold ev_rev. cbn [ev_Entry]. rewrite kv_next_Revision. lia.
  - destruct (ws_Put_refused ws a h k v Hrep Hlim Hbad) as (ws1 & e & Hp & Hrep' & Hwc).
    rewrite Hput in Hp. injection Hp as <- -> ->.
    assert (store_rep ws' a) as Hs' by (eexists; exact Hrep').
    split_and!; [done|done|by rewrite (law_Rev ws a Hs), (law_Rev ws' a Hs')|].
    intros k'. by rewrite (law_Get ws a k' Hs), (law_Get ws' a k' Hs').
Qed.

(** [Delete] of a key that is present removes it alone, at the next revision,
    and appends one event with the entry [Get] found at that revision; of a key
    that is missing it returns [ErrKeyNotFound] and changes nothing. *)
Theorem watchable_delete_branches (ws ws' : WatchableStore S) (a : kv) (h : list Event)
    (k : string) (r : res Entry) :
  ws_rep ws a h → (kv_rev a < watch_limit)%N → WatchableStore_Delete ws k = (ws', r) →
  (∀ k', store_Get ws' k' = if decide (k' = k) then Err ErrKeyNotFound else store_Get ws k') ∧
  match store_Get ws k with
  | Ok p => ∃ e, r = Ok e ∧
      e = mkEntry (Key p) (Value p) (store_Rev ws') (CreateRevision p) (ModRevision p) (Version p) ∧
      store_Rev ws' = (store_Rev ws + 1)%N ∧
      getEventsLocked (ws_wc ws') (store_Rev ws) "" = Ok [mkEvent EventDelete (Some e) None]
  | _ => r = Err ErrKeyNotFound ∧ ws_wc ws' = ws_wc ws ∧ store_Rev ws' = store_Rev ws
  end.
Proof.
  intros Hrep Hlim Hdel. assert (store_rep ws a) as Hs by (by exists h).
  destruct (ws_Delete_spec ws a h k Hrep Hlim) as (ws1 & Hd & Hrep' & _).
  rewrite Hdel in Hd. injection Hd as <- ->.
  assert (store_rep ws' (kv_delete a k)) as Hs' by (eexists; exact Hrep'). split.
  - intros k'. rewrite (law_Get ws a k' Hs), (law_Get ws' _ k' Hs'). unfold kv_delete.
    destruct (kv_map a !! k) as [e|] eqn:He; simpl; case_decide as Heq; try done; subst.
    + by rewrite lookup_delete_eq.
    + by rewrite lookup_delete_ne.
    + by rewrite He.
  - rewrite (law_Get ws a k Hs), (law_Rev ws' _ Hs'), (law_Rev ws a Hs).
    unfold kv_delete in *. simpl in Hrep'. destruct (kv_map a !! k) as [e|] eqn:He.
    + exists (kv_deleted a e). split_and!; try done.
      eapply last_event; [exact Hrep'|apply (ws_bound _ _ _ Hrep)|].
      unfold ev_rev. simpl. lia.
    + split_and!; [done| |done]. unfold WatchableStore_Delete in Hdel.
      destruct (law_Delete_missing _ _ k (ws_store _ _ _ Hrep)) as (s' & Hsd & _);
        [unfold watch_limit in Hlim; lia|done|].
      rewrite Hsd in Hdel. by injection Hdel as <-.
Qed.
End properties.

(** ** Concrete runs *)

Lemma demo_store_rep : store_rep demo_store kv_empty.
Proof. split; [apply demo_refines|reflexivity]. Qed.

Definition demo_ws : WatchableStore (BoltStore MemDb.t) :=
  match NewWatchableStore demo_store with
  | Ok ws => ws
  | _ => mkWatchableStore demo_store (mkWatchCache [] 0 0 true)
  end.

Lemma demo_ws_new : NewWatchableStore demo_store = Ok demo_ws.
Proof. vm_compute. reflexivity. Qed.

Lemma demo_ws_rep : ws_rep demo_ws kv_empty [].
Proof.
  destruct (NewWatchableStore_rep demo_store kv_empty demo_store_rep) as (ws & Hn & Hrep & _).
  rewrite demo_ws_new in Hn. by injection Hn as ->.
Qed.

Definition demo_before : list call :=
  [CPut "app/a" (Some "1"); CPut "app/b" (Some "2"); CPut "other" (Some "x")].
Definition demo_after : list call :=
  [CPut "app/a" (Some "3"); CDelete "app/b"; CPut "other" (Some "y"); CPut "app/c" None].

Lemma demo_before_admissible : admissible_calls (watch_limit (S:=BoltStore MemDb.t)) kv_empty demo_before.
Proof. repeat (split; [solve_can_put|]). done. Qed.

Lemma demo_after_admissible :
  admissible_calls (watch_limit (S:=BoltStore MemDb.t)) (spec_calls kv_empty demo_before).1 demo_after.
Proof. repeat (split; [first [solve_can_put|vm_compute; reflexivity]|]). done. Qed.

Lemma watch_reconstructs_witness :
  let ws1 := (run_calls demo_ws demo_before).1 in
  let ws2 := (run_calls ws1 demo_after).1 in
  ∃ m evs, getEventsLocked (ws_wc ws2) (store_Rev ws1) "app/" = Ok evs ∧
           snapshot ws2 "app/" (replay m evs).
Proof.
  intros ws1 ws2.
  assert (snapshot ws1 "app/" (under "app/" (kv_map (spec_calls kv_empty demo_before).1))) as Hm.
  { apply (snapshot_under _ (spec_calls kv_empty demo_before).1); [|reflexivity].
    eexists. apply (run_calls_ws demo_before demo_ws kv_empty []);
      [apply demo_ws_rep|apply demo_before_admissible]. }
  destruct (watch_reconstructs demo_store kv_empty demo_ws demo_before demo_after "app/" _
    demo_store_rep demo_ws_new demo_before_admissible demo_after_admissible
    ltac:(repeat constructor) ltac:(vm_compute; discriminate) Hm) as (evs & Hg & Hs).
  exists (under "app/" (kv_map (spec_calls kv_empty demo_before).1)), evs.
  split; [exact Hg|exact Hs].
Defined.

(** A store with a watch cache of one event. *)
Definition demo_small : WatchableStore (BoltStore MemDb.t) :=
  mkWatchableStore demo_store (mkWatchCache [zero_event] 1 0 false).

Lemma demo_small_rep : ws_rep demo_small kv_empty [].
Proof.
  destruct (NewWatchCache_rep 1) as (wc & Hn & Hrep & _); [by vm_compute|].
  injection Hn as <-. split; [apply demo_store_rep|done|done|constructor|constructor].
Qed.

Lemma watchable_put_branches_witness :
  ∃ e prev, WatchableStore_Put demo_small "k" (Some "v")
    = ((WatchableStore_Put demo_small "k" (Some "v")).1.1, Some (mkPutResult (Some e) prev), Ok tt).
Proof.
  destruct (watchable_put_branches demo_small (WatchableStore_Put demo_small "k" (Some "v")).1.1
    kv_empty [] "k" (Some "v") (Some (put_result kv_empty "k" (Some "v"))) (Ok tt)
    demo_small_rep ltac:(vm_compute; reflexivity) ltac:(vm_compute; reflexivity))
    as (e & prev & Hr & _).
  exists e, prev. rewrite <- Hr. vm_compute. reflexivity.
Defined.

Lemma watchable_delete_branches_witness :
  store_Get (WatchableStore_Delete demo_small "k").1 "k" = Err ErrKeyNotFound.
Proof.
  rewrite (proj1 (watchable_delete_branches demo_small (WatchableStore_Delete demo_small "k").1
    kv_empty [] "k" (Err ErrKeyNotFound)
    demo_small_rep ltac:(vm_compute; reflexivity) ltac:(vm_compute; reflexivity)) "k").
  reflexivity.
Defined.
