(* ===== verification/Fsm.v ===== *)
(** [src/raft/node.go], the replicated state machine: [Op], [OpResult], [FSM]
    with [Apply], [Snapshot] and [Restore], and the snapshot's [Persist].
    hashicorp/raft calls these methods one at a time, in log order. *)

From S2P Require Import Prelude GoStrings GoEncoding GoJson JsonFields Entry BoltDB Kv StoreSpec.
From S2P Require Import BoltStore WatchCache Watchable.

Local Open Scope string_scope.
Local Open Scope nat_scope.

(** [type Op struct] *)
Record Op := mkOp {
  op_Type : string;
  op_Key : string;
  op_Value : go_bytes;
}.

Definition zero_op : Op := mkOp "" "" None.

(** The member [value] is left out when it is empty. *)
Definition op_json (op : Op) : json :=
  JObj ([("type", JStr (op_Type op)); ("key", JStr (op_Key op))]
        ++ (if String.eqb (bytes_to_string (op_Value op)) "" then []
            else [("value", json_bytes (op_Value op))]))%list.

Definition set_op_field (k : string) (v : json) (op : Op) : option Op :=
  let '(mkOp ty ky va) := op in
  if name_is "type" k then (λ x, mkOp x ky va) <$> dec_string v ty
  else if name_is "key" k then (λ x, mkOp ty x va) <$> dec_string v ky
  else if name_is "value" k then (λ x, mkOp ty ky x) <$> dec_bytes v
  else Some op.

Definition op_Marshal (op : Op) : res string := json_Marshal (op_json op).

Definition op_Unmarshal (data : string) : res Op :=
  match json_parse data with
  | None => Err (EMsg "json: syntax error")
  | Some j => res_of_option "json: cannot unmarshal" (decode_struct set_op_field j zero_op)
  end.

(** [type OpResult struct] *)
Record OpResult := mkOpResult {
  or_Entry : option Entry;
  or_PrevEntry : option Entry;
  or_Err : option error;
}.

Definition op_error (e : error) : OpResult := mkOpResult None None (Some e).

(** [type FSM struct], with the process's gauge [metrics.StoreRevision] as the
    revision it was last set to. *)
Record FSM (S : Type) := mkFSM {
  fsm_store : WatchableStore S;
  StoreRevision : N;
}.
Arguments mkFSM {S} _ _.
Arguments fsm_store {S} _.
Arguments StoreRevision {S} _.

(** [type snapshotData struct] and [type fsmSnapshot struct] *)
Record snapshotData := mkSnapshotData {
  snap_Entries : list (option Entry);
  snap_Rev : N;
}.

Record fsmSnapshot := mkFsmSnapshot {
  fs_entries : list Entry;
  fs_rev : N;
}.

(** What [Persist] does with its sink. *)
Class SnapshotSink (K : Type) := {
  sink_Write : K → string → K * res unit;
  sink_Close : K → K * res unit;
  sink_Cancel : K → K;
}.

(** A [nil] slice, which [List] returns when it finds nothing, is [null]. *)
Definition entries_json (entries : list Entry) : json :=
  match entries with [] => JNull | _ => JArr (map entry_json entries) end.

Definition snapshot_json (entries : list Entry) (rev : N) : json :=
  JObj [("entries", entries_json entries); ("rev", json_uint rev)].

Definition set_snapshot_field (k : string) (v : json) (s : snapshotData) : option snapshotData :=
  if name_is "entries" k then
    (λ x, mkSnapshotData x (snap_Rev s))
      <$> decode_slice (λ j, decode_ptr set_entry_field zero_entry j None) v
  else if name_is "rev" k then (λ x, mkSnapshotData (snap_Entries s) x) <$> dec_uint64 v (snap_Rev s)
  else Some s.

Definition snapshot_Decode (stream : string) : res snapshotData :=
  match json_decode_first stream with
  | None => Err (EMsg "json: syntax error")
  | Some j =>
      res_of_option "json: cannot unmarshal"
        (decode_struct set_snapshot_field j (mkSnapshotData [] 0))
  end.

Definition fsmSnapshot_Persist {K} `{SnapshotSink K} (s : fsmSnapshot) (sink : K) : K * res unit :=
  match json_Marshal (snapshot_json (fs_entries s) (fs_rev s)) with
  | Err e => (sink_Cancel sink, Err e)
  | Panic => (sink, Panic)
  | Ok data =>
      match sink_Write sink data with
      | (sink', Err e) => (sink_Cancel sink', Err e)
      | (sink', Panic) => (sink', Panic)
      | (sink', Ok _) => sink_Close sink'
      end
  end.

Definition fsmSnapshot_Release (s : fsmSnapshot) : unit := tt.

Section operations.
Context {S : Type} `{!Store S}.

Definition FSM_Apply (f : FSM S) (data : string) : FSM S * res OpResult :=
  match op_Unmarshal data with
  | Panic => (f, Panic)
  | Err e => (f, Ok (op_error (EWrap "unmarshal op" e)))
  | Ok op =>
      if String.eqb (op_Type op) "put" then
        match store_Put (fsm_store f) (op_Key op) (op_Value op) with
        | (st, _, Err e) => (mkFSM st (StoreRevision f), Ok (op_error (EWrap "store put" e)))
        | (st, _, Panic) => (mkFSM st (StoreRevision f), Panic)
        | (st, result, Ok _) =>
            match result ≫= pr_Entry, result with
            | Some e, Some r =>
                (mkFSM st (Revision e), Ok (mkOpResult (pr_Entry r) (pr_PrevEntry r) None))
            | _, _ => (mkFSM st (StoreRevision f), Panic)
            end
        end
      else if String.eqb (op_Type op) "delete" then
        match store_Delete (fsm_store f) (op_Key op) with
        | (st, Err e) => (mkFSM st (StoreRevision f), Ok (op_error e))
        | (st, Panic) => (mkFSM st (StoreRevision f), Panic)
        | (st, Ok deleted) => (mkFSM st (store_Rev st), Ok (mkOpResult (Some deleted) None None))
        end
      else (f, Ok (op_error (EMsg ("unknown op type: " +:+ Quote (op_Type op)))))
  end.

Definition FSM_Snapshot (f : FSM S) : res fsmSnapshot :=
  let '(entries, err) := store_List (fsm_store f) "" in
  match err with
  | Ok _ => Ok (mkFsmSnapshot entries (store_Rev (fsm_store f)))
  | Err e => Err e
  | Panic => Panic
  end.

(** The loop of [Restore], which puts into the [BoltStore] inside. *)
Fixpoint restore_loop (bs : S) (entries : list (option Entry)) : S * res unit :=
  match entries with
  | [] => (bs, Ok tt)
  | p :: entries' =>
      match p with
      | None => (bs, Panic)
      | Some e =>
          match store_Put bs (Key e) (Value e) with
          | (bs', _, Err err) => (bs', Err (EWrap ("restore key " +:+ Key e) err))
          | (bs', _, Panic) => (bs', Panic)
          | (bs', _, Ok _) => restore_loop bs' entries'
          end
      end
  end.

Definition FSM_Restore (f : FSM S) (rc : string) : FSM S * res unit :=
  match wrap_err "decode snapshot" (snapshot_Decode rc) with
  | Err e => (f, Err e)
  | Panic => (f, Panic)
  | Ok snap =>
      let '(bs, err) := restore_loop (ws_BoltStore (fsm_store f)) (snap_Entries snap) in
      let ws := mkWatchableStore bs (ws_wc (fsm_store f)) in
      match err with
      | Ok _ => (mkFSM ws (store_Rev ws), Ok tt)
      | _ => (mkFSM ws (StoreRevision f), err)
      end
  end.

(** The log entries raft applies, in order. *)
Fixpoint FSM_run (f : FSM S) (log : list string) : FSM S * list (res OpResult) :=
  match log with
  | [] => (f, [])
  | data :: log' =>
      let '(f1, r) := FSM_Apply f data in
      let '(f2, rs) := FSM_run f1 log' in (f2, r :: rs)
  end.
End operations.

(** ** Operations as JSON *)

(** An operation as it comes out of the log: valid UTF-8, an empty value [nil]. *)
Definition logged (op : Op) : Op :=
  mkOp (ToValidUTF8 (op_Type op)) (ToValidUTF8 (op_Key op))
    (if String.eqb (bytes_to_string (op_Value op)) "" then None else op_Value op).

Lemma wf_op_json (op : Op) : wf_json (op_json op).
Proof.
  unfold op_json. constructor. apply Forall_app. split.
  - repeat constructor.
  - case_match; repeat constructor. apply wf_json_bytes.
Qed.

Lemma decode_op_json (op : Op) : decode_struct set_op_field (norm (op_json op)) zero_op = Some (logged op).
Proof.
  destruct op as [ty ky va]. unfold op_json, logged. simpl.
  destruct (String.eqb (bytes_to_string va) ""); [done|].
  simpl. change (ToValidUTF8 "value") with "value". simpl. by rewrite dec_json_bytes.
Qed.

Lemma op_roundtrip (op : Op) :
  ∃ data, op_Marshal op = Ok data ∧ op_Unmarshal data = Ok (logged op).
Proof.
  destruct (json_parse_Marshal _ (wf_op_json op)) as (data & Hm & Hp).
  exists data. split; [done|]. unfold op_Unmarshal. by rewrite Hp, decode_op_json.
Qed.

(** ** The state machine as a function of the log *)

(** What one log entry does to the abstract state, and the result it gives. *)
Definition spec_apply (a : kv) (data : string) : kv * OpResult :=
  match op_Unmarshal data with
  | Ok op =>
      if String.eqb (op_Type op) "put" then
        (kv_put a (op_Key op) (op_Value op),
         mkOpResult (Some (kv_next a (op_Key op) (op_Value op))) (kv_map a !! op_Key op) None)
      else if String.eqb (op_Type op) "delete" then
        match kv_map a !! op_Key op with
        | Some e => (kv_delete a (op_Key op), mkOpResult (Some (kv_deleted a e)) None None)
        | None => (a, op_error ErrKeyNotFound)
        end
      else (a, op_error (EMsg ("unknown op type: " +:+ Quote (op_Type op))))
  | Err e => (a, op_error (EWrap "unmarshal op" e))
  | Panic => (a, op_error (EMsg ""))
  end.

Fixpoint spec_run (a : kv) (log : list string) : kv * list OpResult :=
  match log with
  | [] => (a, [])
  | data :: log' =>
      let '(a1, r) := spec_apply a data in
      let '(a2, rs) := spec_run a1 log' in (a2, r :: rs)
  end.

(** A log entry within the limits of the database and of the counters. *)
Definition log_admissible (lim : N) (a : kv) (data : string) : Prop :=
  match op_Unmarshal data with
  | Ok op =>
      if String.eqb (op_Type op) "put" then can_put lim a (op_Key op) (op_Value op)
      else if String.eqb (op_Type op) "delete" then (kv_rev a < lim)%N
      else True
  | _ => True
  end.

Fixpoint logs_admissible (lim : N) (a : kv) (log : list string) : Prop :=
  match log with
  | [] => True
  | data :: log' => log_admissible lim a data ∧ logs_admissible lim (spec_apply a data).1 log'
  end.

Lemma op_Unmarshal_total (data : string) : op_Unmarshal data ≠ Panic.
Proof. unfold op_Unmarshal. destruct (json_parse data) as [j|]; [|done]. by destruct (decode_struct _ _ _). Qed.

(** An empty value is logged as [nil]. *)
Definition logged_value (v : go_bytes) : go_bytes :=
  if String.eqb (bytes_to_string v) "" then None else v.

Lemma spec_apply_typed_put (op : Op) (data : string) :
  op_Marshal op = Ok data → ToValidUTF8 (op_Type op) = "put" →
  let k := ToValidUTF8 (op_Key op) in let v := logged_value (op_Value op) in
  ∀ a, spec_apply a data = (kv_put a k v, mkOpResult (Some (kv_next a k v)) (kv_map a !! k) None).
Proof.
  intros Hm Hp k v a. destruct (op_roundtrip op) as (data' & Hm' & Hu).
  assert (data' = data) as -> by congruence. unfold spec_apply. rewrite Hu.
  unfold logged. cbn [op_Type op_Key op_Value]. by rewrite Hp.
Qed.

Lemma spec_apply_typed_delete (op : Op) (data : string) :
  op_Marshal op = Ok data → ToValidUTF8 (op_Type op) = "delete" →
  let k := ToValidUTF8 (op_Key op) in
  ∀ a, spec_apply a data = match kv_map a !! k with
                           | Some e => (kv_delete a k, mkOpResult (Some (kv_deleted a e)) None None)
                           | None => (a, op_error ErrKeyNotFound)
                           end.
Proof.
  intros Hm Hp k a. destruct (op_roundtrip op) as (data' & Hm' & Hu).
  assert (data' = data) as -> by congruence. unfold spec_apply. rewrite Hu.
  unfold logged. cbn [op_Type op_Key op_Value]. by rewrite Hp.
Qed.

Lemma spec_apply_put (a : kv) (key : string) (v : go_bytes) (data : string) :
  op_Marshal (mkOp "put" key v) = Ok data →
  let k := ToValidUTF8 key in
  spec_apply a data = (kv_put a k (logged_value v),
    mkOpResult (Some (kv_next a k (logged_value v))) (kv_map a !! k) None).
Proof. intros Hm. by apply (spec_apply_typed_put (mkOp "put" key v)). Qed.

Lemma spec_apply_delete (a : kv) (key : string) (v : go_bytes) (data : string) :
  op_Marshal (mkOp "delete" key v) = Ok data →
  let k := ToValidUTF8 key in
  spec_apply a data = match kv_map a !! k with
                      | Some e => (kv_delete a k, mkOpResult (Some (kv_deleted a e)) None None)
                      | None => (a, op_error ErrKeyNotFound)
                      end.
Proof. intros Hm. by apply (spec_apply_typed_delete (mkOp "delete" key v)). Qed.

Lemma spec_apply_other (a : kv) (op : Op) (data : string) :
  op_Marshal op = Ok data → ToValidUTF8 (op_Type op) ≠ "put" → ToValidUTF8 (op_Type op) ≠ "delete" →
  spec_apply a data
  = (a, op_error (EMsg ("unknown op type: " +:+ Quote (ToValidUTF8 (op_Type op))))).
Proof.
  intros Hm Hp%String.eqb_neq Hd%String.eqb_neq. destruct (op_roundtrip op) as (data' & Hm' & Hu).
  assert (data' = data) as -> by congruence. unfold spec_apply. rewrite Hu.
  cbn [logged op_Type]. by rewrite Hp, Hd.
Qed.

Lemma spec_apply_error (a : kv) (e : error) (data : string) :
  op_Unmarshal data = Err e → spec_apply a data = (a, op_error (EWrap "unmarshal op" e)).
Proof. intros Hu. unfold spec_apply. by rewrite Hu. Qed.

(** ** The log as its writers meant it *)

(** An entry of the log: a put or a delete, an operation of another type, or
    bytes that do not decode as an [Op]. *)
Inductive command : Type :=
  | CmdPut (key : string) (value : go_bytes)
  | CmdDelete (key : string)
  | CmdOther (op : Op)
  | CmdBytes (e : error).

(** [written c data]: the entry [c] stands in the log as the bytes [data]. *)
Definition written (c : command) (data : string) : Prop :=
  match c with
  | CmdPut key value => op_Marshal (mkOp "put" key value) = Ok data
  | CmdDelete key => op_Marshal (mkOp "delete" key None) = Ok data
  | CmdOther op =>
      op_Marshal op = Ok data ∧ ToValidUTF8 (op_Type op) ≠ "put" ∧ ToValidUTF8 (op_Type op) ≠ "delete"
  | CmdBytes e => op_Unmarshal data = Err e
  end.

(** The mutations of the versioned store it stands for: none but for puts and
    deletes.  The JSON form of an [Op] keeps keys as valid UTF-8. *)
Definition command_ops (c : command) : list kv_op :=
  match c with
  | CmdPut key value => [OpPut (ToValidUTF8 key) (logged_value value)]
  | CmdDelete key => [OpDelete (ToValidUTF8 key)]
  | CmdOther _ | CmdBytes _ => []
  end.

(** What its submitter is told: the new entry and the one before, the deleted
    entry at the new revision, or why nothing was done. *)
Definition command_result (a : kv) (c : command) : OpResult :=
  match c with
  | CmdPut key value =>
      mkOpResult (Some (kv_next a (ToValidUTF8 key) (logged_value value)))
        (kv_map a !! ToValidUTF8 key) None
  | CmdDelete key =>
      match kv_map a !! ToValidUTF8 key with
      | Some e => mkOpResult (Some (kv_deleted a e)) None None
      | None => mkOpResult None None (Some ErrKeyNotFound)
      end
  | CmdOther op =>
      mkOpResult None None
        (Some (EMsg ("unknown op type: " +:+ Quote (ToValidUTF8 (op_Type op)))))
  | CmdBytes e => mkOpResult None None (Some (EWrap "unmarshal op" e))
  end.

Fixpoint command_results (a : kv) (cs : list command) : list OpResult :=
  match cs with
  | [] => []
  | c :: cs' => command_result a c :: command_results (kv_run a (command_ops c)) cs'
  end.

Lemma spec_apply_command (a : kv) (c : command) (data : string) :
  written c data → spec_apply a data = (kv_run a (command_ops c), command_result a c).
Proof.
  destruct c as [key v|key|op|e]; cbn [written command_ops command_result].
  - apply spec_apply_put.
  - intros Hw. rewrite (spec_apply_delete _ _ _ _ Hw). cbn. unfold kv_delete.
    by destruct (kv_map a !! ToValidUTF8 key).
  - intros (Hm & Hp & Hd). by apply spec_apply_other.
  - apply spec_apply_error.
Qed.

Lemma spec_run_commands (cs : list command) (log : list string) (a : kv) :
  Forall2 written cs log →
  spec_run a log = (kv_run a (cs ≫= command_ops), command_results a cs).
Proof.
  intros Hw. revert a. induction Hw as [|c data cs log Hc _ IH]; intros a; [done|].
  simpl. rewrite (spec_apply_command a c data Hc), IH. unfold kv_run. by rewrite foldl_app.
Qed.

Lemma spec_run_length (log : list string) (a : kv) : length (spec_run a log).2 = length log.
Proof.
  revert a. induction log as [|d log IH]; intros a; [done|]. simpl.
  destruct (spec_apply a d) as [a1 r]. specialize (IH a1). destruct (spec_run a1 log). simpl in *. by f_equal.
Qed.

Lemma spec_run_app (l1 l2 : list string) (a : kv) :
  spec_run a (l1 ++ l2)
  = ((spec_run (spec_run a l1).1 l2).1, ((spec_run a l1).2 ++ (spec_run (spec_run a l1).1 l2).2)%list).
Proof.
  revert a. induction l1 as [|d l1 IH]; intros a; simpl; [by destruct (spec_run a l2)|].
  destruct (spec_apply a d) as [a1 r]. rewrite IH. by destruct (spec_run a1 l1).
Qed.

Lemma logs_admissible_app (lim : N) (l1 l2 : list string) (a : kv) :
  logs_admissible lim a (l1 ++ l2) ↔
  logs_admissible lim a l1 ∧ logs_admissible lim (spec_run a l1).1 l2.
Proof.
  revert a. induction l1 as [|d l1 IH]; intros a; simpl; [tauto|].
  destruct (spec_apply a d) as [a1 r]. simpl. rewrite IH. destruct (spec_run a1 l1). simpl. tauto.
Qed.

Section simulation.
Context {S : Type} `{StoreLaws S}.

Abbreviation limit := (store_limit (S:=WatchableStore S)).

Lemma FSM_Apply_spec (f : FSM S) (a : kv) (data : string) :
  store_rep (fsm_store f) a → log_admissible limit a data →
  ∃ f', FSM_Apply f data = (f', Ok (spec_apply a data).2) ∧
    store_rep (fsm_store f') (spec_apply a data).1 ∧
    StoreRevision f' = match or_Err (spec_apply a data).2 with
                       | None => kv_rev (spec_apply a data).1
                       | Some _ => StoreRevision f
                       end.
Proof.
  intros Hs. unfold log_admissible, FSM_Apply, spec_apply.
  destruct (op_Unmarshal data) as [op|e|] eqn:Hop; [|by exists f|by apply op_Unmarshal_total in Hop].
  destruct (String.eqb (op_Type op) "put").
  { intros Hcan. destruct (law_Put _ a _ _ Hs Hcan) as (st & -> & Hst). simpl.
    eexists. split; [reflexivity|]. split; [done|]. simpl. apply kv_next_Revision. }
  destruct (String.eqb (op_Type op) "delete"); [|by exists f].
  intros Hlim. destruct (kv_map a !! op_Key op) as [e|] eqn:He.
  - destruct (law_Delete _ a _ e Hs Hlim He) as (st & -> & Hst).
    eexists. split; [reflexivity|]. split; [done|]. by apply (law_Rev st).
  - destruct (law_Delete_missing _ a _ Hs Hlim He) as (st & -> & Hst).
    eexists. split; [reflexivity|]. by split.
Qed.

(** What is no put and no delete leaves the state machine as it was. *)
Lemma FSM_Apply_other (f : FSM S) (op : Op) (data : string) :
  op_Marshal op = Ok data → ToValidUTF8 (op_Type op) ≠ "put" → ToValidUTF8 (op_Type op) ≠ "delete" →
  (FSM_Apply f data).1 = f.
Proof.
  intros Hm Hp%String.eqb_neq Hd%String.eqb_neq. destruct (op_roundtrip op) as (data' & Hm' & Hu).
  assert (data' = data) as -> by congruence. unfold FSM_Apply. rewrite Hu.
  cbn [logged op_Type]. by rewrite Hp, Hd.
Qed.

Lemma FSM_Apply_error (f : FSM S) (e : error) (data : string) :
  op_Unmarshal data = Err e → (FSM_Apply f data).1 = f.
Proof. intros Hu. unfold FSM_Apply. by rewrite Hu. Qed.

Lemma FSM_run_spec (log : list string) (f : FSM S) (a : kv) :
  store_rep (fsm_store f) a → logs_admissible limit a log →
  (FSM_run f log).2 = Ok <$> (spec_run a log).2 ∧
  store_rep (fsm_store (FSM_run f log).1) (spec_run a log).1.
Proof.
  revert f a. induction log as [|d log IH]; intros f a Hs Hadm; [done|].
  destruct Hadm as [Hd Hl]. destruct (FSM_Apply_spec f a d Hs Hd) as (f1 & Hf & Hs1 & _).
  simpl. rewrite Hf. destruct (spec_apply a d) as [a1 r]. simpl in *.
  destruct (IH f1 a1 Hs1 Hl) as [Hrs Hs2].
  destruct (FSM_run f1 log), (spec_run a1 log). simpl in *. by rewrite Hrs.
Qed.

(** *** Snapshots *)

Definition restore_kv (a : kv) (es : list Entry) : kv :=
  foldl (λ a e, kv_put a (Key e) (Value e)) a es.

(** Every put of the restore is within the limits. *)
Fixpoint restorable (lim : N) (a : kv) (es : list Entry) : Prop :=
  match es with
  | [] => True
  | e :: es' => can_put lim a (Key e) (Value e) ∧ restorable lim (kv_put a (Key e) (Value e)) es'
  end.

Lemma restore_loop_spec (es : list Entry) (bs : S) (a : kv) :
  store_rep bs a → restorable store_limit a es →
  ∃ bs', restore_loop bs (Some <$> es) = (bs', Ok tt) ∧ store_rep bs' (restore_kv a es).
Proof.
  revert bs a. induction es as [|e es IH]; intros bs a Hs Hr; [by exists bs|].
  destruct Hr as [Hc Hr]. simpl. destruct (law_Put bs a _ _ Hs Hc) as (bs1 & -> & Hs1). by apply IH.
Qed.
End simulation.

Lemma restore_kv_rev (es : list Entry) (a : kv) :
  kv_rev (restore_kv a es) = (kv_rev a + N.of_nat (length es))%N.
Proof.
  revert a. induction es as [|e es IH]; intros a; simpl; [lia|].
  unfold restore_kv in IH. rewrite IH. simpl. lia.
Qed.

(** What [Restore] makes of the entry [e], the [i]-th of the snapshot, over the
    state [a]: its key and value, in a new revision, as one more version of the
    entry that [a] has under the key, or as the first. *)
Definition restored (a : kv) (i : nat) (e e' : Entry) : Prop :=
  let rev := (kv_rev a + N.of_nat i + 1)%N in
  Key e' = Key e ∧ Value e' = Value e ∧ Revision e' = rev ∧ ModRevision e' = rev ∧
  match kv_map a !! Key e with
  | Some old => CreateRevision e' = CreateRevision old ∧ Version e' = (Version old + 1)%N
  | None => CreateRevision e' = rev ∧ Version e' = 1%N
  end.

(** The keys of the snapshot get its values, the others stay. *)
Lemma restore_kv_other (es : list Entry) (a : kv) (k : string) :
  k ∉ (Key <$> es) → kv_map (restore_kv a es) !! k = kv_map a !! k.
Proof.
  revert a. induction es as [|e es IH]; intros a; [done|].
  intros [Hne Hk]%not_elem_of_cons.
  change (restore_kv a (e :: es)) with (restore_kv (kv_put a (Key e) (Value e)) es).
  rewrite (IH _ Hk). apply kv_put_get_other. congruence.
Qed.

Lemma restore_kv_lookup (es : list Entry) (a : kv) (i : nat) (e : Entry) :
  NoDup (Key <$> es) → es !! i = Some e → ValidString (Key e) = true →
  ∃ e', kv_map (restore_kv a es) !! Key e = Some e' ∧ restored a i e e'.
Proof.
  revert a i. induction es as [|e0 es IH]; intros a i Hnd Hi Hv; [done|].
  apply NoDup_cons in Hnd as [Hnin Hnd].
  change (restore_kv a (e0 :: es)) with (restore_kv (kv_put a (Key e0) (Value e0)) es).
  destruct i as [|i].
  - injection Hi as ->. rewrite (restore_kv_other _ _ _ Hnin), kv_put_get.
    rewrite stored_valid by (by rewrite kv_next_Key).
    eexists. split; [done|]. unfold restored, kv_next. rewrite N.add_0_r.
    destruct (kv_map a !! Key e); by split_and!.
  - destruct (IH (kv_put a (Key e0) (Value e0)) i Hnd Hi Hv) as (e' & He' & Hre).
    exists e'. split; [done|]. unfold restored in *. rewrite kv_put_get_other in Hre.
    + replace (kv_rev a + N.of_nat (S i) + 1)%N
        with (kv_rev (kv_put a (Key e0) (Value e0)) + N.of_nat i + 1)%N; [done|simpl; lia].
    + intros Heq. apply Hnin. rewrite Heq. apply list_elem_of_fmap. exists e.
      split; [done|]. by eapply list_elem_of_lookup_2.
Qed.

Lemma kv_list_lookup (a : kv) (k : string) (e : Entry) :
  kv_map a !! k = Some e → ∃ i, kv_list a "" !! i = Some e.
Proof.
  intros He. apply list_elem_of_lookup_1, kv_list_elem. exists k. by rewrite HasPrefix_nil.
Qed.

Lemma decode_entries (es : list Entry) :
  Forall entry_ok es →
  decode_slice (λ j, decode_ptr set_entry_field zero_entry j None) (norm (entries_json es))
  = Some (Some <$> (stored <$> es)).
Proof.
  intros Hes. destruct es as [|e es]; [done|]. unfold entries_json.
  change (norm (JArr ?l)) with (JArr (map norm l)). cbn [decode_slice].
  rewrite map_map, <- list_fmap_compose. apply (decode_list_map _ _ (Some ∘ stored)). intros e' He'.
  rewrite Forall_forall in Hes. unfold decode_ptr. cbn [default].
  rewrite (decode_entry_json e' zero_entry (Hes e' He')). done.
Qed.

Lemma decode_snapshot (es : list Entry) (rev : N) :
  Forall entry_ok es → (rev ≤ max_uint64)%N →
  decode_struct set_snapshot_field (norm (snapshot_json es rev)) (mkSnapshotData [] 0)
  = Some (mkSnapshotData (Some <$> (stored <$> es)) rev).
Proof.
  intros Hes Hrev.
  change (norm (snapshot_json es rev))
    with (JObj [("entries", norm (entries_json es)); ("rev", json_uint rev)]).
  cbn [decode_struct decode_fields]. unfold set_snapshot_field.
  change (name_is "entries" "entries") with true. cbv iota. rewrite decode_entries by done.
  change (name_is "entries" "rev") with false. change (name_is "rev" "rev") with true.
  cbn -[dec_uint64 json_uint]. unfold json_uint. by rewrite dec_uint64_format.
Qed.

Lemma wf_snapshot_json (es : list Entry) (rev : N) : wf_json (snapshot_json es rev).
Proof.
  constructor. repeat constructor. simpl. destruct es; constructor.
  apply Forall_map, Forall_forall. intros x _. apply wf_entry_json.
Qed.

(** Decoding the text [Persist] writes gives the entries back. *)
Lemma snapshot_roundtrip (es : list Entry) (rev : N) :
  Forall entry_ok es → (rev ≤ max_uint64)%N →
  ∃ data, json_Marshal (snapshot_json es rev) = Ok data ∧
    snapshot_Decode data = Ok (mkSnapshotData (Some <$> (stored <$> es)) rev).
Proof.
  intros Hes Hrev. pose proof (wf_snapshot_json es rev) as Hwf.
  destruct (json_parse_Marshal _ Hwf) as (data & Hm & _). exists data. split; [done|].
  unfold snapshot_Decode. rewrite (json_decode_first_Marshal _ _ Hwf Hm).
  by rewrite decode_snapshot.
Qed.

(** *** Logs of puts *)

Definition is_put (d : string) : Prop := ∃ op, op_Unmarshal d = Ok op ∧ op_Type op = "put".

Lemma spec_run_puts_rev (log : list string) (a : kv) :
  Forall is_put log → kv_rev (spec_run a log).1 = (kv_rev a + N.of_nat (length log))%N.
Proof.
  revert a. induction log as [|d log IH]; intros a Hall; simpl; [lia|].
  apply Forall_cons in Hall as [(op & Hop & Hty) Hall]. unfold spec_apply. rewrite Hop, Hty. simpl.
  specialize (IH (kv_put a (op_Key op) (op_Value op)) Hall).
  destruct (spec_run _ log) as [a2 rs]. simpl in *. lia.
Qed.

(** The last put is the entry at the store's revision. *)
Lemma spec_run_puts_last (log : list string) (a : kv) (d : string) (op : Op) :
  op_Unmarshal d = Ok op → op_Type op = "put" →
  ModRevision <$> kv_map (spec_run a (log ++ [d])).1 !! op_Key op
  = Some (kv_rev (spec_run a (log ++ [d])).1).
Proof.
  intros Hop Hty. rewrite spec_run_app. simpl. unfold spec_apply. rewrite Hop, Hty. simpl.
  rewrite lookup_insert_eq. simpl. by rewrite kv_next_ModRevision.
Qed.

(** A sink that keeps what was written to it. *)
Class SinkLaws (K : Type) `{SnapshotSink K} := {
  sink_data : K → string;
  Write_law k s k' : sink_Write k s = (k', Ok tt) → sink_data k' = sink_data k +:+ s;
  Close_law k k' : sink_Close k = (k', Ok tt) → sink_data k' = sink_data k;
}.

Lemma Persist_data {K} `{SinkLaws K} (s : fsmSnapshot) (sink sink' : K) :
  fsmSnapshot_Persist s sink = (sink', Ok tt) →
  ∃ data, json_Marshal (snapshot_json (fs_entries s) (fs_rev s)) = Ok data ∧
          sink_data sink' = sink_data sink +:+ data.
Proof.
  unfold fsmSnapshot_Persist. destruct (json_Marshal _) as [data| |]; try done.
  destruct (sink_Write sink data) as [k1 [[]| |]] eqn:Hw; try done. intros Hc.
  exists data. split; [done|]. by rewrite (Close_law _ _ Hc), (Write_law _ _ _ Hw).
Qed.

Section restore.
Context {S : Type} `{StoreLaws S} {K : Type} `{SinkLaws K}.

(** Snapshot, persist and restore into a replica in state [a0]. *)
Lemma snapshot_restore (f f0 : FSM S) (a a0 : kv) (s : fsmSnapshot) (sink sink' : K) :
  store_rep (fsm_store f) a → store_rep (ws_BoltStore (fsm_store f0)) a0 →
  FSM_Snapshot f = Ok s → fsmSnapshot_Persist s sink = (sink', Ok tt) → sink_data sink = "" →
  restorable store_limit a0 (kv_list a "") →
  ∃ f1, FSM_Restore f0 (sink_data sink') = (f1, Ok tt) ∧
    store_rep (ws_BoltStore (fsm_store f1)) (restore_kv a0 (kv_list a "")) ∧
    ws_wc (fsm_store f1) = ws_wc (fsm_store f0) ∧
    StoreRevision f1 = store_Rev (fsm_store f1).
Proof.
  intros Hs Hs0 Hsnap Hper Hnil Hre.
  pose proof (law_ok _ a Hs) as Hok. pose proof (law_max _ a Hs) as Hmax.
  assert (kv_rev a ≤ max_uint64)%N as Hmax' by exact Hmax.
  unfold FSM_Snapshot in Hsnap. rewrite (law_List _ a "" Hs), (law_Rev _ a Hs) in Hsnap.
  injection Hsnap as <-.
  destruct (Persist_data _ _ _ Hper) as (data & Hm & Hd). rewrite Hnil in Hd.
  cbn [fs_entries fs_rev] in Hm. simpl in Hd.
  destruct (snapshot_roundtrip (kv_list a "") (kv_rev a)) as (data' & Hm' & Hdec);
    [by apply kv_list_entry_ok|done|].
  assert (data' = data) as -> by congruence.
  unfold FSM_Restore. rewrite Hd, Hdec, kv_list_stored by done. cbn [wrap_err snap_Entries].
  destruct (restore_loop_spec _ _ _ Hs0 Hre) as (bs & -> & Hbs).
  eexists. split; [reflexivity|]. by split_and!.
Qed.
End restore.

(** ** Properties *)

(** C3: The replicated log is a history of the versioned store.  Let [cs] be what
    the bytes of the log were written for: puts, deletes, operations of another
    type, or bytes that are no operation.  A replica that applies the log gives
    each entry its result: a put the new entry and the one before, a delete the
    deleted entry or the sentinel, the rest an error of its own.  It ends in the
    state that the puts and deletes alone lead to, as [Get], [List] and [Rev]
    show it.  And whatever the log holds, two replicas on any stores that start
    from one state return the same results and answer every read alike. *)
Theorem raft_replicas_agree {S1 S2 : Type} `{StoreLaws S1} `{StoreLaws S2}
    (f1 : FSM S1) (f2 : FSM S2) (a : kv) (log : list string) :
  store_rep (fsm_store f1) a → store_rep (fsm_store f2) a →
  logs_admissible (store_limit (S:=WatchableStore S1)) a log →
  logs_admissible (store_limit (S:=WatchableStore S2)) a log →
  let r1 := FSM_run f1 log in
  let r2 := FSM_run f2 log in
  (∀ cs, Forall2 written cs log →
     let a' := kv_run a (cs ≫= command_ops) in
     r1.2 = Ok <$> command_results a cs ∧
     store_Rev (fsm_store r1.1) = kv_rev a' ∧
     (∀ k, store_Get (fsm_store r1.1) k
           = match kv_map a' !! k with Some e => Ok e | None => Err ErrKeyNotFound end) ∧
     (∀ p, store_List (fsm_store r1.1) p = (kv_list a' p, Ok tt))) ∧
  r1.2 = r2.2 ∧ store_Rev (fsm_store r1.1) = store_Rev (fsm_store r2.1) ∧
  (∀ k, store_Get (fsm_store r1.1) k = store_Get (fsm_store r2.1) k) ∧
  (∀ p, store_List (fsm_store r1.1) p = store_List (fsm_store r2.1) p).
Proof.
  intros Hs1 Hs2 Ha1 Ha2 r1 r2.
  destruct (FSM_run_spec log f1 a Hs1 Ha1) as [Hr1 Hrep1].
  destruct (FSM_run_spec log f2 a Hs2 Ha2) as [Hr2 Hrep2]. fold r1 in Hr1, Hrep1. fold r2 in Hr2, Hrep2.
  split.
  { intros cs Hw. rewrite (spec_run_commands cs log a Hw) in Hr1, Hrep1. cbn [fst snd] in Hr1, Hrep1.
    split_and!; [done|by apply law_Rev|intros k; by apply law_Get|intros p; by apply law_List]. }
  split_and!.
  - by rewrite Hr1, Hr2.
  - by rewrite (law_Rev _ _ Hrep1), (law_Rev _ _ Hrep2).
  - intros k. by rewrite (law_Get _ _ k Hrep1), (law_Get _ _ k Hrep2).
  - intros p. by rewrite (law_List _ _ p Hrep1), (law_List _ _ p Hrep2).
Qed.

Section properties.
Context {S : Type} `{StoreLaws S}.

Abbreviation limit := (store_limit (S:=WatchableStore S)).

(** C18: [Apply] of a marshalled operation, by the type it has in the log: a put or
    a delete does to the store what it says, with its key made valid UTF-8 and
    an empty value [nil], and a delete that finds nothing keeps the sentinel;
    any other type is answered with an error that quotes it.  Bytes that are not
    JSON, or not the JSON of an [Op], are answered with the wrapped error of the
    decoder.  In the error cases the state machine is left as it was. *)
Theorem fsm_apply_op (f : FSM S) (a : kv) (data : string) :
  store_rep (fsm_store f) a → log_admissible limit a data →
  ∃ f' r, FSM_Apply f data = (f', Ok r) ∧
    (∀ op, op_Marshal op = Ok data →
       let ty := ToValidUTF8 (op_Type op) in
       let k := ToValidUTF8 (op_Key op) in
       let v := logged_value (op_Value op) in
       (ty = "put" →
          r = mkOpResult (Some (kv_next a k v)) (kv_map a !! k) None ∧
          store_rep (fsm_store f') (kv_put a k v) ∧ StoreRevision f' = store_Rev (fsm_store f')) ∧
       (ty = "delete" → store_rep (fsm_store f') (kv_delete a k) ∧
          match kv_map a !! k with
          | Some e => r = mkOpResult (Some (kv_deleted a e)) None None ∧
                      StoreRevision f' = store_Rev (fsm_store f')
          | None => r = mkOpResult None None (Some ErrKeyNotFound) ∧ StoreRevision f' = StoreRevision f
          end) ∧
       (ty ≠ "put" → ty ≠ "delete" →
          f' = f ∧ r = mkOpResult None None (Some (EMsg ("unknown op type: " +:+ Quote ty))))) ∧
    (∀ e, op_Unmarshal data = Err e →
       f' = f ∧ r = mkOpResult None None (Some (EWrap "unmarshal op" e))) ∧
    (json_parse data = None →
       f' = f ∧ r = mkOpResult None None
                      (Some (EWrap "unmarshal op" (EMsg "json: syntax error")))).
Proof.
  intros Hs Hadm. destruct (FSM_Apply_spec f a data Hs Hadm) as (f' & Hf & Hrep & Hg).
  exists f', (spec_apply a data).2. split; [done|]. rewrite (law_Rev _ _ Hrep).
  assert (∀ e, op_Unmarshal data = Err e →
    f' = f ∧ (spec_apply a data).2 = op_error (EWrap "unmarshal op" e)) as Herr.
  { intros e He. pose proof (FSM_Apply_error f e data He) as Hsame. rewrite Hf in Hsame.
    by rewrite (spec_apply_error a e data He). }
  split_and!; [|done|intros Hj; apply Herr; unfold op_Unmarshal; by rewrite Hj].
  intros op Hm ty k v. split_and!; intros Hty.
  - rewrite (spec_apply_typed_put op data Hm Hty a) in *. by split_and!.
  - rewrite (spec_apply_typed_delete op data Hm Hty a) in *. fold k in Hrep, Hg |- *.
    unfold kv_delete in *. by destruct (kv_map a !! k).
  - intros Hd. pose proof (FSM_Apply_other f op data Hm Hty Hd) as Hsame. rewrite Hf in Hsame.
    by rewrite (spec_apply_other a op data Hm Hty Hd).
Qed.

(** C38: [Restore] does not replace the state, it puts the snapshot over it.  The
    [i]-th entry of the snapshot is in the replica with its key and value, but
    counted anew: its revision is the replica's own plus [i + 1], its version one
    more than that of the entry the replica had under the key, whose creation
    revision it keeps, and 1, created there and then, where it had none; none of
    the snapshot's own counters matter.  The other keys of the replica stay, its
    revision grows by one per entry of the snapshot, and no watcher sees an
    event. *)
Theorem restore_merges {K : Type} `{SinkLaws K}
    (f f0 : FSM S) (a a0 : kv) (s : fsmSnapshot) (sink sink' : K) :
  store_rep (fsm_store f) a → kv_valid a → store_rep (ws_BoltStore (fsm_store f0)) a0 →
  FSM_Snapshot f = Ok s → fsmSnapshot_Persist s sink = (sink', Ok tt) → sink_data sink = "" →
  restorable store_limit a0 (kv_list a "") →
  ∃ f1, FSM_Restore f0 (sink_data sink') = (f1, Ok tt) ∧
    (∀ k e, store_Get (fsm_store f) k = Ok e →
       ∃ i e', (store_List (fsm_store f) "").1 !! i = Some e ∧
         store_Get (fsm_store f1) k = Ok e' ∧ Key e' = k ∧ Value e' = Value e ∧
         let rev := (store_Rev (fsm_store f0) + N.of_nat i + 1)%N in
         Revision e' = rev ∧ ModRevision e' = rev ∧
         (∀ old, store_Get (fsm_store f0) k = Ok old →
            CreateRevision e' = CreateRevision old ∧ Version e' = (Version old + 1)%N) ∧
         (store_Get (fsm_store f0) k = Err ErrKeyNotFound →
            CreateRevision e' = rev ∧ Version e' = 1%N)) ∧
    (∀ k, store_Get (fsm_store f) k = Err ErrKeyNotFound →
       store_Get (fsm_store f1) k = store_Get (fsm_store f0) k) ∧
    store_Rev (fsm_store f1)
      = (store_Rev (fsm_store f0) + N.of_nat (length (store_List (fsm_store f) "").1))%N ∧
    ws_wc (fsm_store f1) = ws_wc (fsm_store f0).
Proof.
  intros Hs Hv Hs0 Hsnap Hper Hnil Hre. pose proof (law_ok _ a Hs) as Hok.
  destruct (snapshot_restore f f0 a a0 s sink sink' Hs Hs0 Hsnap Hper Hnil Hre)
    as (f1 & Hr & Hbs & Hwc & _).
  exists f1. split; [done|].
  change (store_Get (fsm_store f1)) with (store_Get (ws_BoltStore (fsm_store f1))).
  change (store_Get (fsm_store f0)) with (store_Get (ws_BoltStore (fsm_store f0))).
  change (store_Rev (fsm_store f1)) with (store_Rev (ws_BoltStore (fsm_store f1))).
  change (store_Rev (fsm_store f0)) with (store_Rev (ws_BoltStore (fsm_store f0))).
  rewrite (law_Rev _ _ Hbs), (law_Rev _ _ Hs0), (law_List _ a "" Hs), restore_kv_rev.
  split_and!; [| |done|done].
  - intros k e He. rewrite (law_Get _ a k Hs) in He. destruct (kv_map a !! k) as [e0|] eqn:Hk; [|done].
    injection He as ->. pose proof (kv_valid_Key a k e Hok Hv Hk) as HKey.
    destruct (kv_list_lookup a k e Hk) as [i Hi].
    destruct (restore_kv_lookup (kv_list a "") a0 i e (kv_list_keys a "" Hok Hv) Hi)
      as (e' & He' & HK & HV & HR & HM & Hold); [rewrite HKey; by eapply Hv|].
    rewrite HKey in *. exists i, e'. split; [done|].
    rewrite (law_Get _ _ k Hbs), He', (law_Get _ _ k Hs0).
    do 3 (split; [done|]). intros rev. do 2 (split; [done|]).
    destruct (kv_map a0 !! k) as [o|]; split; try done. by intros old [= <-].
  - intros k Hk. rewrite (law_Get _ a k Hs) in Hk. destruct (kv_map a !! k) eqn:Hka; [done|].
    rewrite (law_Get _ _ k Hbs), (law_Get _ _ k Hs0). rewrite restore_kv_other; [done|].
    intros (e & -> & (k' & _ & He)%kv_list_elem)%list_elem_of_fmap.
    rewrite (kv_valid_Key a k' e) in Hka by done. congruence.
Qed.

(** A log applied a second time, as raft does after a restart over the store
    that already holds it, is counted again: a log of puts advances the revision
    once more per entry, so the node no longer agrees with one that did not
    restart. *)
Theorem replay_counts_again (f : FSM S) (a : kv) (log : list string) :
  store_rep (fsm_store f) a → logs_admissible limit a (log ++ log) →
  Forall is_put log → log ≠ [] →
  let f1 := (FSM_run f log).1 in
  let f2 := (FSM_run f1 log).1 in
  store_Rev (fsm_store f2) = (store_Rev (fsm_store f1) + N.of_nat (length log))%N ∧
  ∃ k, store_Get (fsm_store f2) k ≠ store_Get (fsm_store f1) k.
Proof.
  intros Hs [Hadm1 Hadm2]%logs_admissible_app Hputs Hne f1 f2.
  destruct (FSM_run_spec log f a Hs Hadm1) as [_ Hs1]. fold f1 in Hs1.
  destruct (FSM_run_spec log f1 _ Hs1 Hadm2) as [_ Hs2]. fold f2 in Hs2.
  destruct (exists_last Hne) as (log' & d & Hlog). subst log.
  rewrite (law_Rev _ _ Hs1), (law_Rev _ _ Hs2), (spec_run_puts_rev _ (spec_run a _).1) by done.
  split; [done|]. pose proof Hputs as [_ [(op & Hop & Hty) _]%Forall_cons]%Forall_app.
  exists (op_Key op). rewrite (law_Get _ _ _ Hs1), (law_Get _ _ _ Hs2). intros Heq.
  pose proof (spec_run_puts_last log' a d op Hop Hty) as H1.
  pose proof (spec_run_puts_last log' (spec_run a (log' ++ [d])).1 d op Hop Hty) as H2.
  rewrite (spec_run_puts_rev _ (spec_run a _).1) in H2 by done.
  destruct (kv_map (spec_run a _).1 !! op_Key op) as [e1|]; [|done].
  destruct (kv_map (spec_run (spec_run a _).1 _).1 !! op_Key op) as [e2|]; [|done].
  simpl in H1, H2. rewrite length_app in H2. simpl in H2. simplify_eq. lia.
Qed.
End properties.

(** ** Concrete runs *)

Definition log_of (op : Op) : string := match op_Marshal op with Ok d => d | _ => "" end.

Ltac solve_log_admissible :=
  unfold log_admissible;
  match goal with
  | |- context [op_Unmarshal ?d] =>
      let o := eval vm_compute in (op_Unmarshal d) in
      replace (op_Unmarshal d) with o by (vm_compute; reflexivity)
  end;
  cbn [op_Type op_Key op_Value String.eqb Ascii.eqb Bool.eqb];
  first [solve_can_put|vm_compute; reflexivity|exact I].

Definition demo_fsm : FSM (BoltStore MemDb.t) := mkFSM demo_small 0.

Lemma demo_fsm_rep : store_rep (fsm_store demo_fsm) kv_empty.
Proof. exists []. apply demo_small_rep. Qed.

Definition demo_limit : N := store_limit (S:=WatchableStore (BoltStore MemDb.t)).

Definition demo_log : list string :=
  [log_of (mkOp "put" "a/b/c" (Some "1")); log_of (mkOp "delete" "x" None);
   log_of (mkOp "rename" "x" None); "not json"].

Definition quoted_rename : string := String dquote ("rename" +:+ String dquote "").

Definition demo_commands : list command :=
  [CmdPut "a/b/c" (Some "1"); CmdDelete "x"; CmdOther (mkOp "rename" "x" None);
   CmdBytes (EMsg "json: syntax error")].

Lemma demo_log_written : Forall2 written demo_commands demo_log.
Proof. repeat constructor; try (vm_compute; reflexivity); discriminate. Qed.

Lemma demo_log_admissible : logs_admissible demo_limit kv_empty demo_log.
Proof. repeat (split; [solve_log_admissible|]). done. Qed.

Lemma raft_replicas_agree_witness :
  (FSM_run demo_fsm demo_log).2
    = [Ok (mkOpResult (Some (mkEntry "a/b/c" (Some "1") 1 1 1 1)) None None);
       Ok (mkOpResult None None (Some ErrKeyNotFound));
       Ok (mkOpResult None None (Some (EMsg ("unknown op type: " +:+ quoted_rename))));
       Ok (mkOpResult None None (Some (EWrap "unmarshal op" (EMsg "json: syntax error"))))] ∧
  (FSM_run demo_fsm demo_log).2 = (FSM_run (mkFSM demo_small 7) demo_log).2.
Proof.
  destruct (raft_replicas_agree demo_fsm (mkFSM demo_small 7) kv_empty demo_log
    demo_fsm_rep demo_fsm_rep demo_log_admissible demo_log_admissible) as (Hcs & Hrs & _).
  split; [|exact Hrs]. destruct (Hcs demo_commands demo_log_written) as [Hr _].
  rewrite Hr. vm_compute. reflexivity.
Defined.

Lemma fsm_apply_op_witness :
  (∃ f', FSM_Apply demo_fsm (log_of (mkOp "put" "k" (Some "v")))
         = (f', Ok (mkOpResult (Some (mkEntry "k" (Some "v") 1 1 1 1)) None None))) ∧
  FSM_Apply demo_fsm (log_of (mkOp "rename" "x" None))
    = (demo_fsm, Ok (op_error (EMsg ("unknown op type: " +:+ quoted_rename)))) ∧
  FSM_Apply demo_fsm "not json"
    = (demo_fsm, Ok (op_error (EWrap "unmarshal op" (EMsg "json: syntax error")))) ∧
  FSM_Apply demo_fsm "[1]"
    = (demo_fsm, Ok (op_error (EWrap "unmarshal op" (EMsg "json: cannot unmarshal")))).
Proof.
  split_and!.
  - destruct (fsm_apply_op demo_fsm kv_empty (log_of (mkOp "put" "k" (Some "v")))
      demo_fsm_rep ltac:(solve_log_admissible)) as (f' & r & Hf & Hop & _).
    destruct (Hop (mkOp "put" "k" (Some "v")) eq_refl) as [Hput _].
    destruct (Hput eq_refl) as [Hr _]. exists f'. rewrite Hf, Hr. vm_compute. reflexivity.
  - destruct (fsm_apply_op demo_fsm kv_empty (log_of (mkOp "rename" "x" None))
      demo_fsm_rep ltac:(solve_log_admissible)) as (f' & r & Hf & Hop & _).
    destruct (Hop (mkOp "rename" "x" None) eq_refl) as (_ & _ & Hr).
    destruct Hr as [Hs Hr]; [discriminate|discriminate|]. rewrite Hf, Hs, Hr. reflexivity.
  - destruct (fsm_apply_op demo_fsm kv_empty "not json" demo_fsm_rep ltac:(solve_log_admissible))
      as (f' & r & Hf & _ & _ & Hj).
    destruct (Hj ltac:(vm_compute; reflexivity)) as [Hs Hr]. rewrite Hf, Hs, Hr. reflexivity.
  - destruct (fsm_apply_op demo_fsm kv_empty "[1]" demo_fsm_rep ltac:(solve_log_admissible))
      as (f' & r & Hf & _ & He & _).
    destruct (He _ ltac:(vm_compute; reflexivity)) as [Hs Hr]. rewrite Hf, Hs, Hr. reflexivity.
Defined.

#[export] Instance string_sink : SnapshotSink string := {|
  sink_Write k s := (k +:+ s, Ok tt);
  sink_Close k := (k, Ok tt);
  sink_Cancel k := k;
|}.
#[export] Program Instance string_sink_laws : SinkLaws string := {| sink_data k := k |}.
Next Obligation. intros k s k' [= <-]. done. Qed.
Next Obligation. intros k k' [= <-]. done. Qed.

(** A node with two keys, at revision 3, and its snapshot. *)
Definition demo_leader : FSM (BoltStore MemDb.t) :=
  (FSM_run demo_fsm [log_of (mkOp "put" "a" (Some "1")); log_of (mkOp "put" "a" (Some "2"));
                     log_of (mkOp "put" "b" (Some "3"))]).1.
Definition demo_leader_kv : kv :=
  kv_put (kv_put (kv_put kv_empty "a" (Some "1")) "a" (Some "2")) "b" (Some "3").

Lemma demo_leader_rep : store_rep (fsm_store demo_leader) demo_leader_kv.
Proof.
  assert (logs_admissible demo_limit kv_empty
    [log_of (mkOp "put" "a" (Some "1")); log_of (mkOp "put" "a" (Some "2"));
     log_of (mkOp "put" "b" (Some "3"))]) as Hadm.
  { repeat (split; [solve_log_admissible|]). done. }
  destruct (FSM_run_spec _ demo_fsm kv_empty demo_fsm_rep Hadm) as [_ Hs].
  replace demo_leader_kv with (spec_run kv_empty
    [log_of (mkOp "put" "a" (Some "1")); log_of (mkOp "put" "a" (Some "2"));
     log_of (mkOp "put" "b" (Some "3"))]).1 by (vm_compute; reflexivity).
  exact Hs.
Qed.

Definition demo_snapshot : fsmSnapshot :=
  match FSM_Snapshot demo_leader with Ok s => s | _ => mkFsmSnapshot [] 0 end.

Lemma demo_valid : kv_valid demo_leader_kv.
Proof.
  unfold demo_leader_kv, kv_empty. intros k e. cbn [kv_put kv_map].
  rewrite !lookup_insert_Some, lookup_empty. intros Hk. destr.
  repeat match goal with H : _ ∨ _ |- _ => destruct H; destr end; subst; try done;
    vm_compute; reflexivity.
Qed.

(** A follower that has an older [a], and a key the snapshot lacks. *)
Definition demo_follower_log : list string :=
  [log_of (mkOp "put" "a" (Some "0")); log_of (mkOp "put" "z" (Some "9"))].
Definition demo_follower : FSM (BoltStore MemDb.t) := (FSM_run demo_fsm demo_follower_log).1.
Definition demo_follower_kv : kv := kv_put (kv_put kv_empty "a" (Some "0")) "z" (Some "9").

Lemma demo_follower_rep : store_rep (fsm_store demo_follower) demo_follower_kv.
Proof.
  assert (logs_admissible demo_limit kv_empty demo_follower_log) as Hadm.
  { repeat (split; [solve_log_admissible|]). done. }
  destruct (FSM_run_spec _ demo_fsm kv_empty demo_fsm_rep Hadm) as [_ Hs].
  replace demo_follower_kv with (spec_run kv_empty demo_follower_log).1 by (vm_compute; reflexivity).
  exact Hs.
Qed.

Lemma demo_follower_rep_inner : store_rep (ws_BoltStore (fsm_store demo_follower)) demo_follower_kv.
Proof. destruct demo_follower_rep as [h [Hs]]. exact Hs. Qed.

Lemma restore_merges_witness :
  ∃ f1, FSM_Restore demo_follower (fsmSnapshot_Persist demo_snapshot "").1 = (f1, Ok tt) ∧
    store_Rev (fsm_store f1) = 4%N ∧ store_Rev (fsm_store demo_leader) = 3%N ∧
    (∃ e', store_Get (fsm_store f1) "a" = Ok e' ∧ Value e' = Some "2" ∧ Version e' = 2%N ∧
           CreateRevision e' = 1%N) ∧
    store_Get (fsm_store f1) "z" = Ok (mkEntry "z" (Some "9") 2 2 2 1).
Proof.
  destruct (restore_merges demo_leader demo_follower demo_leader_kv demo_follower_kv demo_snapshot ""
    (fsmSnapshot_Persist demo_snapshot "").1 demo_leader_rep demo_valid
    demo_follower_rep_inner)
    as (f1 & Hf & Hin & Hout & Hrev & _).
  - vm_compute. reflexivity.
  - vm_compute. reflexivity.
  - reflexivity.
  - replace (kv_list demo_leader_kv "") with
      [mkEntry "a" (Some "2") 2 1 2 2; mkEntry "b" (Some "3") 3 3 3 1]
      by (vm_compute; reflexivity).
    repeat (split; [solve_can_put|]). done.
  - exists f1. split; [exact Hf|]. split; [rewrite Hrev; vm_compute; reflexivity|].
    split; [vm_compute; reflexivity|]. split; [|rewrite Hout; vm_compute; reflexivity].
    destruct (Hin "a" (mkEntry "a" (Some "2") 2 1 2 2) ltac:(vm_compute; reflexivity))
      as (i & e' & _ & He' & _ & Hv & _ & _ & Hold & _).
    destruct (Hold (mkEntry "a" (Some "0") 1 1 1 1) ltac:(vm_compute; reflexivity)) as [Hc Hver].
    exists e'. split; [exact He'|]. split; [exact Hv|]. split; [exact Hver|exact Hc].
Defined.

Definition demo_put : list string := [log_of (mkOp "put" "a" (Some "1"))].

Lemma demo_put_admissible : logs_admissible demo_limit kv_empty (demo_put ++ demo_put).
Proof. unfold demo_put. cbn [app]. repeat (split; [solve_log_admissible|]). done. Qed.

Lemma replay_counts_again_witness :
  ∃ k, store_Get (fsm_store (FSM_run (FSM_run demo_fsm demo_put).1 demo_put).1) k
     ≠ store_Get (fsm_store (FSM_run demo_fsm demo_put).1) k.
Proof.
  apply (replay_counts_again demo_fsm kv_empty demo_put demo_fsm_rep).
  - apply demo_put_admissible.
  - constructor; [|constructor]. exists (mkOp "put" "a" (Some "1")).
    split; vm_compute; reflexivity.
  - discriminate.
Defined.
