(* ===== verification/Node.v ===== *)
(** [src/raft/node.go], the node: [NewNode], [Apply] through consensus, the local
    reads, the registry of HTTP addresses and cluster membership.  hashicorp/raft
    and the network are the class [Raft] and the parameters of [NewNode]. *)

From S2P Require Import Prelude GoStrings GoEncoding GoJson JsonFields Entry BoltDB Kv StoreSpec.
From S2P Require Import BoltStore WatchCache Watchable Fsm.

Local Open Scope string_scope.
Local Open Scope nat_scope.

(** [type NodeConfig struct] *)
Record NodeConfig := mkNodeConfig {
  NodeID : string;
  BindAddr : string;
  DataDir : string;
  Bootstrap : bool;
}.

(** The fields of [raft.Config] that are set over [raft.DefaultConfig()]. *)
Record raft_config := mkRaftConfig {
  LocalID : string;
  SnapshotThreshold : N;
  SnapshotInterval : Z;
}.

Definition second : Z := 1000000000.
Definition millisecond : Z := 1000000.

(** The calls of [*raft.Raft]. *)
Class Raft (R : Type) := {
  (** [State() == raft.Leader] *)
  raft_is_leader : R → bool;
  (** [LeaderWithID()]: the transport address and the id of the leader *)
  raft_LeaderWithID : R → string * string;
  (** [Apply(data, timeout)]: the log entries given to the state machine until the
      future is resolved, in order, and [future.Error()] *)
  raft_Apply : R → string → Z → R * list string * res unit;
  raft_AddVoter : R → string → string → N → Z → R * res unit;
  raft_RemoveServer : R → string → N → Z → R * res unit;
  raft_Shutdown : R → R * res unit;
  raft_Stats : R → list (string * string);
  (** [BootstrapCluster] with one server; its future is not read *)
  raft_BootstrapCluster : R → string → string → R;
}.

(** A future resolves without error once its own entry was applied. *)
Class RaftLaws (R : Type) `{Raft R} := {
  Apply_law r data timeout r' log :
    raft_Apply r data timeout = (r', log, Ok tt) → ∃ pre, log = (pre ++ [data])%list;
}.

(** [type Node struct]; its field [store] is the store of [fsm]. *)
Record Node (S R : Type) := mkNode {
  node_config : NodeConfig;
  node_raft : R;
  node_fsm : FSM S;
}.
Arguments mkNode {S R} _ _ _.
Arguments node_config {S R} _.
Arguments node_raft {S R} _.
Arguments node_fsm {S R} _.

Definition ErrNotLeader : error := ESentinel NotLeader.

Definition PeerHTTPPrefix : string := "__paladin/peers/".

Section new_node.
Context {db tx R : Type} `{!Bolt db tx, !Raft R}.
(** Log store, snapshot store, address and transport of the raft libraries, with
    the functions that make them; paths are the elements [filepath.Join] joins. *)
Context {LS SS AD TR : Type}.
Variable MkdirAll : string → res unit.
Variable bolt_Open : list string → res db.
Variable raftboltdb_NewBoltStore : list string → res LS.
Variable NewFileSnapshotStore : string → Z → res SS.
Variable ResolveTCPAddr : string → res AD.
Variable NewTCPTransport : string → AD → Z → Z → res TR.
(** [raft.NewRaft] restores the latest snapshot into the state machine. *)
Variable NewRaft : raft_config → FSM (BoltStore db) → LS → SS → TR → FSM (BoltStore db) * res R.

(** [NewNode(config)] in a process whose revision gauge shows [gauge]. *)
Definition NewNode (gauge : N) (config : NodeConfig) : res (Node (BoltStore db) R) :=
  _ ← wrap_err "create data dir" (MkdirAll (DataDir config));
  bs ← wrap_err "create bolt store" (NewBoltStore (bolt_Open [DataDir config; "data.db"]));
  ws ← NewWatchableStore bs;
  let fsm := mkFSM ws gauge in
  let raftConfig := mkRaftConfig (NodeID config) 1024 (30 * second) in
  logStore ← wrap_err "create raft log store"
               (raftboltdb_NewBoltStore [DataDir config; "raft-log.db"]);
  snapshotStore ← wrap_err "create snapshot store" (NewFileSnapshotStore (DataDir config) 2);
  addr ← wrap_err "resolve addr" (ResolveTCPAddr (BindAddr config));
  transport ← wrap_err "create transport"
                (NewTCPTransport (BindAddr config) addr 3 (10 * second));
  let '(fsm', started) := NewRaft raftConfig fsm logStore snapshotStore transport in
  r ← wrap_err "create raft" started;
  let r' := if Bootstrap config then raft_BootstrapCluster r (NodeID config) (BindAddr config)
            else r in
  Ok (mkNode config r' fsm').
End new_node.

Section operations.
Context {S R : Type} `{!Store S, !Raft R}.

Definition Node_store (n : Node S R) : WatchableStore S := fsm_store (node_fsm n).

(** [Apply]; the response of the future is what [FSM.Apply] returned for the last
    entry, and a missing one fails the type assertion. *)
Definition Node_Apply (n : Node S R) (op : Op) (timeout : Z) : Node S R * res OpResult :=
  if negb (raft_is_leader (node_raft n)) then (n, Err ErrNotLeader)
  else match wrap_err "marshal op" (op_Marshal op) with
  | Err e => (n, Err e)
  | Panic => (n, Panic)
  | Ok data =>
      let '(r', log, err) := raft_Apply (node_raft n) data timeout in
      let '(fsm', results) := FSM_run (node_fsm n) log in
      let n' := mkNode (node_config n) r' fsm' in
      match err with
      | Err e => (n', Err (EWrap "raft apply" e))
      | Panic => (n', Panic)
      | Ok _ =>
          match last results with
          | Some (Ok result) =>
              match or_Err result with
              | Some e => (n', Err (EWrap "raft fsm apply" e))
              | None => (n', Ok result)
              end
          | Some (Err e) => (n', Err e)
          | Some Panic => (n', Panic)
          | None => (n', Err (EMsg "unexpected response type"))
          end
      end
  end.

Definition Node_Get (n : Node S R) (key : string) : res Entry := store_Get (Node_store n) key.
Definition Node_List (n : Node S R) (prefix : string) : list Entry * res unit :=
  store_List (Node_store n) prefix.
Definition Node_Rev (n : Node S R) : N := store_Rev (Node_store n).
Definition Node_IsLeader (n : Node S R) : bool := raft_is_leader (node_raft n).
Definition Node_LeaderAddr (n : Node S R) : string := (raft_LeaderWithID (node_raft n)).1.

Definition Node_LeaderHTTPAddr (n : Node S R) : string :=
  let id := (raft_LeaderWithID (node_raft n)).2 in
  if String.eqb id "" then ""
  else match store_Get (Node_store n) (PeerHTTPPrefix +:+ id) with
       | Ok e => bytes_to_string (Value e)
       | _ => ""
       end.

Definition Node_RegisterPeerHTTP (n : Node S R) (nodeID httpAddr : string) : Node S R * res unit :=
  let '(n', r) :=
    Node_Apply n (mkOp "put" (PeerHTTPPrefix +:+ nodeID) (Some httpAddr)) (5 * second) in
  (n', match r with Ok _ => Ok tt | Err e => Err e | Panic => Panic end).

(** [WaitForLeader] polls every 50 ms; [polls] are the node and the time at each
    turn of the loop, [None] when they run out before it returns. *)
Fixpoint WaitForLeader_from (deadline : Z) (polls : list (Node S R * Z)) : option (res unit) :=
  match polls with
  | [] => None
  | (n, now) :: polls' =>
      if negb (String.eqb (raft_LeaderWithID (node_raft n)).2 "") then Some (Ok tt)
      else if (deadline <? now)%Z then Some (Err (EMsg "timed out waiting for leader"))
      else WaitForLeader_from deadline polls'
  end.

Definition Node_WaitForLeader (start timeout : Z) (polls : list (Node S R * Z))
    : option (res unit) :=
  WaitForLeader_from (start + timeout) polls.

Definition Node_Join (n : Node S R) (nodeID addr : string) : Node S R * res unit :=
  if negb (Node_IsLeader n) then (n, Err ErrNotLeader)
  else let '(r', err) := raft_AddVoter (node_raft n) nodeID addr 0 (10 * second) in
       (mkNode (node_config n) r' (node_fsm n), err).

Definition Node_Leave (n : Node S R) (nodeID : string) : Node S R * res unit :=
  if negb (Node_IsLeader n) then (n, Err ErrNotLeader)
  else let '(r', err) := raft_RemoveServer (node_raft n) nodeID 0 (10 * second) in
       (mkNode (node_config n) r' (node_fsm n), err).

Definition Node_Shutdown (n : Node S R) : Node S R * res unit :=
  match raft_Shutdown (node_raft n) with
  | (r', Ok _) =>
      let '(ws, err) := store_Close (Node_store n) in
      (mkNode (node_config n) r' (mkFSM ws (StoreRevision (node_fsm n))), err)
  | (r', err) => (mkNode (node_config n) r' (node_fsm n), err)
  end.

Definition Node_Stats (n : Node S R) : list (string * string) := raft_Stats (node_raft n).
End operations.

(** ** Properties *)

Section properties.
Context {S R : Type} `{StoreLaws S} `{RaftLaws R}.

Abbreviation limit := (store_limit (S:=WatchableStore S)).

(** A committed operation is applied after the entries before it in the log, and
    its result is the result of the call. *)
Lemma Node_Apply_committed (n : Node S R) (a : kv) (op : Op) (data : string) (timeout : Z)
    (r' : R) (log : list string) :
  store_rep (Node_store n) a → raft_is_leader (node_raft n) = true → op_Marshal op = Ok data →
  raft_Apply (node_raft n) data timeout = (r', log, Ok tt) → logs_admissible limit a log →
  ∃ pre n', log = (pre ++ [data])%list ∧
    (let out := spec_apply (spec_run a pre).1 data in
     Node_Apply n op timeout
       = (n', match or_Err out.2 with
              | Some e => Err (EWrap "raft fsm apply" e)
              | None => Ok out.2
              end) ∧
     store_rep (Node_store n') out.1 ∧ node_raft n' = r').
Proof.
  intros Hs Hl Hm Hr Hadm. destruct (Apply_law _ _ _ _ _ Hr) as [pre ->]. exists pre.
  destruct (FSM_run_spec (pre ++ [data]) (node_fsm n) a Hs Hadm) as [Hres Hs'].
  unfold Node_Apply. rewrite Hl, Hm. cbn [negb wrap_err]. rewrite Hr.
  destruct (FSM_run (node_fsm n) (pre ++ [data])) as [fsm' results]. simpl in Hres, Hs'.
  rewrite spec_run_app in Hres, Hs'. simpl in Hres, Hs'.
  destruct (spec_apply (spec_run a pre).1 data) as [a2 out]. simpl in Hres, Hs' |- *.
  rewrite Hres, fmap_app, last_app. simpl.
  eexists. split; [done|].
  destruct (or_Err out); (split; [reflexivity|]); done.
Qed.

(** C17: [Apply] on the leader, once committed, takes effect exactly once, after the
    entries committed before it: a put returns the entry it wrote and the one it
    replaced; a delete of a missing key returns an error that [errors.Is] still
    recognises as [ErrKeyNotFound]. *)
Theorem node_apply_takes_effect (n : Node S R) (a : kv) (op : Op) (data : string)
    (timeout : Z) (r' : R) (log : list string) :
  store_rep (Node_store n) a → raft_is_leader (node_raft n) = true → op_Marshal op = Ok data →
  raft_Apply (node_raft n) data timeout = (r', log, Ok tt) → logs_admissible limit a log →
  let k := ToValidUTF8 (op_Key op) in
  let v := logged_value (op_Value op) in
  ∃ pre n' r, log = (pre ++ [data])%list ∧ Node_Apply n op timeout = (n', r) ∧
    let a1 := (spec_run a pre).1 in
    (op_Type op = "put" →
       r = Ok (mkOpResult (Some (kv_next a1 k v)) (kv_map a1 !! k) None) ∧
       store_rep (Node_store n') (kv_put a1 k v)) ∧
    (op_Type op = "delete" → store_rep (Node_store n') (kv_delete a1 k) ∧
       match kv_map a1 !! k with
       | Some e => r = Ok (mkOpResult (Some (kv_deleted a1 e)) None None)
       | None => ∃ e, r = Err e ∧ errors_Is e KeyNotFound = true ∧ errors_Is e NotLeader = false
       end).
Proof.
  intros Hs Hl Hm Hr Hadm k v.
  destruct (Node_Apply_committed n a op data timeout r' log Hs Hl Hm Hr Hadm)
    as (pre & n' & -> & Happ & Hs' & _).
  destruct op as [ty key val]. cbn [op_Type op_Key op_Value] in *.
  exists pre, n'. eexists. split; [done|]. split; [exact Happ|]. split; intros ->.
  - rewrite (spec_apply_put _ key val data Hm) in *. by split.
  - rewrite (spec_apply_delete _ key val data Hm) in *. fold k in Hs' |- *.
    unfold kv_delete in *. destruct (kv_map _ !! k); simpl in *; (split; [done|]); eauto.
Qed.

(** A follower changes nothing: every write returns [ErrNotLeader]. *)
Theorem follower_refuses_writes (n : Node S R) (op : Op) (timeout : Z) (id addr : string) :
  raft_is_leader (node_raft n) = false →
  Node_Apply n op timeout = (n, Err ErrNotLeader) ∧
  Node_RegisterPeerHTTP n id addr = (n, Err ErrNotLeader) ∧
  Node_Join n id addr = (n, Err ErrNotLeader) ∧ Node_Leave n id = (n, Err ErrNotLeader).
Proof.
  intros Hl. unfold Node_RegisterPeerHTTP, Node_Apply, Node_Join, Node_Leave, Node_IsLeader.
  by rewrite Hl.
Qed.

(** Once the leader has registered a node's HTTP address, every replica that has
    applied the log up to there forwards to that address when that node leads. *)
Theorem peer_address_roundtrip (n : Node S R) (a : kv) (id addr data : string)
    (r' : R) (log : list string) :
  store_rep (Node_store n) a → raft_is_leader (node_raft n) = true → ValidString id = true → id ≠ "" →
  op_Marshal (mkOp "put" (PeerHTTPPrefix +:+ id) (Some addr)) = Ok data →
  raft_Apply (node_raft n) data (5 * second) = (r', log, Ok tt) → logs_admissible limit a log →
  ∃ n' a', Node_RegisterPeerHTTP n id addr = (n', Ok tt) ∧ store_rep (Node_store n') a' ∧
    ∀ (S' R' : Type) `(StoreLaws S') `(Raft R') (m : Node S' R'), store_rep (Node_store m) a' →
      (raft_LeaderWithID (node_raft m)).2 = id → Node_LeaderHTTPAddr m = addr.
Proof.
  intros Hs Hl Hv Hne Hm Hr Hadm.
  destruct (Node_Apply_committed n a _ data (5 * second) r' log Hs Hl Hm Hr Hadm)
    as (pre & n1 & -> & Happ & Hs' & _).
  set (a1 := (spec_run a pre).1) in *.
  pose proof (spec_apply_put a1 _ _ data Hm) as Hput. cbv zeta in Hput.
  rewrite Hput in Happ, Hs'. rewrite ToValidUTF8_app, (ToValidUTF8_valid id) in Hs' by done.
  cbn [fst snd or_Err] in Happ, Hs'. exists n1. eexists. split_and!; [|exact Hs'|].
  { unfold Node_RegisterPeerHTTP. by rewrite Happ. }
  intros S' R' ??? m Hsm Hid. unfold Node_LeaderHTTPAddr. rewrite Hid.
  apply String.eqb_neq in Hne as ->. rewrite (law_Get _ _ _ Hsm).
  change (PeerHTTPPrefix +:+ id) with (ToValidUTF8 PeerHTTPPrefix +:+ id).
  rewrite kv_put_get. unfold stored. simpl. rewrite kv_next_Value.
  unfold logged_value. simpl. by destruct (String.eqb_spec addr "").
Qed.

(** [WaitForLeader] returns by the first poll that sees a leader or comes after
    the deadline, and reports a timeout only when no earlier poll saw a leader. *)
Theorem wait_for_leader_returns (start timeout : Z) (polls : list (Node S R * Z)) :
  Exists (λ x, (raft_LeaderWithID (node_raft x.1)).2 ≠ "" ∨ (start + timeout < x.2)%Z) polls →
  ∃ r, Node_WaitForLeader start timeout polls = Some r ∧
    (is_ok r = true →
       Exists (λ x, (raft_LeaderWithID (node_raft x.1)).2 ≠ "") polls) ∧
    (is_ok r = false → ∃ l1 x l2, polls = (l1 ++ x :: l2)%list ∧ (start + timeout < x.2)%Z ∧
       Forall (λ y, (raft_LeaderWithID (node_raft y.1)).2 = "") (l1 ++ [x])).
Proof.
  unfold Node_WaitForLeader. intros Hex.
  induction polls as [|[m now] l IH]; [by inversion Hex|]. simpl.
  destruct (String.eqb_spec (raft_LeaderWithID (node_raft m)).2 "") as [Hid|Hid]; simpl.
  - destruct (Z.ltb_spec (start + timeout) now) as [Hlt|Hge].
    + eexists. split; [done|]. split; [done|]. intros _. exists [], (m, now), l. split_and!; [done|done|by repeat constructor].
    + inversion Hex as [? ? [Hx|Hx]|? ? Hx]; subst; simpl in *; [done|lia|].
      destruct (IH Hx) as (r & Hr & Hok & Herr). exists r. split; [done|]. split; [by auto|].
      intros Hf. destruct (Herr Hf) as (l1 & x & l2 & -> & Hx2 & Hall).
      exists ((m, now) :: l1), x, l2. split_and!; [done|done|]. by constructor.
  - eexists. split; [done|]. split; [by constructor|done].
Qed.
End properties.

(** ** Concrete runs *)

(** A cluster of one, which commits at once. *)
Record solo := mkSolo { solo_leader : bool; solo_id : string }.

#[export] Instance solo_raft : Raft solo := {|
  raft_is_leader := solo_leader;
  raft_LeaderWithID r := ("127.0.0.1:9001", solo_id r);
  raft_Apply r data _ := (r, [data], Ok tt);
  raft_AddVoter r _ _ _ _ := (r, Ok tt);
  raft_RemoveServer r _ _ _ := (r, Ok tt);
  raft_Shutdown r := (r, Ok tt);
  raft_Stats _ := [("state", "Leader")];
  raft_BootstrapCluster _ id _ := mkSolo true id;
|}.

#[export] Instance solo_raft_laws : RaftLaws solo.
Proof. constructor. intros r data t r' log [= <- <-]. by exists []. Qed.

Definition demo_node : Node (BoltStore MemDb.t) solo :=
  mkNode (mkNodeConfig "n1" "127.0.0.1:9001" "data" true) (mkSolo true "n1") demo_fsm.

Lemma node_apply_takes_effect_witness :
  ∃ n' e, Node_Apply demo_node (mkOp "delete" "x" None) second = (n', Err e) ∧
          errors_Is e KeyNotFound = true.
Proof.
  destruct (node_apply_takes_effect demo_node kv_empty (mkOp "delete" "x" None)
    (log_of (mkOp "delete" "x" None)) second (mkSolo true "n1") [log_of (mkOp "delete" "x" None)]
    demo_fsm_rep) as (pre & n' & r & Hlog & Hn & _ & Hd);
    [reflexivity..|split; [solve_log_admissible|exact I]|].
  destruct (Hd eq_refl) as [_ Hr].
  destruct pre as [|d pre]; [|apply (f_equal (@length _)) in Hlog; rewrite length_app in Hlog;
    simpl in Hlog; lia].
  destruct Hr as (e & -> & He & _). exists n', e. split; [exact Hn|exact He].
Defined.

Lemma follower_refuses_writes_witness :
  Node_Join (mkNode (node_config demo_node) (mkSolo false "n2") demo_fsm) "n3" "a"
  = (mkNode (node_config demo_node) (mkSolo false "n2") demo_fsm, Err ErrNotLeader).
Proof.
  apply (follower_refuses_writes (mkNode (node_config demo_node) (mkSolo false "n2") demo_fsm)
           (mkOp "put" "k" None) second "n3" "a"). reflexivity.
Defined.

Definition demo_peer_op : Op := mkOp "put" (PeerHTTPPrefix +:+ "n1") (Some "127.0.0.1:8080").

Lemma peer_address_roundtrip_witness :
  ∃ n', Node_RegisterPeerHTTP demo_node "n1" "127.0.0.1:8080" = (n', Ok tt) ∧
    Node_LeaderHTTPAddr n' = "127.0.0.1:8080".
Proof.
  destruct (peer_address_roundtrip demo_node kv_empty "n1" "127.0.0.1:8080" (log_of demo_peer_op)
    (mkSolo true "n1") [log_of demo_peer_op] demo_fsm_rep) as (n' & a' & Hn & Hs & Hm);
    [reflexivity|vm_compute; reflexivity|discriminate|reflexivity|reflexivity
    |split; [solve_log_admissible|exact I]|].
  exists n'. split; [exact Hn|]. apply (Hm _ _ _ _ _ n'); [exact Hs|].
  vm_compute in Hn. injection Hn as <-. reflexivity.
Defined.

Lemma wait_for_leader_returns_witness :
  ∃ r, Node_WaitForLeader 0 second [(demo_node, 0%Z)] = Some r.
Proof.
  destruct (wait_for_leader_returns 0 second [(demo_node, 0%Z)]) as (r & Hr & _).
  - apply Exists_cons_hd. left. vm_compute. discriminate.
  - exists r. exact Hr.
Defined.
