(* ===== verification/Http.v ===== *)
(** The part of [net/http] and [io] the handlers use: a request as they read it, a
    response as they write it, the size limit on a body and the routing of
    [http.ServeMux]. *)

From S2P Require Import Prelude GoStrings GoEncoding GoJson.

Local Open Scope string_scope.
Local Open Scope nat_scope.

(** ** Requests and responses *)

(** A body: what its reader yields, and the error it ends with, if any. *)
Record body := mkBody { b_data : string; b_err : option error }.

(** [r.URL.Path] is unescaped; [rq_Query] is [r.URL.Query()] in order and [rq_URL]
    is [r.URL.String()]. *)
Record request := mkRequest {
  rq_Method : string;
  rq_Path : string;
  rq_Query : list (string * string);
  rq_URL : string;
  rq_Header : list (string * string);
  rq_Body : body;
}.

Record response := mkResponse {
  rs_Status : Z;
  rs_Header : list (string * string);
  rs_Body : string;
}.

Definition StatusOK : Z := 200.
Definition StatusCreated : Z := 201.
Definition StatusBadRequest : Z := 400.
Definition StatusNotFound : Z := 404.
Definition StatusMethodNotAllowed : Z := 405.
Definition StatusInternalServerError : Z := 500.
Definition StatusServiceUnavailable : Z := 503.

(** [r.URL.Query().Get(key)]: the first value, or the empty string. *)
Fixpoint query_Get (q : list (string * string)) (key : string) : string :=
  match q with
  | [] => ""
  | (k, v) :: q' => if String.eqb k key then v else query_Get q' key
  end.

(** [Header.Set] and [Header.Add] *)
Definition header_Set (h : list (string * string)) (k v : string) : list (string * string) :=
  (filter (λ x, x.1 ≠ k) h ++ [(k, v)])%list.
Definition header_Add (h : list (string * string)) (k v : string) : list (string * string) :=
  (h ++ [(k, v)])%list.

(** [io.ReadAll(io.LimitReader(r, n))]: the reader stops after [n] bytes without
    looking further; an error is seen only when it comes before. *)
Definition ReadAll_limited (n : N) (b : body) : res string :=
  if (n <=? N.of_nat (String.length (b_data b)))%N
  then Ok (string_take (N.to_nat n) (b_data b))
  else match b_err b with
       | Some e => Err e
       | None => Ok (b_data b)
       end.

(** What is read is at most the limit. *)
Lemma ReadAll_limited_length (n : N) (b : body) (d : string) :
  ReadAll_limited n b = Ok d → (N.of_nat (String.length d) ≤ n)%N.
Proof.
  unfold ReadAll_limited.
  destruct (N.leb_spec n (N.of_nat (String.length (b_data b)))) as [Hle|Hlt].
  - intros [= <-]. pose proof (string_take_length_le (N.to_nat n) (b_data b)). lia.
  - destruct (b_err b); [done|]. intros [= <-]. lia.
Qed.

(** Sent on, what was read is read again. *)
Lemma ReadAll_limited_again (n : N) (b : body) (d : string) :
  ReadAll_limited n b = Ok d → ReadAll_limited n (mkBody d None) = Ok d.
Proof.
  intros Hd. apply ReadAll_limited_length in Hd. unfold ReadAll_limited. cbn [b_data b_err].
  destruct (N.leb_spec n (N.of_nat (String.length d))); [|done].
  replace (N.to_nat n) with (String.length d) by lia. by rewrite string_take_all.
Qed.

(** [1 << 20] *)
Definition body_limit : N := 1048576.

(** ** Routing *)

(** A path [ServeMux] serves as it is: it starts with a slash, has no empty
    segment but possibly the last, and no [.] or [..] segment.  For the others the
    mux answers with a redirect to the clean path. *)
Fixpoint split_all (sep : ascii) (fuel : nat) (s : string) : list string :=
  match fuel with
  | 0 => [s]
  | S fuel' => match cut sep s with
               | Some (l, r) => l :: split_all sep fuel' r
               | None => [s]
               end
  end.

Fixpoint segments_clean (l : list string) : bool :=
  match l with
  | [] => true
  | [s] => negb (String.eqb s ".") && negb (String.eqb s "..")
  | s :: l' => negb (String.eqb s "") && negb (String.eqb s ".") && negb (String.eqb s "..")
               && segments_clean l'
  end.

Definition path_clean (p : string) : bool :=
  match p with
  | String "/" r => segments_clean (split_all "/" (String.length r) r)
  | _ => false
  end.

(** A pattern that ends in a slash matches every path below it. *)
Definition pattern_matches (pattern path : string) : bool :=
  if HasSuffix pattern "/" then HasPrefix path pattern else String.eqb pattern path.

(** The handler of the longest pattern that matches. *)
Fixpoint mux_match {H : Type} (routes : list (string * H)) (path : string)
    (best : option (string * H)) : option H :=
  match routes with
  | [] => snd <$> best
  | (p, h) :: routes' =>
      let better := match best with
                    | None => true
                    | Some (q, _) => (String.length q <? String.length p)
                    end in
      mux_match routes' path
        (if pattern_matches p path && better then Some (p, h) else best)
  end.

Inductive routed (H : Type) : Type :=
  | ToHandler (h : H)
  | ToRedirect
  | ToNotFound.
Arguments ToHandler {H} h.
Arguments ToRedirect {H}.
Arguments ToNotFound {H}.

(** [mux.ServeHTTP]: also a path that lacks only the final slash of a pattern is
    redirected. *)
Definition mux_route {H : Type} (routes : list (string * H)) (path : string) : routed H :=
  if negb (path_clean path) then ToRedirect
  else match mux_match routes path None with
       | Some h => ToHandler h
       | None =>
           if existsb (λ r, String.eqb (r.1) (path +:+ "/")) routes
           then ToRedirect else ToNotFound
       end.
