(* ===== verification/Server.v ===== *)
(** [src/server/server.go] and [src/server/watch.go]: the HTTP API over a store.  A
    handler that reads the store more than once takes one store per read, since
    other requests run in between; [ServeHTTP] gives it the same one each time.
    The log lines are left out. *)

From S2P Require Import Prelude GoStrings GoEncoding GoFmt GoTime GoJson JsonFields Entry BoltDB Kv StoreSpec.
From S2P Require Import BoltStore WatchCache Watchable Http.

Local Open Scope string_scope.
Local Open Scope nat_scope.

(** ** Data types *)

(** [type ConfigItem struct] *)
Record ConfigItem := mkConfigItem {
  ci_Key : string;
  ci_Value : string;
  ci_Revision : N;
  ci_CreateRevision : N;
  ci_ModRevision : N;
  ci_Version : N;
}.

#[export] Instance ConfigItem_eq_dec : EqDecision ConfigItem.
Proof. solve_decision. Defined.

(** [type ConfigResponse struct] *)
Record ConfigResponse := mkConfigResponse {
  cr_Revision : N;
  cr_Count : N;
  cr_Configs : list ConfigItem;
}.

(** [type WatchEvent struct] and [type WatchResponse struct] *)
Record WatchEvent := mkWatchEvent {
  we_Type : string;
  we_Entry : ConfigItem;
  we_PrevEntry : option ConfigItem;
}.
Record WatchResponse := mkWatchResponse {
  wr_Revision : N;
  wr_Events : list WatchEvent;
}.

Definition config_json (c : ConfigItem) : json :=
  JObj [("key", JStr (ci_Key c)); ("value", JStr (ci_Value c));
        ("revision", json_uint (ci_Revision c));
        ("create_revision", json_uint (ci_CreateRevision c));
        ("mod_revision", json_uint (ci_ModRevision c));
        ("version", json_uint (ci_Version c))].

(** [count] is left out when it is zero. *)
Definition config_response_json (r : ConfigResponse) : json :=
  JObj ([("revision", json_uint (cr_Revision r))]
        ++ (if (cr_Count r =? 0)%N then [] else [("count", json_uint (cr_Count r))])
        ++ [("configs", JArr (map config_json (cr_Configs r)))])%list.

(** [prev_entry] is left out when it is [nil]. *)
Definition watch_event_json (e : WatchEvent) : json :=
  JObj ([("type", JStr (we_Type e)); ("entry", config_json (we_Entry e))]
        ++ match we_PrevEntry e with
           | Some p => [("prev_entry", config_json p)]
           | None => []
           end)%list.

Definition watch_response_json (r : WatchResponse) : json :=
  JObj [("revision", json_uint (wr_Revision r));
        ("events", JArr (map watch_event_json (wr_Events r)))].

Definition entryToConfig (e : Entry) : ConfigItem :=
  mkConfigItem (Key e) (bytes_to_string (Value e)) (Revision e) (CreateRevision e)
    (ModRevision e) (Version e).

(** ** Helpers *)

(** [header] is what was set on the [ResponseWriter] before. *)
Definition writeJSON (header : list (string * string)) (status : Z) (v : json) : response :=
  mkResponse status (header_Set header "Content-Type" "application/json") (json_Encode v).

(** [httpError] with the formatted message. *)
Definition httpError (status : Z) (msg : string) : response :=
  writeJSON [] status (JObj [("error", JStr msg)]).

Definition configKey (path : string) : res (string * string * string) :=
  let trimmed := TrimPrefix path "/api/v1/config/" in
  let trimmed := TrimSuffix trimmed "/" in
  match SplitN trimmed "/" 3 with
  | [p0] => Ok (p0, "", "")
  | [p0; p1] => Ok (p0, p1, "")
  | [p0; p1; p2] => Ok (p0, p1, p2)
  | _ => Err (EMsg ("invalid path: " +:+ path))
  end.

Definition storeKey (tenant namespace name : string) : string :=
  tenant +:+ "/" +:+ namespace +:+ "/" +:+ name.

Definition listPrefix (tenant namespace : string) : string :=
  if String.eqb namespace "" then tenant +:+ "/" else tenant +:+ "/" +:+ namespace +:+ "/".

(** ** Handlers *)

Definition defaultWatchTimeout : Z := 30000000000.
Definition maxWatchTimeout : Z := 60000000000.

(** The type assertion of [newBase] to a [WatchableStore], and its [WatchCache()]. *)
Class HasWatchCache (S : Type) := watch_cache : S → option WatchCache.
#[export] Instance watchable_has_cache {S : Type} : HasWatchCache (WatchableStore S) :=
  λ ws, Some (ws_wc ws).

(** [type Server struct] with the process's gauge [metrics.StoreRevision]; its
    field [wc] is the cache of [store]. *)
Record Server (S : Type) := mkServer {
  srv_store : S;
  srv_StoreRevision : N;
}.
Arguments mkServer {S} _ _.
Arguments srv_store {S} _.
Arguments srv_StoreRevision {S} _.

Section handlers.
Context {S : Type} `{!Store S}.

(** [s] is the store at [Get] and [s'] at [Rev]. *)
Definition handleGet (s s' : S) (tenant namespace name : string) : res response :=
  let key := storeKey tenant namespace name in
  match store_Get s key with
  | Panic => Panic
  | Err e =>
      Ok (if decide (e = ErrKeyNotFound)
          then httpError StatusNotFound ("key not found: " +:+ key)
          else httpError StatusInternalServerError ("failed to get key: " +:+ error_Error e))
  | Ok entry =>
      Ok (writeJSON [] StatusOK
            (config_response_json (mkConfigResponse (store_Rev s') 0 [entryToConfig entry])))
  end.

(** [s] is the store at [List] and [s'] at [Rev]. *)
Definition handleList (s s' : S) (tenant namespace : string) : res response :=
  let prefix := listPrefix tenant namespace in
  match store_List s prefix with
  | (_, Panic) => Panic
  | (_, Err e) => Ok (httpError StatusInternalServerError ("list: " +:+ error_Error e))
  | (entries, Ok _) =>
      let configs := entryToConfig <$> entries in
      Ok (writeJSON [] StatusOK
            (config_response_json
               (mkConfigResponse (store_Rev s') (N.of_nat (length configs)) configs)))
  end.

Definition handlePut (srv : Server S) (r : request) (tenant namespace name : string)
    : Server S * res response :=
  match ReadAll_limited body_limit (rq_Body r) with
  | Panic => (srv, Panic)
  | Err e => (srv, Ok (httpError StatusBadRequest ("failed to read request body: " +:+ error_Error e)))
  | Ok data =>
      let key := storeKey tenant namespace name in
      match store_Put (srv_store srv) key (Some data) with
      | (st, _, Panic) => (mkServer st (srv_StoreRevision srv), Panic)
      | (st, _, Err e) =>
          (mkServer st (srv_StoreRevision srv),
           Ok (httpError StatusInternalServerError ("put: " +:+ error_Error e)))
      | (st, result, Ok _) =>
          match result with
          | Some (mkPutResult (Some entry) prev) =>
              let status := match prev with None => StatusCreated | Some _ => StatusOK end in
              let header := header_Set [] "X-Paladin-Revision" (format_uint (Revision entry)) in
              (mkServer st (Revision entry),
               Ok (writeJSON header status
                     (config_response_json
                        (mkConfigResponse (Revision entry) 0 [entryToConfig entry]))))
          | _ => (mkServer st (srv_StoreRevision srv), Panic)
          end
      end
  end.

(** [after st] is the store at the [Rev] that follows the [Delete]; [id] when
    nothing happens in between. *)
Definition handleDelete (after : S → S) (srv : Server S) (tenant namespace name : string)
    : Server S * res response :=
  let key := storeKey tenant namespace name in
  match store_Delete (srv_store srv) key with
  | (st, Panic) => (mkServer st (srv_StoreRevision srv), Panic)
  | (st, Err e) =>
      (mkServer st (srv_StoreRevision srv),
       Ok (if decide (e = ErrKeyNotFound)
           then httpError StatusNotFound ("key not found: " +:+ key)
           else httpError StatusInternalServerError
                  ("failed to delete key: " +:+ error_Error e)))
  | (st, Ok deleted) =>
      let st' := after st in
      (mkServer st' (store_Rev st'),
       Ok (writeJSON [] StatusOK
             (config_response_json (mkConfigResponse (store_Rev st') 0 [entryToConfig deleted]))))
  end.

Definition handleRev (s : S) : response :=
  writeJSON [] StatusOK (JObj [("revision", json_uint (store_Rev s))]).

Definition handleConfig (srv : Server S) (r : request) : Server S * res response :=
  match configKey (rq_Path r) with
  | Panic => (srv, Panic)
  | Err _ => (srv, Ok (httpError StatusBadRequest ("invalid path: " +:+ rq_Path r)))
  | Ok (tenant, namespace, name) =>
      let s := srv_store srv in
      if String.eqb (rq_Method r) "GET" then
        (srv, if String.eqb name "" then handleList s s tenant namespace
              else handleGet s s tenant namespace name)
      else if String.eqb (rq_Method r) "PUT" then
        if String.eqb name ""
        then (srv, Ok (httpError StatusBadRequest "name is required for PUT"))
        else handlePut srv r tenant namespace name
      else if String.eqb (rq_Method r) "DELETE" then
        if String.eqb name ""
        then (srv, Ok (httpError StatusBadRequest "name is required for DELETE"))
        else handleDelete id srv tenant namespace name
      else (srv, Ok (httpError StatusMethodNotAllowed
                       ("method " +:+ rq_Method r +:+ " not allowed")))
  end.

(** [handleWatch] up to the call of [WaitForEvents]: an error response, or the
    arguments of the call. *)
Definition watch_request (r : request) : response + (N * string * Z) :=
  if negb (String.eqb (rq_Method r) "GET") then
    inl (httpError StatusMethodNotAllowed "only GET allowed")
  else
    let trimmed := TrimSuffix (TrimPrefix (rq_Path r) "/api/v1/watch/") "/" in
    if String.eqb trimmed "" then inl (httpError StatusBadRequest "tenant is required")
    else
      let prefix := trimmed +:+ "/" in
      let revStr := query_Get (rq_Query r) "revision" in
      match (if String.eqb revStr "" then Some 0%N else ParseUint revStr) with
      | None => inl (httpError StatusBadRequest ("invalid revision: " +:+ revStr))
      | Some afterRev =>
          let timeoutStr := query_Get (rq_Query r) "timeout" in
          if String.eqb timeoutStr "" then inr (afterRev, prefix, defaultWatchTimeout)
          else match Atoi timeoutStr with
               | Some secs =>
                   if (secs <=? 0)%Z
                   then inl (httpError StatusBadRequest ("invalid timeout: " +:+ timeoutStr))
                   else
                     let timeout := int64 (secs * Second) in
                     inr (afterRev, prefix,
                          if (maxWatchTimeout <? timeout)%Z then maxWatchTimeout else timeout)
               | None => inl (httpError StatusBadRequest ("invalid timeout: " +:+ timeoutStr))
               end
      end.

(** The conversion of one event; a [nil] entry panics. *)
Definition watch_event (e : Event) : res WatchEvent :=
  entry ← deref (ev_Entry e);
  Ok (mkWatchEvent (EventType_String (ev_Type e)) (entryToConfig entry)
        (entryToConfig <$> ev_PrevEntry e)).

(** The response to the events; [s] and [s'] are the store at the two calls of
    [Rev] that follow [WaitForEvents]. *)
Definition watch_reply (events : list Event) (s s' : S) : res response :=
  watchEvents ← mapM watch_event events;
  let header := header_Set [] "Content-Type" "application/json" in
  let header := header_Set header "X-Paladin-Revision" (format_uint (store_Rev s)) in
  Ok (mkResponse StatusOK header
        (json_Encode (watch_response_json (mkWatchResponse (store_Rev s') watchEvents)))).

(** [handleWatch] at time [start]: [wakes] are the cache and the time at each pass
    of [WaitForEvents]; [None] while it waits. *)
Definition handleWatch (r : request) (start : Z) (wakes : list (WatchCache * Z)) (s s' : S)
    : option (res response) :=
  match watch_request r with
  | inl resp => Some (Ok resp)
  | inr (afterRev, prefix, timeout) =>
      match WaitForEvents afterRev prefix timeout start wakes with
      | None => None
      | Some (Ok events) => Some (watch_reply events s s')
      | Some (Err e) => Some (Err e)
      | Some Panic => Some Panic
      end
  end.

(** ** Routes *)

Inductive handler : Set := HConfig | HRev | HWatch | HHealthz | HMetrics.

(** [newBase] and [New]: the watch route only when the store has a cache. *)
Definition base_routes `{!HasWatchCache S} (s : S) : list (string * handler) :=
  ([("/api/v1/rev", HRev)]
   ++ match watch_cache s with Some _ => [("/api/v1/watch/", HWatch)] | None => [] end
   ++ [("/healthz", HHealthz); ("/metrics", HMetrics)])%list.

Definition routes `{!HasWatchCache S} (s : S) : list (string * handler) :=
  (base_routes s ++ [("/api/v1/config/", HConfig)])%list.

(** [http.NotFound] *)
Definition NotFound_response : response :=
  mkResponse StatusNotFound
    [("Content-Type", "text/plain; charset=utf-8"); ("X-Content-Type-Options", "nosniff")]
    ("404 page not found" +:+ String "010" "").

(** The handler of a route, at once: [None] for the long poll while it waits and
    for [/metrics], which is the library's. *)
Definition serve `{!HasWatchCache S} (srv : Server S) (h : handler) (r : request) (now : Z)
    : Server S * option (res response) :=
  match h with
  | HConfig => let '(srv', resp) := handleConfig srv r in (srv', Some resp)
  | HRev => (srv, Some (Ok (handleRev (srv_store srv))))
  | HWatch =>
      (srv, match watch_cache (srv_store srv) with
            | Some wc => handleWatch r now [(wc, now)] (srv_store srv) (srv_store srv)
            | None => None
            end)
  | HHealthz => (srv, Some (Ok (mkResponse StatusOK [] "ok")))
  | HMetrics => (srv, None)
  end.

(** [ServeHTTP]; the redirects of the mux are left to it. *)
Definition ServeHTTP `{!HasWatchCache S} (srv : Server S) (r : request) (now : Z)
    : Server S * option (res response) :=
  match mux_route (routes (srv_store srv)) (rq_Path r) with
  | ToHandler h => serve srv h r now
  | ToRedirect => (srv, None)
  | ToNotFound => (srv, Some (Ok NotFound_response))
  end.
End handlers.

(** ** The documents as a client reads them *)

(** Strings are made valid UTF-8 on the way. *)
Definition valid_item (c : ConfigItem) : ConfigItem :=
  mkConfigItem (ToValidUTF8 (ci_Key c)) (ToValidUTF8 (ci_Value c)) (ci_Revision c)
    (ci_CreateRevision c) (ci_ModRevision c) (ci_Version c).
Definition valid_event (e : WatchEvent) : WatchEvent :=
  mkWatchEvent (ToValidUTF8 (we_Type e)) (valid_item (we_Entry e)) (valid_item <$> we_PrevEntry e).

Lemma norm_config_json (c : ConfigItem) : norm (config_json c) = config_json (valid_item c).
Proof. reflexivity. Qed.

Lemma wf_config_json (c : ConfigItem) : wf_json (config_json c).
Proof. constructor. repeat constructor. Qed.

Lemma norm_config_response (r : ConfigResponse) :
  norm (config_response_json r)
  = config_response_json (mkConfigResponse (cr_Revision r) (cr_Count r) (valid_item <$> cr_Configs r)).
Proof.
  unfold config_response_json. cbn [norm cr_Revision cr_Count cr_Configs]. f_equal.
  rewrite !map_app. f_equal. f_equal.
  - by case_match.
  - cbn [map fst snd norm]. change (ToValidUTF8 "configs") with "configs".
    by rewrite !map_map.
Qed.

Lemma wf_config_response (r : ConfigResponse) : wf_json (config_response_json r).
Proof.
  constructor. rewrite !Forall_app. split_and!.
  - repeat constructor.
  - case_match; repeat constructor.
  - constructor; [|constructor]. constructor. apply Forall_map, Forall_forall.
    intros c _. apply wf_config_json.
Qed.

Lemma norm_watch_event (e : WatchEvent) : norm (watch_event_json e) = watch_event_json (valid_event e).
Proof. destruct e as [ty en [p|]]; reflexivity. Qed.

Lemma wf_watch_event (e : WatchEvent) : wf_json (watch_event_json e).
Proof.
  constructor. apply Forall_app. split.
  - constructor; [constructor|]. constructor; [apply wf_config_json|constructor].
  - destruct (we_PrevEntry e); [|constructor]. constructor; [apply wf_config_json|constructor].
Qed.

Lemma norm_watch_response (r : WatchResponse) :
  norm (watch_response_json r)
  = watch_response_json (mkWatchResponse (wr_Revision r) (valid_event <$> wr_Events r)).
Proof.
  assert (map norm (map watch_event_json (wr_Events r))
    = map watch_event_json (valid_event <$> wr_Events r)) as Hm.
  { change (valid_event <$> wr_Events r) with (map valid_event (wr_Events r)).
    rewrite !map_map. apply map_ext, norm_watch_event. }
  unfold watch_response_json. cbn [wr_Revision wr_Events]. by rewrite <- Hm.
Qed.

Lemma wf_watch_response (r : WatchResponse) : wf_json (watch_response_json r).
Proof.
  constructor. constructor; [constructor|]. constructor; [|constructor]. constructor.
  apply Forall_map, Forall_forall. intros e _. apply wf_watch_event.
Qed.

(** ** Keys *)

Lemma SplitN_key (t n x : string) :
  no_char "/" t = true → no_char "/" n = true → SplitN (storeKey t n x) "/" 3 = [t; n; x].
Proof.
  intros Ht Hn. unfold storeKey. simpl. rewrite (cut_app "/" t) by done.
  by rewrite (cut_app "/" n) by done.
Qed.

Lemma HasSuffix_app_r (p s : string) : s ≠ "" → HasSuffix (p +:+ s) "/" = HasSuffix s "/".
Proof.
  intros Hs. apply eq_iff_eq_true. rewrite !HasSuffix_spec. split.
  - intros [r Hr]. revert r Hr. induction p as [|b p IH]; intros r Hr; [by exists r|].
    destruct r as [|c r]; simpl in Hr; injection Hr as -> Hr; [|by apply (IH r)].
    exfalso. by destruct p, s.
  - intros [r ->]. exists (p +:+ r). by rewrite string_app_assoc.
Qed.

Lemma HasSuffix_storeKey (t n x : string) :
  x ≠ "" → HasSuffix (storeKey t n x) "/" = HasSuffix x "/".
Proof.
  intros Hx. unfold storeKey. rewrite <- !string_app_assoc. by apply HasSuffix_app_r.
Qed.

Definition config_path (key : string) : string := "/api/v1/config/" +:+ key.

Lemma configKey_path (t n x : string) :
  no_char "/" t = true → no_char "/" n = true → x ≠ "" → HasSuffix x "/" = false →
  configKey (config_path (storeKey t n x)) = Ok (t, n, x).
Proof.
  intros Ht Hn Hx Hs. unfold configKey, config_path. rewrite TrimPrefix_app.
  rewrite TrimSuffix_none by (by rewrite HasSuffix_storeKey). by rewrite SplitN_key.
Qed.

Lemma configKey_total (path : string) : ∃ t n x, configKey path = Ok (t, n, x).
Proof.
  unfold configKey. simpl. destruct (cut "/" _) as [[l r]|]; [|by eexists _, _, _].
  by destruct (cut "/" r) as [[l' r']|]; eexists _, _, _.
Qed.

Lemma string_cut_inj (c : ascii) (l l' r r' : string) :
  no_char c l = true → no_char c l' = true →
  l +:+ String c r = l' +:+ String c r' → l = l' ∧ r = r'.
Proof.
  intros Hl Hl' Heq. pose proof (cut_app c l r Hl) as H1. rewrite Heq, cut_app in H1 by done.
  by injection H1 as -> ->.
Qed.

Lemma storeKey_under (t n t' n' x : string) :
  no_char "/" t = true → no_char "/" n = true → no_char "/" t' = true → no_char "/" n' = true →
  n ≠ "" → HasPrefix (storeKey t' n' x) (listPrefix t n) = true ↔ t' = t ∧ n' = n.
Proof.
  intros Ht Hn Ht' Hn' Hne. unfold listPrefix. apply String.eqb_neq in Hne as ->.
  rewrite HasPrefix_spec. split.
  - intros [r Hr]. unfold storeKey in Hr. rewrite !string_app_assoc in Hr. simpl in Hr.
    apply string_cut_inj in Hr as [-> Hr]; [|done..].
    by apply string_cut_inj in Hr as [-> _].
  - intros [-> ->]. exists x. unfold storeKey. by rewrite !string_app_assoc.
Qed.

(** *** The paths of a namespace, with or without the last slash *)

Lemma HasSuffix_segment (n : string) : no_char "/" n = true → HasSuffix n "/" = false.
Proof.
  intros Hn. apply not_true_iff_false. intros [r ->]%HasSuffix_spec.
  rewrite no_char_app in Hn. by apply andb_true_iff in Hn as [_ ?].
Qed.

Lemma TrimSuffix_namespace (t n slash : string) :
  no_char "/" n = true → n ≠ "" → slash ∈ [""; "/"] →
  TrimSuffix (t +:+ "/" +:+ n +:+ slash) "/" = t +:+ "/" +:+ n.
Proof.
  intros Hn Hne Hs. rewrite <- !string_app_assoc.
  apply elem_of_cons in Hs as [->|Hs].
  2: { apply list_elem_of_singleton in Hs as ->. apply TrimSuffix_app. }
  rewrite string_app_nil_r. apply TrimSuffix_none. rewrite HasSuffix_app_r by done.
  by apply HasSuffix_segment.
Qed.

Lemma listPrefix_namespace (t n : string) : n ≠ "" → listPrefix t n = (t +:+ "/" +:+ n) +:+ "/".
Proof.
  intros Hne%String.eqb_neq. unfold listPrefix. rewrite Hne. by rewrite !string_app_assoc.
Qed.

Lemma configKey_namespace (t n slash : string) :
  no_char "/" t = true → no_char "/" n = true → n ≠ "" → slash ∈ [""; "/"] →
  configKey ("/api/v1/config/" +:+ t +:+ "/" +:+ n +:+ slash) = Ok (t, n, "").
Proof.
  intros Ht Hn Hne Hs. unfold configKey. rewrite TrimPrefix_app, TrimSuffix_namespace by done.
  simpl. rewrite (cut_app "/" t) by done. by rewrite (cut_none "/" n).
Qed.

(** A watch of a namespace with the parameters a client gives. *)
Lemma watch_request_namespace (r : request) (t n slash : string) (rev secs : N) :
  no_char "/" n = true → n ≠ "" → slash ∈ [""; "/"] →
  rq_Method r = "GET" → rq_Path r = "/api/v1/watch/" +:+ t +:+ "/" +:+ n +:+ slash →
  query_Get (rq_Query r) "revision" = format_uint rev → (rev ≤ max_uint64)%N →
  query_Get (rq_Query r) "timeout" = format_uint secs → (0 < secs ≤ 60)%N →
  watch_request r = inr (rev, listPrefix t n, (Z.of_N secs * Second)%Z).
Proof.
  intros Hn Hne Hs Hm Hp Hr Hrev Ht Hsecs. unfold watch_request. rewrite Hm, Hp, Hr, Ht.
  rewrite TrimPrefix_app, TrimSuffix_namespace, listPrefix_namespace by done.
  destruct (String.eqb_spec (t +:+ "/" +:+ n) "") as [He|_]; [by destruct t|].
  cbn [String.eqb Ascii.eqb Bool.eqb negb]. rewrite !format_uint_nonempty, ParseUint_format by done.
  rewrite Atoi_format by (unfold two63; lia). destruct (Z.leb_spec (Z.of_N secs) 0); [lia|].
  rewrite int64_small by (unfold Second, two63; lia). unfold maxWatchTimeout, Second.
  by destruct (Z.ltb_spec 60000000000 (Z.of_N secs * 1000000000)); [lia|].
Qed.

Lemma HasPrefix_namespace (t n k : string) :
  n ≠ "" → HasPrefix k (listPrefix t n) = true ↔ ∃ x, k = storeKey t n x.
Proof.
  intros Hne. rewrite HasPrefix_spec, listPrefix_namespace by done. unfold storeKey.
  by split; intros [x ->]; exists x; rewrite !string_app_assoc.
Qed.

Lemma storeKey_inj (t n x t' n' x' : string) :
  no_char "/" t = true → no_char "/" n = true → no_char "/" t' = true → no_char "/" n' = true →
  storeKey t' n' x' = storeKey t n x → t' = t ∧ n' = n ∧ x' = x.
Proof.
  intros Ht Hn Ht' Hn' Heq. unfold storeKey in Heq. simpl in Heq.
  apply string_cut_inj in Heq as [-> Heq]; [|done..].
  by apply string_cut_inj in Heq as [-> ->].
Qed.

(** The event of the watch response for an event of the cache. *)
Definition reply_event (e : Event) : WatchEvent :=
  mkWatchEvent (EventType_String (ev_Type e)) (entryToConfig (default zero_entry (ev_Entry e)))
    (entryToConfig <$> ev_PrevEntry e).

Lemma watch_event_entries (evs : list Event) :
  Forall (λ e, is_Some (ev_Entry e)) evs → mapM watch_event evs = Ok (reply_event <$> evs).
Proof.
  intros Hall. apply mapM_res_Ok. intros e He. rewrite Forall_forall in Hall.
  destruct (Hall e He) as [en Hen]. unfold watch_event, reply_event. by rewrite Hen.
Qed.

(** ** The API against the specification *)

Section refinement.
Context {S : Type} `{StoreLaws S}.

Definition item (e : Entry) : ConfigItem := entryToConfig e.

(** The response of a successful [GET] of one key. *)
Definition found_response (rev : N) (e : Entry) : response :=
  writeJSON [] StatusOK (config_response_json (mkConfigResponse rev 0 [entryToConfig e])).

Lemma handleGet_spec (s s' : S) (a a' : kv) (t n x : string) :
  store_rep s a → store_rep s' a' →
  handleGet s s' t n x = Ok match kv_map a !! storeKey t n x with
                            | Some e => found_response (kv_rev a') e
                            | None => httpError StatusNotFound ("key not found: " +:+ storeKey t n x)
                            end.
Proof.
  intros Hs Hs'. unfold handleGet. rewrite (law_Get s a _ Hs).
  destruct (kv_map a !! storeKey t n x); [by rewrite (law_Rev s' a' Hs')|].
  by rewrite decide_True.
Qed.

Lemma handleList_spec (s s' : S) (a a' : kv) (t n : string) :
  store_rep s a → store_rep s' a' →
  handleList s s' t n
  = Ok (writeJSON [] StatusOK (config_response_json
          (mkConfigResponse (kv_rev a') (N.of_nat (length (kv_list a (listPrefix t n))))
             (entryToConfig <$> kv_list a (listPrefix t n))))).
Proof.
  intros Hs Hs'. unfold handleList. rewrite (law_List s a _ Hs), (law_Rev s' a' Hs').
  by rewrite length_fmap.
Qed.

Lemma handlePut_spec (srv : Server S) (a : kv) (r : request) (d t n x : string) :
  store_rep (srv_store srv) a → (kv_rev a < store_limit)%N → key_ok (storeKey t n x) →
  ReadAll_limited body_limit (rq_Body r) = Ok d →
  let e := kv_next a (storeKey t n x) (Some d) in
  ∃ srv', handlePut srv r t n x
    = (srv', Ok (writeJSON [("X-Paladin-Revision", format_uint (Revision e))]
                   match kv_map a !! storeKey t n x with None => StatusCreated | Some _ => StatusOK end
                   (config_response_json (mkConfigResponse (Revision e) 0 [entryToConfig e])))) ∧
    store_rep (srv_store srv') (kv_put a (storeKey t n x) (Some d)) ∧
    srv_StoreRevision srv' = kv_rev (kv_put a (storeKey t n x) (Some d)).
Proof.
  intros Hs Hlim Hk Hd e. pose proof (ReadAll_limited_length _ _ _ Hd) as Hlen.
  assert (can_put store_limit a (storeKey t n x) (Some d)) as Hcan.
  { apply can_put_small; [by eapply law_ok|done|apply law_limit|done|].
    cbn [bytes_to_string default]. unfold body_limit, id in *. lia. }
  destruct (law_Put _ a _ _ Hs Hcan) as (st & Hput & Hst).
  unfold handlePut. rewrite Hd, Hput. unfold put_result. fold e.
  eexists. split; [reflexivity|]. split; [done|]. apply kv_next_Revision.
Qed.

(** A key that does not fit the database. *)
Lemma handlePut_refused (srv : Server S) (a : kv) (r : request) (d t n x : string) :
  store_rep (srv_store srv) a → (kv_rev a < store_limit)%N → ¬ key_ok (storeKey t n x) →
  ReadAll_limited body_limit (rq_Body r) = Ok d →
  ∃ srv' resp, handlePut srv r t n x = (srv', Ok resp) ∧ rs_Status resp = 500%Z ∧
    store_rep (srv_store srv') a.
Proof.
  intros Hs Hlim Hk Hd.
  destruct (law_Put_refused _ a (storeKey t n x) (Some d) Hs Hlim) as (st & res & e & Hput & Hst);
    [tauto|].
  unfold handlePut. rewrite Hd, Hput. by eexists _, _.
Qed.

Lemma handleDelete_spec (srv : Server S) (a : kv) (t n x : string) :
  store_rep (srv_store srv) a → (kv_rev a < store_limit)%N →
  ∃ srv', handleDelete id srv t n x
    = (srv', Ok match kv_map a !! storeKey t n x with
                | Some e => found_response (kv_rev a + 1) (kv_deleted a e)
                | None => httpError StatusNotFound ("key not found: " +:+ storeKey t n x)
                end) ∧
    store_rep (srv_store srv') (kv_delete a (storeKey t n x)).
Proof.
  intros Hs Hlim. unfold handleDelete, kv_delete.
  destruct (kv_map a !! storeKey t n x) as [e|] eqn:He.
  - destruct (law_Delete _ a _ e Hs Hlim He) as (st & -> & Hst). unfold kv_delete in Hst.
    rewrite He in Hst. unfold id. rewrite (law_Rev _ _ Hst).
    eexists. split; [reflexivity|exact Hst].
  - destruct (law_Delete_missing _ a _ Hs Hlim He) as (st & -> & Hst).
    eexists. rewrite decide_True by done. split; [reflexivity|exact Hst].
Qed.
End refinement.

(** ** Properties *)

Definition segment (s : string) : Prop := no_char "/" s = true.

(** C36: The path of a key is parsed back into the tenant, the namespace and the name
    it was made of, and no path at all is refused. *)
Theorem config_key_roundtrip (t n x path : string) :
  segment t → segment n → x ≠ "" → HasSuffix x "/" = false →
  configKey (config_path (storeKey t n x)) = Ok (t, n, x) ∧ is_ok (configKey path) = true.
Proof.
  intros Ht Hn Hx Hs. split; [by apply configKey_path|].
  by destruct (configKey_total path) as (t' & n' & x' & ->).
Qed.

(** An entry of the store as the documents show it. *)
Lemma shown_item (a : kv) (k : string) (e : Entry) :
  kv_ok a → kv_valid a → kv_map a !! k = Some e →
  valid_item (entryToConfig e)
  = mkConfigItem k (ToValidUTF8 (bytes_to_string (Value e))) (Revision e) (CreateRevision e)
      (ModRevision e) (Version e).
Proof.
  intros Hok Hv Hk. unfold valid_item, entryToConfig. cbn [ci_Key ci_Value ci_Revision
    ci_CreateRevision ci_ModRevision ci_Version].
  rewrite (kv_valid_Key a k e Hok Hv Hk), (ToValidUTF8_valid k); [done|by eapply Hv].
Qed.

(** What a list of a namespace is answered: the entries of its keys, each once. *)
Lemma namespace_list {S : Type} `{StoreLaws S} (srv : Server S) (a : kv) (t n slash : string)
    (r : request) :
  store_rep (srv_store srv) a → kv_valid a → segment t → segment n → n ≠ "" →
  slash ∈ [""; "/"] → rq_Method r = "GET" →
  rq_Path r = "/api/v1/config/" +:+ t +:+ "/" +:+ n +:+ slash →
  ∃ resp items, handleConfig srv r = (srv, Ok resp) ∧ rs_Status resp = 200%Z ∧
    json_decode_first (rs_Body resp)
      = Some (config_response_json (mkConfigResponse (kv_rev a) (N.of_nat (length items)) items)) ∧
    NoDup (ci_Key <$> items) ∧
    (∀ it, it ∈ items ↔ ∃ x e, store_Get (srv_store srv) (storeKey t n x) = Ok e ∧
       it = mkConfigItem (storeKey t n x) (ToValidUTF8 (bytes_to_string (Value e))) (Revision e)
              (CreateRevision e) (ModRevision e) (Version e)).
Proof.
  intros Hs Hv Ht Hn Hne Hsl Hm Hp. pose proof (law_ok _ a Hs) as Hok.
  set (es := kv_list a (listPrefix t n)). unfold handleConfig. rewrite Hp, Hm, configKey_namespace by done.
  cbn [String.eqb Ascii.eqb Bool.eqb]. rewrite (handleList_spec _ _ a a t n Hs Hs). fold es.
  eexists _, (valid_item <$> (entryToConfig <$> es)). split; [reflexivity|]. split; [done|].
  cbn [rs_Body writeJSON]. split.
  { rewrite json_decode_first_Encode by apply wf_config_response.
    rewrite norm_config_response. cbn [cr_Revision cr_Count cr_Configs]. by rewrite !length_fmap. }
  split.
  { replace (ci_Key <$> (valid_item <$> (entryToConfig <$> es))) with (Key <$> es);
      [by apply kv_list_keys|].
    rewrite <- !list_fmap_compose. apply list_fmap_ext. intros i e He%list_elem_of_lookup_2.
    apply kv_list_elem in He as (k & _ & Hk). unfold compose. rewrite (shown_item a k e) by done.
    by apply (kv_valid_Key a). }
  intros it. rewrite <- list_fmap_compose, list_elem_of_fmap. split.
  - intros (e & -> & (k & Hpre & Hk)%kv_list_elem).
    apply HasPrefix_namespace in Hpre as [x ->]; [|done]. exists x, e. rewrite (law_Get _ a _ Hs), Hk.
    split; [done|]. by apply (shown_item a).
  - intros (x & e & Hg & ->). rewrite (law_Get _ a _ Hs) in Hg.
    destruct (kv_map a !! storeKey t n x) as [e0|] eqn:Hk; [|done]. injection Hg as ->.
    assert (e ∈ es) as He.
    { apply kv_list_elem. exists (storeKey t n x). split; [|done]. apply HasPrefix_namespace; eauto. }
    exists e. split; [|done]. symmetry. by apply (shown_item a).
Qed.

(** What a watch of a namespace is answered, after wake-ups that found nothing:
    the events of its keys after the revision that the cache still has, in order. *)
Lemma namespace_watch {S : Type} `{StoreLaws S} (ws : WatchableStore S) (a : kv) (h : list Event)
    (t n slash : string) (r : request) (rev secs : N) (start now : Z) (wakes : list (WatchCache * Z)) :
  ws_rep ws a h → wc_closed (ws_wc ws) = false → segment n → n ≠ "" → slash ∈ [""; "/"] →
  rq_Method r = "GET" → rq_Path r = "/api/v1/watch/" +:+ t +:+ "/" +:+ n +:+ slash →
  query_Get (rq_Query r) "revision" = format_uint rev → (rev ≤ max_uint64)%N →
  query_Get (rq_Query r) "timeout" = format_uint secs → (0 < secs ≤ 60)%N →
  handleWatch r start wakes ws ws = None →
  let held := window (Z.to_nat (wc_capacity (ws_wc ws))) h in
  ∃ told, told `sublist_of` held ∧
    (∀ e, e ∈ told ↔ e ∈ held ∧ (rev < ev_rev e)%N ∧ ∃ x, ev_key e = storeKey t n x) ∧
    if decide (told = [] ∧ (now < start + Z.of_N secs * Second)%Z)
    then handleWatch r start (wakes ++ [(ws_wc ws, now)])%list ws ws = None
    else ∃ resp, handleWatch r start (wakes ++ [(ws_wc ws, now)])%list ws ws = Some (Ok resp) ∧
      rs_Status resp = 200%Z ∧
      json_decode_first (rs_Body resp)
        = Some (watch_response_json
                  (mkWatchResponse (kv_rev a) (valid_event <$> (reply_event <$> told)))).
Proof.
  intros Hrep Hcl Hn Hne Hsl Hm Hp Hr Hrev Ht Hsecs Hnone held.
  pose proof (ws_cache _ _ _ Hrep) as Hwc. assert (store_rep ws a) as Hs by (by exists h).
  pose proof (watch_request_namespace r t n slash rev secs Hn Hne Hsl Hm Hp Hr Hrev Ht Hsecs) as Hreq.
  unfold handleWatch in *. rewrite Hreq in *.
  destruct (WaitForEvents _ _ _ _ wakes) as [[]|] eqn:Hw; [done..|].
  rewrite (WaitForEvents_app _ _ _ _ _ _ Hw). set (told := filter (ev_match rev (listPrefix t n)) held).
  exists told. split; [apply sublist_filter|]. split.
  { intros e. unfold told, ev_match. rewrite list_elem_of_filter, HasPrefix_namespace by done. tauto. }
  assert (Forall (λ e, is_Some (ev_Entry e)) told) as Hen.
  { apply Forall_forall. intros e [_ He]%list_elem_of_filter. revert e He. apply Forall_forall.
    unfold held, window. by apply Forall_drop, (rep_entries _ _ Hwc). }
  unfold WaitForEvents, WaitForEvents_from, wait_pass. rewrite Hcl.
  rewrite (getEventsLocked_spec _ _ Hwc). fold held told.
  assert (∀ evs, evs = told → ∃ resp, Some (watch_reply evs ws ws) = Some (Ok resp) ∧
    rs_Status resp = 200%Z ∧ json_decode_first (rs_Body resp)
      = Some (watch_response_json
                (mkWatchResponse (kv_rev a) (valid_event <$> (reply_event <$> told))))) as Hreply.
  { intros evs ->. unfold watch_reply. rewrite (watch_event_entries told Hen). cbn [mbind res_bind].
    rewrite (law_Rev ws a Hs). eexists. split; [reflexivity|]. split; [done|]. cbn [rs_Body].
    rewrite json_decode_first_Encode by apply wf_watch_response. by rewrite norm_watch_response. }
  destruct told as [|e told'] eqn:Htold.
  - destruct (Z.leb_spec (start + Z.of_N secs * Second - now) 0).
    + rewrite decide_False by lia. by apply Hreply.
    + by rewrite decide_True by (split; [done|lia]).
  - rewrite decide_False by (intros [? _]; done). by apply Hreply.
Qed.

(** C9: A tenant and a namespace see exactly their own keys.  A [GET] of the path of
    the namespace is answered with a document that lists the entries of the keys
    under it, each once, and nothing else; a watch of the namespace, at a
    revision and with a timeout, tells exactly the events of the keys under it
    that are after the revision and still in the cache, in order, as soon as
    there is one, and waits until the timeout otherwise.  No key of another
    tenant or namespace is under it. *)
Theorem namespace_isolation {S : Type} `{StoreLaws S} (srv : Server (WatchableStore S)) (a : kv)
    (h : list Event) (t n slash : string) :
  ws_rep (srv_store srv) a h → kv_valid a → segment t → segment n → n ≠ "" → slash ∈ [""; "/"] →
  let ws := srv_store srv in
  let held := window (Z.to_nat (wc_capacity (ws_wc ws))) h in
  (∀ r, rq_Method r = "GET" → rq_Path r = "/api/v1/config/" +:+ t +:+ "/" +:+ n +:+ slash →
     ∃ resp items, handleConfig srv r = (srv, Ok resp) ∧ rs_Status resp = 200%Z ∧
       json_decode_first (rs_Body resp)
         = Some (config_response_json (mkConfigResponse (kv_rev a) (N.of_nat (length items)) items)) ∧
       NoDup (ci_Key <$> items) ∧
       (∀ it, it ∈ items ↔ ∃ x e, store_Get ws (storeKey t n x) = Ok e ∧
          it = mkConfigItem (storeKey t n x) (ToValidUTF8 (bytes_to_string (Value e))) (Revision e)
                 (CreateRevision e) (ModRevision e) (Version e))) ∧
  (∀ r rev secs start now wakes,
     rq_Method r = "GET" → rq_Path r = "/api/v1/watch/" +:+ t +:+ "/" +:+ n +:+ slash →
     query_Get (rq_Query r) "revision" = format_uint rev → (rev ≤ max_uint64)%N →
     query_Get (rq_Query r) "timeout" = format_uint secs → (0 < secs ≤ 60)%N →
     wc_closed (ws_wc ws) = false → handleWatch r start wakes ws ws = None →
     ∃ told, told `sublist_of` held ∧
       (∀ e, e ∈ told ↔ e ∈ held ∧ (rev < ev_rev e)%N ∧ ∃ x, ev_key e = storeKey t n x) ∧
       if decide (told = [] ∧ (now < start + Z.of_N secs * 1000000000)%Z)
       then handleWatch r start (wakes ++ [(ws_wc ws, now)])%list ws ws = None
       else ∃ resp, handleWatch r start (wakes ++ [(ws_wc ws, now)])%list ws ws = Some (Ok resp) ∧
         rs_Status resp = 200%Z ∧
         json_decode_first (rs_Body resp)
           = Some (watch_response_json
                     (mkWatchResponse (kv_rev a) (valid_event <$> (reply_event <$> told))))) ∧
  (∀ t' n' x x', segment t' → segment n' → storeKey t' n' x' = storeKey t n x →
     t' = t ∧ n' = n ∧ x' = x).
Proof.
  intros Hs Hv Ht Hn Hne Hsl ws held. split; [|split].
  - intros r Hm Hp. apply (namespace_list srv a t n slash r); [by exists h|done..].
  - intros r rev secs start now wakes Hm Hp Hr Hrev Hto Hsecs Hcl Hnone.
    by apply (namespace_watch ws a h t n slash r rev secs start now wakes).
  - intros t' n' x x' Ht' Hn'. by apply storeKey_inj.
Qed.

Section properties.
Context {S : Type} `{StoreLaws S}.

(** C6: A [PUT] is answered with [201] for a new key and [200] for an existing one, and
    with the revision it wrote; a [GET] of the same key that follows is answered
    with [200] and a document that a JSON reader reads as that entry, its value
    the body that was sent if that was valid UTF-8 of less than 1 MiB. *)
Theorem http_put_then_get (srv : Server S) (a : kv) (r r' : request) (t n x d : string) :
  store_rep (srv_store srv) a → (kv_rev a < store_limit)%N →
  segment t → segment n → x ≠ "" → HasSuffix x "/" = false → key_ok (storeKey t n x) →
  rq_Method r = "PUT" → rq_Path r = config_path (storeKey t n x) →
  rq_Body r = mkBody d None → (N.of_nat (String.length d) < body_limit)%N →
  ValidString d = true → ValidString (storeKey t n x) = true →
  rq_Method r' = "GET" → rq_Path r' = config_path (storeKey t n x) →
  let k := storeKey t n x in
  let e := kv_next a k (Some d) in
  ∃ srv' resp resp', handleConfig srv r = (srv', Ok resp) ∧
    rs_Status resp = match kv_map a !! k with None => StatusCreated | Some _ => StatusOK end ∧
    ("X-Paladin-Revision", format_uint (kv_rev a + 1)) ∈ rs_Header resp ∧
    handleConfig srv' r' = (srv', Ok resp') ∧ rs_Status resp' = StatusOK ∧
    json_decode_first (rs_Body resp')
      = Some (config_response_json (mkConfigResponse (kv_rev a + 1) 0
                [mkConfigItem k d (kv_rev a + 1) (CreateRevision e) (kv_rev a + 1) (Version e)])).
Proof.
  intros Hs Hlim Ht Hn Hx Hsuf Hk Hm Hp Hb Hlen Hvd Hvk Hm' Hp' k e.
  assert (ReadAll_limited body_limit (rq_Body r) = Ok d) as Hread.
  { unfold ReadAll_limited. rewrite Hb. cbn [b_data b_err].
    by destruct (N.leb_spec body_limit (N.of_nat (String.length d))); [lia|]. }
  destruct (handlePut_spec srv a r d t n x Hs Hlim Hk Hread) as (srv' & Hput & Hs' & _).
  unfold handleConfig. rewrite Hm, Hp, Hm', Hp', configKey_path by done.
  apply String.eqb_neq in Hx as Hxb. rewrite Hxb. cbn [String.eqb Ascii.eqb Bool.eqb].
  rewrite Hput. exists srv'. eexists _, _. split; [reflexivity|]. split; [done|]. split.
  { fold k e. unfold e. rewrite kv_next_Revision. apply list_elem_of_In. simpl. auto. }
  rewrite (handleGet_spec _ _ _ _ t n x Hs' Hs'), kv_put_get. split; [reflexivity|].
  split; [done|]. unfold found_response. cbn [rs_Body writeJSON].
  rewrite json_decode_first_Encode by apply wf_config_response.
  rewrite norm_config_response. fold k e. cbn [cr_Revision cr_Count cr_Configs fmap list_fmap].
  rewrite stored_valid by (unfold e; by rewrite kv_next_Key).
  unfold valid_item, entryToConfig. cbn [ci_Key ci_Value ci_Revision ci_CreateRevision
    ci_ModRevision ci_Version kv_rev kv_put].
  unfold e at 1 2 3 5. rewrite kv_next_Key, kv_next_Value, kv_next_Revision, kv_next_ModRevision.
  rewrite (ToValidUTF8_valid k) by done. cbn [bytes_to_string default]. unfold id.
  by rewrite ToValidUTF8_valid.
Qed.


(** Takes a table of outcomes apart and drops the rows of other cases. *)
Local Ltac solve_outcomes :=
  cbv zeta beta;
  repeat match goal with
  | |- _ ∧ _ => split
  | |- ∀ _, _ => intro
  | H : is_Some None |- _ => by destruct H
  | H : Ok _ = Ok _ |- _ => injection H as <-
  | _ => done
  | H : _ ∉ _ |- _ => exfalso; apply H; set_solver
  end.

(** C16: Every request to the configuration route is answered without a panic, with
    the status of its case and no other.  Its path always reads as some [t], [n]
    and [x], with [k] the key they make.  A [GET] without a name, a list, is
    [200]; of a key it is [200] when the key is there and [404] otherwise.  A
    [PUT] without a name, or whose body cannot be read, is [400]; of a key the
    database refuses [500]; otherwise [201] for a new key and [200] for an
    existing one, and the store has the body under the key.  A [DELETE] without
    a name is [400], of a key that is there [200], and the key is gone, and of a
    missing one [404].  Any other method is [405].  In all other cases the store
    is left as it was. *)
Theorem http_total (srv : Server S) (a : kv) (r : request) :
  store_rep (srv_store srv) a → (kv_rev a < store_limit)%N →
  ∃ t n x srv' resp a', configKey (rq_Path r) = Ok (t, n, x) ∧
    handleConfig srv r = (srv', Ok resp) ∧ store_rep (srv_store srv') a' ∧
    let k := storeKey t n x in
    let answered status state := rs_Status resp = status ∧ a' = state in
    (rq_Method r = "GET" → x = "" → answered 200%Z a) ∧
    (rq_Method r = "GET" → x ≠ "" → is_Some (kv_map a !! k) → answered 200%Z a) ∧
    (rq_Method r = "GET" → x ≠ "" → kv_map a !! k = None → answered 404%Z a) ∧
    (rq_Method r = "PUT" → x = "" → answered 400%Z a) ∧
    (∀ e, rq_Method r = "PUT" → x ≠ "" → ReadAll_limited body_limit (rq_Body r) = Err e →
       answered 400%Z a) ∧
    (∀ d, rq_Method r = "PUT" → x ≠ "" → ReadAll_limited body_limit (rq_Body r) = Ok d →
       (¬ key_ok k → answered 500%Z a) ∧
       (key_ok k → kv_map a !! k = None → answered 201%Z (kv_put a k (Some d))) ∧
       (key_ok k → is_Some (kv_map a !! k) → answered 200%Z (kv_put a k (Some d)))) ∧
    (rq_Method r = "DELETE" → x = "" → answered 400%Z a) ∧
    (rq_Method r = "DELETE" → x ≠ "" → is_Some (kv_map a !! k) → answered 200%Z (kv_delete a k)) ∧
    (rq_Method r = "DELETE" → x ≠ "" → kv_map a !! k = None → answered 404%Z a) ∧
    (rq_Method r ∉ ["GET"; "PUT"; "DELETE"] → answered 405%Z a).
Proof.
  intros Hs Hlim. destruct (configKey_total (rq_Path r)) as (t & n & x & Hck).
  exists t, n, x. unfold handleConfig. rewrite Hck. set (k := storeKey t n x).
  destruct (String.eqb_spec (rq_Method r) "GET") as [Hget|Hget].
  { rewrite Hget. exists srv. destruct (String.eqb_spec x "") as [Hx|Hx].
    - rewrite (handleList_spec _ _ _ _ t n Hs Hs). eexists _, a. solve_outcomes.
    - rewrite (handleGet_spec _ _ _ _ t n x Hs Hs). fold k.
      destruct (kv_map a !! k); eexists _, a; solve_outcomes. }
  destruct (String.eqb_spec (rq_Method r) "PUT") as [Hput|Hput].
  { rewrite Hput. destruct (String.eqb_spec x "") as [Hx|Hx]; [eexists srv, _, a; solve_outcomes|].
    destruct (ReadAll_limited body_limit (rq_Body r)) as [d|e|] eqn:Hd.
    3: { exfalso. revert Hd. unfold ReadAll_limited. repeat case_match; done. }
    2: { unfold handlePut. rewrite Hd. eexists srv, _, a. solve_outcomes. }
    destruct (decide (key_ok k)) as [Hk|Hk].
    - destruct (handlePut_spec srv a r d t n x Hs Hlim Hk Hd) as (srv' & -> & Hs' & _).
      fold k in Hs' |- *. destruct (kv_map a !! k); eexists srv', _, _;
        (split; [done|]; split; [done|]; split; [exact Hs'|]; solve_outcomes).
    - destruct (handlePut_refused srv a r d t n x Hs Hlim Hk Hd) as (srv' & resp & -> & Hst & Hs').
      exists srv', resp, a. solve_outcomes. }
  destruct (String.eqb_spec (rq_Method r) "DELETE") as [Hdel|Hdel].
  { rewrite Hdel. destruct (String.eqb_spec x "") as [Hx|Hx]; [eexists srv, _, a; solve_outcomes|].
    destruct (handleDelete_spec srv a t n x Hs Hlim) as (srv' & -> & Hs'). fold k in Hs' |- *.
    destruct (kv_map a !! k) eqn:Hk; eexists srv', _, _;
      (split; [done|]; split; [done|]; split; [exact Hs'|]; unfold kv_delete; rewrite ?Hk; solve_outcomes). }
  eexists srv, _, a. solve_outcomes.
Qed.

(** A body over 1 MiB is not refused: its first MiB is stored as the value, and the
    answer is the one of a successful [PUT]. *)
Theorem http_large_body_truncated (srv : Server S) (a : kv) (r : request) (t n x : string) :
  store_rep (srv_store srv) a → (kv_rev a < store_limit)%N →
  segment t → segment n → x ≠ "" → HasSuffix x "/" = false → key_ok (storeKey t n x) →
  rq_Method r = "PUT" → rq_Path r = config_path (storeKey t n x) →
  (body_limit < N.of_nat (String.length (b_data (rq_Body r))))%N →
  ∃ srv' resp e, handleConfig srv r = (srv', Ok resp) ∧
    rs_Status resp ∈ [StatusOK; StatusCreated] ∧
    store_Get (srv_store srv') (storeKey t n x) = Ok e ∧
    Value e = Some (string_take (N.to_nat body_limit) (b_data (rq_Body r))).
Proof.
  intros Hs Hlim Ht Hn Hx Hsuf Hk Hm Hp Hlen.
  assert (∀ l, (l < N.of_nat (String.length (b_data (rq_Body r))))%N →
    ReadAll_limited l (rq_Body r) = Ok (string_take (N.to_nat l) (b_data (rq_Body r)))) as Hread.
  { intros l Hl. unfold ReadAll_limited.
    by destruct (N.leb_spec l (N.of_nat (String.length (b_data (rq_Body r))))); [|lia]. }
  specialize (Hread _ Hlen). revert Hread. generalize (N.to_nat body_limit). intros lim Hread.
  destruct (handlePut_spec srv a r _ t n x Hs Hlim Hk Hread) as (srv' & Hput & Hs' & _).
  unfold handleConfig. rewrite Hm, Hp, configKey_path by done.
  apply String.eqb_neq in Hx as Hxb. rewrite Hxb. cbn [String.eqb Ascii.eqb Bool.eqb].
  rewrite Hput. eexists _, _, _. split; [reflexivity|].
  split; [destruct (kv_map a !! _); set_solver|].
  rewrite (law_Get _ _ _ Hs'), kv_put_get. split; [reflexivity|]. simpl. apply kv_next_Value.
Qed.
End properties.

(** A watch that asks for up to 9223372036 seconds waits that long or one minute,
    whichever is less; the product of more seconds wraps around, so that a request
    for 9223372037 seconds is accepted with a timeout that has already passed. *)
Theorem watch_timeout_bounds (r : request) (secs : N) :
  rq_Method r = "GET" → rq_Path r = "/api/v1/watch/t/n/" →
  rq_Query r = [("timeout", format_uint secs)] → (0 < secs)%N → (Z.of_N secs < two63)%Z →
  ∃ timeout, watch_request r = inr (0%N, "t/n/", timeout) ∧
    (timeout ≤ maxWatchTimeout)%Z ∧
    ((secs ≤ 9223372036)%N → timeout = Z.min (Z.of_N secs * Second) maxWatchTimeout) ∧
    (secs = 9223372037%N → (timeout < 0)%Z).
Proof.
  intros Hm Hp Hq Hpos Hmax. unfold watch_request. rewrite Hm, Hp, Hq. simpl.
  destruct (format_uint_cons secs) as (c & ds & Hf).
  assert (String.eqb (format_uint secs) "" = false) as -> by (by rewrite Hf).
  rewrite Atoi_format by done. destruct (Z.leb_spec (Z.of_N secs) 0); [lia|].
  eexists. split; [reflexivity|]. unfold maxWatchTimeout, Second.
  destruct (Z.ltb_spec 60000000000 (int64 (Z.of_N secs * 1000000000))) as [Hlt|Hge].
  - split; [lia|]. split; [|intros ->; by vm_compute in Hlt].
    intros Hs. rewrite int64_small in Hlt by (unfold two63; lia). lia.
  - split; [lia|]. split; [|intros ->; by vm_compute].
    intros Hs. rewrite int64_small in Hge |- * by (unfold two63; lia). lia.
Qed.

(** ** Concrete runs *)

Definition demo_server : Server (WatchableStore (BoltStore MemDb.t)) := mkServer demo_small 0.

Lemma demo_server_rep : store_rep (srv_store demo_server) kv_empty.
Proof. exists []. apply demo_small_rep. Qed.

Definition demo_request (method path : string) (data : string) : request :=
  mkRequest method path [] path [] (mkBody data None).

Lemma config_key_roundtrip_witness :
  configKey (config_path (storeKey "public" "prod" "db/host")) = Ok ("public", "prod", "db/host").
Proof.
  apply (config_key_roundtrip "public" "prod" "db/host" "/"); try reflexivity. discriminate.
Defined.

Lemma kv_valid_empty : kv_valid kv_empty.
Proof. intros k e. cbn. by rewrite lookup_empty. Qed.

Lemma http_put_then_get_witness :
  ∃ srv' resp resp',
    handleConfig demo_server (demo_request "PUT" "/api/v1/config/t/n/k" "v1") = (srv', Ok resp) ∧
    rs_Status resp = StatusCreated ∧
    handleConfig srv' (demo_request "GET" "/api/v1/config/t/n/k" "") = (srv', Ok resp').
Proof.
  destruct (http_put_then_get demo_server kv_empty
    (demo_request "PUT" "/api/v1/config/t/n/k" "v1") (demo_request "GET" "/api/v1/config/t/n/k" "")
    "t" "n" "k" "v1" demo_server_rep) as (srv' & resp & resp' & Hput & Hst & _ & Hget & _);
    try reflexivity; try discriminate; try (split; vm_compute; first [reflexivity|discriminate]).
  exists srv', resp, resp'. split; [exact Hput|]. split; [exact Hst|exact Hget].
Defined.


(** A server that several tenants have written to, with a cache of four events. *)
Definition demo_tenants : list call :=
  [CPut "public/prod/db" (Some "1"); CPut "public/staging/db" (Some "2");
   CPut "acme/prod/db" (Some "3"); CPut "public/prod/cache" (Some "4")].
Definition demo_ring : WatchableStore (BoltStore MemDb.t) :=
  mkWatchableStore demo_store (mkWatchCache [zero_event; zero_event; zero_event; zero_event] 4 0 false).
Definition demo_shared : Server (WatchableStore (BoltStore MemDb.t)) :=
  mkServer (run_calls demo_ring demo_tenants).1 4.
Definition demo_shared_kv : kv := (spec_calls kv_empty demo_tenants).1.

Lemma demo_shared_ws_rep :
  ws_rep (srv_store demo_shared) demo_shared_kv (calls_events kv_empty demo_tenants).
Proof.
  apply (run_calls_ws demo_tenants demo_ring kv_empty []).
  - destruct (NewWatchCache_rep 4) as (wc & Hn & Hrep & _); [by vm_compute|].
    injection Hn as <-. split; [apply demo_store_rep|done|done|constructor|constructor].
  - repeat (split; [solve_can_put|]). done.
Qed.

Lemma demo_shared_rep : store_rep (srv_store demo_shared) demo_shared_kv.
Proof. eexists. apply demo_shared_ws_rep. Qed.

Lemma demo_shared_valid : kv_valid demo_shared_kv.
Proof.
  unfold demo_shared_kv, demo_tenants, kv_empty. intros k e. cbn [spec_calls spec_call fst kv_put kv_map].
  rewrite !lookup_insert_Some, lookup_empty. intros Hk. destr.
  repeat match goal with H : _ ∨ _ |- _ => destruct H; destr end; subst; try done;
    vm_compute; reflexivity.
Qed.

Definition demo_watch : request :=
  mkRequest "GET" "/api/v1/watch/public/prod/" [("revision", "1"); ("timeout", "30")] "" []
    (mkBody "" None).

Lemma namespace_isolation_witness :
  (∃ resp items,
    handleConfig demo_shared (demo_request "GET" "/api/v1/config/public/prod/" "")
      = (demo_shared, Ok resp) ∧
    json_decode_first (rs_Body resp)
      = Some (config_response_json (mkConfigResponse 4 (N.of_nat (length items)) items)) ∧
    mkConfigItem "public/prod/db" "1" 1 1 1 1 ∈ items ∧
    mkConfigItem "acme/prod/db" "3" 3 3 3 1 ∉ items) ∧
  (∃ resp told,
    handleWatch demo_watch 0 [(ws_wc (srv_store demo_shared), 0%Z)] (srv_store demo_shared)
      (srv_store demo_shared) = Some (Ok resp) ∧
    mkEvent EventPut (Some (mkEntry "public/prod/cache" (Some "4") 4 4 4 1)) None ∈ told ∧
    (mkEvent EventPut (Some (mkEntry "acme/prod/db" (Some "3") 3 3 3 1)) None ∉ told) ∧
    json_decode_first (rs_Body resp)
      = Some (watch_response_json (mkWatchResponse 4 (valid_event <$> (reply_event <$> told))))).
Proof.
  destruct (namespace_isolation demo_shared demo_shared_kv (calls_events kv_empty demo_tenants)
    "public" "prod" "/" demo_shared_ws_rep demo_shared_valid) as (Hlist & Hwatch & _);
    [reflexivity|reflexivity|discriminate|set_solver|]. split.
  - destruct (Hlist (demo_request "GET" "/api/v1/config/public/prod/" "") eq_refl eq_refl)
      as (resp & items & Hc & _ & Hj & _ & Hin).
    exists resp, items. split; [exact Hc|]. split; [exact Hj|]. split.
    + apply Hin. exists "db", (mkEntry "public/prod/db" (Some "1") 1 1 1 1).
      split; vm_compute; reflexivity.
    + intros (x & e & _ & Hit)%Hin. discriminate Hit.
  - destruct (Hwatch demo_watch 1%N 30%N 0%Z 0%Z [] eq_refl eq_refl eq_refl
      ltac:(vm_compute; discriminate) eq_refl ltac:(split; vm_compute; [reflexivity|discriminate])
      ltac:(vm_compute; reflexivity) ltac:(vm_compute; reflexivity)) as (told & _ & Hin & Hans).
    assert (mkEvent EventPut (Some (mkEntry "public/prod/cache" (Some "4") 4 4 4 1)) None ∈ told) as Hcache.
    { apply Hin. split; [apply (bool_decide_unpack _); vm_compute; reflexivity|].
      split; [reflexivity|]. exists "cache". reflexivity. }
    rewrite decide_False in Hans by (intros [-> _]; apply elem_of_nil in Hcache; exact Hcache).
    destruct Hans as (resp & Hw & _ & Hj). exists resp, told. split; [exact Hw|].
    split; [exact Hcache|]. split; [|exact Hj].
    intros (_ & _ & x & Hx)%Hin. discriminate Hx.
Defined.

Lemma http_total_witness :
  (∃ srv' resp, handleConfig demo_shared (demo_request "GET" "/api/v1/config/public/prod/nope" "")
     = (srv', Ok resp) ∧ rs_Status resp = 404%Z) ∧
  (∃ srv' resp, handleConfig demo_shared (demo_request "PUT" "/api/v1/config/public/prod/db" "9")
     = (srv', Ok resp) ∧ rs_Status resp = 200%Z) ∧
  (∃ srv' resp, handleConfig demo_shared (demo_request "PATCH" "nonsense" "") = (srv', Ok resp) ∧
     rs_Status resp = 405%Z).
Proof.
  split; [|split].
  - destruct (http_total demo_shared demo_shared_kv
      (demo_request "GET" "/api/v1/config/public/prod/nope" "") demo_shared_rep eq_refl)
      as (t & n & x & srv' & resp & a' & Hk & Hc & _ & _ & _ & H & _).
    injection Hk as <- <- <-. exists srv', resp. split; [exact Hc|].
    apply H; [reflexivity|discriminate|vm_compute; reflexivity].
  - destruct (http_total demo_shared demo_shared_kv
      (demo_request "PUT" "/api/v1/config/public/prod/db" "9") demo_shared_rep eq_refl)
      as (t & n & x & srv' & resp & a' & Hk & Hc & _ & _ & _ & _ & _ & _ & H & _).
    injection Hk as <- <- <-. exists srv', resp. split; [exact Hc|].
    apply (H "9"); [reflexivity|discriminate|reflexivity|split; vm_compute; first [reflexivity|discriminate]|].
    vm_compute. eexists. reflexivity.
  - destruct (http_total demo_shared demo_shared_kv (demo_request "PATCH" "nonsense" "")
      demo_shared_rep eq_refl)
      as (t & n & x & srv' & resp & a' & _ & Hc & _ & _ & _ & _ & _ & _ & _ & _ & _ & _ & H).
    exists srv', resp. split; [exact Hc|]. apply H. apply (bool_decide_unpack _). vm_compute. reflexivity.
Defined.

(** [2 ^ n] characters. *)
Fixpoint long_string (n : nat) : string :=
  match n with
  | 0 => "x"
  | S n' => long_string n' +:+ long_string n'
  end.

Lemma long_string_length (n : nat) : N.of_nat (String.length (long_string n)) = (2 ^ N.of_nat n)%N.
Proof.
  induction n as [|n IH]; [done|]. cbn [long_string].
  rewrite string_length_app, Nat2N.inj_add, IH, Nat2N.inj_succ, N.pow_succ_r'. lia.
Qed.

Lemma http_large_body_truncated_witness :
  ∃ srv' resp,
    handleConfig demo_server (demo_request "PUT" "/api/v1/config/t/n/k" (long_string 21))
    = (srv', Ok resp) ∧ rs_Status resp ∈ [StatusOK; StatusCreated].
Proof.
  destruct (http_large_body_truncated demo_server kv_empty
    (demo_request "PUT" "/api/v1/config/t/n/k" (long_string 21)) "t" "n" "k" demo_server_rep)
    as (srv' & resp & e & Hput & Hst & _);
    [vm_compute; reflexivity|reflexivity|reflexivity|discriminate|reflexivity
    |split; vm_compute; first [reflexivity|discriminate]|reflexivity|reflexivity| |].
  - change (b_data (rq_Body (demo_request "PUT" "/api/v1/config/t/n/k" (long_string 21))))
      with (long_string 21).
    rewrite long_string_length. vm_compute. reflexivity.
  - exists srv', resp. split; [exact Hput|exact Hst].
Defined.

Lemma watch_timeout_bounds_witness :
  ∃ timeout, watch_request (mkRequest "GET" "/api/v1/watch/t/n/" [("timeout", "9223372037")] "" []
                              (mkBody "" None)) = inr (0%N, "t/n/", timeout) ∧ (timeout < 0)%Z.
Proof.
  destruct (watch_timeout_bounds (mkRequest "GET" "/api/v1/watch/t/n/" [("timeout", "9223372037")] ""
    [] (mkBody "" None)) 9223372037) as (timeout & Hw & _ & _ & Hneg);
    try reflexivity.
  exists timeout. split; [exact Hw|apply Hneg; reflexivity].
Defined.
