(* ===== verification/Races.v ===== *)
(** Interleavings of requests.  A mutation of [WatchableStore] is two critical
    sections, the store's and the cache's, and [handleList] and [handleWatch] read
    the revision in a critical section of their own: what other requests can do in
    between, as a step relation and as theorems on the handlers. *)

From S2P Require Import Prelude GoStrings GoEncoding GoJson JsonFields Entry BoltDB Kv StoreSpec.
From S2P Require Import BoltStore WatchCache Watchable Http Server.

Local Open Scope string_scope.
Local Open Scope list_scope.
Local Open Scope nat_scope.

(** ** Concurrent writers *)

(** The store and the cache of a [WatchableStore] that several goroutines share, and
    the events of the goroutines that are between the two critical sections. *)
Record psys (S : Type) := mkPsys {
  p_store : S;
  p_wc : WatchCache;
  p_pending : list Event;
}.
Arguments mkPsys {S} _ _ _.
Arguments p_store {S} _.
Arguments p_wc {S} _.
Arguments p_pending {S} _.

Section writers.
Context {S : Type} `{!Store S}.

(** [ws.BoltStore.Put], [ws.BoltStore.Delete] and [ws.wc.Append] of any goroutine. *)
Inductive pstep : psys S → psys S → Prop :=
  | pstep_put s s' wc pend k v e prev :
      store_Put s k v = (s', Some (mkPutResult (Some e) prev), Ok tt) →
      pstep (mkPsys s wc pend) (mkPsys s' wc (pend ++ [mkEvent EventPut (Some e) prev]))
  | pstep_put_failed s s' wc pend k v r err :
      store_Put s k v = (s', r, Err err) → pstep (mkPsys s wc pend) (mkPsys s' wc pend)
  | pstep_delete s s' wc pend k e :
      store_Delete s k = (s', Ok e) →
      pstep (mkPsys s wc pend) (mkPsys s' wc (pend ++ [mkEvent EventDelete (Some e) None]))
  | pstep_delete_failed s s' wc pend k err :
      store_Delete s k = (s', Err err) → pstep (mkPsys s wc pend) (mkPsys s' wc pend)
  | pstep_append s wc wc' l1 l2 e :
      WatchCache_Append wc e = Ok wc' →
      pstep (mkPsys s wc (l1 ++ e :: l2)) (mkPsys s wc' (l1 ++ l2)).
End writers.

Section invariant.
Context {S : Type} `{StoreLaws S}.

(** The store is in a state [calls] lead to from [a]; what the cache was given and
    what is still pending is, in some order, their events. *)
Definition psys_ok (a : kv) (h : list Event) (p : psys S) (l : list call) (h' : list Event) : Prop :=
  store_rep (p_store p) (spec_calls a l).1 ∧ wc_rep (p_wc p) h' ∧
  h' ++ p_pending p ≡ₚ h ++ calls_events a l.

Lemma spec_calls_snoc (a : kv) (l : list call) (c : call) :
  (spec_calls a (l ++ [c])).1 = (spec_call (spec_calls a l).1 c).1 ∧
  calls_events a (l ++ [c]) = (calls_events a l ++ call_events (spec_calls a l).1 c)%list.
Proof.
  revert a. induction l as [|c0 l IH]; intros a; simpl.
  - rewrite app_nil_r. by destruct (spec_call a c).
  - destruct (spec_call a c0) as [a1 r]. destruct (IH a1) as [H1 H2]. simpl.
    rewrite H2, app_assoc. destruct (spec_calls a1 (l ++ [c])), (spec_calls a1 l). simpl in *.
    by subst.
Qed.

(** A step keeps the invariant, with one call more at most. *)
Lemma pstep_ok (a : kv) (h : list Event) (p p' : psys S) (l : list call) (h' : list Event) :
  psys_ok a h p l h' → Forall (λ e, is_Some (ev_Entry e)) h →
  (kv_rev a + N.of_nat (length l) < store_limit)%N →
  (Z.of_nat (length h + length l) + 1 < two63)%Z → pstep p p' →
  ∃ l2 h2, psys_ok a h p' (l ++ l2) h2 ∧ length l2 ≤ 1.
Proof.
  intros (Hs & Hc & Hperm) Hh Hlim Hsm Hstep.
  pose proof (spec_calls_rev_bound l a) as [Hrb Hlb].
  assert (kv_rev (spec_calls a l).1 < store_limit)%N as Hlt by lia.
  set (al := (spec_calls a l).1) in *.
  destruct Hstep as [s s' wc pend k v e prev Hput|s s' wc pend k v r err Hput
    |s s' wc pend k e Hdel|s s' wc pend k err Hdel|s wc wc' l1 l2 e Ha]; simpl in *.
  - destruct (decide (key_ok k ∧ fits (kv_next al k v))) as [[Hk Hf]|Hbad].
    2: { destruct (law_Put_refused s al k v Hs Hlt Hbad) as (? & ? & ? & Hp & _). congruence. }
    destruct (law_Put s al k v Hs) as (s1 & Hp & Hs1); [by split_and!|].
    rewrite Hput in Hp. unfold put_result in Hp. injection Hp as -> -> ->.
    exists [CPut k v], h'. destruct (spec_calls_snoc a l (CPut k v)) as [H1 H2].
    split; [|simpl; lia]. split_and!; simpl; [by rewrite H1|done|].
    rewrite H2. fold al. simpl. rewrite !app_assoc. by apply Permutation_app_tail.
  - exists [], h'. rewrite app_nil_r. split; [|simpl; lia].
    destruct (decide (key_ok k ∧ fits (kv_next al k v))) as [[Hk Hf]|Hbad].
    { destruct (law_Put s al k v Hs) as (s1 & Hp & _); [by split_and!|]. congruence. }
    destruct (law_Put_refused s al k v Hs Hlt Hbad) as (s1 & ? & ? & Hp & Hs1).
    rewrite Hput in Hp. injection Hp as -> _ _. by split_and!.
  - destruct (kv_map al !! k) as [e0|] eqn:He.
    2: { destruct (law_Delete_missing s al k Hs Hlt He) as (? & Hd & _). congruence. }
    destruct (law_Delete s al k e0 Hs Hlt He) as (s1 & Hd & Hs1).
    rewrite Hdel in Hd. injection Hd as -> ->.
    exists [CDelete k], h'. destruct (spec_calls_snoc a l (CDelete k)) as [H1 H2].
    split; [|simpl; lia]. split_and!; simpl; [by rewrite H1|done|].
    rewrite H2. fold al. simpl. rewrite He, !app_assoc. by apply Permutation_app_tail.
  - exists [], h'. rewrite app_nil_r. split; [|simpl; lia].
    destruct (kv_map al !! k) as [e0|] eqn:He.
    { destruct (law_Delete s al k e0 Hs Hlt He) as (s1 & Hd & Hs1). congruence. }
    destruct (law_Delete_missing s al k Hs Hlt He) as (s1 & Hd & Hs1).
    rewrite Hdel in Hd. injection Hd as -> _. by split_and!.
  - assert (is_Some (ev_Entry e)) as Hsome.
    { assert (e ∈ h ++ calls_events a l) as He.
      { rewrite <- Hperm, !elem_of_app. right. right. by left. }
      apply elem_of_app in He as [He|He].
      - rewrite Forall_forall in Hh. by apply Hh.
      - destruct (calls_events_rev l a) as [Hall _]. rewrite Forall_forall in Hall. by apply Hall. }
    assert (length (h' ++ l1 ++ e :: l2) = length (h ++ calls_events a l)) as Hlen by (by rewrite Hperm).
    rewrite !length_app in Hlen. simpl in Hlen.
    destruct (Append_rep wc h' Hc e Hsome) as (wc1 & Ha1 & Hrep1 & _).
    { rewrite (rep_count _ _ Hc). lia. }
    rewrite Ha in Ha1. injection Ha1 as <-.
    exists [], (h' ++ [e])%list. rewrite app_nil_r. split; [|simpl; lia].
    split_and!; [done|done|]. simpl. rewrite <- Hperm, <- app_assoc.
    apply Permutation_app_head. simpl. by apply Permutation_middle.
Qed.
End invariant.

(** What a scan returns is from the history and has an entry. *)
Lemma getEvents_in (wc : WatchCache) (h evs : list Event) (r : N) (p : string) :
  wc_rep wc h → getEventsLocked wc r p = Ok evs →
  ∀ e, e ∈ evs → e ∈ h ∧ is_Some (ev_Entry e).
Proof.
  intros Hrep Hevs e He. rewrite (getEventsLocked_spec _ _ Hrep) in Hevs. injection Hevs as <-.
  apply list_elem_of_filter in He as [_ He].
  assert (e ∈ h) as Hin.
  { rewrite <- (evicted_window (Z.to_nat (wc_capacity wc)) h). apply elem_of_app. by right. }
  split; [done|]. pose proof (rep_entries _ _ Hrep) as Hall. rewrite Forall_forall in Hall.
  by apply Hall.
Qed.

Lemma watch_events_ok (evs : list Event) :
  (∀ e, e ∈ evs → is_Some (ev_Entry e)) → ∃ wevs, mapM watch_event evs = Ok wevs.
Proof.
  intros Hall. eexists. apply (mapM_res_Ok _ (λ x, mkWatchEvent (EventType_String (ev_Type x))
    (entryToConfig (default zero_entry (ev_Entry x))) (entryToConfig <$> ev_PrevEntry x))).
  intros x Hx. unfold watch_event. destruct (Hall x Hx) as [en Hen]. by rewrite Hen.
Qed.

(** ** Properties *)

Section properties.
Context {S : Type} `{StoreLaws S}.

(** C10: However the critical sections of concurrent writers interleave, the store is in
    a state some sequence of calls leads to, and every event of these calls is
    either in the cache or about to be appended, once. *)
Theorem writers_lose_no_event (n : nat) (s : S) (a : kv) (wc : WatchCache) (h : list Event)
    (p : psys S) :
  store_rep s a → wc_rep wc h → (kv_rev a + N.of_nat n < store_limit)%N →
  (Z.of_nat (length h + n) + 1 < two63)%Z → nsteps pstep n (mkPsys s wc []) p →
  ∃ l h', store_rep (p_store p) (spec_calls a l).1 ∧ wc_rep (p_wc p) h' ∧
    h' ++ p_pending p ≡ₚ h ++ calls_events a l ∧ length l ≤ n.
Proof.
  intros Hs Hc Hlim Hsm Hsteps.
  assert (∀ q l h', psys_ok a h q l h' → (kv_rev a + N.of_nat (length l + n) < store_limit)%N →
    (Z.of_nat (length h + (length l + n)) + 1 < two63)%Z → nsteps pstep n q p →
    ∃ l' h', psys_ok a h p l' h' ∧ length l' ≤ length l + n) as Hgen.
  { clear Hsteps Hsm Hlim. pose proof (rep_entries _ _ Hc) as Hh. induction n as [|n IH].
    - intros q l h' Hok _ _ Hst. inversion Hst; subst. exists l, h'. split; [done|lia].
    - intros q l h' Hok Hlim Hsm Hst. inversion Hst as [|? ? q1 ? Hst1 Hst2]; subst.
      destruct (pstep_ok a h q q1 l h' Hok Hh) as (l2 & h2 & Hok2 & Hl2); [lia|lia|done|].
      destruct (IH q1 (l ++ l2) h2 Hok2) as (l' & h3 & Hok3 & Hl3);
        [rewrite length_app; lia|rewrite length_app; lia|done|].
      exists l', h3. split; [done|]. rewrite length_app in Hl3. lia. }
  destruct (Hgen (mkPsys s wc []) [] h) as (l & h' & (H1 & H2 & H3) & Hl); [|done|done|done|].
  - split_and!; [done|done|]. simpl. by rewrite !app_nil_r.
  - exists l, h'. by split_and!.
Qed.

(** Two concurrent writers can append their events in the opposite order of their
    revisions: a watcher that polls in between is given the newer event, and one
    that goes on from its revision is never given the older one, which the cache
    holds. *)
Theorem concurrent_puts_reorder (s : S) (a : kv) (wc : WatchCache) (h : list Event)
    (k1 k2 : string) (v1 v2 : go_bytes) :
  store_rep s a → wc_rep wc h → Forall (λ e, (ev_rev e ≤ kv_rev a)%N) h →
  (2 ≤ wc_capacity wc)%Z → (wc_count wc + 2 < two63)%Z →
  can_put store_limit a k1 v1 → can_put store_limit (kv_put a k1 v1) k2 v2 →
  ∃ p1 p2 e1 e2, rtc pstep (mkPsys s wc []) p1 ∧ rtc pstep p1 p2 ∧ p_pending p2 = [] ∧
    (ev_rev e1 < ev_rev e2)%N ∧
    getEventsLocked (p_wc p1) (kv_rev a) "" = Ok [e2] ∧
    getEventsLocked (p_wc p2) (kv_rev a) "" = Ok [e2; e1] ∧
    getEventsLocked (p_wc p2) (ev_rev e2) "" = Ok [].
Proof.
  intros Hs Hc Hb Hcap Hsm Hcan1 Hcan2.
  destruct (law_Put s a k1 v1 Hs Hcan1) as (s1 & Hp1 & Hs1).
  destruct (law_Put s1 _ k2 v2 Hs1 Hcan2) as (s2 & Hp2 & Hs2).
  set (e1 := mkEvent EventPut (Some (kv_next a k1 v1)) (kv_map a !! k1)).
  set (e2 := mkEvent EventPut (Some (kv_next (kv_put a k1 v1) k2 v2)) (kv_map (kv_put a k1 v1) !! k2)).
  assert (ev_rev e1 = kv_rev a + 1)%N as Hr1 by apply kv_next_Revision.
  assert (ev_rev e2 = kv_rev a + 2)%N as Hr2.
  { unfold ev_rev, e2. cbn [ev_Entry]. rewrite kv_next_Revision. simpl. lia. }
  destruct (Append_rep wc h Hc e2) as (wc1 & Ha1 & Hc1 & _ & Hk1); [by eexists|lia|].
  destruct (Append_rep wc1 _ Hc1 e1) as (wc2 & Ha2 & Hc2 & _ & Hk2); [by eexists| |].
  { rewrite (rep_count _ _ Hc1), length_app. pose proof (rep_count _ _ Hc). simpl. lia. }
  rewrite <- app_assoc in Hc2. rewrite Hk1 in Hk2. simpl in Hc2.
  assert (∀ r p, filter (ev_match r p) [e2; e1]
    = filter (ev_match r p) [e2] ++ filter (ev_match r p) [e1]) as Hf.
  { intros r p. apply (filter_app _ [e2] [e1]). }
  exists (mkPsys s2 wc1 [e1]), (mkPsys s2 wc2 []), e1, e2. split_and!; [| |done|lia|..]; simpl.
  - eapply rtc_l; [apply (pstep_put _ _ _ _ _ _ _ _ Hp1)|].
    eapply rtc_l; [apply (pstep_put _ _ _ _ _ _ _ _ Hp2)|].
    apply rtc_once. apply (pstep_append s2 wc wc1 [e1] [] e2 Ha1).
  - apply rtc_once. apply (pstep_append s2 wc1 wc2 [] [] e1 Ha2).
  - rewrite (getEvents_recent wc1 h [e2]); [|done|done|simpl; lia]. rewrite filter_event.
    destruct (N.ltb_spec (kv_rev a) (ev_rev e2)); [done|lia].
  - rewrite (getEvents_recent wc2 h [e2; e1]); [|done|done|simpl; lia].
    rewrite Hf, !filter_event.
    destruct (N.ltb_spec (kv_rev a) (ev_rev e2)), (N.ltb_spec (kv_rev a) (ev_rev e1)); [done|lia..].
  - rewrite (getEvents_recent wc2 h [e2; e1]); [|done| |simpl; lia].
    + rewrite Hf, !filter_event. destruct (N.ltb_spec (ev_rev e2) (ev_rev e2)); [lia|].
      destruct (N.ltb_spec (ev_rev e2) (ev_rev e1)); [lia|done].
    + eapply Forall_impl; [exact Hb|]. simpl. lia.
Qed.

(** The revision of a reply is read after its events, and of a list after its
    entries: a [PUT] in between is covered by the revision of the reply and missing
    from it, and a client that goes on from this revision, as the protocol says, is
    not told of it. *)
Theorem stale_revision_loses_update (ws ws' : WatchableStore S) (a : kv) (h : list Event)
    (k : string) (v : go_bytes) (rp : option PutResult) (r : N) (t n : string)
    (evs : list Event) :
  ws_rep ws a h → can_put watch_limit a k v →
  HasPrefix k (listPrefix t n) = true →
  getEventsLocked (ws_wc ws) r (listPrefix t n) = Ok evs →
  WatchableStore_Put ws k v = (ws', rp, Ok tt) →
  ∃ wevs e, mapM watch_event evs = Ok wevs ∧
    watch_reply evs ws' ws' = Ok (mkResponse StatusOK
      [("Content-Type", "application/json"); ("X-Paladin-Revision", format_uint (kv_rev a + 1))]
      (json_Encode (watch_response_json (mkWatchResponse (kv_rev a + 1) wevs)))) ∧
    handleList ws ws' t n = Ok (writeJSON [] StatusOK (config_response_json
      (mkConfigResponse (kv_rev a + 1) (N.of_nat (length (kv_list a (listPrefix t n))))
         (entryToConfig <$> kv_list a (listPrefix t n))))) ∧
    ev_key e = k ∧ (e ∉ evs) ∧ (kv_next a k v ∉ kv_list a (listPrefix t n)) ∧
    getEventsLocked (ws_wc ws') (kv_rev a) (listPrefix t n) = Ok [e] ∧
    getEventsLocked (ws_wc ws') (kv_rev a + 1) (listPrefix t n) = Ok [].
Proof.
  intros Hrep Hcan Hp Hevs Hput.
  destruct (ws_Put_spec ws a h k v Hrep Hcan) as (ws1 & Hput1 & Hrep' & _ & Hk).
  rewrite Hput in Hput1. injection Hput1 as <- ->.
  assert (store_rep ws a) as Hs by (eexists; exact Hrep).
  assert (store_rep ws' (kv_put a k v)) as Hs' by (eexists; exact Hrep').
  set (e := mkEvent EventPut (Some (kv_next a k v)) (kv_map a !! k)).
  assert (ev_rev e = kv_rev a + 1)%N as Her by apply kv_next_Revision.
  pose proof (ws_bound _ _ _ Hrep) as Hb. pose proof (rep_capacity _ _ (ws_cache _ _ _ Hrep')) as Hcap.
  pose proof (getEvents_in _ _ _ _ _ (ws_cache _ _ _ Hrep) Hevs) as Hin.
  destruct (watch_events_ok evs) as (wevs & Hmap); [intros x Hx; by apply Hin|].
  exists wevs, e. split; [exact Hmap|].
  assert (ev_key e = k) as Hke by (unfold ev_key, e; cbn [ev_Entry]; apply kv_next_Key).
  split_and!; [| |done|..].
  - unfold watch_reply. rewrite Hmap, (law_Rev ws' _ Hs'). reflexivity.
  - by rewrite (handleList_spec ws ws' a _ t n Hs Hs').
  - intros [He _]%Hin. rewrite Forall_forall in Hb. specialize (Hb e He). simpl in Hb. lia.
  - intros (k' & _ & He)%kv_list_elem. pose proof (law_ok ws a Hs) as Hok.
    destruct (ok_entry a Hok k' _ He) as (_ & _ & _ & Hm & _).
    rewrite kv_next_ModRevision in Hm. lia.
  - rewrite (getEvents_recent _ h [e]); [|apply Hrep'|done|simpl; lia]. rewrite filter_event.
    destruct (N.ltb_spec (kv_rev a) (ev_rev e)); [|lia]. by rewrite Hke, Hp.
  - rewrite (getEvents_recent _ h [e]); [|apply Hrep'| |simpl; lia].
    + rewrite filter_event. destruct (N.ltb_spec (kv_rev a + 1) (ev_rev e)); [lia|done].
    + eapply Forall_impl; [exact Hb|]. simpl. lia.
Qed.
End properties.

(** ** Concrete runs *)

(** A cache of two events. *)
Definition demo_two : WatchCache := mkWatchCache [zero_event; zero_event] 2 0 false.

Lemma demo_two_rep : wc_rep demo_two [].
Proof.
  destruct (NewWatchCache_rep 2) as (wc & Hn & Hrep & _); [by vm_compute|].
  by injection Hn as <-.
Qed.

(** One writer, through both of its critical sections. *)
Definition demo_written : BoltStore MemDb.t := (BoltStore_Put demo_store "a" (Some "1")).1.1.
Definition demo_written_event : Event :=
  mkEvent EventPut (Some (kv_next kv_empty "a" (Some "1"))) None.
Definition demo_appended : WatchCache :=
  match WatchCache_Append demo_two demo_written_event with Ok wc => wc | _ => demo_two end.

Lemma writers_lose_no_event_witness :
  ∃ l h', h' ++ [] ≡ₚ [] ++ calls_events kv_empty l ∧ wc_rep demo_appended h'.
Proof.
  assert (nsteps (pstep (S:=BoltStore MemDb.t)) 2 (mkPsys demo_store demo_two [])
            (mkPsys demo_written demo_appended [])) as Hsteps.
  { eapply nsteps_l.
    { apply (pstep_put demo_store demo_written demo_two [] "a" (Some "1")
        (kv_next kv_empty "a" (Some "1")) None). vm_compute. reflexivity. }
    eapply nsteps_l; [|apply nsteps_O].
    apply (pstep_append demo_written demo_two demo_appended [] [] demo_written_event).
    vm_compute. reflexivity. }
  destruct (writers_lose_no_event 2 demo_store kv_empty demo_two []
    (mkPsys demo_written demo_appended []) demo_store_rep demo_two_rep
    ltac:(vm_compute; reflexivity) ltac:(vm_compute; reflexivity) Hsteps)
    as (l & h' & _ & Hc & Hperm & _).
  exists l, h'. split; [exact Hperm|exact Hc].
Defined.

Lemma concurrent_puts_reorder_witness :
  ∃ (p : psys (BoltStore MemDb.t)) e1 e2, rtc pstep (mkPsys demo_store demo_two []) p ∧
    (ev_rev e1 < ev_rev e2)%N ∧ getEventsLocked (p_wc p) 0 "" = Ok [e2].
Proof.
  destruct (concurrent_puts_reorder demo_store kv_empty demo_two [] "a" "b" (Some "1") (Some "2")
    demo_store_rep demo_two_rep) as (p1 & p2 & e1 & e2 & Hr & _ & _ & Hlt & Hg & _);
    [constructor|vm_compute; discriminate|vm_compute; reflexivity|solve_can_put|solve_can_put|].
  exists p1, e1, e2. split; [exact Hr|]. split; [exact Hlt|exact Hg].
Defined.

Lemma stale_revision_loses_update_witness :
  ∃ ws', WatchableStore_Put demo_small "t/n/k" (Some "v")
      = (ws', Some (put_result kv_empty "t/n/k" (Some "v")), Ok tt) ∧
    getEventsLocked (ws_wc ws') 1 "t/n/" = Ok [].
Proof.
  exists (WatchableStore_Put demo_small "t/n/k" (Some "v")).1.1.
  destruct (stale_revision_loses_update demo_small
    (WatchableStore_Put demo_small "t/n/k" (Some "v")).1.1 kv_empty [] "t/n/k" (Some "v")
    (Some (put_result kv_empty "t/n/k" (Some "v"))) 0 "t" "n" [] demo_small_rep)
    as (wevs & e & _ & _ & _ & _ & _ & _ & _ & Hg);
    [solve_can_put|reflexivity|vm_compute; reflexivity|vm_compute; reflexivity|].
  split; [vm_compute; reflexivity|exact Hg].
Defined.
