(* ===== verification/RaftServer.v ===== *)
(** [src/server/raft_server.go]: the HTTP API of a cluster node.  Reads are answered
    from the local store, writes go through [Node.Apply] on the leader and are
    forwarded to it by the others.  The HTTP client is a parameter; log lines and
    the duration histogram are left out. *)

From S2P Require Import Prelude GoStrings GoEncoding GoJson JsonFields Entry BoltDB Kv StoreSpec.
From S2P Require Import BoltStore WatchCache Watchable Fsm Node Http Server.

Local Open Scope string_scope.
Local Open Scope list_scope.
Local Open Scope nat_scope.

(** [type RaftServer struct]; its [Server] serves the store of [node].  The counters
    [metrics.RaftApplyTotal] are by operation and result. *)
Record RaftServer (S R : Type) := mkRaftServer {
  rs_node : Node S R;
  RaftApplyTotal : gmap (string * string) N;
}.
Arguments mkRaftServer {S R} _ _.
Arguments rs_node {S R} _.
Arguments RaftApplyTotal {S R} _.

(** [WithLabelValues(op, result).Inc()] *)
Definition count_apply {S R : Type} (rs : RaftServer S R) (op result : string) : RaftServer S R :=
  mkRaftServer (rs_node rs)
    (<[(op, result) := (default 0 (RaftApplyTotal rs !! (op, result)) + 1)%N]> (RaftApplyTotal rs)).

(** A JSON object made from a Go map: its keys in order. *)
Definition map_json (m : list (string * string)) : json :=
  JObj (map (λ x, (x.1, JStr x.2)) (merge_sort (λ x y, String.le x.1 y.1) m)).

(** [m[k] = v] on a map given as its pairs. *)
Definition map_set (m : list (string * string)) (k v : string) : list (string * string) :=
  filter (λ x, x.1 ≠ k) m ++ [(k, v)].

Fixpoint map_get (m : list (string * string)) (k : string) : string :=
  match m with
  | [] => ""
  | (k', v) :: m' => if String.eqb k' k then v else map_get m' k
  end.



Section handlers.
Context {S R : Type} `{!Store S, !Raft R}.
(** [http.NewRequestWithContext(ctx, method, url, body)], which parses the URL, and
    [http.DefaultClient.Do]. *)
Variable http_NewRequest : string → string → go_bytes → res request.
Variable http_Do : request → res response.

(** The request [forwardToLeader] sends: the headers of [r] added, and its own. *)
Definition forward_request (rs : RaftServer S R) (r fwdReq : request) : request :=
  mkRequest (rq_Method fwdReq) (rq_Path fwdReq) (rq_Query fwdReq) (rq_URL fwdReq)
    (header_Set (rq_Header fwdReq ++ rq_Header r)
       "X-Forwarded-By" (map_get (Node_Stats (rs_node rs)) "id"))
    (rq_Body fwdReq).

Definition forwardToLeader (rs : RaftServer S R) (r : request) (data : go_bytes) : res response :=
  let leaderHTTP := Node_LeaderHTTPAddr (rs_node rs) in
  if String.eqb leaderHTTP "" then
    Ok (httpError StatusServiceUnavailable
          ("leader http addr unknown (leader_raft=" +:+ Quote (Node_LeaderAddr (rs_node rs))
           +:+ "), try again later"))
  else
    match http_NewRequest (rq_Method r) ("http://" +:+ leaderHTTP +:+ rq_URL r) data with
    | Panic => Panic
    | Err e => Ok (httpError StatusInternalServerError ("build forward request: " +:+ error_Error e))
    | Ok fwdReq =>
        match http_Do (forward_request rs r fwdReq) with
        | Panic => Panic
        | Err e =>
            Ok (httpError StatusBadRequest
                  ("forward to leader " +:+ leaderHTTP +:+ ": " +:+ error_Error e))
        | Ok resp => Ok (mkResponse (rs_Status resp) (rs_Header resp) (rs_Body resp))
        end
    end.

Definition handleRaftPut (rs : RaftServer S R) (r : request) (tenant namespace name : string)
    : RaftServer S R * res response :=
  match ReadAll_limited body_limit (rq_Body r) with
  | Panic => (rs, Panic)
  | Err e => (rs, Ok (httpError StatusBadRequest ("read body: " +:+ error_Error e)))
  | Ok data =>
      let key := storeKey tenant namespace name in
      if negb (Node_IsLeader (rs_node rs)) then
        let rs' := count_apply rs "put" "not_leader" in (rs', forwardToLeader rs' r (Some data))
      else
        let '(node, result) := Node_Apply (rs_node rs) (mkOp "put" key (Some data)) (5 * second) in
        let rs' := mkRaftServer node (RaftApplyTotal rs) in
        match result with
        | Panic => (rs', Panic)
        | Err e =>
            (count_apply rs' "put" "error",
             Ok (httpError StatusInternalServerError ("raft apply: " +:+ error_Error e)))
        | Ok res =>
            let rs'' := count_apply rs' "put" "ok" in
            let status := match or_PrevEntry res with None => StatusCreated | Some _ => StatusOK end in
            match or_Entry res with
            | None => (rs'', Panic)
            | Some entry =>
                let header := header_Set [] "X-Paladin-Revision" (format_uint (Revision entry)) in
                (rs'', Ok (writeJSON header status
                         (config_response_json
                            (mkConfigResponse (Revision entry) 0 [entryToConfig entry]))))
            end
        end
  end.

(** [after] is what happens to the node before its revision is read. *)
Definition handleRaftDelete (after : Node S R → Node S R) (rs : RaftServer S R) (r : request)
    (tenant namespace name : string) : RaftServer S R * res response :=
  let key := storeKey tenant namespace name in
  if negb (Node_IsLeader (rs_node rs)) then
    let rs' := count_apply rs "delete" "not_leader" in (rs', forwardToLeader rs' r None)
  else
    let '(node, result) := Node_Apply (rs_node rs) (mkOp "delete" key None) (5 * second) in
    let rs' := mkRaftServer node (RaftApplyTotal rs) in
    match result with
    | Panic => (rs', Panic)
    | Err e =>
        (count_apply rs' "delete" "error",
         Ok (if errors_Is e KeyNotFound
             then httpError StatusNotFound ("key not found: " +:+ key)
             else httpError StatusInternalServerError ("raft apply: " +:+ error_Error e)))
    | Ok res =>
        let rs'' := count_apply (mkRaftServer (after node) (RaftApplyTotal rs)) "delete" "ok" in
        match or_Entry res with
        | None => (rs'', Panic)
        | Some entry =>
            (rs'', Ok (writeJSON [] StatusOK
                     (config_response_json
                        (mkConfigResponse (Node_Rev (after node)) 0 [entryToConfig entry]))))
        end
    end.

Definition handleRaftConfig (rs : RaftServer S R) (r : request) : RaftServer S R * res response :=
  match configKey (rq_Path r) with
  | Panic => (rs, Panic)
  | Err _ => (rs, Ok (httpError StatusBadRequest ("invalid path: " +:+ rq_Path r)))
  | Ok (tenant, namespace, name) =>
      if String.eqb tenant "" then
        (rs, Ok (httpError StatusBadRequest ("invalid path: " +:+ rq_Path r)))
      else
        let s := Node_store (rs_node rs) in
        if String.eqb (rq_Method r) "GET" then
          (rs, if String.eqb name "" then handleList s s tenant namespace
               else handleGet s s tenant namespace name)
        else if String.eqb (rq_Method r) "PUT" then
          if String.eqb name ""
          then (rs, Ok (httpError StatusBadRequest "name is required for PUT"))
          else handleRaftPut rs r tenant namespace name
        else if String.eqb (rq_Method r) "DELETE" then
          if String.eqb name ""
          then (rs, Ok (httpError StatusBadRequest "name is required for DELETE"))
          else handleRaftDelete id rs r tenant namespace name
        else (rs, Ok (httpError StatusMethodNotAllowed
                        ("method " +:+ rq_Method r +:+ " not allowed")))
  end.

Definition handleJoin (rs : RaftServer S R) (r : request) : RaftServer S R * res response :=
  if negb (String.eqb (rq_Method r) "POST") then
    (rs, Ok (httpError StatusMethodNotAllowed "POST only"))
  else
    let nodeID := query_Get (rq_Query r) "id" in
    let addr := query_Get (rq_Query r) "addr" in
    let httpAddr := query_Get (rq_Query r) "http" in
    if String.eqb nodeID "" || String.eqb addr "" || String.eqb httpAddr "" then
      (rs, Ok (httpError StatusBadRequest "id, addr, http required"))
    else
      let '(node, err) := Node_Join (rs_node rs) nodeID addr in
      let rs' := mkRaftServer node (RaftApplyTotal rs) in
      match err with
      | Panic => (rs', Panic)
      | Err e => (rs', Ok (httpError StatusInternalServerError ("join: " +:+ error_Error e)))
      | Ok _ =>
          let '(node', err') := Node_RegisterPeerHTTP node nodeID httpAddr in
          let rs'' := mkRaftServer node' (RaftApplyTotal rs) in
          match err' with
          | Panic => (rs'', Panic)
          | Err e =>
              (rs'', Ok (httpError StatusInternalServerError
                           ("register http addr: " +:+ error_Error e)))
          | Ok _ => (rs'', Ok (writeJSON [] StatusOK
                                 (map_json [("status", "ok"); ("joined", nodeID)])))
          end
      end.

Definition handleLeave (rs : RaftServer S R) (r : request) : RaftServer S R * res response :=
  if negb (String.eqb (rq_Method r) "POST") then
    (rs, Ok (httpError StatusMethodNotAllowed "POST only"))
  else
    let nodeID := query_Get (rq_Query r) "id" in
    if String.eqb nodeID "" then (rs, Ok (httpError StatusBadRequest "id required"))
    else
      let '(node, err) := Node_Leave (rs_node rs) nodeID in
      let rs' := mkRaftServer node (RaftApplyTotal rs) in
      match err with
      | Panic => (rs', Panic)
      | Err e => (rs', Ok (httpError StatusInternalServerError ("leave: " +:+ error_Error e)))
      | Ok _ => (rs', Ok (writeJSON [] StatusOK
                            (map_json [("status", "ok"); ("removed", nodeID)])))
      end.

Definition handleStats (rs : RaftServer S R) : response :=
  let stats := Node_Stats (rs_node rs) in
  let stats := map_set stats "store_revision" (format_uint (Node_Rev (rs_node rs))) in
  let stats := map_set stats "is_leader" (if Node_IsLeader (rs_node rs) then "true" else "false") in
  writeJSON [] StatusOK (map_json stats).

(** [NewRaftServer]: the routes of [newBase] and these. *)
Inductive raft_handler : Set :=
  | RBase (h : handler) | RConfig | RJoin | RLeave | RStats.

Definition raft_routes (node : Node S R) : list (string * raft_handler) :=
  map (λ x, (x.1, RBase x.2)) (base_routes (Node_store node))
  ++ [("/api/v1/config/", RConfig); ("/admin/join", RJoin); ("/admin/leave", RLeave);
      ("/admin/stats", RStats)].

(** [ServeHTTP] of a node: as [Server]'s, with the routes of [NewRaftServer]. *)
Definition raft_ServeHTTP (rs : RaftServer S R) (r : request) (now : Z)
    : RaftServer S R * option (res response) :=
  let ws := Node_store (rs_node rs) in
  match mux_route (raft_routes (rs_node rs)) (rq_Path r) with
  | ToHandler RConfig => let '(rs', resp) := handleRaftConfig rs r in (rs', Some resp)
  | ToHandler RJoin => let '(rs', resp) := handleJoin rs r in (rs', Some resp)
  | ToHandler RLeave => let '(rs', resp) := handleLeave rs r in (rs', Some resp)
  | ToHandler RStats => (rs, Some (Ok (handleStats rs)))
  | ToHandler (RBase h) => (rs, (serve (mkServer ws 0) h r now).2)
  | ToRedirect => (rs, None)
  | ToNotFound => (rs, Some (Ok NotFound_response))
  end.
End handlers.

(** ** Properties *)


Section properties.
Context {S R : Type} `{StoreLaws S} `{RaftLaws R}.
Variable http_NewRequest : string → string → go_bytes → res request.
Variable http_Do : request → res response.

Abbreviation limit := (store_limit (S:=WatchableStore S)).
Abbreviation handle := (handleRaftConfig http_NewRequest http_Do).

(** The path of a key as [handleRaftConfig] accepts it. *)
Definition key_path (path t n x : string) : Prop :=
  segment t ∧ segment n ∧ t ≠ "" ∧ x ≠ "" ∧ HasSuffix x "/" = false ∧
  path = config_path (storeKey t n x).

Lemma handle_put (rs : RaftServer S R) (r : request) (t n x : string) :
  key_path (rq_Path r) t n x → rq_Method r = "PUT" →
  handle rs r = handleRaftPut http_NewRequest http_Do rs r t n x.
Proof.
  intros (Ht & Hn & Htn & Hx & Hsuf & Hp) Hm. unfold handleRaftConfig.
  rewrite Hp, configKey_path by done.
  apply String.eqb_neq in Hx, Htn. by rewrite Htn, Hx, Hm.
Qed.


(** The response of a write that was applied. *)
Definition put_response (e : Entry) (prev : option Entry) : response :=
  writeJSON [("X-Paladin-Revision", format_uint (Revision e))]
    match prev with None => StatusCreated | Some _ => StatusOK end
    (config_response_json (mkConfigResponse (Revision e) 0 [entryToConfig e])).

Lemma put_response_status (e : Entry) (prev : option Entry) :
  rs_Status (put_response e prev) ∈ [StatusOK; StatusCreated].
Proof. destruct prev; [left|right; left]. Qed.

Lemma raft_put_leader (rs : RaftServer S R) (a : kv) (r : request) (t n x d data : string)
    (r' : R) (log : list string) :
  store_rep (Node_store (rs_node rs)) a → raft_is_leader (node_raft (rs_node rs)) = true →
  ReadAll_limited body_limit (rq_Body r) = Ok d →
  op_Marshal (mkOp "put" (storeKey t n x) (Some d)) = Ok data →
  raft_Apply (node_raft (rs_node rs)) data (5 * second) = (r', log, Ok tt) →
  logs_admissible limit a log →
  ∃ pre rs', log = pre ++ [data] ∧
    let a1 := (spec_run a pre).1 in
    let k := ToValidUTF8 (storeKey t n x) in
    let e := kv_next a1 k (logged_value (Some d)) in
    handleRaftPut http_NewRequest http_Do rs r t n x = (rs', Ok (put_response e (kv_map a1 !! k))) ∧
    store_rep (Node_store (rs_node rs')) (kv_put a1 k (logged_value (Some d))) ∧
    RaftApplyTotal rs' !! ("put", "ok")
      = Some (default 0 (RaftApplyTotal rs !! ("put", "ok")) + 1)%N.
Proof.
  intros Hs Hl Hb Hm Ha Hadm.
  destruct (Node_Apply_committed (rs_node rs) a _ data (5 * second) r' log Hs Hl Hm Ha Hadm)
    as (pre & n' & -> & Happ & Hs' & _).
  exists pre. eexists. split; [done|].
  set (a1 := (spec_run a pre).1) in *. set (k := ToValidUTF8 (storeKey t n x)).
  pose proof (spec_apply_put a1 _ _ data Hm) as Hsp. cbv zeta in Hsp. fold k in Hsp.
  rewrite Hsp in Happ, Hs'. cbn [fst snd or_Err] in Happ, Hs'.
  unfold handleRaftPut, Node_IsLeader. rewrite Hb, Hl. cbn [negb]. rewrite Happ.
  cbn [or_PrevEntry or_Entry]. cbv zeta. split; [reflexivity|]. split; [exact Hs'|].
  simpl. by rewrite lookup_insert_eq.
Qed.

(** C7: A [PUT] on the leader, once committed, is answered with the entry it wrote
    after the operations committed before it, [201] when there was none; every
    replica that has applied the log so far answers a [GET] of the key with that
    entry, if the key is valid UTF-8. *)
Theorem raft_put_visible_everywhere (rs rs2 : RaftServer S R) (a : kv) (r g : request)
    (t n x d data : string) (r' : R) (log : list string) :
  store_rep (Node_store (rs_node rs)) a → raft_is_leader (node_raft (rs_node rs)) = true →
  key_path (rq_Path r) t n x → rq_Method r = "PUT" →
  ReadAll_limited body_limit (rq_Body r) = Ok d →
  op_Marshal (mkOp "put" (storeKey t n x) (Some d)) = Ok data →
  raft_Apply (node_raft (rs_node rs)) data (5 * second) = (r', log, Ok tt) →
  logs_admissible limit a log → ValidString (storeKey t n x) = true →
  store_rep (Node_store (rs_node rs2)) (spec_run a log).1 →
  rq_Path g = rq_Path r → rq_Method g = "GET" →
  ∃ rs' e prev, handle rs r = (rs', Ok (put_response e prev)) ∧
    Value e = logged_value (Some d) ∧
    handle rs2 g = (rs2, Ok (found_response (Revision e) e)).
Proof.
  intros Hs Hl Hpath Hm Hb Hop Ha Hadm Hv Hs2 Hpg Hmg.
  destruct (raft_put_leader rs a r t n x d data r' log Hs Hl Hb Hop Ha Hadm)
    as (pre & rs' & -> & Hput & Hs' & _).
  rewrite (handle_put rs r t n x Hpath Hm), Hput.
  eexists _, _, _. split; [reflexivity|]. split; [apply kv_next_Value|].
  rewrite spec_run_app in Hs2. cbn [fst spec_run] in Hs2.
  pose proof (spec_apply_put (spec_run a pre).1 _ _ data Hop) as Hsp.
  destruct (spec_apply (spec_run a pre).1 data) as [a2 out] eqn:Heq. cbn [fst] in Hs2.
  cbv zeta in Hsp. injection Hsp as -> _.
  destruct Hpath as (Ht & Hn & Htn & Hx & Hsuf & Hp). rewrite Hp in Hpg.
  unfold handleRaftConfig. rewrite Hpg, configKey_path by done.
  apply String.eqb_neq in Hx, Htn. rewrite Htn, Hmg, Hx. cbn [String.eqb Ascii.eqb Bool.eqb].
  rewrite (handleGet_spec _ _ _ _ t n x Hs2 Hs2), (ToValidUTF8_valid (storeKey t n x)) by done.
  rewrite kv_put_get, kv_next_Revision. do 2 f_equal. simpl. rewrite stored_valid; [done|].
  by rewrite kv_next_Key.
Qed.




(** A follower that does not know the leader's address answers a write with [503];
    one that cannot reach the leader answers it with [400], as if the client's
    request were at fault. *)
Theorem follower_forward_failures (F : RaftServer S R) (r fwd : request) (t n x d addr : string)
    (e : error) :
  raft_is_leader (node_raft (rs_node F)) = false →
  key_path (rq_Path r) t n x → rq_Method r = "PUT" →
  ReadAll_limited body_limit (rq_Body r) = Ok d → Node_LeaderHTTPAddr (rs_node F) = addr →
  http_NewRequest (rq_Method r) ("http://" +:+ addr +:+ rq_URL r) (Some d) = Ok fwd →
  http_Do (forward_request F r fwd) = Err e →
  ∃ F' resp, handle F r = (F', Ok resp) ∧ rs_node F' = rs_node F ∧
    rs_Status resp = if String.eqb addr "" then StatusServiceUnavailable else StatusBadRequest.
Proof.
  intros HF Hpath Hm Hb Haddr Hnew Hdo. rewrite (handle_put F r t n x Hpath Hm).
  unfold handleRaftPut, Node_IsLeader. rewrite Hb, HF. cbn [negb]. unfold forwardToLeader.
  change (rs_node (count_apply F "put" "not_leader")) with (rs_node F). rewrite Haddr.
  destruct (String.eqb addr ""); [by eexists _, _|]. rewrite Hnew.
  change (forward_request (count_apply F "put" "not_leader") r fwd) with (forward_request F r fwd).
  rewrite Hdo. by eexists _, _.
Qed.

(** The registry of the nodes' HTTP addresses is not protected: a client's [PUT]
    under its prefix is a write like any other, after which every replica forwards
    the writes meant for that node, when it leads, to the address in the body. *)
Theorem peer_registry_writable (rs : RaftServer S R) (a : kv) (r : request)
    (id d data : string) (r' : R) (log : list string) :
  store_rep (Node_store (rs_node rs)) a → raft_is_leader (node_raft (rs_node rs)) = true →
  id ≠ "" → HasSuffix id "/" = false → ValidString id = true →
  rq_Path r = "/api/v1/config/__paladin/peers/" +:+ id → rq_Method r = "PUT" →
  ReadAll_limited body_limit (rq_Body r) = Ok d →
  op_Marshal (mkOp "put" (PeerHTTPPrefix +:+ id) (Some d)) = Ok data →
  raft_Apply (node_raft (rs_node rs)) data (5 * second) = (r', log, Ok tt) →
  logs_admissible limit a log →
  ∃ rs' resp a', handle rs r = (rs', Ok resp) ∧ rs_Status resp ∈ [StatusOK; StatusCreated] ∧
    store_rep (Node_store (rs_node rs')) a' ∧
    ∀ m : Node S R, store_rep (Node_store m) a' →
      (raft_LeaderWithID (node_raft m)).2 = id → Node_LeaderHTTPAddr m = d.
Proof.
  intros Hs Hl Hne Hsuf Hv Hp Hm Hb Hop Ha Hadm.
  destruct (raft_put_leader rs a r "__paladin" "peers" id d data r' log Hs Hl Hb Hop Ha Hadm)
    as (pre & rs' & _ & Hput & Hs' & _).
  rewrite (handle_put rs r "__paladin" "peers" id) by (try done; by split_and!).
  rewrite Hput. eexists _, _, _. split; [reflexivity|]. split; [|split; [exact Hs'|]].
  { apply put_response_status. }
  change (storeKey "__paladin" "peers" id) with (PeerHTTPPrefix +:+ id).
  rewrite ToValidUTF8_app, (ToValidUTF8_valid id) by done. intros m Hsm Hid.
  unfold Node_LeaderHTTPAddr. rewrite Hid. apply String.eqb_neq in Hne as ->.
  rewrite (law_Get _ _ _ Hsm), kv_put_get. unfold stored. simpl. rewrite kv_next_Value.
  unfold logged_value. simpl. by destruct (String.eqb_spec d "").
Qed.

(** [POST /admin/join] works on the leader only, where it answers [200] exactly when
    the voter was added and its address registered; when the registration fails the
    voter stays. *)
Theorem join_outcomes (rs : RaftServer S R) (r : request) (id addr httpAddr : string) :
  rq_Method r = "POST" → rq_Query r = [("id", id); ("addr", addr); ("http", httpAddr)] →
  id ≠ "" → addr ≠ "" → httpAddr ≠ "" →
  let '(rs', resp) := handleJoin rs r in
  let '(n1, joined) := Node_Join (rs_node rs) id addr in
  let '(n2, registered) := Node_RegisterPeerHTTP n1 id httpAddr in
  match joined, registered with
  | Panic, _ => resp = Panic
  | Ok _, Panic => resp = Panic
  | Err e, _ => rs_node rs' = n1 ∧
      resp = Ok (httpError StatusInternalServerError ("join: " +:+ error_Error e))
  | Ok _, Err e => rs_node rs' = n2 ∧
      resp = Ok (httpError StatusInternalServerError ("register http addr: " +:+ error_Error e))
  | Ok _, Ok _ => rs_node rs' = n2 ∧ ∃ resp', resp = Ok resp' ∧ rs_Status resp' = StatusOK
  end ∧
  (raft_is_leader (node_raft (rs_node rs)) = false → joined = Err ErrNotLeader ∧ n1 = rs_node rs).
Proof.
  intros Hm Hq Hid Haddr Hhttp. unfold handleJoin. rewrite Hm, Hq. simpl.
  apply String.eqb_neq in Hid, Haddr, Hhttp. rewrite Hid, Haddr, Hhttp. cbn [orb].
  destruct (Node_Join (rs_node rs) id addr) as [n1 joined] eqn:Hj.
  destruct (Node_RegisterPeerHTTP n1 id httpAddr) as [n2 registered] eqn:Hr.
  assert (raft_is_leader (node_raft (rs_node rs)) = false →
    joined = Err ErrNotLeader ∧ n1 = rs_node rs) as Hnl.
  { intros Hl. unfold Node_Join, Node_IsLeader in Hj. rewrite Hl in Hj. by injection Hj as <- <-. }
  destruct joined as [[]|e|]; [|done|done].
  destruct registered as [[]|e|]; [|done|done].
  split; [|done]. split; [done|]. eexists. by split.
Qed.

(** A key that is not valid UTF-8 is altered by the JSON of the log: the [PUT] is
    answered as a success and the key itself is as it was before. *)
Theorem raft_put_invalid_key (rs : RaftServer S R) (a : kv) (r : request)
    (t n x d data : string) (r' : R) :
  store_rep (Node_store (rs_node rs)) a → raft_is_leader (node_raft (rs_node rs)) = true →
  key_path (rq_Path r) t n x → rq_Method r = "PUT" →
  ReadAll_limited body_limit (rq_Body r) = Ok d → ValidString (storeKey t n x) = false →
  op_Marshal (mkOp "put" (storeKey t n x) (Some d)) = Ok data →
  raft_Apply (node_raft (rs_node rs)) data (5 * second) = (r', [data], Ok tt) →
  logs_admissible limit a [data] →
  ∃ rs' resp, handle rs r = (rs', Ok resp) ∧ rs_Status resp ∈ [StatusOK; StatusCreated] ∧
    store_Get (Node_store (rs_node rs')) (storeKey t n x)
      = store_Get (Node_store (rs_node rs)) (storeKey t n x).
Proof.
  intros Hs Hl Hpath Hm Hb Hv Hop Ha Hadm.
  destruct (raft_put_leader rs a r t n x d data r' [data] Hs Hl Hb Hop Ha Hadm)
    as (pre & rs' & Hpre & Hput & Hs' & _).
  assert (pre = []) as ->.
  { destruct pre as [|y pre]; [done|]. apply (f_equal length) in Hpre.
    rewrite length_app in Hpre. simpl in Hpre. lia. }
  rewrite (handle_put rs r t n x Hpath Hm), Hput. eexists _, _. split; [reflexivity|]. split.
  { apply put_response_status. }
  rewrite (law_Get _ _ _ Hs'), (law_Get _ _ _ Hs), kv_put_get_other; [done|].
  intros Heq. pose proof (ValidString_ToValidUTF8 (storeKey t n x)) as Hvv. congruence.
Qed.
End properties.

(** ** Concrete runs *)

Definition demo_leader_node : RaftServer (BoltStore MemDb.t) solo := mkRaftServer demo_node ∅.

Definition demo_NewRequest (method url : string) (data : go_bytes) : res request :=
  Ok (mkRequest method "/api/v1/config/t/n/k" [] url [] (mkBody (bytes_to_string data) None)).
(** A client all of whose requests reach the leader. *)
Definition demo_Do (q : request) : res response :=
  (handleRaftConfig demo_NewRequest (λ _, Err (EMsg "unreachable")) demo_leader_node q).2.

Definition demo_data : string := log_of (mkOp "put" "t/n/k" (Some "v")).

Lemma demo_data_admissible : logs_admissible demo_limit kv_empty [demo_data].
Proof. split; [solve_log_admissible|exact I]. Qed.

Lemma demo_key_path : key_path "/api/v1/config/t/n/k" "t" "n" "k".
Proof. by split_and!. Qed.

(** A replica that has applied the log of the leader. *)
Definition demo_replica : RaftServer (BoltStore MemDb.t) solo :=
  mkRaftServer (mkNode (node_config demo_node) (mkSolo false "n1")
                  (FSM_run demo_fsm [demo_data]).1) ∅.

Lemma raft_put_visible_everywhere_witness :
  ∃ rs' e prev,
    handleRaftConfig demo_NewRequest demo_Do demo_leader_node
      (demo_request "PUT" "/api/v1/config/t/n/k" "v") = (rs', Ok (put_response e prev)) ∧
    handleRaftConfig demo_NewRequest demo_Do demo_replica
      (demo_request "GET" "/api/v1/config/t/n/k" "") = (demo_replica, Ok (found_response (Revision e) e)).
Proof.
  destruct (raft_put_visible_everywhere demo_NewRequest demo_Do demo_leader_node demo_replica kv_empty
    (demo_request "PUT" "/api/v1/config/t/n/k" "v") (demo_request "GET" "/api/v1/config/t/n/k" "")
    "t" "n" "k" "v" demo_data (mkSolo true "n1") [demo_data] demo_fsm_rep)
    as (rs' & e & prev & Hput & _ & Hget);
    [reflexivity|apply demo_key_path|reflexivity|vm_compute; reflexivity|reflexivity|reflexivity
    |apply demo_data_admissible|vm_compute; reflexivity| |reflexivity|reflexivity|].
  - apply (FSM_run_spec [demo_data] demo_fsm kv_empty demo_fsm_rep demo_data_admissible).
  - exists rs', e, prev. split; [exact Hput|exact Hget].
Defined.


(** A follower of [n1] that knows its address. *)
Definition demo_follower : RaftServer (BoltStore MemDb.t) solo :=
  mkRaftServer (mkNode (node_config demo_node) (mkSolo false "n1")
    (node_fsm (Node_RegisterPeerHTTP demo_node "n1" "10.0.0.1:8080").1)) ∅.




Lemma follower_forward_failures_witness :
  ∃ F' resp, handleRaftConfig demo_NewRequest (λ _, Err (EMsg "connection refused")) demo_follower
    (demo_request "PUT" "/api/v1/config/t/n/k" "v") = (F', Ok resp) ∧
    rs_Status resp = StatusBadRequest.
Proof.
  destruct (follower_forward_failures demo_NewRequest (λ _, Err (EMsg "connection refused")) demo_follower
    (demo_request "PUT" "/api/v1/config/t/n/k" "v")
    (mkRequest "PUT" "/api/v1/config/t/n/k" [] "http://10.0.0.1:8080/api/v1/config/t/n/k" []
       (mkBody "v" None)) "t" "n" "k" "v" "10.0.0.1:8080" (EMsg "connection refused"))
    as (F' & resp & HF & _ & Hst);
    [reflexivity|apply demo_key_path|reflexivity|vm_compute; reflexivity|vm_compute; reflexivity
    |reflexivity|reflexivity|].
  exists F', resp. split; [exact HF|exact Hst].
Defined.

Lemma peer_registry_writable_witness :
  ∃ rs' resp, handleRaftConfig demo_NewRequest demo_Do demo_leader_node
      (demo_request "PUT" "/api/v1/config/__paladin/peers/n1" "evil.example:80") = (rs', Ok resp) ∧
    Node_LeaderHTTPAddr (rs_node rs') = "evil.example:80".
Proof.
  destruct (peer_registry_writable demo_NewRequest demo_Do demo_leader_node kv_empty
    (demo_request "PUT" "/api/v1/config/__paladin/peers/n1" "evil.example:80") "n1" "evil.example:80"
    (log_of (mkOp "put" "__paladin/peers/n1" (Some "evil.example:80"))) (mkSolo true "n1")
    [log_of (mkOp "put" "__paladin/peers/n1" (Some "evil.example:80"))] demo_fsm_rep)
    as (rs' & resp & a' & Hput & _ & Hs & Hm);
    [reflexivity|discriminate|reflexivity|vm_compute; reflexivity|reflexivity|reflexivity
    |vm_compute; reflexivity|reflexivity|reflexivity|split; [solve_log_admissible|exact I]|].
  exists rs', resp. split; [exact Hput|]. apply Hm; [exact Hs|].
  replace rs' with (handleRaftConfig demo_NewRequest demo_Do demo_leader_node
      (demo_request "PUT" "/api/v1/config/__paladin/peers/n1" "evil.example:80")).1
    by (rewrite Hput; reflexivity).
  vm_compute. reflexivity.
Defined.

Definition demo_join : request :=
  mkRequest "POST" "/admin/join" [("id", "n2"); ("addr", "10.0.0.2:9001"); ("http", "10.0.0.2:8080")]
    "" [] (mkBody "" None).

Lemma join_outcomes_witness :
  ∃ rs' resp, handleJoin demo_leader_node demo_join = (rs', Ok resp) ∧ rs_Status resp = StatusOK.
Proof.
  pose proof (join_outcomes demo_leader_node demo_join "n2" "10.0.0.2:9001" "10.0.0.2:8080"
    eq_refl eq_refl ltac:(discriminate) ltac:(discriminate) ltac:(discriminate)) as Hj.
  destruct (handleJoin demo_leader_node demo_join) as [rs' resp] eqn:Hh.
  revert Hj. vm_compute Node_Join. cbv beta iota.
  destruct (Node_RegisterPeerHTTP _ _ _) as [n2 [[]|e|]] eqn:Hr;
    [|vm_compute in Hr; discriminate Hr|vm_compute in Hr; discriminate Hr].
  intros [[_ (resp' & -> & Hst)] _]. exists rs', resp'. split; [reflexivity|exact Hst].
Defined.

Lemma raft_put_invalid_key_witness :
  ∃ rs' resp, handleRaftConfig demo_NewRequest demo_Do demo_leader_node
      (demo_request "PUT" ("/api/v1/config/t/n/" +:+ String "255" "") "v") = (rs', Ok resp) ∧
    rs_Status resp ∈ [StatusOK; StatusCreated].
Proof.
  destruct (raft_put_invalid_key demo_NewRequest demo_Do demo_leader_node kv_empty
    (demo_request "PUT" ("/api/v1/config/t/n/" +:+ String "255" "") "v") "t" "n" (String "255" "") "v"
    (log_of (mkOp "put" ("t/n/" +:+ String "255" "") (Some "v"))) (mkSolo true "n1") demo_fsm_rep)
    as (rs' & resp & Hput & Hst & _);
    [reflexivity|by split_and!|reflexivity|vm_compute; reflexivity|vm_compute; reflexivity|reflexivity
    |reflexivity|split; [solve_log_admissible|exact I]|].
  exists rs', resp. split; [exact Hput|exact Hst].
Defined.
