(* ===== verification/ApiTypes.v ===== *)
(** The documents of the HTTP API: every response of the configuration, revision, watch
    and administration routes, whatever the request and the store, is the JSON of one of
    the types below, and the status says which; [/healthz], [/metrics] and the 404 of the
    mux are other texts. *)

From S2P Require Import Prelude GoStrings GoEncoding GoFmt GoTime GoJson JsonFields Entry BoltDB Kv StoreSpec.
From S2P Require Import BoltStore WatchCache Watchable Fsm Node Http Server RaftServer.

Local Open Scope string_scope.
Local Open Scope list_scope.
Local Open Scope nat_scope.

(** ** Types of documents *)

Inductive api_doc :=
  | ConfigDoc (r : ConfigResponse)
  | WatchDoc (r : WatchResponse)
  | RevDoc (n : N)
  | AdminDoc (m : list (string * string))
  | ErrorDoc (msg : string).

Definition doc_json (d : api_doc) : json :=
  match d with
  | ConfigDoc r => config_response_json r
  | WatchDoc r => watch_response_json r
  | RevDoc n => JObj [("revision", json_uint n)]
  | AdminDoc m => JObj (map (λ x, (x.1, JStr x.2)) m)
  | ErrorDoc msg => JObj [("error", JStr msg)]
  end.

Definition is_error (d : api_doc) : bool := match d with ErrorDoc _ => true | _ => false end.

(** The response carries a document for which [P] holds, an error document when and
    only when the status is one of an error. *)
Definition typed (P : api_doc → Prop) (resp : response) : Prop :=
  ∃ d, P d ∧ json_decode_first (rs_Body resp) = Some (doc_json d) ∧
    is_error d = (400 <=? rs_Status resp)%Z ∧ (200 ≤ rs_Status resp ≤ 599)%Z ∧
    ("Content-Type", "application/json") ∈ rs_Header resp.

(** The documents of each handler. *)
Definition config_doc (d : api_doc) : Prop :=
  match d with ConfigDoc _ | ErrorDoc _ => True | _ => False end.
Definition watch_doc (d : api_doc) : Prop :=
  match d with WatchDoc _ | ErrorDoc _ => True | _ => False end.
Definition admin_doc (d : api_doc) : Prop :=
  match d with AdminDoc _ | ErrorDoc _ => True | _ => False end.
Definition rev_doc (d : api_doc) : Prop := match d with RevDoc _ => True | _ => False end.

(** ** Lemmas *)

Lemma header_Set_elem (h : list (string * string)) (k v : string) : (k, v) ∈ header_Set h k v.
Proof. unfold header_Set. apply elem_of_app. right. by apply list_elem_of_singleton. Qed.

Lemma typed_config (header : list (string * string)) (status : Z) (r : ConfigResponse) :
  (200 ≤ status < 400)%Z → typed config_doc (writeJSON header status (config_response_json r)).
Proof.
  intros Hs. eexists (ConfigDoc _). split; [done|]. cbn [writeJSON rs_Body rs_Status rs_Header].
  rewrite json_decode_first_Encode by apply wf_config_response. rewrite norm_config_response.
  split; [reflexivity|]. split_and!; [|lia..|apply header_Set_elem].
  by destruct (Z.leb_spec 400 status); [lia|].
Qed.

Lemma typed_error (P : api_doc → Prop) (status : Z) (msg : string) :
  (400 ≤ status ≤ 599)%Z → (∀ m, P (ErrorDoc m)) → typed P (httpError status msg).
Proof.
  intros Hs HP. exists (ErrorDoc (ToValidUTF8 msg)). split; [apply HP|].
  cbn [httpError writeJSON rs_Body rs_Status rs_Header].
  rewrite json_decode_first_Encode by repeat constructor. split; [reflexivity|].
  split_and!; [|lia..|apply header_Set_elem]. by destruct (Z.leb_spec 400 status); [|lia].
Qed.

Lemma typed_rev {S : Type} `{Store S} (s : S) : typed rev_doc (handleRev s).
Proof.
  exists (RevDoc (store_Rev s)). split; [done|]. cbn [handleRev writeJSON rs_Body rs_Status rs_Header].
  rewrite json_decode_first_Encode by repeat constructor. split; [reflexivity|].
  split_and!; [done..|apply header_Set_elem].
Qed.

Lemma typed_admin (m : list (string * string)) : typed admin_doc (writeJSON [] StatusOK (map_json m)).
Proof.
  exists (AdminDoc (map (λ x, (ToValidUTF8 x.1, ToValidUTF8 x.2)) (merge_sort (λ x y, String.le x.1 y.1) m))).
  split; [done|]. cbn [writeJSON rs_Body rs_Status rs_Header]. unfold map_json.
  rewrite json_decode_first_Encode.
  - cbn [norm doc_json]. rewrite !map_map. split; [reflexivity|].
    split_and!; [done..|apply header_Set_elem].
  - constructor. apply Forall_map, Forall_forall. intros x _. constructor.
Qed.

(** A handler's result, if it is a response. *)
Definition typed_res (P : api_doc → Prop) (r : res response) : Prop :=
  match r with Ok resp => typed P resp | _ => True end.

Lemma typed_res_Ok (P : api_doc → Prop) (resp : response) : typed P resp → typed_res P (Ok resp).
Proof. done. Qed.

Create HintDb typed discriminated.
#[export] Hint Resolve typed_res_Ok : typed.
#[export] Hint Extern 1 (typed config_doc (writeJSON _ _ (config_response_json _))) =>
  apply typed_config; by split : typed.
#[export] Hint Resolve typed_admin : typed.
#[export] Hint Extern 1 (typed _ (httpError _ _)) => apply typed_error; [by split|done] : typed.
#[export] Hint Extern 1 (typed_res _ Panic) => exact I : typed.

(** Case analysis on a handler down to its responses. *)
Ltac typed_cases := repeat case_match; simplify_eq; cbn [snd]; auto with typed.

Section handlers.
Context {S : Type} `{!Store S}.

Lemma handleGet_typed (s s' : S) (t n x : string) : typed_res config_doc (handleGet s s' t n x).
Proof. unfold handleGet. typed_cases. Qed.

Lemma handleList_typed (s s' : S) (t n : string) : typed_res config_doc (handleList s s' t n).
Proof. unfold handleList. typed_cases. Qed.

Lemma handlePut_typed (srv : Server S) (r : request) (t n x : string) :
  typed_res config_doc (handlePut srv r t n x).2.
Proof. unfold handlePut. typed_cases. Qed.

Lemma handleDelete_typed (after : S → S) (srv : Server S) (t n x : string) :
  typed_res config_doc (handleDelete after srv t n x).2.
Proof. unfold handleDelete. typed_cases. Qed.

#[local] Hint Resolve handleGet_typed handleList_typed handlePut_typed handleDelete_typed : typed.

Lemma handleConfig_typed (srv : Server S) (r : request) : typed_res config_doc (handleConfig srv r).2.
Proof. unfold handleConfig. typed_cases. Qed.

Lemma watch_reply_typed (events : list Event) (s s' : S) : typed_res watch_doc (watch_reply events s s').
Proof.
  unfold watch_reply. destruct (mapM watch_event events) as [es|e|]; cbn [mbind res_bind]; [|done..].
  eexists (WatchDoc _). split; [done|]. cbn [rs_Body rs_Status rs_Header].
  rewrite json_decode_first_Encode by apply wf_watch_response. rewrite norm_watch_response.
  split; [reflexivity|]. split_and!; [done..|]. unfold header_Set. cbn. set_solver.
Qed.

Lemma watch_request_typed (r : request) (resp : response) :
  watch_request r = inl resp → typed watch_doc resp.
Proof. unfold watch_request. intros H. repeat case_match; simplify_eq; auto with typed. Qed.

Lemma handleWatch_typed (r : request) (start : Z) (wakes : list (WatchCache * Z)) (s s' : S) (x : res response) :
  handleWatch r start wakes s s' = Some x → typed_res watch_doc x.
Proof.
  unfold handleWatch. destruct (watch_request r) as [resp|[[n p] t]] eqn:Hr.
  - intros [= <-]. by eapply watch_request_typed.
  - destruct (WaitForEvents n p t start wakes) as [[events|e|]|]; intros [= <-]; [|done..].
    apply watch_reply_typed.
Qed.

(** The documents of a route of the API; [/healthz] answers [ok] and [/metrics] is
    the library's. *)
Definition base_doc (h : handler) : option (api_doc → Prop) :=
  match h with
  | HConfig => Some config_doc
  | HRev => Some rev_doc
  | HWatch => Some watch_doc
  | HHealthz | HMetrics => None
  end.

Lemma serve_typed `{!HasWatchCache S} (srv srv' : Server S) (h : handler) (P : api_doc → Prop)
    (r : request) (now : Z) (resp : response) :
  base_doc h = Some P → serve srv h r now = (srv', Some (Ok resp)) → typed P resp.
Proof.
  destruct h; cbn [serve base_doc]; intros [= <-] H.
  - pose proof (handleConfig_typed srv r) as Ht. destruct (handleConfig srv r) as [srv1 x].
    injection H as _ ->. exact Ht.
  - injection H as _ <-. apply typed_rev.
  - injection H as _ H. destruct (watch_cache (srv_store srv)) as [wc|]; [|done].
    by apply handleWatch_typed in H.
Qed.
End handlers.

Definition raft_doc (h : raft_handler) : option (api_doc → Prop) :=
  match h with
  | RBase h => base_doc h
  | RConfig => Some config_doc
  | RJoin | RLeave | RStats => Some admin_doc
  end.

Section raft_handlers.
Context {S R : Type} `{!Store S, !Raft R}.
Variable http_NewRequest : string → string → go_bytes → res request.
Variable http_Do : request → res response.

(** The answer is the one the HTTP client brought back for a forwarded write. *)
Definition relayed (rs : RaftServer S R) (r : request) (resp : response) : Prop :=
  raft_is_leader (node_raft (rs_node rs)) = false ∧ rq_Method r ∈ ["PUT"; "DELETE"] ∧
  ∃ data fwd,
    http_NewRequest (rq_Method r)
      ("http://" +:+ Node_LeaderHTTPAddr (rs_node rs) +:+ rq_URL r) data = Ok fwd ∧
    http_Do (forward_request rs r fwd) = Ok resp.

(** An answer of the handler itself, or one it relayed. *)
Definition config_answer (rs : RaftServer S R) (r : request) (x : res response) : Prop :=
  match x with Ok resp => typed config_doc resp ∨ relayed rs r resp | _ => True end.

Lemma own_answer (rs : RaftServer S R) (r : request) (x : res response) :
  typed_res config_doc x → config_answer rs r x.
Proof. destruct x; simpl; auto. Qed.

Lemma forward_answer (rs : RaftServer S R) (r : request) (data : go_bytes) (op result : string) :
  raft_is_leader (node_raft (rs_node rs)) = false → rq_Method r ∈ ["PUT"; "DELETE"] →
  config_answer rs r
    (forwardToLeader http_NewRequest http_Do (count_apply rs op result) r data).
Proof.
  intros Hl Hm. unfold forwardToLeader.
  change (rs_node (count_apply rs op result)) with (rs_node rs).
  change (forward_request (count_apply rs op result) r) with (forward_request rs r).
  destruct (String.eqb _ ""); [apply own_answer; typed_cases|].
  destruct (http_NewRequest _ _ _) as [q|e|] eqn:Hnew; [|apply own_answer; typed_cases..].
  destruct (http_Do _) as [resp|e|] eqn:Hdo; [|apply own_answer; typed_cases..].
  right. split; [done|]. split; [done|]. exists data, q. split; [done|]. by destruct resp.
Qed.

Lemma handleRaftPut_answer (rs : RaftServer S R) (r : request) (t n x : string) :
  rq_Method r = "PUT" →
  config_answer rs r (handleRaftPut http_NewRequest http_Do rs r t n x).2.
Proof.
  intros Hm. unfold handleRaftPut, Node_IsLeader.
  destruct (ReadAll_limited _ _) as [d|e|]; [|apply own_answer; typed_cases..].
  destruct (raft_is_leader _) eqn:Hl; cbn [negb].
  - apply own_answer. typed_cases.
  - apply forward_answer; [done|]. rewrite Hm. set_solver.
Qed.

Lemma handleRaftDelete_answer (after : Node S R → Node S R) (rs : RaftServer S R) (r : request)
    (t n x : string) :
  rq_Method r = "DELETE" →
  config_answer rs r (handleRaftDelete http_NewRequest http_Do after rs r t n x).2.
Proof.
  intros Hm. unfold handleRaftDelete, Node_IsLeader. destruct (raft_is_leader _) eqn:Hl; cbn [negb].
  - apply own_answer. typed_cases.
  - apply forward_answer; [done|]. rewrite Hm. set_solver.
Qed.

#[local] Hint Resolve handleGet_typed handleList_typed : typed.

Lemma handleRaftConfig_answer (rs : RaftServer S R) (r : request) :
  config_answer rs r (handleRaftConfig http_NewRequest http_Do rs r).2.
Proof.
  unfold handleRaftConfig.
  destruct (configKey (rq_Path r)) as [[[t n] x]|e|]; [|apply own_answer; typed_cases..].
  destruct (String.eqb t ""); [apply own_answer; typed_cases|].
  destruct (String.eqb_spec (rq_Method r) "GET"); [apply own_answer; typed_cases|].
  destruct (String.eqb_spec (rq_Method r) "PUT").
  { destruct (String.eqb x ""); [apply own_answer; typed_cases|by apply handleRaftPut_answer]. }
  destruct (String.eqb_spec (rq_Method r) "DELETE"); [|apply own_answer; typed_cases].
  destruct (String.eqb x ""); [apply own_answer; typed_cases|by apply handleRaftDelete_answer].
Qed.

Lemma handleJoin_typed (rs : RaftServer S R) (r : request) : typed_res admin_doc (handleJoin rs r).2.
Proof. unfold handleJoin. typed_cases. Qed.

Lemma handleLeave_typed (rs : RaftServer S R) (r : request) : typed_res admin_doc (handleLeave rs r).2.
Proof. unfold handleLeave. typed_cases. Qed.

(** What a node answers on its routes. *)
Lemma raft_ServeHTTP_typed (rs rs' : RaftServer S R) (h : raft_handler) (P : api_doc → Prop)
    (r : request) (now : Z) (resp : response) :
  mux_route (raft_routes (rs_node rs)) (rq_Path r) = ToHandler h → raft_doc h = Some P →
  raft_ServeHTTP http_NewRequest http_Do rs r now = (rs', Some (Ok resp)) →
  typed P resp ∨ h = RConfig ∧ relayed rs r resp.
Proof.
  intros Hr HP. unfold raft_ServeHTTP. rewrite Hr. destruct h as [h| | | |]; cbn [raft_doc] in HP.
  - destruct (serve _ h r now) as [srv1 x] eqn:Hs. intros [= _ Hx]. cbn [snd] in Hx. subst x.
    left. by eapply serve_typed.
  - injection HP as <-. pose proof (handleRaftConfig_answer rs r) as Ht.
    destruct (handleRaftConfig _ _ rs r). intros [= _ ->]. destruct Ht; auto.
  - injection HP as <-. pose proof (handleJoin_typed rs r) as Ht.
    destruct (handleJoin rs r). intros [= _ ->]. by left.
  - injection HP as <-. pose proof (handleLeave_typed rs r) as Ht.
    destruct (handleLeave rs r). intros [= _ ->]. by left.
  - injection HP as <-. intros [= _ <-]. left. apply typed_admin.
Qed.
End raft_handlers.

(** A client whose requests are answered by the node [L], at time [now]. *)
Definition reaches {S R : Type} `{!Store S, !Raft R} (new : string → string → go_bytes → res request)
    (do : request → res response) (L : RaftServer S R) (now : Z) (q : request) : res response :=
  default (Err (EMsg "no answer")) (raft_ServeHTTP new do L q now).2.

(** ** Properties *)

(** C12: The configuration, watch, revision and administration routes answer with
    JSON, whatever the request and the store: each answer is declared as JSON and
    is a document of the type of its route, an error document exactly when the
    status is [4xx] or [5xx].  That is so on a server of its own, and for every
    answer a node of a cluster gives itself; the only other answers are those to
    writes on a node that does not lead, which are passed on as the HTTP client
    brought them.  Where that client reaches a node that leads, and the URL of the
    forwarded request is parsed to the path it was made of, those too are
    documents of the configuration route. *)
Theorem api_responses_typed {S S2 R : Type} `{!Store S, !HasWatchCache S, !Store S2, !Raft R}
    (new : string → string → go_bytes → res request) (do : request → res response)
    (srv srv' : Server S) (F F' L : RaftServer S2 R) (r : request) (now now' : Z) (resp : response) :
  (∀ h P, mux_route (routes (srv_store srv)) (rq_Path r) = ToHandler h → base_doc h = Some P →
     ServeHTTP srv r now = (srv', Some (Ok resp)) → typed P resp) ∧
  (∀ h P, mux_route (raft_routes (rs_node F)) (rq_Path r) = ToHandler h → raft_doc h = Some P →
     (raft_ServeHTTP new do F r now = (F', Some (Ok resp)) →
        typed P resp ∨ h = RConfig ∧ relayed new do F r resp) ∧
     (raft_is_leader (node_raft (rs_node L)) = true →
      (∀ data q, new (rq_Method r) ("http://" +:+ Node_LeaderHTTPAddr (rs_node F) +:+ rq_URL r) data
         = Ok q → rq_Path q = rq_Path r) →
      raft_ServeHTTP new (reaches new do L now') F r now = (F', Some (Ok resp)) → typed P resp)).
Proof.
  split.
  { intros h P Hr HP. unfold ServeHTTP. rewrite Hr. by apply serve_typed. }
  intros h P Hr HP. split; [by apply raft_ServeHTTP_typed|]. intros HL Hnew Hs.
  destruct (raft_ServeHTTP_typed new _ F F' h P r now resp Hr HP Hs) as [Ht|[-> Hrel]]; [done|].
  destruct Hrel as (_ & _ & data & fwd & Hfwd & Hdo). unfold reaches in Hdo.
  set (q := forward_request F r fwd) in Hdo.
  assert (mux_route (raft_routes (rs_node L)) (rq_Path q) = ToHandler RConfig) as HrL.
  { rewrite <- Hr. unfold q. cbn [forward_request rq_Path]. by rewrite (Hnew data fwd Hfwd). }
  destruct (raft_ServeHTTP new do L q now') as [L' [x|]] eqn:HsL; [|done].
  change (x = Ok resp) in Hdo. subst x. destruct (raft_ServeHTTP_typed new do L L' RConfig P q now' resp HrL HP HsL)
    as [Ht|[_ (HF & _)]]; [done|congruence].
Qed.

(** A write on a follower, answered by the leader. *)
Definition demo_relay : RaftServer (BoltStore MemDb.t) solo * option (res response) :=
  raft_ServeHTTP demo_NewRequest (reaches demo_NewRequest (λ _, Panic) demo_leader_node 0)
    RaftServer.demo_follower (demo_request "PUT" "/api/v1/config/t/n/k" "v") 0.

Lemma demo_NewRequest_path (method url : string) (data : go_bytes) (q : request) :
  demo_NewRequest method url data = Ok q → rq_Path q = "/api/v1/config/t/n/k".
Proof. by intros [= <-]. Qed.

Lemma demo_relay_answer : ∃ resp, demo_relay.2 = Some (Ok resp) ∧ rs_Status resp = 201%Z.
Proof. eexists. split; [vm_compute; reflexivity|reflexivity]. Qed.

Lemma api_responses_typed_witness :
  ∃ F' resp, demo_relay = (F', Some (Ok resp)) ∧ rs_Status resp = 201%Z ∧ typed config_doc resp.
Proof.
  destruct demo_relay_answer as (resp & Hresp & Hst). exists demo_relay.1, resp.
  assert (demo_relay = (demo_relay.1, Some (Ok resp))) as Hs
    by (rewrite <- Hresp; apply surjective_pairing).
  split; [exact Hs|]. split; [exact Hst|].
  destruct (api_responses_typed demo_NewRequest (λ _, Panic) demo_server demo_server
    RaftServer.demo_follower demo_relay.1 demo_leader_node
    (demo_request "PUT" "/api/v1/config/t/n/k" "v") 0 0 resp) as [_ H].
  destruct (H RConfig config_doc ltac:(vm_compute; reflexivity) eq_refl) as [_ Ht].
  apply Ht; [reflexivity| |exact Hs]. intros data q. apply demo_NewRequest_path.
Defined.
