(* ===== verification/GoSha.v ===== *)
(** [crypto/sha256] and [encoding/hex], as the SDK's cache uses them: SHA-256 on
    32-bit words and lower-case hexadecimal text. *)

From S2P Require Import Prelude GoStrings GoEncoding GoJson JsonFields Entry.

Local Open Scope string_scope.
Local Open Scope list_scope.
Local Open Scope N_scope.

Definition w32 (n : N) : N := n mod 4294967296.
Definition rotr (n : N) (x : N) : N :=
  N.lor (N.shiftr x n) (w32 (N.shiftl x (32 - n))).
Definition not32 (x : N) : N := N.lxor x 4294967295.

Definition ch (x y z : N) : N := N.lxor (N.land x y) (N.land (not32 x) z).
Definition maj (x y z : N) : N := N.lxor (N.lxor (N.land x y) (N.land x z)) (N.land y z).
Definition big_sigma0 (x : N) : N := N.lxor (N.lxor (rotr 2 x) (rotr 13 x)) (rotr 22 x).
Definition big_sigma1 (x : N) : N := N.lxor (N.lxor (rotr 6 x) (rotr 11 x)) (rotr 25 x).
Definition small_sigma0 (x : N) : N := N.lxor (N.lxor (rotr 7 x) (rotr 18 x)) (N.shiftr x 3).
Definition small_sigma1 (x : N) : N := N.lxor (N.lxor (rotr 17 x) (rotr 19 x)) (N.shiftr x 10).

(** The round constants. *)
Definition sha_k : list N :=
  [1116352408; 1899447441; 3049323471; 3921009573; 961987163; 1508970993; 2453635748; 2870763221;
   3624381080; 310598401; 607225278; 1426881987; 1925078388; 2162078206; 2614888103; 3248222580;
   3835390401; 4022224774; 264347078; 604807628; 770255983; 1249150122; 1555081692; 1996064986;
   2554220882; 2821834349; 2952996808; 3210313671; 3336571891; 3584528711; 113926993; 338241895;
   666307205; 773529912; 1294757372; 1396182291; 1695183700; 1986661051; 2177026350; 2456956037;
   2730485921; 2820302411; 3259730800; 3345764771; 3516065817; 3600352804; 4094571909; 275423344;
   430227734; 506948616; 659060556; 883997877; 958139571; 1322822218; 1537002063; 1747873779;
   1955562222; 2024104815; 2227730452; 2361852424; 2428436474; 2756734187; 3204031479; 3329325298].

Definition sha_init : list N :=
  [1779033703; 3144134277; 1013904242; 2773480762; 1359893119; 2600822924; 528734635; 1541459225].

Fixpoint string_bytes (s : string) : list N :=
  match s with
  | EmptyString => []
  | String a r => N_of_ascii a :: string_bytes r
  end.

(** Big-endian words of a list of bytes. *)
Fixpoint words (l : list N) : list N :=
  match l with
  | a :: b :: c :: d :: r => (((a * 256 + b) * 256 + c) * 256 + d) :: words r
  | _ => []
  end.

(** The message, a one bit, zeros up to 56 modulo 64 bytes, and its length in bits. *)
Definition sha_pad (l : list N) : list N :=
  let n := N.of_nat (length l) in
  l ++ [128] ++ replicate (N.to_nat ((119 - n mod 64) mod 64)) 0
    ++ string_bytes (BE_PutUint64 (8 * n)).

(** The message schedule, the last word first. *)
Fixpoint extend (n : nat) (w : list N) : list N :=
  match n with
  | O => w
  | S n' =>
      let at_ i := nth (i - 1) w 0 in
      extend n' (w32 (small_sigma1 (at_ 2%nat) + at_ 7%nat + small_sigma0 (at_ 15%nat) + at_ 16%nat) :: w)
  end.

Definition sha_round (s : list N) (kw : N * N) : list N :=
  match s with
  | [a; b; c; d; e; f; g; h] =>
      let t1 := h + big_sigma1 e + ch e f g + kw.1 + kw.2 in
      let t2 := big_sigma0 a + maj a b c in
      [w32 (t1 + t2); a; b; c; w32 (d + t1); e; f; g]
  | _ => s
  end.

Definition sha_block (h : list N) (block : list N) : list N :=
  let w := reverse (extend 48 (reverse block)) in
  let s := foldl sha_round h (zip sha_k w) in
  zip_with (λ x y, w32 (x + y)) h s.

Fixpoint sha_blocks (n : nat) (h w : list N) : list N :=
  match n with
  | O => h
  | S n' => sha_blocks n' (sha_block h (take 16 w)) (drop 16 w)
  end.

Definition word_bytes (x : N) : list N :=
  [x / 16777216 mod 256; x / 65536 mod 256; x / 256 mod 256; x mod 256].

Definition hex_byte (b : N) : string :=
  String (hex_char (b / 16)) (String (hex_char (b mod 16)) "").

(** [sha256.Sum256(data)] and [hex.EncodeToString] *)
Definition Sum256 (data : string) : list N :=
  let w := words (sha_pad (string_bytes data)) in
  mjoin (word_bytes <$> sha_blocks (length w / 16)%nat sha_init w).

Definition EncodeToString (l : list N) : string := sconcat (hex_byte <$> l).

(** The test vectors of FIPS 180-2. *)
Example sha256_abc :
  EncodeToString (Sum256 "abc")
  = "ba7816bf8f01cfea414140de5dae2223b00361a396177a9cb410ff61f20015ad".
Proof. vm_compute. reflexivity. Qed.

Example sha256_two_blocks :
  EncodeToString (Sum256 "abcdbcdecdefdefgefghfghighijhijkijkljklmklmnlmnomnopnopq")
  = "248d6a61d20638b8e5c026930c3e6039a33ce45964ff2167f6ecedd419db06c1".
Proof. vm_compute. reflexivity. Qed.

(** ** The digest is text *)

Lemma hex_byte_ascii (b : N) : b < 256 → all_ascii (hex_byte b) = true.
Proof.
  intros Hb.
  assert (forallb (λ i, all_ascii (hex_byte (N.of_nat i))) (seq 0 256) = true) as Hall
    by (vm_compute; reflexivity).
  rewrite forallb_forall in Hall. specialize (Hall (N.to_nat b)).
  rewrite N2Nat.id in Hall. apply Hall, in_seq. lia.
Qed.

Lemma Sum256_bytes (data : string) : Forall (λ b, b < 256) (Sum256 data).
Proof.
  unfold Sum256. induction (sha_blocks _ _ _) as [|x l IH]; [constructor|].
  unfold word_bytes. repeat (constructor; [apply N.mod_lt; lia|]). exact IH.
Qed.

Lemma EncodeToString_ascii (l : list N) :
  Forall (λ b, b < 256) l → all_ascii (EncodeToString l) = true.
Proof.
  induction 1 as [|b l Hb Hl IH]; [done|]. unfold EncodeToString in *.
  cbn [fmap list_fmap sconcat foldr]. fold (sconcat (hex_byte <$> l)).
  by rewrite all_ascii_app, IH, hex_byte_ascii.
Qed.
