(* ===== verification/Sdk.v ===== *)
(** [src/sdk/client.go] and the series of [src/sdk/metrics.go]: the client's state,
    its full pull, its watch loop and its cache file.  The HTTP client and the file
    system are parameters; the callbacks of [OnChange] are numbers, and a call of
    one is a value of the result.  Log lines and durations are left out. *)

From S2P Require Import Prelude GoTime GoStrings GoEncoding GoJson JsonFields Entry BoltDB Kv StoreSpec.
From S2P Require Import BoltStore WatchCache Watchable Http Server RaftServer GoSha GoFmt.

Local Open Scope string_scope.
Local Open Scope list_scope.
Local Open Scope nat_scope.

(** ** Data *)

(** [type Config struct] *)
Record Config := mkConfig {
  Addrs : list string;
  Tenant : string;
  Namespace : string;
  CacheDir : string;
  PollTimeout : Z;
  RetryBackoff : Z;
}.

(** [type configItem struct], [type configResponse struct], [type watchEvent struct]
    and [type watchResponse struct] *)
Record configItem := mkItem { it_Key : string; it_Value : string; it_Revision : N }.
Record configResponse := mkPull { pl_Revision : N; pl_Configs : list configItem }.
Record watchEvent := mkWEvent {
  sv_Type : string;
  sv_Entry : option configItem;
  sv_PrevEntry : option configItem;
}.
Record watchResponse := mkWatch { wt_Revision : N; wt_Events : list watchEvent }.

Definition zero_item : configItem := mkItem "" "" 0.
Definition zero_watch_event : watchEvent := mkWEvent "" None None.

(** [type clientMetrics struct]: the counters by label and the gauges. *)
Record clientMetrics := mkMetrics {
  fullPullsTotal : gmap string N;
  watchPollsTotal : gmap string N;
  watchEventsTotal : gmap string N;
  cacheLoadsTotal : gmap string N;
  m_revision : N;
  m_configs : N;
}.

Definition newClientMetrics : clientMetrics := mkMetrics ∅ ∅ ∅ ∅ 0 0.

Definition inc (m : gmap string N) (label : string) : gmap string N :=
  <[label := (default 0 (m !! label) + 1)%N]> m.

(** [type Client struct], without its mutex, wait group and logger; [cl_done] is
    whether [ctx] is cancelled. *)
Record Client := mkClient {
  cl_config : Config;
  cl_configs : gmap string go_bytes;
  cl_revision : N;
  cl_watchers : gmap string (list nat);
  cl_done : bool;
  cl_metrics : clientMetrics;
}.

Definition set_configs (c : Client) (m : gmap string go_bytes) : Client :=
  mkClient (cl_config c) m (cl_revision c) (cl_watchers c) (cl_done c) (cl_metrics c).
Definition set_revision (c : Client) (r : N) : Client :=
  mkClient (cl_config c) (cl_configs c) r (cl_watchers c) (cl_done c) (cl_metrics c).
Definition set_metrics (c : Client) (f : clientMetrics → clientMetrics) : Client :=
  mkClient (cl_config c) (cl_configs c) (cl_revision c) (cl_watchers c) (cl_done c)
    (f (cl_metrics c)).

Definition count_pull (label : string) (m : clientMetrics) : clientMetrics :=
  mkMetrics (inc (fullPullsTotal m) label) (watchPollsTotal m) (watchEventsTotal m)
    (cacheLoadsTotal m) (m_revision m) (m_configs m).
Definition count_poll (label : string) (m : clientMetrics) : clientMetrics :=
  mkMetrics (fullPullsTotal m) (inc (watchPollsTotal m) label) (watchEventsTotal m)
    (cacheLoadsTotal m) (m_revision m) (m_configs m).
Definition count_event (label : string) (m : clientMetrics) : clientMetrics :=
  mkMetrics (fullPullsTotal m) (watchPollsTotal m) (inc (watchEventsTotal m) label)
    (cacheLoadsTotal m) (m_revision m) (m_configs m).
Definition count_load (label : string) (m : clientMetrics) : clientMetrics :=
  mkMetrics (fullPullsTotal m) (watchPollsTotal m) (watchEventsTotal m)
    (inc (cacheLoadsTotal m) label) (m_revision m) (m_configs m).
Definition gauge_revision (r : N) (m : clientMetrics) : clientMetrics :=
  mkMetrics (fullPullsTotal m) (watchPollsTotal m) (watchEventsTotal m) (cacheLoadsTotal m)
    r (m_configs m).
Definition gauge_configs (n : N) (m : clientMetrics) : clientMetrics :=
  mkMetrics (fullPullsTotal m) (watchPollsTotal m) (watchEventsTotal m) (cacheLoadsTotal m)
    (m_revision m) n.

(** [len(c.configs)] *)
Definition configs_len (c : Client) : N := N.of_nat (size (cl_configs c)).

(** ** JSON *)

Definition set_item_field (k : string) (v : json) (i : configItem) : option configItem :=
  let '(mkItem ky va re) := i in
  if name_is "key" k then (λ x, mkItem x va re) <$> dec_string v ky
  else if name_is "value" k then (λ x, mkItem ky x re) <$> dec_string v va
  else if name_is "revision" k then (λ x, mkItem ky va x) <$> dec_uint64 v re
  else Some i.

Definition set_pull_field (k : string) (v : json) (r : configResponse) : option configResponse :=
  if name_is "revision" k then (λ x, mkPull x (pl_Configs r)) <$> dec_uint64 v (pl_Revision r)
  else if name_is "configs" k then
    mkPull (pl_Revision r) <$> decode_slice (λ j, decode_struct set_item_field j zero_item) v
  else Some r.

Definition set_event_field (k : string) (v : json) (e : watchEvent) : option watchEvent :=
  let '(mkWEvent ty en pr) := e in
  if name_is "type" k then (λ x, mkWEvent x en pr) <$> dec_string v ty
  else if name_is "entry" k then
    (λ x, mkWEvent ty x pr) <$> decode_ptr set_item_field zero_item v en
  else if name_is "prev_entry" k then
    (λ x, mkWEvent ty en x) <$> decode_ptr set_item_field zero_item v pr
  else Some e.

Definition set_watch_field (k : string) (v : json) (r : watchResponse) : option watchResponse :=
  if name_is "revision" k then (λ x, mkWatch x (wt_Events r)) <$> dec_uint64 v (wt_Revision r)
  else if name_is "events" k then
    mkWatch (wt_Revision r)
      <$> decode_slice (λ j, decode_struct set_event_field j zero_watch_event) v
  else Some r.

(** [json.NewDecoder(resp.Body).Decode(&v)] *)
Definition decode_body {A} (set_field : string → json → A → option A) (zero_val : A)
    (data : string) : res A :=
  match json_decode_first data with
  | None => Err (EMsg "json: syntax error")
  | Some j => res_of_option "json: cannot unmarshal" (decode_struct set_field j zero_val)
  end.

(** ** Operations *)

Definition Client_Get (c : Client) (key : string) : option go_bytes := cl_configs c !! key.
Definition Client_GetAll (c : Client) : gmap string go_bytes := cl_configs c.

Definition OnChange (c : Client) (key : string) (fn : nat) : Client :=
  mkClient (cl_config c) (cl_configs c) (cl_revision c)
    (<[key := default [] (cl_watchers c !! key) ++ [fn]]> (cl_watchers c))
    (cl_done c) (cl_metrics c).

(** [c.config.Addrs[0]]: an empty list panics. *)
Definition pickAddr (c : Client) : res string :=
  match Addrs (cl_config c) with
  | a :: _ => Ok a
  | [] => Panic
  end.

(** A call of a callback: the function, the key, the old and the new value. *)
Record notify := mkNotify { n_fn : nat; n_key : string; n_old : go_bytes; n_new : go_bytes }.

(** One event of [applyEvents]. *)
Definition apply_event (c : Client) (e : watchEvent) : res (Client * list notify) :=
  entry ← deref (sv_Entry e);
  let key := it_Key entry in
  let oldVal := default None (cl_configs c !! key) in
  let '(configs, newVal) :=
    if String.eqb (sv_Type e) "PUT"
    then (<[key := Some (it_Value entry)]> (cl_configs c), Some (it_Value entry))
    else if String.eqb (sv_Type e) "DELETE" then (delete key (cl_configs c), None)
    else (cl_configs c, Some (it_Value entry)) in
  let fns := default [] (cl_watchers c !! key) ++ default [] (cl_watchers c !! "") in
  Ok (set_metrics (set_configs c configs) (count_event (sv_Type e)),
      (λ fn, mkNotify fn key oldVal newVal) <$> fns).

Fixpoint applyEvents (c : Client) (events : list watchEvent) : res (Client * list notify) :=
  match events with
  | [] => Ok (c, [])
  | e :: events' =>
      p ← apply_event c e;
      q ← applyEvents p.1 events';
      Ok (q.1, p.2 ++ q.2)
  end.

(** *** The cache file *)

(** [type cacheFile struct] *)
Record cacheFile := mkCacheFile {
  CheckSum : string;
  cf_Revision : N;
  cf_Configs : gmap string string;
}.

(** A [map[string]string] as JSON, and back: a [null] value is the empty string. *)
Definition string_map_json (m : gmap string string) : json := map_json (map_to_list m).

Fixpoint dec_map_members (fs : list (string * json)) (m : gmap string string)
    : option (gmap string string) :=
  match fs with
  | [] => Some m
  | (k, v) :: fs' =>
      match dec_string v "" with
      | Some s => dec_map_members fs' (<[k := s]> m)
      | None => None
      end
  end.

Definition dec_string_map (v : json) (old : gmap string string) : option (gmap string string) :=
  match v with
  | JNull => Some ∅
  | JObj fs => dec_map_members fs old
  | _ => None
  end.

Definition cache_json (cf : cacheFile) : json :=
  JObj [("checksum", JStr (CheckSum cf)); ("revision", json_uint (cf_Revision cf));
        ("configs", string_map_json (cf_Configs cf))].

Definition set_cache_field (k : string) (v : json) (cf : cacheFile) : option cacheFile :=
  let '(mkCacheFile ck re co) := cf in
  if name_is "checksum" k then (λ x, mkCacheFile x re co) <$> dec_string v ck
  else if name_is "revision" k then (λ x, mkCacheFile ck x co) <$> dec_uint64 v re
  else if name_is "configs" k then (λ x, mkCacheFile ck re x) <$> dec_string_map v co
  else Some cf.

Definition sha256Sum (data : string) : string := EncodeToString (Sum256 data).

(** [json.Marshal] of a map: it cannot fail. *)
Definition configs_text (m : gmap string string) : string :=
  match json_Marshal (string_map_json m) with Ok s => s | _ => "" end.

Section client.
(** The file system, and the two calls on it whose results are used. *)
Context {D : Type}.
Variable os_ReadFile : D → string → res string.
Variable os_WriteFile : D → string → string → D.
(** [filepath.Join(dir, file)], and [c.client.Get(url)] at one moment. *)
Variable filepath_Join : string → string → string.

Definition cachePath (c : Client) : string :=
  if String.eqb (CacheDir (cl_config c)) "" then ""
  else filepath_Join (CacheDir (cl_config c))
         ("paladin_" +:+ Tenant (cl_config c) +:+ "_" +:+ Namespace (cl_config c) +:+ ".json").

(** The values as strings. *)
Definition configs_strings (c : Client) : gmap string string := bytes_to_string <$> cl_configs c.

Definition saveToCache (c : Client) (d : D) : D :=
  let path := cachePath c in
  if String.eqb path "" then d
  else
    let cfgs := configs_strings c in
    let cf := mkCacheFile (sha256Sum (configs_text cfgs)) (cl_revision c) cfgs in
    match json_MarshalIndent (cache_json cf) with
    | Ok out => os_WriteFile d path out
    | _ => os_WriteFile d path ""
    end.

Definition loadFromCache (c : Client) (d : D) : Client * res unit :=
  let path := cachePath c in
  if String.eqb path "" then (set_metrics c (count_load "error"), Err (EMsg "no cache dir"))
  else
    match os_ReadFile d path with
    | Panic => (c, Panic)
    | Err e => (set_metrics c (count_load "error"), Err e)
    | Ok data =>
        match json_parse data ≫= λ j, decode_struct set_cache_field j (mkCacheFile "" 0 ∅) with
        | None =>
            (set_metrics c (count_load "error"),
             Err (EWrap "corrupt cache" (EMsg "json: cannot unmarshal")))
        | Some cf =>
            if negb (String.eqb (sha256Sum (configs_text (cf_Configs cf))) (CheckSum cf)) then
              (set_metrics c (count_load "checksum_mismatch"), Err (EMsg "cache checksum mismatch"))
            else
              let c := set_configs c ((Some <$> cf_Configs cf) ∪ cl_configs c) in
              let c := set_revision c (cf_Revision cf) in
              (set_metrics c (λ m, gauge_configs (configs_len c)
                                     (gauge_revision (cf_Revision cf) (count_load "ok" m))), Ok tt)
        end
    end.

(** *** Full pull *)

Definition pull_url (c : Client) (addr : string) : string :=
  "http://" +:+ addr +:+ "/api/v1/config/" +:+ Tenant (cl_config c) +:+ "/"
  +:+ Namespace (cl_config c).

(** The loop over [cr.Configs]. *)
Definition pull_configs (m : gmap string go_bytes) (items : list configItem) : gmap string go_bytes :=
  foldl (λ m i, <[it_Key i := Some (it_Value i)]> m) m items.

(** [fullPull] without its deferred counter; [get] is [c.client.Get]. *)
Definition fullPull_body (get : string → res response) (c : Client) (d : D)
    : Client * D * res unit :=
  match pickAddr c with
  | Panic => (c, d, Panic)
  | Err e => (c, d, Err e)
  | Ok addr =>
      match get (pull_url c addr) with
      | Panic => (c, d, Panic)
      | Err e => (c, d, Err e)
      | Ok resp =>
          if negb (Z.eqb (rs_Status resp) StatusOK) then
            (c, d, Err (EMsg ("status " +:+ format_int (rs_Status resp) +:+ ": " +:+ rs_Body resp)))
          else match decode_body set_pull_field (mkPull 0 []) (rs_Body resp) with
               | Panic => (c, d, Panic)
               | Err e => (c, d, Err e)
               | Ok cr =>
                   let c := set_configs c (pull_configs (cl_configs c) (pl_Configs cr)) in
                   let c := set_revision c (pl_Revision cr) in
                   let c := set_metrics c (λ m, gauge_configs (configs_len c)
                                                  (gauge_revision (pl_Revision cr) m)) in
                   (c, saveToCache c d, Ok tt)
               end
      end
  end.

Definition fullPull (get : string → res response) (c : Client) (d : D) : Client * D * res unit :=
  match fullPull_body get c d with
  | (c', d', Panic) => (c', d', Panic)
  | (c', d', Err e) => (set_metrics c' (count_pull "error"), d', Err e)
  | (c', d', Ok _) => (set_metrics c' (count_pull "ok"), d', Ok tt)
  end.

(** [New], up to the start of the watch loop: it never returns an error. *)
Definition New (get : string → res response) (cfg : Config) (d : D) : res (Client * D) :=
  let cfg := mkConfig (Addrs cfg) (Tenant cfg) (Namespace cfg) (CacheDir cfg)
               (if (PollTimeout cfg =? 0)%Z then 30 * Second else PollTimeout cfg)
               (if (RetryBackoff cfg =? 0)%Z then 1 * Second else RetryBackoff cfg) in
  let c := mkClient cfg ∅ 0 ∅ false newClientMetrics in
  match fullPull get c d with
  | (_, _, Panic) => Panic
  | (c, d, Ok _) => Ok (c, d)
  | (c, d, Err _) =>
      match loadFromCache c d with
      | (_, Panic) => Panic
      | (c, _) => Ok (c, d)
      end
  end.

(** *** The watch loop *)

Definition watch_url (c : Client) (addr : string) : string :=
  "http://" +:+ addr +:+ "/api/v1/watch/" +:+ Tenant (cl_config c) +:+ "/"
  +:+ Namespace (cl_config c) +:+ "/?revision=" +:+ format_uint (cl_revision c)
  +:+ "&timeout=" +:+ format_int (Z.quot (PollTimeout (cl_config c)) Second).

(** What the loop does next: sleep for the given time, or start over at once. *)
Inductive next : Type :=
  | Sleep (backoff : Z)
  | Again.

(** One turn of [watchLoop] after the check of the context. *)
Definition watch_turn (get : string → res response) (c : Client) (d : D)
    : res (Client * D * list notify * next) :=
  addr ← pickAddr c;
  match get (watch_url c addr) with
  | Panic => Panic
  | Err e => Ok (set_metrics c (count_poll "error"), d, [], Sleep (RetryBackoff (cl_config c)))
  | Ok resp =>
      match decode_body set_watch_field (mkWatch 0 []) (rs_Body resp) with
      | Panic => Panic
      | Err e => Ok (set_metrics c (count_poll "error"), d, [], Again)
      | Ok wr =>
          let outcome := match wt_Events wr with [] => "empty" | _ => "events" end in
          let c := set_metrics c (count_poll outcome) in
          p ← match wt_Events wr with
              | [] => Ok (c, d, [])
              | events =>
                  q ← applyEvents c events;
                  let d := saveToCache q.1 d in
                  Ok (set_metrics q.1 (gauge_configs (configs_len q.1)), d, q.2)
              end;
          let '(c, d, calls) := p in
          let c := if (0 <? wt_Revision wr)%N
                   then set_metrics (set_revision c (wt_Revision wr)) (gauge_revision (wt_Revision wr))
                   else c in
          Ok (c, d, calls, Again)
      end
  end.

(** [watchLoop] until its context is cancelled; [gets] are the answers of the
    server at each turn, [None] as the loop has not returned when they run out. *)
Fixpoint watchLoop (gets : list (string → res response)) (c : Client) (d : D)
    : option (res (Client * D)) :=
  if cl_done c then Some (Ok (c, d))
  else match gets with
       | [] => None
       | get :: gets' =>
           match watch_turn get c d with
           | Ok (c', d', _, _) => watchLoop gets' c' d'
           | Err e => Some (Err e)
           | Panic => Some Panic
           end
       end.
End client.

Definition Client_Close (c : Client) : Client :=
  mkClient (cl_config c) (cl_configs c) (cl_revision c) (cl_watchers c) true (cl_metrics c).

(** ** The cache file *)

Instance sdk_key_le_trans {V} : Transitive (λ x y : string * V, String.le x.1 y.1).
Proof. intros x y z. apply (transitivity (R:=String.le)). Qed.

(** Keys and values are valid UTF-8, as they are when they come out of JSON. *)
Definition text_map (m : gmap string string) : Prop :=
  ∀ k v, m !! k = Some v → ValidString k = true ∧ ValidString v = true.

Lemma map_json_norm (l : list (string * string)) :
  (∀ k v, (k, v) ∈ l → ValidString k = true ∧ ValidString v = true) →
  norm (map_json l) = map_json l.
Proof.
  intros Hl. unfold map_json. cbn [norm]. f_equal. rewrite map_map. apply map_ext_in.
  intros [k v] Hin%list_elem_of_In. rewrite merge_sort_Permutation in Hin.
  destruct (Hl k v Hin) as [Hk Hv]. simpl. by rewrite !ToValidUTF8_valid.
Qed.

Lemma dec_map_members_pairs (l : list (string * string)) (m : gmap string string) :
  dec_map_members (map (λ x, (x.1, JStr x.2)) l) m = Some (insert_all m l).
Proof.
  revert m. induction l as [|[k v] l IH]; intros m; [done|]. simpl. by rewrite IH.
Qed.

Lemma dec_string_map_json (m : gmap string string) :
  text_map m → dec_string_map (norm (string_map_json m)) ∅ = Some m.
Proof.
  intros Hm. unfold string_map_json. rewrite map_json_norm.
  - unfold map_json. cbn [dec_string_map]. rewrite dec_map_members_pairs. f_equal.
    apply insert_all_to_list, merge_sort_Permutation.
  - intros k v. rewrite elem_of_map_to_list. apply Hm.
Qed.

Lemma wf_map_json (l : list (string * string)) : wf_json (map_json l).
Proof. constructor. apply Forall_map, Forall_forall. intros x _. constructor. Qed.

Lemma sha256Sum_ascii (data : string) : all_ascii (sha256Sum data) = true.
Proof. apply EncodeToString_ascii, Sum256_bytes. Qed.

Lemma cache_decode (cf : cacheFile) :
  text_map (cf_Configs cf) → ValidString (CheckSum cf) = true → (cf_Revision cf ≤ max_uint64)%N →
  decode_struct set_cache_field (norm (cache_json cf)) (mkCacheFile "" 0 ∅) = Some cf.
Proof.
  intros Hm Hc Hr. destruct cf as [ck re co]. cbn [cf_Configs CheckSum cf_Revision] in *.
  pose proof (dec_string_map_json co Hm) as Hd.
  change (norm (cache_json (mkCacheFile ck re co))) with
    (JObj [("checksum", JStr (ToValidUTF8 ck)); ("revision", json_uint re);
           ("configs", norm (string_map_json co))]).
  revert Hd. generalize (norm (string_map_json co)). intros cj Hd.
  rewrite ToValidUTF8_valid by done. cbn [decode_struct decode_fields]. unfold set_cache_field.
  repeat match goal with
  | |- context [name_is ?a ?b] =>
      let v := eval vm_compute in (name_is a b) in change (name_is a b) with v
  end.
  cbn -[dec_uint64 json_uint dec_string_map]. unfold json_uint. rewrite dec_uint64_format by done.
  cbn -[dec_string_map]. by rewrite Hd.
Qed.

Lemma wf_cache_json (cf : cacheFile) : wf_json (cache_json cf).
Proof.
  constructor. constructor; [constructor|]. constructor; [constructor|].
  constructor; [apply wf_map_json|constructor].
Qed.

Section cache.
Context {D : Type}.
Variable os_ReadFile : D → string → res string.
Variable os_WriteFile : D → string → string → D.
Variable filepath_Join : string → string → string.

Abbreviation save := (saveToCache os_WriteFile filepath_Join).
Abbreviation load := (loadFromCache os_ReadFile filepath_Join).
Abbreviation path := (cachePath filepath_Join).

(** A client with values that a JSON text can carry. *)
Definition text_client (c : Client) : Prop :=
  text_map (configs_strings c) ∧ (∀ k v, cl_configs c !! k = Some v → is_Some v) ∧
  (cl_revision c ≤ max_uint64)%N.

Lemma configs_strings_Some (c : Client) :
  (∀ k v, cl_configs c !! k = Some v → is_Some v) → Some <$> configs_strings c = cl_configs c.
Proof.
  intros Hall. apply map_eq. intros k. unfold configs_strings. rewrite !lookup_fmap.
  destruct (cl_configs c !! k) as [v|] eqn:Hk; [|done]. by destruct (Hall k v Hk) as [s ->].
Qed.

(** What was saved is loaded again by a client with the same cache file. *)
Lemma load_saved (c c2 : Client) (d : D) :
  text_client c → path c2 = path c → path c ≠ "" → cl_configs c2 = ∅ →
  (∀ out, os_ReadFile (os_WriteFile d (path c) out) (path c) = Ok out) →
  ∃ c2', load c2 (save c d) = (c2', Ok tt) ∧ cl_configs c2' = cl_configs c ∧
    cl_revision c2' = cl_revision c ∧ cl_config c2' = cl_config c2 ∧
    cl_watchers c2' = cl_watchers c2 ∧ cl_done c2' = cl_done c2.
Proof.
  intros (Htext & Hsome & Hrev) Hpath Hne Hempty Hfs. unfold saveToCache, loadFromCache.
  rewrite Hpath. apply String.eqb_neq in Hne as ->.
  set (cf := mkCacheFile (sha256Sum (configs_text (configs_strings c))) (cl_revision c)
               (configs_strings c)).
  destruct (json_parse_MarshalIndent (cache_json cf) (wf_cache_json cf)) as (out & -> & Hp).
  rewrite Hfs, Hp. cbn [mbind option_bind]. rewrite cache_decode; [|done| |done].
  2: { apply ValidString_ascii. apply sha256Sum_ascii. }
  cbn [cf_Configs CheckSum cf cf_Revision]. rewrite String.eqb_refl. cbn [negb].
  eexists. split; [reflexivity|]. cbn [cl_configs set_metrics set_revision set_configs].
  rewrite Hempty, map_union_empty, configs_strings_Some by done. by split_and!.
Qed.
End cache.
