(* ===== verification/SdkSync.v ===== *)
(** The SDK client against the server: a full pull, and each turn of the watch loop
    after it, leave the client with the values the store has under the client's
    prefix; what it saved is what a restart falls back on; and the ways its loop
    does not make progress. *)

From S2P Require Import Prelude GoTime GoStrings GoEncoding GoJson JsonFields Entry BoltDB Kv StoreSpec.
From S2P Require Import BoltStore WatchCache Watchable Http Server Races RaftServer GoSha GoFmt Sdk.

Local Open Scope string_scope.
Local Open Scope list_scope.
Local Open Scope nat_scope.

(** ** Reading the server's documents *)

Ltac simpl_names :=
  repeat match goal with
  | |- context [name_is ?a ?b] =>
      let v := eval vm_compute in (name_is a b) in change (name_is a b) with v
  end; cbv iota.

Definition to_item (c : ConfigItem) : configItem :=
  mkItem (ToValidUTF8 (ci_Key c)) (ToValidUTF8 (ci_Value c)) (ci_Revision c).

Lemma decode_item (c : ConfigItem) (i : configItem) :
  (ci_Revision c ≤ max_uint64)%N →
  decode_struct set_item_field (config_json (valid_item c)) i = Some (to_item c).
Proof.
  intros Hr. destruct c as [ky va re cr mo ve], i. unfold config_json, valid_item, to_item.
  cbn [decode_struct decode_fields ci_Key ci_Value ci_Revision ci_CreateRevision ci_ModRevision
    ci_Version]. unfold set_item_field. simpl_names.
  cbn -[dec_uint64 json_uint ToValidUTF8]. unfold json_uint.
  rewrite dec_uint64_format by done. reflexivity.
Qed.

Lemma decode_pull (r : ConfigResponse) :
  (cr_Revision r ≤ max_uint64)%N → Forall (λ c, (ci_Revision c ≤ max_uint64)%N) (cr_Configs r) →
  decode_body set_pull_field (mkPull 0 []) (json_Encode (config_response_json r))
  = Ok (mkPull (cr_Revision r) (to_item <$> cr_Configs r)).
Proof.
  intros Hr Hall. unfold decode_body.
  rewrite json_decode_first_Encode by apply wf_config_response. rewrite norm_config_response.
  assert (decode_slice (λ j, decode_struct set_item_field j zero_item)
    (JArr (map config_json (valid_item <$> cr_Configs r))) = Some (to_item <$> cr_Configs r)) as Hs.
  { cbn [decode_slice]. change (valid_item <$> cr_Configs r) with (map valid_item (cr_Configs r)).
    rewrite map_map. apply (decode_list_map _ _ to_item). intros c Hc.
    rewrite Forall_forall in Hall. by apply decode_item, Hall. }
  revert Hs. unfold config_response_json. cbn [cr_Revision cr_Count cr_Configs].
  generalize (JArr (map config_json (valid_item <$> cr_Configs r))). intros j Hs.
  assert (∀ x, set_pull_field "configs" j x = Some (mkPull (pl_Revision x) (to_item <$> cr_Configs r)))
    as Hc by (intros x; unfold set_pull_field; simpl_names; by rewrite Hs).
  assert (∀ x, set_pull_field "revision" (json_uint (cr_Revision r)) x
    = Some (mkPull (cr_Revision r) (pl_Configs x))) as Hrev.
  { intros x. unfold set_pull_field. simpl_names. unfold json_uint. by rewrite dec_uint64_format. }
  assert (∀ n x, set_pull_field "count" (json_uint n) x = Some x) as Hn.
  { intros n x. unfold set_pull_field. by simpl_names. }
  destruct (cr_Count r =? 0)%N; cbn [app decode_struct decode_fields]; by rewrite Hrev, ?Hn, Hc.
Qed.

Definition to_event (e : WatchEvent) : watchEvent :=
  mkWEvent (ToValidUTF8 (we_Type e)) (Some (to_item (we_Entry e))) (to_item <$> we_PrevEntry e).

Definition event_fits (e : WatchEvent) : Prop :=
  (ci_Revision (we_Entry e) ≤ max_uint64)%N ∧
  ∀ p, we_PrevEntry e = Some p → (ci_Revision p ≤ max_uint64)%N.

Lemma decode_item_ptr (c : ConfigItem) (p : option configItem) :
  (ci_Revision c ≤ max_uint64)%N →
  decode_ptr set_item_field zero_item (config_json (valid_item c)) p = Some (Some (to_item c)).
Proof. intros Hr. unfold decode_ptr. by rewrite decode_item. Qed.

Lemma decode_event (e : WatchEvent) :
  event_fits e →
  decode_struct set_event_field (watch_event_json (valid_event e)) zero_watch_event
  = Some (to_event e).
Proof.
  intros [He Hp]. destruct e as [ty en pr]. cbn [we_Entry we_PrevEntry] in *.
  unfold watch_event_json, valid_event, to_event. cbn [we_Type we_Entry we_PrevEntry].
  assert (∀ x, set_event_field "type" (JStr (ToValidUTF8 ty)) x
    = Some (mkWEvent (ToValidUTF8 ty) (sv_Entry x) (sv_PrevEntry x))) as Ht by (by intros []).
  assert (∀ x, set_event_field "entry" (config_json (valid_item en)) x
    = Some (mkWEvent (sv_Type x) (Some (to_item en)) (sv_PrevEntry x))) as Hen.
  { intros []. unfold set_event_field. simpl_names. by rewrite decode_item_ptr. }
  destruct pr as [p|]; cbn [fmap option_fmap option_map app decode_struct decode_fields];
    rewrite Ht, Hen; [|done].
  unfold set_event_field. simpl_names. by rewrite decode_item_ptr by auto.
Qed.

Lemma decode_watch (r : WatchResponse) :
  (wr_Revision r ≤ max_uint64)%N → Forall event_fits (wr_Events r) →
  decode_body set_watch_field (mkWatch 0 []) (json_Encode (watch_response_json r))
  = Ok (mkWatch (wr_Revision r) (to_event <$> wr_Events r)).
Proof.
  intros Hr Hall. unfold decode_body.
  rewrite json_decode_first_Encode by apply wf_watch_response. rewrite norm_watch_response.
  assert (decode_slice (λ j, decode_struct set_event_field j zero_watch_event)
    (JArr (map watch_event_json (valid_event <$> wr_Events r))) = Some (to_event <$> wr_Events r)) as Hs.
  { cbn [decode_slice]. change (valid_event <$> wr_Events r) with (map valid_event (wr_Events r)).
    rewrite map_map. apply (decode_list_map _ _ to_event). intros e He.
    rewrite Forall_forall in Hall. by apply decode_event, Hall. }
  revert Hs. unfold watch_response_json. cbn [wr_Revision wr_Events].
  generalize (JArr (map watch_event_json (valid_event <$> wr_Events r))). intros j Hs.
  cbn [decode_struct decode_fields]. unfold set_watch_field. simpl_names. unfold json_uint.
  rewrite dec_uint64_format by done. cbn -[decode_slice]. by rewrite Hs.
Qed.

(** ** Applying events *)

(** The values of the entries, as the client keeps them. *)
Definition vals (m : gmap string Entry) : gmap string go_bytes :=
  (λ e, Some (bytes_to_string (Value e))) <$> m.

(** An event with text for key and value, and revisions up to [R]. *)
Definition good_event (R : N) (e : Event) : Prop :=
  ∃ en, ev_Entry e = Some en ∧ ValidString (Key en) = true ∧ (Revision en ≤ R)%N ∧
    (∀ p, ev_PrevEntry e = Some p → (Revision p ≤ R)%N) ∧
    (ev_Type e = EventPut ∧ ValidString (bytes_to_string (Value en)) = true ∨
     ev_Type e = EventDelete).

(** The call writes text. *)
Definition call_text (c : call) : Prop :=
  match c with
  | CPut k v => ValidString k = true ∧ ValidString (bytes_to_string v) = true
  | CDelete k => ValidString k = true
  | _ => True
  end.

Lemma call_text_valid (c : call) : call_text c → call_valid c.
Proof. destruct c; simpl; tauto. Qed.

Lemma good_event_mono (R R' : N) (e : Event) : good_event R e → (R ≤ R')%N → good_event R' e.
Proof.
  intros (en & He & Hk & Hr & Hp & Ht) Hle. exists en. split_and!; [done|done|lia| |done].
  intros p Hpr. specialize (Hp p Hpr). lia.
Qed.

Lemma call_events_good (a : kv) (c : call) :
  kv_ok a → call_text c → Forall (good_event (kv_rev (spec_call a c).1)) (call_events a c).
Proof.
  intros Hok Ht. destruct c as [k v|k| | |]; simpl; try constructor; try done.
  - destruct Ht as [Hk Hv]. exists (kv_next a k v). cbn [ev_Entry ev_PrevEntry ev_Type].
    rewrite kv_next_Key, kv_next_Revision, kv_next_Value. split_and!; [done|done|lia| |by left].
    intros p Hp. destruct (ok_entry a Hok k p Hp) as (_ & -> & _ & ? & _). lia.
  - unfold kv_delete. destruct (kv_map a !! k) as [e|] eqn:He; simpl; constructor; [|constructor].
    destruct (ok_entry a Hok k e He) as (Hk & _). exists (kv_deleted a e). simpl.
    split_and!; [done| |lia|done|by right]. rewrite Hk. apply ValidString_ToValidUTF8.
Qed.

Lemma calls_events_good (l : list call) (a : kv) :
  kv_ok a → Forall call_text l →
  Forall (good_event (kv_rev (spec_calls a l).1)) (calls_events a l).
Proof.
  revert a. induction l as [|c l IH]; intros a Hok Ht; simpl; [constructor|].
  apply Forall_cons in Ht as [Hc Hl].
  pose proof (call_events_good a c Hok Hc) as Hg. pose proof (spec_call_ok a c Hok) as Hok1.
  destruct (spec_call a c) as [a1 r]. simpl in *. specialize (IH a1 Hok1 Hl).
  destruct (calls_events_rev l a1) as [_ Hle]. destruct (spec_calls a1 l) as [a2 rs]. simpl in *.
  apply Forall_app. split; [|done]. eapply Forall_impl; [exact Hg|].
  intros e He. by eapply good_event_mono.
Qed.

Lemma watch_event_good (R : N) (evs : list Event) :
  Forall (good_event R) evs → mapM watch_event evs = Ok (reply_event <$> evs).
Proof.
  intros Hall. apply watch_event_entries. eapply Forall_impl; [exact Hall|].
  by intros e (en & -> & _).
Qed.

Lemma reply_event_fits (R : N) (evs : list Event) :
  (R ≤ max_uint64)%N → Forall (good_event R) evs → Forall event_fits (reply_event <$> evs).
Proof.
  intros HR Hall. apply Forall_fmap. eapply Forall_impl; [exact Hall|].
  intros e (en & He & _ & Hr & Hp & _). unfold event_fits, reply_event, compose. rewrite He.
  cbn. split; [lia|]. intros p. destruct (ev_PrevEntry e) as [pe|] eqn:Hpe; [|done].
  intros [= <-]. specialize (Hp pe eq_refl). simpl. lia.
Qed.

(** One event: the configurations follow the replay of the event, and nothing else
    of the client changes but a counter. *)
Lemma apply_event_vals (c : Client) (m : gmap string Entry) (R : N) (e : Event) :
  good_event R e → cl_configs c = vals m →
  ∃ c' calls, apply_event c (to_event (reply_event e)) = Ok (c', calls) ∧
    cl_configs c' = vals (replay_event m e) ∧ cl_revision c' = cl_revision c ∧
    cl_config c' = cl_config c ∧ cl_watchers c' = cl_watchers c ∧ cl_done c' = cl_done c.
Proof.
  intros (en & He & Hk & _ & _ & Ht) Hc. unfold apply_event, to_event, reply_event, replay_event.
  rewrite He. destruct en as [ky va re cr mo ve]. cbn [Key Value] in *.
  destruct Ht as [[Hty Hv]|Hty]; rewrite Hty; cbn -[String.eqb ToValidUTF8 bytes_to_string];
    rewrite (ToValidUTF8_valid ky) by done; eexists _, _; (split; [reflexivity|]); simpl;
    rewrite Hc; unfold vals.
  - rewrite fmap_insert, (ToValidUTF8_valid (bytes_to_string va)) by done. by split_and!.
  - rewrite fmap_delete. by split_and!.
Qed.

Lemma applyEvents_vals (evs : list Event) (c : Client) (m : gmap string Entry) (R : N) :
  Forall (good_event R) evs → cl_configs c = vals m →
  ∃ c' calls, applyEvents c (to_event <$> (reply_event <$> evs)) = Ok (c', calls) ∧
    cl_configs c' = vals (replay m evs) ∧ cl_revision c' = cl_revision c ∧
    cl_config c' = cl_config c ∧ cl_watchers c' = cl_watchers c ∧ cl_done c' = cl_done c.
Proof.
  revert c m. induction evs as [|e evs IH]; intros c m Hall Hc; [by exists c, []|].
  apply Forall_cons in Hall as [He Hall].
  destruct (apply_event_vals c m R e He Hc) as (c1 & n1 & H1 & Hc1 & Hr1 & Hf1 & Hw1 & Hd1).
  destruct (IH c1 _ Hall Hc1) as (c2 & n2 & H2 & Hc2 & Hr2 & Hf2 & Hw2 & Hd2).
  exists c2, (n1 ++ n2). cbn [fmap list_fmap applyEvents]. rewrite H1. cbn [mbind res_bind fst snd].
  change (list_fmap _ _ to_event (list_fmap _ _ reply_event evs))
    with (to_event <$> (reply_event <$> evs)). rewrite H2.
  split_and!; [done|done|congruence..].
Qed.

(** ** The watch request of a client *)

(** The request the server gets for [watch_url]: [secs] is the timeout. *)
Definition is_watch_request (r : request) (t n : string) (rev : N) (secs : Z) : Prop :=
  rq_Method r = "GET" ∧ rq_Path r = "/api/v1/watch/" +:+ t +:+ "/" +:+ n +:+ "/" ∧
  rq_Query r = [("revision", format_uint rev); ("timeout", format_int secs)].

Lemma watch_request_client (r : request) (t n : string) (rev : N) (secs : Z) :
  is_watch_request r t n rev secs → n ≠ "" → (rev ≤ max_uint64)%N → (0 ≤ secs < two63)%Z →
  watch_request r
  = if (secs =? 0)%Z then inl (httpError StatusBadRequest "invalid timeout: 0")
    else inr (rev, listPrefix t n,
              if (maxWatchTimeout <? int64 (secs * Second))%Z then maxWatchTimeout
              else int64 (secs * Second)).
Proof.
  intros (Hm & Hp & Hq) Hn Hr Hs. unfold watch_request, listPrefix. rewrite Hm, Hp, Hq.
  apply String.eqb_neq in Hn as ->. rewrite TrimPrefix_app.
  replace (t +:+ "/" +:+ n +:+ "/") with ((t +:+ "/" +:+ n) +:+ "/")
    by (by rewrite !string_app_assoc).
  rewrite TrimSuffix_app.
  destruct (String.eqb_spec (t +:+ "/" +:+ n) "") as [He|_]; [by destruct t|].
  cbn [query_Get String.eqb Ascii.eqb Bool.eqb negb].
  rewrite format_uint_nonempty, ParseUint_format by done.
  rewrite format_int_nonempty, Atoi_format_int by lia.
  destruct (Z.leb_spec secs 0); destruct (Z.eqb_spec secs 0) as [->|]; try lia; [reflexivity|].
  by rewrite !string_app_assoc.
Qed.

(** A call that waits after some wake-ups and returns at the next one returns what
    it finds then. *)
Lemma WaitForEvents_last (r : N) (p : string) (timeout start now : Z)
    (l : list (WatchCache * Z)) (wc : WatchCache) :
  WaitForEvents r p timeout start l = None → wc_closed wc = false →
  ∀ evs, WaitForEvents r p timeout start (l ++ [(wc, now)]) = Some (Ok evs) →
  getEventsLocked wc r p = Ok evs.
Proof.
  unfold WaitForEvents. generalize (start + timeout)%Z. intros dl.
  induction l as [|[wc0 now0] l IH]; intros Hw Hcl evs; simpl.
  - unfold wait_pass. rewrite Hcl. destruct (getEventsLocked wc r p) as [[|ev evs0]|e|]; [|by intros [= ->]|done..].
    by destruct (dl - now <=? 0)%Z; intros [= <-].
  - simpl in Hw. destruct (wait_pass wc0 r p dl now0); [done| |done]. by apply IH.
Qed.

(** ** The client in step with the server *)

(** The client has the values of the keys that start with [p], and the revision. *)
Definition in_sync (c : Client) (p : string) (a : kv) : Prop :=
  cl_configs c = vals (under p (kv_map a)) ∧ cl_revision c = kv_rev a.

(** Keys and values of the store are valid UTF-8. *)
Definition kv_text (a : kv) : Prop :=
  ∀ k e, kv_map a !! k = Some e →
    ValidString k = true ∧ ValidString (bytes_to_string (Value e)) = true.

Lemma kv_text_valid (a : kv) : kv_text a → kv_valid a.
Proof. intros Ht k e He. by destruct (Ht k e He). Qed.

Lemma pull_configs_insert (m : gmap string go_bytes) (items : list configItem) :
  pull_configs m items = insert_all m ((λ i, (it_Key i, Some (it_Value i))) <$> items).
Proof.
  unfold pull_configs, insert_all. revert m. induction items as [|i items IH]; intros m; [done|].
  simpl. apply IH.
Qed.

(** The items of the list response, inserted into an empty map. *)
Lemma pull_configs_list (a : kv) (p : string) :
  kv_ok a → kv_text a →
  pull_configs ∅ (to_item <$> (entryToConfig <$> kv_list a p)) = vals (under p (kv_map a)).
Proof.
  intros Hok Ht. pose proof (kv_text_valid a Ht) as Hv. rewrite pull_configs_insert.
  assert (∀ k e, HasPrefix k p = true → kv_map a !! k = Some e →
    it_Key (to_item (entryToConfig e)) = k ∧
    it_Value (to_item (entryToConfig e)) = bytes_to_string (Value e)) as Hitem.
  { intros k e _ He. destruct (Ht k e He) as [Hk Hval].
    pose proof (kv_valid_Key a k e Hok Hv He) as Hke. unfold to_item, entryToConfig.
    cbn [it_Key it_Value ci_Key ci_Value]. by rewrite Hke, !ToValidUTF8_valid. }
  apply insert_all_to_list. apply NoDup_Permutation.
  - apply (NoDup_fmap_1 fst). rewrite <- !list_fmap_compose.
    rewrite (list_fmap_ext _ Key (kv_list a p)); [by apply kv_list_keys|].
    intros i e (k & Hp & He)%list_elem_of_lookup_2%kv_list_elem. simpl.
    destruct (Hitem k e Hp He) as [Hi _]. unfold compose. simpl.
    transitivity k; [exact Hi|]. symmetry. by apply (kv_valid_Key a).
  - apply NoDup_map_to_list.
  - intros [k v]. rewrite elem_of_map_to_list. unfold vals, under. rewrite lookup_fmap.
    rewrite list_elem_of_fmap. split.
    + intros (i & Hi & Hin). apply list_elem_of_fmap in Hin as (ci & -> & Hin).
      apply list_elem_of_fmap in Hin as (e & -> & (k' & Hp & He)%kv_list_elem).
      destruct (Hitem k' e Hp He) as [H1 H2].
      assert (k = k') as -> by congruence. assert (v = Some (bytes_to_string (Value e))) as ->
        by congruence. by rewrite (proj2 (map_lookup_filter_Some _ _ k' e)).
    + intros Hl. apply fmap_Some in Hl as (e & He & ->).
      apply map_lookup_filter_Some in He as [He Hp].
      destruct (Hitem k e Hp He) as [H1 H2]. exists (to_item (entryToConfig e)).
      rewrite H1, H2. split; [done|]. apply list_elem_of_fmap. eexists. split; [reflexivity|].
      apply list_elem_of_fmap. eexists. split; [reflexivity|]. apply kv_list_elem. eauto.
Qed.

(** [New]'s defaults. *)
Definition with_defaults (cfg : Config) : Config :=
  mkConfig (Addrs cfg) (Tenant cfg) (Namespace cfg) (CacheDir cfg)
    (if (PollTimeout cfg =? 0)%Z then 30 * Second else PollTimeout cfg)
    (if (RetryBackoff cfg =? 0)%Z then 1 * Second else RetryBackoff cfg).

Definition new_client (cfg : Config) : Client :=
  mkClient (with_defaults cfg) ∅ 0 ∅ false newClientMetrics.

(** The timeout that a client asks for, in seconds. *)
Definition poll_seconds (cfg : Config) : Z := Z.quot (PollTimeout cfg) Second.

Lemma poll_seconds_bounds (cfg : Config) :
  (0 ≤ PollTimeout cfg < two63)%Z →
  (0 ≤ poll_seconds cfg)%Z ∧ (poll_seconds cfg * Second ≤ PollTimeout cfg)%Z ∧
  (PollTimeout cfg < (poll_seconds cfg + 1) * Second)%Z.
Proof.
  intros Hp. unfold poll_seconds, Second. rewrite Z.quot_div_nonneg by lia.
  pose proof (Z.div_mod (PollTimeout cfg) 1000000000).
  pose proof (Z.mod_pos_bound (PollTimeout cfg) 1000000000).
  pose proof (Z.div_pos (PollTimeout cfg) 1000000000). lia.
Qed.

Section start.
Context {S : Type} `{StoreLaws S}.
Context {D : Type}.
Variable os_ReadFile : D → string → res string.
Variable os_WriteFile : D → string → string → D.
Variable filepath_Join : string → string → string.

Abbreviation new := (New os_ReadFile os_WriteFile filepath_Join).

(** The items of a list response carry revisions of 64 bits. *)
Lemma list_items_fit (a : kv) (p : string) :
  kv_ok a → (kv_rev a ≤ max_uint64)%N →
  Forall (λ c, (ci_Revision c ≤ max_uint64)%N) (entryToConfig <$> kv_list a p).
Proof.
  intros Hok Hmax. apply Forall_fmap, Forall_forall. intros e (k & _ & He)%kv_list_elem.
  destruct (ok_entry a Hok k e He) as (_ & ? & _ & ? & _). unfold compose. simpl. lia.
Qed.

(** A new client whose full pull is answered with the list of its keys. *)
Lemma New_sync (s : S) (a : kv) (get : string → res response) (cfg : Config) (d : D)
    (addr : string) (addrs : list string) (resp : response) :
  store_rep s a → kv_text a → (kv_rev a ≤ max_uint64)%N → Addrs cfg = addr :: addrs →
  handleList s s (Tenant cfg) (Namespace cfg) = Ok resp →
  get (pull_url (new_client cfg) addr) = Ok resp →
  ∃ c d', new get cfg d = Ok (c, d') ∧ in_sync c (listPrefix (Tenant cfg) (Namespace cfg)) a ∧
    cl_config c = with_defaults cfg.
Proof.
  intros Hs Ht Hmax Ha Hl Hget. pose proof (law_ok s a Hs) as Hok.
  rewrite (handleList_spec s s a a _ _ Hs Hs) in Hl. injection Hl as <-.
  unfold New, fullPull, fullPull_body, pickAddr. fold (with_defaults cfg).
  fold (new_client cfg). cbn [cl_config new_client Addrs with_defaults]. rewrite Ha, Hget.
  unfold writeJSON. cbn [rs_Status rs_Body].
  change (negb (StatusOK =? StatusOK)%Z) with false. cbv iota.
  rewrite decode_pull; [|done|by apply list_items_fit].
  cbn [cr_Revision cr_Configs pl_Revision pl_Configs]. eexists _, _. split; [reflexivity|].
  split; [|done]. split; [|done]. cbn [cl_configs set_metrics set_revision set_configs new_client].
  by apply pull_configs_list.
Qed.

End start.

Section sync.
Context {S : Type} `{StoreLaws S}.
Context {D : Type}.
Variable os_ReadFile : D → string → res string.
Variable os_WriteFile : D → string → string → D.
Variable filepath_Join : string → string → string.

Abbreviation new := (New os_ReadFile os_WriteFile filepath_Join).
Abbreviation turn := (watch_turn os_WriteFile filepath_Join).

(** A turn that is answered with the events [evs] at revision [rev]. *)
Lemma turn_reply (get : string → res response) (c : Client) (d : D) (addr : string)
    (addrs : list string) (m : gmap string Entry) (R rev : N) (evs : list Event)
    (h : list (string * string)) :
  Addrs (cl_config c) = addr :: addrs → cl_configs c = vals m → (R ≤ max_uint64)%N →
  (rev ≤ max_uint64)%N → Forall (good_event R) evs → (cl_revision c ≤ rev)%N →
  get (watch_url c addr) = Ok (mkResponse StatusOK h
    (json_Encode (watch_response_json (mkWatchResponse rev (reply_event <$> evs))))) →
  ∃ c' d' calls, turn get c d = Ok (c', d', calls, Again) ∧
    cl_configs c' = vals (replay m evs) ∧ cl_revision c' = rev ∧
    cl_config c' = cl_config c ∧ cl_watchers c' = cl_watchers c ∧ cl_done c' = cl_done c.
Proof.
  intros Ha Hc HR Hrev Hgood Hle Hget. unfold watch_turn, pickAddr. rewrite Ha.
  cbn [mbind res_bind]. rewrite Hget. cbn [rs_Body].
  rewrite decode_watch; [|done|by apply (reply_event_fits R)]. cbn [wr_Revision wr_Events wt_Events].
  set (c0 := set_metrics c _).
  destruct (applyEvents_vals evs c0 m R Hgood) as (c1 & calls & Happ & Hc1 & Hr1 & Hf1 & Hw1 & Hd1);
    [done|].
  revert Happ. generalize (reply_event <$> evs) as ws. intros ws Happ.
  assert (∃ c2 d', match to_event <$> ws with
      | [] => Ok (c0, d, [])
      | events =>
          q ← applyEvents c0 events;
          Ok (set_metrics q.1 (gauge_configs (configs_len q.1)),
              saveToCache os_WriteFile filepath_Join q.1 d, q.2)
      end = Ok (c2, d', calls) ∧ cl_configs c2 = cl_configs c1 ∧
      cl_revision c2 = cl_revision c ∧ cl_config c2 = cl_config c1 ∧
      cl_watchers c2 = cl_watchers c1 ∧ cl_done c2 = cl_done c1)
    as (c2 & d' & -> & Hc2 & Hr2 & Hf2 & Hw2 & Hd2).
  { destruct (to_event <$> ws) as [|e l].
    - injection Happ as <- <-. exists c0, d. done.
    - rewrite Happ. eexists _, _. split; [reflexivity|]. by split_and!. }
  cbn [mbind res_bind]. cbn [wt_Revision]. eexists _, d', calls. split; [reflexivity|].
  unfold c0 in *. cbn in Hr1, Hf1, Hw1, Hd1. rewrite <- Hc1.
  destruct (N.ltb_spec 0 rev); cbn; split_and!; first [done|congruence|idtac]. lia.
Qed.
(** The long poll of the client is answered by a server in state [ws]: the call
    waited through [wakes], if at all, and then found [ws]. *)
Definition poll_answered (ws : WatchableStore S) (get : string → res response) (c : Client) : Prop :=
  ∃ addr addrs r start wakes now resp,
    Addrs (cl_config c) = addr :: addrs ∧
    is_watch_request r (Tenant (cl_config c)) (Namespace (cl_config c)) (cl_revision c)
      (poll_seconds (cl_config c)) ∧
    handleWatch r start wakes ws ws = None ∧
    handleWatch r start (wakes ++ [(ws_wc ws, now)]) ws ws = Some (Ok resp) ∧
    get (watch_url c addr) = Ok resp.

(** The configuration of a client that can watch. *)
Definition can_poll (cfg : Config) : Prop :=
  Namespace cfg ≠ "" ∧ (Second ≤ PollTimeout cfg < two63)%Z.

Definition client_prefix (c : Client) : string :=
  listPrefix (Tenant (cl_config c)) (Namespace (cl_config c)).

(** What the client is sent: the reply carries what the cache has after the
    client's revision, and the revision of the store. *)
Lemma poll_reply (ws : WatchableStore S) (a : kv) (get : string → res response) (c : Client)
    (evs : list Event) (R : N) :
  store_rep ws a → (cl_revision c ≤ max_uint64)%N → can_poll (cl_config c) →
  wc_closed (ws_wc ws) = false →
  getEventsLocked (ws_wc ws) (cl_revision c) (client_prefix c) = Ok evs →
  Forall (good_event R) evs → poll_answered ws get c →
  ∃ addr addrs h, Addrs (cl_config c) = addr :: addrs ∧
    get (watch_url c addr) = Ok (mkResponse StatusOK h
      (json_Encode (watch_response_json (mkWatchResponse (kv_rev a) (reply_event <$> evs))))).
Proof.
  intros Hs Hr [Hn Hp] Hcl Hg Hgood
    (addr & addrs & r & start & wakes & now & resp & Ha & Hreq & Hw & Hl & Hget).
  destruct (poll_seconds_bounds (cl_config c)) as (Hs0 & Hs1 & Hs2); [unfold Second in Hp; lia|].
  assert (0 < poll_seconds (cl_config c) < two63)%Z as Hsecs by (unfold Second in *; lia).
  unfold handleWatch in Hw, Hl. rewrite (watch_request_client r _ _ _ _ Hreq Hn Hr) in Hw, Hl by lia.
  destruct (Z.eqb_spec (poll_seconds (cl_config c)) 0) as [|_]; [lia|].
  destruct (WaitForEvents _ _ _ _ wakes) as [[]|] eqn:Hwait; [done..|].
  destruct (WaitForEvents _ _ _ _ (wakes ++ _)) as [[evs'|e|]|] eqn:Hlast; [|done..].
  apply (WaitForEvents_last _ _ _ _ _ _ _ Hwait Hcl) in Hlast.
  fold (client_prefix c) in Hlast. rewrite Hg in Hlast. injection Hlast as <-.
  injection Hl as Hl. unfold watch_reply in Hl. rewrite (watch_event_good R) in Hl by done.
  cbn [mbind res_bind] in Hl. rewrite !(law_Rev ws a Hs) in Hl. injection Hl as <-.
  exists addr, addrs. eexists. split; [done|]. exact Hget.
Qed.

(** One turn against a server that has made the calls [l] since. *)
Lemma turn_sync (ws : WatchableStore S) (a : kv) (h : list Event) (l : list call)
    (get : string → res response) (c : Client) (d : D) :
  let ws2 := (run_calls ws l).1 in
  let a2 := (spec_calls a l).1 in
  ws_rep ws a h → admissible_calls watch_limit a l → Forall call_text l →
  (kv_rev a2 ≤ max_uint64)%N → (Z.of_nat (length (calls_events a l)) ≤ wc_capacity (ws_wc ws))%Z →
  wc_closed (ws_wc ws) = false → can_poll (cl_config c) → in_sync c (client_prefix c) a →
  poll_answered ws2 get c →
  ∃ c' d' calls, turn get c d = Ok (c', d', calls, Again) ∧
    in_sync c' (client_prefix c) a2 ∧ cl_config c' = cl_config c ∧ cl_done c' = cl_done c.
Proof.
  intros ws2 a2 Hrep Hadm Htext Hmax Hlen Hcl Hcan [Hc Hrv] Hpoll.
  destruct (run_calls_ws l ws a h Hrep Hadm) as (Hrep2 & Hcl2 & Hk2).
  fold ws2 a2 in Hrep2, Hcl2, Hk2. rewrite Hcl in Hcl2.
  assert (store_rep ws2 a2) as Hs2 by (eexists; exact Hrep2).
  assert (kv_ok a) as Hok by exact (law_ok _ _ (ws_store _ _ _ Hrep)).
  destruct (calls_events_rev l a) as [_ Hle]. fold a2 in Hle.
  pose proof (calls_events_good l a Hok Htext) as Hgood. fold a2 in Hgood.
  set (evs := filter (ev_match (cl_revision c) (client_prefix c)) (calls_events a l)).
  assert (Forall (good_event (kv_rev a2)) evs) as Hg.
  { apply Forall_forall. intros e [_ He]%list_elem_of_filter. rewrite Forall_forall in Hgood. auto. }
  assert (getEventsLocked (ws_wc ws2) (cl_revision c) (client_prefix c) = Ok evs) as Hev.
  { apply (getEvents_recent _ h); [apply (ws_cache _ _ _ Hrep2)| |by rewrite Hk2].
    rewrite Hrv. apply (ws_bound _ _ _ Hrep). }
  destruct (poll_reply ws2 a2 get c evs _ Hs2 ltac:(lia) Hcan Hcl2 Hev Hg Hpoll)
    as (addr & addrs & hd & Ha & Hget).
  destruct (turn_reply get c d addr addrs _ _ _ _ _ Ha Hc Hmax Hmax Hg ltac:(lia) Hget)
    as (c' & d' & calls & Ht & Hc' & Hr' & Hf' & Hw' & Hd').
  exists c', d', calls. split; [exact Ht|]. split_and!; [|done|done]. split; [|done].
  rewrite Hc'. f_equal. unfold evs. rewrite Hrv. apply replay_calls; [done| |lia].
  eapply Forall_impl; [exact Htext|]. apply call_text_valid.
Qed.

(** A client's life with a server: it starts on the answer to its full pull, and
    each turn of its loop is answered after some more calls of the server. *)
Inductive session : WatchableStore S → kv → list Event → Client → D → Prop :=
  | session_start ws a h get cfg d addr addrs resp c d' :
      ws_rep ws a h → wc_closed (ws_wc ws) = false → kv_text a → (kv_rev a ≤ max_uint64)%N →
      Addrs cfg = addr :: addrs → can_poll (with_defaults cfg) →
      handleList ws ws (Tenant cfg) (Namespace cfg) = Ok resp →
      get (pull_url (new_client cfg) addr) = Ok resp →
      new get cfg d = Ok (c, d') → session ws a h c d'
  | session_turn ws a h c d l get c' d' calls nx :
      session ws a h c d →
      admissible_calls watch_limit a l → Forall call_text l →
      (kv_rev (spec_calls a l).1 ≤ max_uint64)%N →
      (Z.of_nat (length (calls_events a l)) ≤ wc_capacity (ws_wc ws))%Z →
      poll_answered (run_calls ws l).1 get c →
      turn get c d = Ok (c', d', calls, nx) →
      session (run_calls ws l).1 (spec_calls a l).1 (h ++ calls_events a l) c' d'.

Lemma session_ok (ws : WatchableStore S) (a : kv) (h : list Event) (c : Client) (d : D) :
  session ws a h c d →
  ws_rep ws a h ∧ in_sync c (client_prefix c) a ∧ can_poll (cl_config c) ∧
  wc_closed (ws_wc ws) = false.
Proof.
  induction 1 as [ws a h get cfg d addr addrs resp c d' Hrep Hcl Ht Hmax Ha Hcan Hl Hget Hnew
    |ws a h c d l get c' d' calls nx _ (Hrep & Hsync & Hcan & Hcl) Hadm Htext Hmax Hlen Hpoll Hturn].
  - assert (store_rep ws a) as Hs by (eexists; exact Hrep).
    destruct (New_sync os_ReadFile os_WriteFile filepath_Join ws a get cfg d addr addrs resp Hs Ht
      Hmax Ha Hl Hget)
      as (c0 & d0 & Hnew0 & Hsync & Hcfg).
    rewrite Hnew in Hnew0. injection Hnew0 as -> ->. split_and!; [done| | |done].
    + unfold client_prefix. by rewrite Hcfg.
    + by rewrite Hcfg.
  - destruct (turn_sync ws a h l get c d Hrep Hadm Htext Hmax Hlen Hcl Hcan Hsync Hpoll)
      as (c0 & d0 & calls0 & Hturn0 & Hsync0 & Hcfg & _).
    rewrite Hturn in Hturn0. injection Hturn0 as -> -> -> ->.
    destruct (run_calls_ws l ws a h Hrep Hadm) as (Hrep2 & Hcl2 & _).
    split_and!; [done| |by rewrite Hcfg|by rewrite Hcl2].
    unfold client_prefix in *. by rewrite Hcfg.
Qed.
End sync.

(** ** Falling back, and error replies *)

Section fallback.
Context {D : Type}.
Variable os_ReadFile : D → string → res string.
Variable os_WriteFile : D → string → string → D.
Variable filepath_Join : string → string → string.

Abbreviation path := (cachePath filepath_Join).

Lemma New_falls_back (c : Client) (cfg : Config) (d : D) (get : string → res response)
    (e : error) :
  text_client c → path (new_client cfg) = path c → path c ≠ "" → Addrs cfg ≠ [] →
  (∀ out, os_ReadFile (os_WriteFile d (path c) out) (path c) = Ok out) →
  (∀ addr, get (pull_url (new_client cfg) addr) = Err e) →
  ∃ c', New os_ReadFile os_WriteFile filepath_Join get cfg (saveToCache os_WriteFile filepath_Join c d)
      = Ok (c', saveToCache os_WriteFile filepath_Join c d) ∧
    cl_configs c' = cl_configs c ∧ cl_revision c' = cl_revision c ∧
    cl_config c' = with_defaults cfg.
Proof.
  intros Htext Hpath Hne Ha Hfs Hget. unfold New. fold (with_defaults cfg). fold (new_client cfg).
  unfold fullPull, fullPull_body, pickAddr. cbn [cl_config new_client Addrs with_defaults].
  fold (new_client cfg). destruct (Addrs cfg) as [|addr addrs]; [done|]. rewrite Hget.
  destruct (load_saved os_ReadFile os_WriteFile filepath_Join c
    (set_metrics (new_client cfg) (count_pull "error")) d Htext Hpath Hne eq_refl Hfs)
    as (c' & -> & Hc' & Hr' & Hf' & _).
  exists c'. by split_and!.
Qed.

(** An error document of the server is a reply without events. *)
Lemma turn_error_reply (get : string → res response) (c : Client) (d : D) (addr : string)
    (addrs : list string) (status : Z) (msg : string) :
  Addrs (cl_config c) = addr :: addrs →
  get (watch_url c addr) = Ok (httpError status msg) →
  watch_turn os_WriteFile filepath_Join get c d
  = Ok (set_metrics c (count_poll "empty"), d, [], Again).
Proof.
  intros Ha Hget. unfold watch_turn, pickAddr. rewrite Ha. cbn [mbind res_bind]. rewrite Hget.
  unfold httpError, writeJSON. cbn [rs_Body]. unfold decode_body.
  rewrite json_decode_first_Encode by (constructor; repeat constructor). reflexivity.
Qed.
End fallback.

(** One event, with the calls of the callbacks. *)
Lemma apply_event_calls (c : Client) (m : gmap string Entry) (R : N) (e : Event) :
  good_event R e → cl_configs c = vals m →
  ∃ c', apply_event c (to_event (reply_event e)) = Ok (c',
      (λ fn, mkNotify fn (ev_key e) (default None (vals m !! ev_key e))
               (default None (vals (replay_event m e) !! ev_key e)))
      <$> default [] (cl_watchers c !! ev_key e) ++ default [] (cl_watchers c !! "")) ∧
    cl_configs c' = vals (replay_event m e) ∧ cl_watchers c' = cl_watchers c.
Proof.
  intros (en & He & Hk & _ & _ & Ht) Hc.
  unfold apply_event, to_event, reply_event, replay_event, ev_key.
  rewrite He. destruct en as [ky va re cr mo ve]. cbn [Key Value] in *.
  destruct Ht as [[Hty Hv]|Hty]; rewrite Hty; cbn -[String.eqb ToValidUTF8 bytes_to_string];
    rewrite (ToValidUTF8_valid ky), Hc by done; unfold vals.
  - rewrite fmap_insert, lookup_insert_eq, (ToValidUTF8_valid (bytes_to_string va)) by done.
    eexists. split; [reflexivity|]. by split.
  - rewrite fmap_delete, lookup_delete_eq. eexists. split; [reflexivity|]. by split.
Qed.

(** ** Properties *)

Section properties.
Context {S : Type} `{StoreLaws S}.
Context {D : Type}.
Variable os_ReadFile : D → string → res string.
Variable os_WriteFile : D → string → string → D.
Variable filepath_Join : string → string → string.

Abbreviation new := (New os_ReadFile os_WriteFile filepath_Join).
Abbreviation turn := (watch_turn os_WriteFile filepath_Join).
Abbreviation path := (cachePath filepath_Join).

(** C5: A client that started on the answer to its full pull holds, after each answered
    long poll, exactly the values the server has under the client's tenant and
    namespace, at the server's revision, as long as the server makes no more
    mutations between two polls than its watch cache holds; and each such poll is
    taken without an error, a panic or a pause. *)
Theorem sdk_session_in_sync (ws : WatchableStore S) (a : kv) (h : list Event) (c : Client) (d : D)
    (l : list call) (get : string → res response) :
  session os_ReadFile os_WriteFile filepath_Join ws a h c d →
  let ws2 := (run_calls ws l).1 in
  let a2 := (spec_calls a l).1 in
  admissible_calls watch_limit a l → Forall call_text l → (kv_rev a2 ≤ max_uint64)%N →
  (Z.of_nat (length (calls_events a l)) ≤ wc_capacity (ws_wc ws))%Z →
  poll_answered ws2 get c →
  in_sync c (client_prefix c) a ∧
  ∃ c' d' calls, turn get c d = Ok (c', d', calls, Again) ∧ in_sync c' (client_prefix c) a2 ∧
    ∀ k e, HasPrefix k (client_prefix c) = true → store_Get ws2 k = Ok e →
      Client_Get c' k = Some (Some (bytes_to_string (Value e))).
Proof.
  intros Hses ws2 a2 Hadm Htext Hmax Hlen Hpoll.
  destruct (session_ok _ _ _ _ _ _ _ _ Hses) as (Hrep & Hsync & Hcan & Hcl). split; [done|].
  destruct (turn_sync os_WriteFile filepath_Join ws a h l get c d Hrep Hadm Htext Hmax Hlen Hcl
    Hcan Hsync Hpoll) as (c' & d' & calls & Ht & Hsync' & _).
  exists c', d', calls. split_and!; [exact Ht|exact Hsync'|]. intros k e Hp He.
  destruct (run_calls_ws l ws a h Hrep Hadm) as (Hrep2 & _ & _). fold ws2 a2 in Hrep2.
  rewrite (law_Get ws2 a2 k) in He by (eexists; exact Hrep2).
  destruct (kv_map a2 !! k) as [e0|] eqn:Hk; [|done]. injection He as ->.
  unfold Client_Get. destruct Hsync' as [-> _]. unfold vals, under. rewrite lookup_fmap.
  by rewrite (proj2 (map_lookup_filter_Some _ _ k e)).
Qed.

(** The client asks for its keys in full only when it starts.  Once its revision is
    behind the watch cache, because the cache was overrun, the server restarted with
    an empty cache or the client started without an answer, a poll moves the
    client's revision past the missed mutations and leaves their keys as they were:
    the client never gets them. *)
Theorem sdk_never_pulls_again (ws : WatchableStore S) (a : kv) (h evs : list Event) (c : Client)
    (d : D) (m : gmap string Entry) (k : string) (get : string → res response) :
  ws_rep ws a h → wc_closed (ws_wc ws) = false → can_poll (cl_config c) →
  (kv_rev a ≤ max_uint64)%N → (cl_revision c ≤ kv_rev a)%N → cl_configs c = vals m →
  getEventsLocked (ws_wc ws) (cl_revision c) (client_prefix c) = Ok evs →
  Forall (good_event (kv_rev a)) evs → Forall (λ e, ev_key e ≠ k) evs →
  poll_answered ws get c →
  ∃ c' d' calls, turn get c d = Ok (c', d', calls, Again) ∧
    Client_Get c' k = Client_Get c k ∧ cl_revision c' = kv_rev a ∧
    getEventsLocked (ws_wc ws) (cl_revision c') (client_prefix c') = Ok [].
Proof.
  intros Hrep Hcl Hcan Hmax Hle Hc Hev Hgood Hk Hpoll.
  assert (store_rep ws a) as Hs by (eexists; exact Hrep).
  destruct (poll_reply ws a get c evs _ Hs ltac:(lia) Hcan Hcl Hev Hgood Hpoll)
    as (addr & addrs & hd & Ha & Hget).
  destruct (turn_reply os_WriteFile filepath_Join get c d addr addrs _ _ _ _ _ Ha Hc Hmax Hmax Hgood
    Hle Hget) as (c' & d' & calls & Ht & Hc' & Hr' & Hf' & Hw' & Hd').
  exists c', d', calls. split; [exact Ht|]. split_and!; [|done|].
  - unfold Client_Get. rewrite Hc', Hc. unfold vals. rewrite !lookup_fmap. f_equal.
    clear -Hk. revert m. induction evs as [|e evs IH]; intros m; [done|].
    apply Forall_cons in Hk as [Hek Hk]. simpl. rewrite (IH Hk).
    unfold replay_event. unfold ev_key in Hek.
    destruct (ev_Entry e) as [en|]; [|done]. simpl in Hek.
    case_match; by rewrite ?lookup_insert_ne, ?lookup_delete_ne.
  - rewrite Hr'. rewrite (getEvents_recent _ h []); [done| |apply (ws_bound _ _ _ Hrep)|].
    + rewrite app_nil_r. apply (ws_cache _ _ _ Hrep).
    + pose proof (rep_capacity _ _ (ws_cache _ _ _ Hrep)). simpl. lia.
Qed.

(** C34: A client whose full pull fails falls back on the cache file: it starts with the
    values and the revision of the client that wrote the file last, in step with
    the state of the server that one was in step with. *)
Theorem sdk_restart_from_cache (c : Client) (cfg : Config) (d : D) (get : string → res response)
    (e : error) :
  text_client c → path (new_client cfg) = path c → path c ≠ "" → Addrs cfg ≠ [] →
  (∀ out, os_ReadFile (os_WriteFile d (path c) out) (path c) = Ok out) →
  (∀ addr, get (pull_url (new_client cfg) addr) = Err e) →
  ∃ c' d', new get cfg (saveToCache os_WriteFile filepath_Join c d) = Ok (c', d') ∧
    Client_GetAll c' = Client_GetAll c ∧ cl_revision c' = cl_revision c ∧
    ∀ p a, in_sync c p a → in_sync c' p a.
Proof.
  intros Htext Hpath Hne Ha Hfs Hget.
  destruct (New_falls_back os_ReadFile os_WriteFile filepath_Join c cfg d get e Htext Hpath Hne Ha
    Hfs Hget) as (c' & Hnew & Hc' & Hr' & _).
  exists c', (saveToCache os_WriteFile filepath_Join c d). split_and!; [exact Hnew|done|done|].
  unfold in_sync. by rewrite Hc', Hr'.
Qed.

(** The name of the cache file does not separate the tenant from the namespace: a
    client of namespace [y_z] of tenant [x] that falls back on its cache starts with
    the values of namespace [z] of tenant [x_y]. *)
Theorem sdk_cache_shared (c : Client) (d : D) (get : string → res response) (e : error)
    (x y z addr : string) :
  let cfg := mkConfig [addr] x (y +:+ "_" +:+ z) (CacheDir (cl_config c)) 0 0 in
  Tenant (cl_config c) = x +:+ "_" +:+ y → Namespace (cl_config c) = z →
  text_client c → path c ≠ "" →
  (∀ out, os_ReadFile (os_WriteFile d (path c) out) (path c) = Ok out) →
  (∀ url, get url = Err e) →
  ∃ c' d', new get cfg (saveToCache os_WriteFile filepath_Join c d) = Ok (c', d') ∧
    Tenant (cl_config c') = x ∧ Client_GetAll c' = Client_GetAll c.
Proof.
  intros cfg Ht Hn Htext Hne Hfs Hget.
  destruct (New_falls_back os_ReadFile os_WriteFile filepath_Join c cfg d get e Htext)
    as (c' & Hnew & Hc' & _ & Hf'); [|done|done|done|auto|].
  - unfold cachePath. cbn [cl_config new_client with_defaults CacheDir Tenant Namespace cfg].
    rewrite Ht, Hn. by rewrite !string_app_assoc.
  - exists c', (saveToCache os_WriteFile filepath_Join c d). by rewrite Hf'.
Qed.







(** The loop does not look at the status of a reply: an error document of the server
    counts as a reply without events, and the loop starts over at once.  With a poll
    timeout of less than a second the client asks for a timeout of 0, which the
    server refuses, so that every turn is such a turn. *)
Theorem sdk_short_poll_spins (c : Client) (d : D) (addr : string) (addrs : list string)
    (get : string → res response) (r : request) (start : Z) (wakes : list (WatchCache * Z))
    (ws : WatchableStore S) (resp : response) :
  Addrs (cl_config c) = addr :: addrs → Namespace (cl_config c) ≠ "" →
  (0 ≤ PollTimeout (cl_config c) < Second)%Z → (cl_revision c ≤ max_uint64)%N →
  is_watch_request r (Tenant (cl_config c)) (Namespace (cl_config c)) (cl_revision c)
    (poll_seconds (cl_config c)) →
  handleWatch r start wakes ws ws = Some (Ok resp) → get (watch_url c addr) = Ok resp →
  rs_Status resp = StatusBadRequest ∧
  turn get c d = Ok (set_metrics c (count_poll "empty"), d, [], Again).
Proof.
  intros Ha Hn Hp Hr Hreq Hw Hget. unfold Second in Hp.
  destruct (poll_seconds_bounds (cl_config c)) as (Hs0 & Hs1 & Hs2); [unfold two63; lia|].
  assert (poll_seconds (cl_config c) = 0%Z) as Hz by (unfold Second in *; lia).
  rewrite Hz in Hreq. unfold handleWatch in Hw.
  rewrite (watch_request_client r _ _ _ _ Hreq Hn Hr) in Hw by (unfold two63; lia).
  cbn [Z.eqb] in Hw. injection Hw as <-. split; [done|].
  by apply (turn_error_reply os_WriteFile filepath_Join get c d addr addrs StatusBadRequest
    "invalid timeout: 0").
Qed.

(** The callbacks are called in the order of the events, those of the event's key
    before those of all keys, each with the value before and after the event. *)
Theorem sdk_callbacks (c : Client) (m : gmap string Entry) (R : N) (evs : list Event) :
  Forall (good_event R) evs → cl_configs c = vals m →
  ∃ c', applyEvents c (to_event <$> (reply_event <$> evs)) = Ok (c',
    mjoin (imap (λ i e,
      (λ fn, mkNotify fn (ev_key e) (default None (vals (replay m (take i evs)) !! ev_key e))
               (default None (vals (replay m (take (Datatypes.S i) evs)) !! ev_key e)))
      <$> default [] (cl_watchers c !! ev_key e) ++ default [] (cl_watchers c !! "")) evs)) ∧
    Client_GetAll c' = vals (replay m evs).
Proof.
  revert c m. induction evs as [|e evs IH]; intros c m Hall Hc; [by exists c|].
  apply Forall_cons in Hall as [He Hall].
  destruct (apply_event_calls c m R e He Hc) as (c1 & H1 & Hc1 & Hw1).
  destruct (IH c1 _ Hall Hc1) as (c2 & H2 & Hc2). exists c2. split; [|done].
  cbn [fmap list_fmap applyEvents]. rewrite H1. cbn [mbind res_bind fst snd].
  change (list_fmap _ _ to_event (list_fmap _ _ reply_event evs))
    with (to_event <$> (reply_event <$> evs)). rewrite H2. cbn [mbind res_bind fst snd].
  rewrite Hw1. done.
Qed.
End properties.

(** ** Concrete runs *)

(** A file system of whole files. *)
Definition demo_fs : Type := gmap string string.
Definition demo_read (d : demo_fs) (p : string) : res string :=
  match d !! p with Some s => Ok s | None => Err (EMsg "no such file") end.
Definition demo_write (d : demo_fs) (p data : string) : demo_fs := <[p := data]> d.
Definition demo_join (dir file : string) : string := dir +:+ "/" +:+ file.

Definition demo_cfg : Config := mkConfig ["localhost:8080"] "t" "n" "" 0 0.

Definition reply_or_empty (r : res response) : response :=
  match r with Ok resp => resp | _ => mkResponse 0 [] "" end.
Definition answer (resp : response) : string → res response := λ _, Ok resp.

Definition demo_list_reply : response := reply_or_empty (handleList demo_small demo_small "t" "n").
Definition demo_client : Client :=
  match New demo_read demo_write demo_join (answer demo_list_reply) demo_cfg ∅ with
  | Ok (c, _) => c
  | _ => new_client demo_cfg
  end.

Lemma demo_session :
  session (S:=BoltStore MemDb.t) demo_read demo_write demo_join demo_small kv_empty [] demo_client ∅.
Proof.
  apply (session_start demo_read demo_write demo_join demo_small kv_empty [] (answer demo_list_reply)
    demo_cfg ∅ "localhost:8080" [] demo_list_reply).
  - apply demo_small_rep.
  - reflexivity.
  - intros k e. cbn. by rewrite lookup_empty.
  - vm_compute. discriminate.
  - reflexivity.
  - split; [discriminate|]. vm_compute. split; [discriminate|reflexivity].
  - vm_compute. reflexivity.
  - reflexivity.
  - vm_compute. reflexivity.
Qed.

Definition demo_poll : request :=
  mkRequest "GET" "/api/v1/watch/t/n/" [("revision", "0"); ("timeout", "30")] "" [] (mkBody "" None).

Definition demo_reply (ws : WatchableStore (BoltStore MemDb.t)) : response :=
  match handleWatch demo_poll 0 [(ws_wc ws, 0%Z)] ws ws with
  | Some r => reply_or_empty r
  | None => mkResponse 0 [] ""
  end.

(** One mutation: the cache of [demo_small] holds it.  After two, it has lost the first. *)
Definition demo_calls1 : list call := [CPut "t/n/k" (Some "v")].
Definition demo_calls2 : list call := [CPut "t/n/k" (Some "v"); CPut "t/n/x" (Some "w")].

Lemma demo_calls2_admissible :
  admissible_calls (watch_limit (S:=BoltStore MemDb.t)) kv_empty demo_calls2.
Proof. repeat (split; [solve_can_put|]). done. Qed.

Lemma demo_poll_answered (c : Client) (l : list call) (resp : response) :
  cl_config c = with_defaults demo_cfg → cl_revision c = 0%N →
  let ws := (run_calls demo_small l).1 in
  handleWatch demo_poll 0 [(ws_wc ws, 0%Z)] ws ws = Some (Ok resp) →
  poll_answered ws (answer resp) c.
Proof.
  intros Hc Hr ws Hw. exists "localhost:8080", [], demo_poll, 0%Z, [], 0%Z, resp.
  rewrite Hc, Hr. split_and!; [done| |done|exact Hw|done]. by split_and!.
Qed.

Lemma sdk_session_in_sync_witness :
  let ws2 := (run_calls demo_small demo_calls1).1 in
  ∃ c' d' calls, watch_turn demo_write demo_join (answer (demo_reply ws2)) demo_client ∅
      = Ok (c', d', calls, Again) ∧ Client_Get c' "t/n/k" = Some (Some "v").
Proof.
  intros ws2.
  destruct (sdk_session_in_sync demo_read demo_write demo_join demo_small kv_empty [] demo_client ∅
    demo_calls1 (answer (demo_reply ws2)) demo_session)
    as (_ & c' & d' & calls & Ht & _ & Hget).
  - split; [apply demo_calls2_admissible|done].
  - repeat constructor.
  - vm_compute. discriminate.
  - vm_compute. discriminate.
  - apply demo_poll_answered; [vm_compute; reflexivity..|]. vm_compute. reflexivity.
  - exists c', d', calls. split; [exact Ht|].
    apply (Hget "t/n/k" (kv_next kv_empty "t/n/k" (Some "v"))); vm_compute; reflexivity.
Defined.

Lemma demo_calls2_rep :
  ws_rep (run_calls demo_small demo_calls2).1 (spec_calls kv_empty demo_calls2).1
    (calls_events kv_empty demo_calls2) ∧
  wc_closed (ws_wc (run_calls demo_small demo_calls2).1) = false.
Proof.
  destruct (run_calls_ws demo_calls2 demo_small kv_empty [] demo_small_rep demo_calls2_admissible)
    as (Hrep & Hcl & _).
  split; [exact Hrep|by rewrite Hcl].
Qed.

Lemma sdk_never_pulls_again_witness :
  let ws2 := (run_calls demo_small demo_calls2).1 in
  ∃ c' d' calls, watch_turn demo_write demo_join (answer (demo_reply ws2)) (new_client demo_cfg) ∅
      = Ok (c', d', calls, Again) ∧ Client_Get c' "t/n/k" = None ∧ cl_revision c' = 2%N ∧
    ∃ e, store_Get ws2 "t/n/k" = Ok e.
Proof.
  intros ws2. destruct demo_calls2_rep as [Hrep Hcl].
  destruct (sdk_never_pulls_again demo_write demo_join ws2 (spec_calls kv_empty demo_calls2).1
    (calls_events kv_empty demo_calls2) (drop 1 (calls_events kv_empty demo_calls2))
    (new_client demo_cfg) ∅ ∅ "t/n/k" (answer (demo_reply ws2)) Hrep Hcl)
    as (c' & d' & calls & Ht & Hk & Hr & _).
  - split; [discriminate|]. vm_compute. split; [discriminate|reflexivity].
  - vm_compute. discriminate.
  - vm_compute. discriminate.
  - reflexivity.
  - vm_compute. reflexivity.
  - apply Forall_drop, calls_events_good; [apply kv_ok_empty|repeat constructor].
  - repeat constructor; vm_compute; discriminate.
  - apply demo_poll_answered; [reflexivity..|]. vm_compute. reflexivity.
  - exists c', d', calls. split_and!; [exact Ht|exact Hk|exact Hr|]. eexists.
    vm_compute. reflexivity.
Defined.

(** A client of tenant [team_a] with a cache directory and one value. *)
Definition demo_saved : Client :=
  mkClient (mkConfig ["localhost:8080"] "team_a" "prod" "/var/cache" (30 * Second) Second)
    {["team_a/prod/k" := Some "v"]} 7 ∅ false newClientMetrics.

Lemma demo_saved_text : text_client demo_saved.
Proof.
  split_and!.
  - intros k v Hk. unfold configs_strings, demo_saved in Hk. cbn [cl_configs] in Hk.
    rewrite map_fmap_singleton in Hk. by apply lookup_singleton_Some in Hk as [<- <-].
  - intros k v Hk. unfold demo_saved in Hk. cbn [cl_configs] in Hk.
    apply lookup_singleton_Some in Hk as [_ <-]. by eexists.
  - vm_compute. discriminate.
Qed.

Lemma demo_write_read (d : demo_fs) (p out : string) : demo_read (demo_write d p out) p = Ok out.
Proof. unfold demo_read, demo_write. by rewrite (lookup_insert_eq (M:=gmap string) d p out). Qed.

Definition no_answer : string → res response := λ _, Err (EMsg "connection refused").

Lemma sdk_restart_from_cache_witness :
  ∃ c' d', New demo_read demo_write demo_join no_answer (cl_config demo_saved)
      (saveToCache demo_write demo_join demo_saved ∅) = Ok (c', d') ∧
    Client_Get c' "team_a/prod/k" = Some (Some "v") ∧ cl_revision c' = 7%N.
Proof.
  destruct (sdk_restart_from_cache demo_read demo_write demo_join demo_saved (cl_config demo_saved)
    ∅ no_answer (EMsg "connection refused") demo_saved_text)
    as (c' & d' & Hnew & Hall & Hr & _);
    [reflexivity|vm_compute; discriminate|discriminate|intros; apply demo_write_read|reflexivity|].
  exists c', d'. split_and!; [exact Hnew| |exact Hr].
  unfold Client_GetAll in Hall. unfold Client_Get. rewrite Hall. reflexivity.
Defined.






Lemma sdk_cache_shared_witness :
  ∃ c' d', New demo_read demo_write demo_join no_answer
      (mkConfig ["localhost:8080"] "team" "a_prod" "/var/cache" 0 0)
      (saveToCache demo_write demo_join demo_saved ∅) = Ok (c', d') ∧
    Tenant (cl_config c') = "team" ∧ Client_GetAll c' = Client_GetAll demo_saved.
Proof.
  apply (sdk_cache_shared demo_read demo_write demo_join demo_saved ∅ no_answer
    (EMsg "connection refused") "team" "a" "prod" "localhost:8080");
    [reflexivity|reflexivity|apply demo_saved_text|vm_compute; discriminate
    |intros; apply demo_write_read|reflexivity].
Defined.

(** A client that polls for half a second. *)
Definition demo_hasty : Client :=
  new_client (mkConfig ["localhost:8080"] "t" "n" "" 500000000 0).

Lemma sdk_short_poll_spins_witness :
  watch_turn demo_write demo_join (answer (httpError StatusBadRequest "invalid timeout: 0"))
    demo_hasty ∅ = Ok (set_metrics demo_hasty (count_poll "empty"), ∅, [], Again).
Proof.
  apply (sdk_short_poll_spins demo_write demo_join demo_hasty ∅ "localhost:8080" []
    (answer (httpError StatusBadRequest "invalid timeout: 0"))
    (mkRequest "GET" "/api/v1/watch/t/n/" [("revision", "0"); ("timeout", "0")] "" [] (mkBody "" None))
    0 [] demo_small (httpError StatusBadRequest "invalid timeout: 0")).
  - reflexivity.
  - discriminate.
  - vm_compute. split; [discriminate|reflexivity].
  - vm_compute. discriminate.
  - by split_and!.
  - vm_compute. reflexivity.
  - reflexivity.
Defined.

Lemma sdk_callbacks_witness :
  ∃ c', applyEvents (OnChange (OnChange demo_client "" 1) "t/n/k" 2)
      (to_event <$> (reply_event <$> calls_events kv_empty [CPut "t/n/k" (Some "v")]))
    = Ok (c', [mkNotify 2 "t/n/k" None (Some "v"); mkNotify 1 "t/n/k" None (Some "v")]).
Proof.
  destruct (sdk_callbacks (OnChange (OnChange demo_client "" 1) "t/n/k" 2) ∅
    (kv_rev (spec_calls kv_empty [CPut "t/n/k" (Some "v")]).1)
    (calls_events kv_empty [CPut "t/n/k" (Some "v")])) as (c' & Happ & _).
  - apply (calls_events_good [CPut "t/n/k" (Some "v")]); [apply kv_ok_empty|repeat constructor].
  - vm_compute. reflexivity.
  - exists c'. rewrite Happ. vm_compute. reflexivity.
Defined.
