(* ===== verification/Series.v ===== *)
(** The Prometheus series of [src/internal/metrics/metrics.go] and of
    [src/sdk/metrics.go]: what is declared and registered, and that it keeps the rules
    the Prometheus documentation states for names, labels and buckets.  The registry
    itself is the library's; the collectors of the Go runtime are its own. *)

From Stdlib Require Import SpecFloat.
From S2P Require Import Prelude GoStrings GoFmt GoText.

Local Open Scope string_scope.
Local Open Scope list_scope.
Local Open Scope nat_scope.

(** The decimal literal [n / 10^k] as a [float64]. *)
Definition lit (n : Z) (k : N) : spec_float := float_div (float_of_int n) (float_of_int (10 ^ Z.of_N k)).

Inductive series_kind := KCounter | KGauge | KHistogram (buckets : list spec_float).

(** [prometheus.CounterOpts], [GaugeOpts] and [HistogramOpts], with the label names. *)
Record series := mkSeries {
  s_kind : series_kind;
  s_Namespace : string;
  s_Subsystem : string;
  s_Name : string;
  s_Help : string;
  s_ConstLabels : list (string * string);
  s_labels : list string;
}.

(** ** The server *)

Definition namespace : string := "paladin".
Definition subsystemHTTP : string := "http".
Definition subsystemRaft : string := "raft".
Definition subsystemStore : string := "store".

Definition HTTPRequestsTotal_series : series :=
  mkSeries KCounter namespace subsystemHTTP "requests_total"
    "HTTP requests processed, labeled by method, route, and status class."
    [] ["method"; "route"; "status"].

Definition HTTPRequestDuration_series : series :=
  mkSeries (KHistogram [lit 1 3; lit 25 4; lit 5 3; lit 1 2; lit 25 3; lit 5 2; lit 1 1; lit 25 2;
                        lit 5 1; lit 1 0; lit 25 1; lit 5 0; lit 10 0])
    namespace subsystemHTTP "request_duration_seconds"
    "HTTP request latency in seconds, labeled by method and route."
    [] ["method"; "route"].

Definition RaftApplyTotal_series : series :=
  mkSeries KCounter namespace subsystemRaft "apply_total"
    "Raft Apply invocations, labeled by op type (put|delete) and outcome (ok|error|not_leader)."
    [] ["op"; "outcome"].

Definition RaftApplyDuration_series : series :=
  mkSeries (KHistogram [lit 1 3; lit 5 3; lit 1 2; lit 25 3; lit 5 2; lit 1 1; lit 25 2; lit 5 1;
                        lit 1 0; lit 25 1; lit 5 0])
    namespace subsystemRaft "apply_duration_seconds"
    "Raft Apply latency in seconds, labeled by op type." [] ["op"].

Definition StoreRevision_series : series :=
  mkSeries KGauge namespace subsystemStore "revision"
    "Current store revision (monotonic; a Gauge for rate() ergonomics)." [] [].

(** What [init] registers, beside the collectors of the runtime. *)
Definition Registry : list series :=
  [HTTPRequestsTotal_series; HTTPRequestDuration_series; RaftApplyTotal_series;
   RaftApplyDuration_series; StoreRevision_series].

(** ** The client *)

(** [prometheus.DefBuckets] *)
Definition DefBuckets : list spec_float :=
  [lit 5 3; lit 1 2; lit 25 3; lit 5 2; lit 1 1; lit 25 2; lit 5 1; lit 1 0; lit 25 1; lit 5 0; lit 10 0].

(** What [newClientMetrics(tenant, namespace)] registers. *)
Definition client_registry (tenant namespace : string) : list series :=
  let labels := [("tenant", tenant); ("namespace", namespace)] in
  [mkSeries KCounter "paladin_sdk" "" "full_pulls_total"
     "Total SDK full-pull attempts, labeled by outcome." labels ["outcome"];
   mkSeries (KHistogram DefBuckets) "paladin_sdk" "" "full_pull_duration_seconds"
     "Latency of SDK full-pull requests (success or error)." labels [];
   mkSeries KCounter "paladin_sdk" "" "watch_polls_total"
     "Total SDK watch long-poll attempts, labeled by outcome." labels ["outcome"];
   mkSeries (KHistogram [lit 1 2; lit 1 1; lit 5 1; lit 1 0; lit 25 1; lit 5 0; lit 10 0; lit 30 0; lit 60 0])
     "paladin_sdk" "" "watch_poll_duration_seconds"
     "Wall-clock duration of SDK watch long-poll requests. Timeouts show up at the PollTimeout bucket edge."
     labels [];
   mkSeries KCounter "paladin_sdk" "" "watch_events_total"
     "Total config-change events applied via watch, labeled by type." labels ["type"];
   mkSeries KCounter "paladin_sdk" "" "cache_loads_total"
     "Total disk-cache load attempts, labeled by outcome." labels ["outcome"];
   mkSeries KGauge "paladin_sdk" "" "revision"
     "Current known revision of the SDK's local view. Lag vs server = replication/watch delay."
     labels [];
   mkSeries KGauge "paladin_sdk" "" "configs"
     "Number of configs currently held in the SDK's in-memory store." labels []].

(** ** The rules *)

(** [prometheus.BuildFQName] *)
Definition fq_name (s : series) : string :=
  Join (filter (λ p, p ≠ "") [s_Namespace s; s_Subsystem s; s_Name s]) "_".

Definition name_char (first : bool) (a : ascii) : bool :=
  let n := N_of_ascii a in
  ((97 <=? n) && (n <=? 122))%N || ((65 <=? n) && (n <=? 90))%N || (n =? 95)%N
  || (negb first && (48 <=? n) && (n <=? 57))%N.

Fixpoint name_rest (s : string) : bool :=
  match s with "" => true | String a s' => name_char false a && name_rest s' end.
Definition valid_name (s : string) : bool :=
  match s with "" => false | String a s' => name_char true a && name_rest s' end.

Fixpoint increasing (l : list spec_float) : bool :=
  match l with
  | x :: (y :: _) as l' => SFltb x y && increasing l'
  | _ => true
  end.

(** A name of letters, digits and underscores, labels that are valid, distinct and not
    reserved, and buckets in increasing order. *)
Definition series_ok (s : series) : Prop :=
  let labels := map fst (s_ConstLabels s) ++ s_labels s in
  valid_name (fq_name s) = true ∧ Forall (λ l, valid_name l = true ∧ HasPrefix l "__" = false) labels ∧
  NoDup labels ∧
  match s_kind s with
  | KHistogram buckets => increasing buckets = true ∧ "le" ∉ labels
  | _ => True
  end.

(** Collectors that [MustRegister] takes. *)
Definition registrable (l : list series) : Prop := NoDup (map fq_name l) ∧ Forall series_ok l.

#[local] Instance series_ok_dec (s : series) : Decision (series_ok s).
Proof. unfold series_ok. destruct (s_kind s); apply _. Defined.

(** ** Properties *)

(** The series of the server are registered without a panic. *)
Theorem server_registrable : registrable Registry.
Proof. split; apply (bool_decide_unpack _); vm_compute; exact I. Qed.

(** A client's series are registered without a panic, whatever its tenant and
    namespace are. *)
Theorem client_registrable (tenant namespace : string) : registrable (client_registry tenant namespace).
Proof.
  split; [apply (bool_decide_unpack _); vm_compute; exact I|].
  repeat constructor; try (apply (bool_decide_unpack _); vm_compute; exact I).
Qed.
