(* ===== verification/Metrics.v ===== *)
(** [src/internal/metrics]: the status classes and the middleware that counts and times
    the requests.  A handler is the sequence of calls it makes on its [ResponseWriter];
    the declarations of the series are in [Series]. *)

From Stdlib Require Import SpecFloat.
From S2P Require Import Prelude GoStrings GoFmt GoTime Http.

Local Open Scope string_scope.
Local Open Scope list_scope.
Local Open Scope Z_scope.

Definition StatusClass (code : Z) : string :=
  if 500 <=? code then "5xx"
  else if 400 <=? code then "4xx"
  else if 300 <=? code then "3xx"
  else if 200 <=? code then "2xx"
  else "1xx".

(** ** The response writer of [net/http] *)

(** A call on a [ResponseWriter]. *)
Inductive write_call : Type :=
  | WriteHeader (code : Z)
  | Write (data : string).

(** What was sent: the final status, if any, the informational ones before it, and
    the body. *)
Record sent := mkSent {
  st_Status : option Z;
  st_Informational : list Z;
  st_Body : string;
}.

Definition nothing_sent : sent := mkSent None [] "".

(** A code of other than three digits panics; a code of [1xx] but [101] is sent at
    once and does not count as the status; a second status is ignored. *)
Definition http_WriteHeader (w : sent) (code : Z) : res sent :=
  if (code <? 100) || (999 <? code) then Panic
  else match st_Status w with
       | Some _ => Ok w
       | None =>
           if (code <=? 199) && negb (code =? 101)
           then Ok (mkSent None (st_Informational w ++ [code]) (st_Body w))
           else Ok (mkSent (Some code) (st_Informational w) (st_Body w))
       end.

Definition http_Write (w : sent) (data : string) : sent :=
  mkSent (Some (default StatusOK (st_Status w))) (st_Informational w) (st_Body w +:+ data).

Definition http_call (w : sent) (c : write_call) : res sent :=
  match c with
  | WriteHeader code => http_WriteHeader w code
  | Write data => Ok (http_Write w data)
  end.

(** The status of a handler that wrote nothing is 200. *)
Definition final_status (w : sent) : Z := default StatusOK (st_Status w).

(** ** The middleware *)

(** [type statusRecorder struct] *)
Record statusRecorder := mkRecorder {
  ResponseWriter : sent;
  status : Z;
  wroteHeader : bool;
}.

Definition statusRecorder_WriteHeader (r : statusRecorder) (code : Z) : res statusRecorder :=
  let '(s, wrote) := if wroteHeader r then (status r, true) else (code, true) in
  w ← http_WriteHeader (ResponseWriter r) code;
  Ok (mkRecorder w s wrote).

Definition statusRecorder_Write (r : statusRecorder) (data : string) : statusRecorder :=
  mkRecorder (http_Write (ResponseWriter r) data) (status r) true.

Definition recorder_call (r : statusRecorder) (c : write_call) : res statusRecorder :=
  match c with
  | WriteHeader code => statusRecorder_WriteHeader r code
  | Write data => Ok (statusRecorder_Write r data)
  end.

(** The calls of a handler, on a writer of either kind; a panic ends it. *)
Fixpoint run_handler {W : Type} (call : W → write_call → res W) (w : W) (l : list write_call)
    : res W :=
  match l with
  | [] => Ok w
  | c :: l' => w' ← call w c; run_handler call w' l'
  end.

(** [HTTPRequestsTotal], by method, route and status class, and the observations of
    [HTTPRequestDuration], by method and route. *)
Record http_metrics := mkHttpMetrics {
  HTTPRequestsTotal : gmap (string * string * string) N;
  HTTPRequestDuration : gmap (string * string) (list spec_float);
}.

Definition inc_request (m : http_metrics) (method route class : string) : http_metrics :=
  let l := (method, route, class) in
  mkHttpMetrics (<[l := (default 0 (HTTPRequestsTotal m !! l) + 1)%N]> (HTTPRequestsTotal m))
    (HTTPRequestDuration m).

Definition observe_duration (m : http_metrics) (method route : string) (secs : spec_float) : http_metrics :=
  let l := (method, route) in
  mkHttpMetrics (HTTPRequestsTotal m)
    (<[l := default [] (HTTPRequestDuration m !! l) ++ [secs]]> (HTTPRequestDuration m)).

(** One request through [Middleware(route, next)], from [start] to [now]: a panic of
    the handler passes by the metrics. *)
Definition Middleware (route method : string) (next : list write_call) (start now : Z)
    (m : http_metrics) : http_metrics * res sent :=
  match run_handler recorder_call (mkRecorder nothing_sent StatusOK false) next with
  | Ok rec =>
      let elapsed := Duration_Seconds (now - start) in
      let m := observe_duration m method route elapsed in
      (inc_request m method route (StatusClass (status rec)), Ok (ResponseWriter rec))
  | Err e => (m, Err e)
  | Panic => (m, Panic)
  end.

(** ** Properties *)

(** A code that a client sees as the status of a response. *)
Definition final_code (c : write_call) : Prop :=
  match c with WriteHeader code => 200 ≤ code ≤ 999 ∨ code = 101 | Write _ => True end.

(** The recorder is in step with the writer. *)
Definition recorder_ok (r : statusRecorder) : Prop :=
  status r = final_status (ResponseWriter r) ∧
  wroteHeader r = bool_decide (is_Some (st_Status (ResponseWriter r))).

Lemma recorder_call_ok (r : statusRecorder) (c : write_call) :
  recorder_ok r → final_code c →
  ∃ r', recorder_call r c = Ok r' ∧ http_call (ResponseWriter r) c = Ok (ResponseWriter r') ∧
    recorder_ok r'.
Proof.
  intros [Hs Hw] Hc. destruct r as [[st inf bd] s wr]. unfold final_status in Hs. simpl in *.
  destruct c as [code|data]; simpl in *.
  - unfold statusRecorder_WriteHeader, http_WriteHeader. simpl.
    destruct (Z.ltb_spec code 100), (Z.ltb_spec 999 code); simpl; try lia.
    destruct st as [st|]; simpl in Hw; rewrite Hw; cbn.
    + eexists. split; [reflexivity|]. split; [reflexivity|]. by split.
    + destruct (Z.leb_spec code 199), (Z.eqb_spec code 101); simpl; try lia;
        (eexists; split; [reflexivity|]; split; [reflexivity|]; by split).
  - eexists. split; [reflexivity|]. split; [reflexivity|]. by split.
Qed.

Lemma run_recorder_ok (l : list write_call) (r : statusRecorder) :
  recorder_ok r → Forall final_code l →
  ∃ r', run_handler recorder_call r l = Ok r' ∧
    run_handler http_call (ResponseWriter r) l = Ok (ResponseWriter r') ∧ recorder_ok r'.
Proof.
  revert r. induction l as [|c l IH]; intros r Hr Hall; [by exists r|].
  apply Forall_cons in Hall as [Hc Hl].
  destruct (recorder_call_ok r c Hr Hc) as (r1 & H1 & H2 & Hr1).
  destruct (IH r1 Hr1 Hl) as (r' & H3 & H4 & Hr'). exists r'.
  cbn [run_handler]. rewrite H1, H2. cbn [mbind res_bind]. by rewrite H3, H4.
Qed.

(** The middleware is invisible to the client, and adds one to the series of the
    request's method, the route and the class of the status the client saw, and to
    no other, and one observation to the durations of the method and the route,
    whatever the order and number of the handler's calls. *)
Lemma middleware_counts (route method : string) (next : list write_call) (start now : Z)
    (m : http_metrics) :
  Forall final_code next →
  ∃ w m', run_handler http_call nothing_sent next = Ok w ∧
    Middleware route method next start now m = (m', Ok w) ∧
    (∀ l, default 0%N (HTTPRequestsTotal m' !! l)
      = (default 0%N (HTTPRequestsTotal m !! l)
         + if decide (l = (method, route, StatusClass (final_status w))) then 1 else 0)%N) ∧
    (∀ l, default [] (HTTPRequestDuration m' !! l)
      = default [] (HTTPRequestDuration m !! l)
        ++ if decide (l = (method, route)) then [Duration_Seconds (now - start)] else []).
Proof.
  intros Hall.
  destruct (run_recorder_ok next (mkRecorder nothing_sent StatusOK false)) as (r & H1 & H2 & Hs & _);
    [by split|done|].
  exists (ResponseWriter r). unfold Middleware. rewrite H1. eexists. split; [exact H2|].
  split; [reflexivity|]. rewrite <- Hs. split; intros l; cbn [inc_request observe_duration
    HTTPRequestsTotal HTTPRequestDuration].
  - destruct (decide (l = (method, route, StatusClass (status r)))) as [->|Hne].
    + by rewrite lookup_insert_eq.
    + rewrite lookup_insert_ne by done. lia.
  - destruct (decide (l = (method, route))) as [->|Hne].
    + by rewrite lookup_insert_eq.
    + by rewrite lookup_insert_ne, app_nil_r.
Qed.

(** The status of a response is the one that is set first, 200 when the body comes
    first. *)
Definition first_status (calls : list write_call) : Z :=
  match calls with WriteHeader code :: _ => code | _ => 200 end.

Lemma run_handler_sent (l : list write_call) (w : sent) (code : Z) :
  st_Status w = Some code → Forall final_code l →
  ∃ w', run_handler http_call w l = Ok w' ∧ st_Status w' = Some code.
Proof.
  revert w. induction l as [|c l IH]; intros w Hw Hall; [by exists w|].
  apply Forall_cons in Hall as [Hc Hl]. destruct c as [code'|data]; cbn [run_handler http_call].
  - unfold http_WriteHeader. rewrite Hw. simpl in Hc.
    destruct (Z.ltb_spec code' 100), (Z.ltb_spec 999 code'); cbn [orb mbind res_bind]; try lia. by apply IH.
  - cbn [mbind res_bind]. apply IH; [|done]. unfold http_Write. by rewrite Hw.
Qed.

Lemma final_status_first (l : list write_call) (w : sent) :
  Forall final_code l → run_handler http_call nothing_sent l = Ok w → final_status w = first_status l.
Proof.
  intros Hall Hrun. destruct l as [|c l]; [by injection Hrun as <-|].
  apply Forall_cons in Hall as [Hc Hl].
  destruct c as [code|data]; cbn [run_handler http_call first_status] in *.
  - unfold http_WriteHeader in Hrun. cbn [st_Status nothing_sent] in Hrun. simpl in Hc.
    destruct (Z.ltb_spec code 100), (Z.ltb_spec 999 code); try lia. cbn [orb] in Hrun.
    destruct (Z.leb_spec code 199), (Z.eqb_spec code 101); try lia;
      cbn [andb negb mbind res_bind st_Informational st_Body nothing_sent] in Hrun;
      (destruct (run_handler_sent l (mkSent (Some code) [] "") code eq_refl Hl) as (w' & Hw' & Hst);
       rewrite Hw' in Hrun; injection Hrun as <-; unfold final_status; by rewrite Hst).
  - cbn [mbind res_bind] in Hrun.
    destruct (run_handler_sent l (http_Write nothing_sent data) 200 eq_refl Hl) as (w' & Hw' & Hst).
    rewrite Hw' in Hrun. injection Hrun as <-. unfold final_status. by rewrite Hst.
Qed.

(** The statuses that belong to a class. *)
Definition class_range (class : string) (lo hi : Z) : Prop :=
  (class, lo, hi) ∈ [("2xx", 200, 299); ("3xx", 300, 399); ("4xx", 400, 499); ("5xx", 500, 999)].

Lemma StatusClass_range (class : string) (lo hi code : Z) :
  class_range class lo hi → code ≤ 999 → StatusClass code = class ↔ lo ≤ code ≤ hi.
Proof.
  unfold class_range, StatusClass. intros Hin Hc.
  repeat (apply elem_of_cons in Hin as [[= -> -> ->]|Hin]); [..|by apply elem_of_nil in Hin];
    repeat case_match; split; intros; try done; lia.
Qed.

(** The middleware counts the status set first, in its class and no other. *)
Lemma middleware_first (route method : string) (next : list write_call) (start now : Z)
    (m : http_metrics) (method' route' class : string) (lo hi : Z) :
  class_range class lo hi → Forall final_code next →
  ∃ w m', Middleware route method next start now m = (m', Ok w) ∧
    final_status w = first_status next ∧
    default 0%N (HTTPRequestsTotal m' !! (method', route', class))
    = (default 0%N (HTTPRequestsTotal m !! (method', route', class))
       + if decide (method' = method ∧ route' = route ∧ (lo ≤ first_status next ≤ hi)%Z) then 1 else 0)%N ∧
    run_handler http_call nothing_sent next = Ok w.
Proof.
  intros Hrange Hall. destruct (middleware_counts route method next start now m Hall)
    as (w & m' & Hrun & Hm & Hcount & _).
  exists w, m'. split; [exact Hm|]. pose proof (final_status_first next w Hall Hrun) as Hst.
  split; [exact Hst|]. split; [|exact Hrun]. rewrite Hcount, Hst. f_equal.
  assert (first_status next ≤ 999) as Hle.
  { destruct next as [|[code|data] l]; simpl; try lia. apply Forall_cons in Hall as [Hc _]. simpl in Hc. lia. }
  pose proof (StatusClass_range class lo hi (first_status next) Hrange Hle) as Hcl.
  destruct (decide (_ = _)) as [[= -> -> Hc]|Hne].
  - rewrite decide_True; [done|]. by split_and!; try apply Hcl.
  - rewrite decide_False; [done|]. intros (-> & -> & Hr). apply Hne. by apply Hcl in Hr as <-.
Qed.

(** A handler that sends an informational status first is counted under its class,
    whatever the status of the response. *)
Theorem middleware_informational (route method data : string) (code start now : Z) (m : http_metrics) :
  200 ≤ code ≤ 999 →
  Middleware route method [WriteHeader 103; WriteHeader code; Write data] start now m
  = (inc_request (observe_duration m method route (Duration_Seconds (now - start))) method route "1xx",
     Ok (mkSent (Some code) [103] data)).
Proof.
  intros Hc. unfold Middleware. cbn [run_handler recorder_call].
  unfold statusRecorder_WriteHeader, http_WriteHeader. cbn.
  destruct (Z.ltb_spec code 100), (Z.ltb_spec 999 code); try lia. cbn.
  destruct (Z.leb_spec code 199), (Z.eqb_spec code 101); try lia; reflexivity.
Qed.

Definition no_metrics : http_metrics := mkHttpMetrics ∅ ∅.

Lemma middleware_informational_witness :
  HTTPRequestsTotal
    (Middleware "/healthz" "GET" [WriteHeader 103; WriteHeader 200; Write "x"] 0 1500 no_metrics).1
  = {[("GET", "/healthz", "1xx") := 1%N]}.
Proof.
  rewrite (middleware_informational "/healthz" "GET" "x" 200 0 1500 no_metrics); [reflexivity|done].
Defined.
