(* ===== verification/Logger.v ===== *)
(** [src/internal/logger/logger.go]: which level and format the logger gets, and the
    state behind [Init], [L] and [Default].  [slog] is left at what the package
    hands to it: the handler's options and the attributes. *)

From S2P Require Import Prelude GoStrings GoText.

Local Open Scope string_scope.
Local Open Scope list_scope.
Local Open Scope nat_scope.

(** [type Format string] *)
Definition Format : Type := string.
Definition FormatText : Format := "text".
Definition FormatJSON : Format := "json".

(** [slog.Level] *)
Inductive Level : Set := LevelDebug | LevelInfo | LevelWarn | LevelError.

(** [type Config struct]; a writer is a name, [None] the default. *)
Record Config := mkConfig {
  cfg_Level : string;
  cfg_Format : Format;
  cfg_Writer : option string;
  cfg_AddSource : bool;
}.

Definition zero_config : Config := mkConfig "" "" None false.

(** The process: the two variables of its environment, and the mode that [Stat] says
    of its standard error. *)
Record process := mkProcess {
  env_level : string;
  env_format : string;
  stderr_Stat : res N;
}.

Definition resolveLevel (cfg env : string) : Level :=
  let pick := if String.eqb cfg "" then env else cfg in
  let s := ToLower (TrimSpace pick) in
  if String.eqb s "debug" then LevelDebug
  else if String.eqb s "warn" || String.eqb s "warning" then LevelWarn
  else if String.eqb s "error" then LevelError
  else LevelInfo.

(** [os.ModeCharDevice] *)
Definition ModeCharDevice : N := 2097152.

(** [isTerminal(f)], of what [f.Stat()] says. *)
Definition isTerminal (stat : res N) : bool :=
  match stat with
  | Ok mode => negb (N.land mode ModeCharDevice =? 0)%N
  | _ => false
  end.

(** A character device of mode 0620, and a file of mode 0644. *)
Example isTerminal_examples :
  isTerminal (Ok 69206416%N) = true ∧ isTerminal (Ok 420%N) = false ∧ isTerminal (Err (EMsg "closed")) = false.
Proof. done. Qed.

(** [tty] is what [isTerminal(os.Stderr)] says. *)
Definition resolveFormat (tty : bool) (cfg env : Format) : Format :=
  let pick := if String.eqb cfg "" then env else cfg in
  let s := ToLower (TrimSpace pick) in
  if String.eqb s FormatJSON then FormatJSON
  else if String.eqb s FormatText then FormatText
  else if tty then FormatText
  else FormatJSON.

(** A [*slog.Logger]: its handler's format, writer and options, and attributes. *)
Record Logger := mkLogger {
  lg_Format : Format;
  lg_Writer : string;
  lg_Level : Level;
  lg_AddSource : bool;
  lg_With : list (string * string);
}.

#[export] Instance Level_eq_dec : EqDecision Level.
Proof. solve_decision. Defined.
#[export] Instance Logger_eq_dec : EqDecision Logger.
Proof. solve_decision. Defined.

Definition build (p : process) (cfg : Config) : Logger :=
  let level := resolveLevel (cfg_Level cfg) (env_level p) in
  let format := resolveFormat (isTerminal (stderr_Stat p)) (cfg_Format cfg) (env_format p) in
  let w := default "stderr" (cfg_Writer cfg) in
  if String.eqb format FormatJSON
  then mkLogger FormatJSON w level (cfg_AddSource cfg) []
  else mkLogger FormatText w level (cfg_AddSource cfg) [].

(** The package's variables: [initOnce], [base], and [slog]'s default logger. *)
Record state := mkState {
  initOnce : bool;
  base : option Logger;
  slog_default : option Logger;
}.

Definition initial : state := mkState false None None.

Definition Init (p : process) (cfg : Config) (s : state) : state :=
  if initOnce s then s
  else let l := build p cfg in mkState true (Some l) (Some l).

Definition Reset (s : state) : state := mkState false None (slog_default s).

Definition With (l : Logger) (k v : string) : Logger :=
  mkLogger (lg_Format l) (lg_Writer l) (lg_Level l) (lg_AddSource l) (lg_With l ++ [(k, v)]).

(** [L] and [Default]: a [nil] [base] after [Init] panics. *)
Definition L (p : process) (subsystem : string) (s : state) : state * res Logger :=
  let s := match base s with None => Init p zero_config s | Some _ => s end in
  (s, match base s with
      | Some b => Ok (With b "subsystem" subsystem)
      | None => Panic
      end).

Definition Default (p : process) (s : state) : state * option Logger :=
  let s := match base s with None => Init p zero_config s | Some _ => s end in (s, base s).

(** ** Properties *)

(** A call of the package, [Reset] apart. *)
Inductive log_call : Type :=
  | CallInit (cfg : Config)
  | CallL (subsystem : string)
  | CallDefault.

Definition log_step (p : process) (s : state) (c : log_call) : state :=
  match c with
  | CallInit cfg => Init p cfg s
  | CallL sub => (L p sub s).1
  | CallDefault => (Default p s).1
  end.

(** The configuration of the call, if it is the first. *)
Definition first_config (c : log_call) : Config :=
  match c with CallInit cfg => cfg | _ => zero_config end.

Lemma log_steps_init (p : process) (l : list log_call) (b : Logger) :
  foldl (log_step p) (mkState true (Some b) (Some b)) l = mkState true (Some b) (Some b).
Proof. induction l as [|c l IH]; [done|]. by destruct c. Qed.

(** The first call decides: after any calls of the package, the logger of every
    subsystem is the one built from the configuration of the first of them, which
    is the default if it was not [Init]; a later [Init] changes nothing, and no
    call panics. *)
Theorem logger_first_call_wins (p : process) (c : log_call) (l : list log_call) (sub : string) :
  let s := foldl (log_step p) initial (c :: l) in
  let b := build p (first_config c) in
  base s = Some b ∧ slog_default s = Some b ∧
  L p sub s = (s, Ok (With b "subsystem" sub)) ∧ L p sub initial = (Init p zero_config initial,
    Ok (With (build p zero_config) "subsystem" sub)).
Proof.
  assert (log_step p initial c = mkState true (Some (build p (first_config c)))
    (Some (build p (first_config c)))) as Hc by (by destruct c).
  intros s b. assert (s = mkState true (Some b) (Some b)) as ->.
  { unfold s. cbn [foldl]. rewrite Hc. apply log_steps_init. }
  by split_and!.
Qed.

(** An explicit level or format decides alone, the variable of the environment only
    without one; a word that is none of the levels means [info], and the format is
    [json] or [text] in any case: the one named, or the one for the terminal. *)
Theorem logger_resolution (tty : bool) (cfg env : string) :
  (cfg ≠ "" → resolveLevel cfg env = resolveLevel cfg "" ∧
              resolveFormat tty cfg env = resolveFormat tty cfg "") ∧
  resolveLevel "" env = resolveLevel env "" ∧ resolveFormat tty "" env = resolveFormat tty env "" ∧
  (ToLower (TrimSpace cfg) ∉ ["debug"; "warn"; "warning"; "error"] → cfg ≠ "" →
     resolveLevel cfg env = LevelInfo) ∧
  (resolveFormat tty cfg "" = FormatJSON ↔
     ToLower (TrimSpace cfg) = FormatJSON ∨
     (ToLower (TrimSpace cfg) ≠ FormatText ∧ tty = false)) ∧
  (resolveFormat tty cfg env = FormatJSON ∨ resolveFormat tty cfg env = FormatText).
Proof.
  split_and!.
  - intros Hc. unfold resolveLevel, resolveFormat. by apply String.eqb_neq in Hc as ->.
  - unfold resolveLevel. simpl. by destruct (String.eqb_spec env "") as [->|].
  - unfold resolveFormat. simpl. by destruct (String.eqb_spec env "") as [->|].
  - intros Hn Hc. unfold resolveLevel. apply String.eqb_neq in Hc as ->.
    revert Hn. generalize (ToLower (TrimSpace cfg)). intros s Hn.
    rewrite !list_elem_of_In in Hn. simpl in Hn.
    repeat match goal with |- context [String.eqb s ?w] => destruct (String.eqb_spec s w) as [->|] end;
      simpl; first [done|exfalso; apply Hn; auto 10].
  - assert (∀ x : string, (if String.eqb x "" then "" else x) = x) as Hx
      by (intros x; by destruct (String.eqb_spec x "")).
    unfold resolveFormat. cbv zeta. rewrite Hx. generalize (ToLower (TrimSpace cfg)). intros s.
    destruct (String.eqb_spec s FormatJSON) as [->|]; [split; [by left|done]|].
    destruct (String.eqb_spec s FormatText) as [->|].
    + split; [done|]. intros [?|[? _]]; done.
    + destruct tty; (split; [intros ?|intros [?|[_ ?]]]); try done. by right.
  - unfold resolveFormat. repeat case_match; auto.
Qed.
