(* ===== verification/Instrumented.v ===== *)
(** [handleFunc] of [src/server/server.go]: the servers with the counting middleware
    around the handler of every route but [/metrics].  A server is seen through the
    class [Routed]: its routes with the handlers, and what a handler answers. *)

From Stdlib Require Import SpecFloat.
From S2P Require Import Prelude GoStrings GoEncoding GoFmt GoTime GoJson JsonFields Entry BoltDB Kv StoreSpec.
From S2P Require Import BoltStore WatchCache Watchable Fsm Node Http Server RaftServer ApiTypes Metrics.

Local Open Scope string_scope.
Local Open Scope list_scope.
Local Open Scope nat_scope.

(** ** Routed servers *)

(** A server of state [St] with handlers [H]: [None] is a request that waits, or the
    answer of a library's handler.  [wrapped] are the handlers registered with
    [handleFunc], [explicit] says whether the handler calls [WriteHeader] for an answer. *)
Class Routed (St H : Type) := {
  routed_routes : St → list (string * H);
  routed_serve : St → H → request → Z → St * option (res response);
  wrapped : H → bool;
  explicit : H → response → bool;
}.

(** What is promised of the answers that are counted. *)
Class RoutedLaws (St H : Type) `{Routed St H} := {
  status_law st st' h r now resp :
    routed_serve st h r now = (st', Some (Ok resp)) → wrapped h = true →
    (200 ≤ rs_Status resp ≤ 999)%Z ∧ (explicit h resp = false → rs_Status resp = StatusOK);
}.

(** The calls of a handler on its [ResponseWriter]. *)
Definition handler_calls (expl : bool) (resp : response) : list write_call :=
  (if expl then [WriteHeader (rs_Status resp)] else []) ++ [Write (rs_Body resp)].

Section routed.
Context {St H : Type} `{Routed St H}.

(** [mux.Handle(pattern, metrics.Middleware(pattern, fn))], for one request: what the
    middleware does with the answer of [fn]. *)
Definition handleFunc (pattern : string) (h : H) (st : St) (m : http_metrics) (r : request)
    (start now : Z) : St * http_metrics * option (res response) :=
  match routed_serve st h r start with
  | (st', Some (Ok resp)) =>
      if wrapped h then
        let '(m', _) := Middleware pattern (rq_Method r) (handler_calls (explicit h resp) resp) start now m in
        (st', m', Some (Ok resp))
      else (st', m, Some (Ok resp))
  | (st', x) => (st', m, x)
  end.

(** The route of a request, with its pattern. *)
Definition route (st : St) (path : string) : routed (string * H) :=
  mux_route (map (λ x, (x.1, x)) (routed_routes st)) path.

(** [s.mux.ServeHTTP(w, r)] from [start] to [now]; the answers of the mux are not
    counted. *)
Definition mux_serve (st : St) (m : http_metrics) (r : request) (start now : Z)
    : St * http_metrics * option (res response) :=
  match route st (rq_Path r) with
  | ToHandler (pattern, h) => handleFunc pattern h st m r start now
  | ToRedirect => (st, m, None)
  | ToNotFound => (st, m, Some (Ok NotFound_response))
  end.

(** Requests one after the other, each with the times it starts and ends. *)
Fixpoint serve_all (st : St) (m : http_metrics) (l : list (request * Z * Z))
    : St * http_metrics * list (option (res response)) :=
  match l with
  | [] => (st, m, [])
  | (r, start, now) :: l' =>
      let '(st1, m1, x) := mux_serve st m r start now in
      let '(st2, m2, xs) := serve_all st1 m1 l' in (st2, m2, x :: xs)
  end.

(** The answer of a wrapped route, as the client sees it: the method, the route's
    pattern and the status. *)
Definition seen_of (st : St) (r : request) (x : option (res response)) : option (string * string * Z) :=
  match route st (rq_Path r), x with
  | ToHandler (pattern, h), Some (Ok resp) =>
      if wrapped h then Some (rq_Method r, pattern, rs_Status resp) else None
  | _, _ => None
  end.

(** The answers of a run. *)
Fixpoint run_seen (st : St) (m : http_metrics) (l : list (request * Z * Z)) : list (string * string * Z) :=
  match l with
  | [] => []
  | (r, start, now) :: l' =>
      let '(st1, m1, x) := mux_serve st m r start now in
      option_list (seen_of st r x) ++ run_seen st1 m1 l'
  end.

Definition count (m : http_metrics) (l : string * string * string) : N :=
  default 0%N (HTTPRequestsTotal m !! l).

Context `{!RoutedLaws St H}.

Lemma handler_calls_final (expl : bool) (resp : response) :
  (200 ≤ rs_Status resp ≤ 999)%Z → (expl = false → rs_Status resp = StatusOK) →
  Forall final_code (handler_calls expl resp) ∧ first_status (handler_calls expl resp) = rs_Status resp.
Proof.
  intros Hst Hexp. unfold handler_calls. destruct expl; cbn [app first_status].
  - split; [|done]. apply Forall_cons. split; [left; lia|by repeat constructor].
  - split; [repeat constructor|by rewrite Hexp].
Qed.

(** How many of the answers have the method, the route and a status from [lo] to [hi]. *)
Definition seen_in (method pattern : string) (lo hi : Z) (l : list (string * string * Z)) : N :=
  N.of_nat (length (filter (λ x, x.1 = (method, pattern) ∧ (lo ≤ x.2 ≤ hi)%Z) l)).

Lemma seen_in_app (method pattern : string) (lo hi : Z) (l1 l2 : list (string * string * Z)) :
  seen_in method pattern lo hi (l1 ++ l2)
  = (seen_in method pattern lo hi l1 + seen_in method pattern lo hi l2)%N.
Proof. unfold seen_in. rewrite filter_app, length_app. lia. Qed.

(** One request counts where its answer belongs and nowhere else. *)
Lemma mux_serve_count (st : St) (m : http_metrics) (r : request) (start now : Z)
    (method pattern class : string) (lo hi : Z) :
  class_range class lo hi →
  let '(st', m', x) := mux_serve st m r start now in
  count m' (method, pattern, class)
  = (count m (method, pattern, class) + seen_in method pattern lo hi (option_list (seen_of st r x)))%N.
Proof.
  intros Hrange. unfold mux_serve, seen_of. destruct (route st (rq_Path r)) as [[pat h]| |].
  2,3: symmetry; apply N.add_0_r.
  unfold handleFunc. destruct (routed_serve st h r start) as [st' [[resp|e|]|]] eqn:Hserve.
  2-4: symmetry; apply N.add_0_r.
  destruct (wrapped h) eqn:Hw; [|symmetry; apply N.add_0_r].
  destruct (status_law _ _ _ _ _ _ Hserve Hw) as [Hst Hexp].
  destruct (handler_calls_final (explicit h resp) resp Hst Hexp) as [Hall Hfirst].
  destruct (middleware_first pat (rq_Method r) _ start now m method pattern class lo hi Hrange Hall)
    as (w & m' & -> & _ & Hcount & _). rewrite Hfirst in Hcount. unfold count. rewrite Hcount. f_equal.
  change (option_list (Some ?x)) with [x]. unfold seen_in. rewrite filter_cons, filter_nil.
  cbn [fst snd]. destruct (decide ((rq_Method r, pat) = (method, pattern) ∧ _)) as [[[= -> ->] Hr]|Hne].
  - by rewrite decide_True.
  - rewrite decide_False; [done|]. intros (-> & -> & Hr). by apply Hne.
Qed.

Lemma serve_all_count (reqs : list (request * Z * Z)) (st : St) (m : http_metrics)
    (method pattern class : string) (lo hi : Z) :
  class_range class lo hi →
  count (serve_all st m reqs).1.2 (method, pattern, class)
  = (count m (method, pattern, class) + seen_in method pattern lo hi (run_seen st m reqs))%N.
Proof.
  intros Hrange. revert st m.
  induction reqs as [|[[r start] now] reqs IH]; intros st m; [symmetry; apply N.add_0_r|].
  cbn [serve_all run_seen]. pose proof (mux_serve_count st m r start now method pattern class lo hi Hrange) as Hone.
  destruct (mux_serve st m r start now) as [[st1 m1] x]. specialize (IH st1 m1).
  destruct (serve_all st1 m1 reqs) as [[st2 m2] xs]. cbn [fst snd] in *.
  rewrite IH, Hone, seen_in_app. lia.
Qed.
End routed.

(** ** The two servers *)

(** The answer of the long poll is written without [WriteHeader]. *)
Definition watch_explicit (h : handler) (resp : response) : bool :=
  match h with HWatch => negb (rs_Status resp =? StatusOK)%Z | _ => true end.

Definition not_metrics (h : handler) : bool := match h with HMetrics => false | _ => true end.

#[export] Instance server_routed {S : Type} `{!Store S, !HasWatchCache S} : Routed (Server S) handler := {|
  routed_routes srv := routes (srv_store srv);
  routed_serve := serve;
  wrapped := not_metrics;
  explicit := watch_explicit;
|}.

Lemma base_status {S : Type} `{!Store S, !HasWatchCache S} (srv srv' : Server S) (h : handler)
    (r : request) (now : Z) (resp : response) :
  serve srv h r now = (srv', Some (Ok resp)) → not_metrics h = true →
  (200 ≤ rs_Status resp ≤ 999)%Z ∧ (watch_explicit h resp = false → rs_Status resp = StatusOK).
Proof.
  intros Hs Hw. destruct (base_doc h) as [P|] eqn:HP.
  - destruct (serve_typed _ _ _ P _ _ _ HP Hs) as (d & _ & _ & _ & Hst & _). split; [lia|].
    destruct h; try done. cbn [watch_explicit].
    destruct (Z.eqb_spec (rs_Status resp) StatusOK); [done|]. by intros [=].
  - destruct h; try done. injection Hs as _ <-. split; [|done]. split; done.
Qed.

#[export] Instance server_routed_laws {S : Type} `{!Store S, !HasWatchCache S} :
  RoutedLaws (Server S) handler.
Proof.
  constructor. intros st st' h r now resp. apply base_status.
Qed.

Section raft.
Context {S R : Type} `{!Store S, !Raft R}.
Variable http_NewRequest : string → string → go_bytes → res request.
Variable http_Do : request → res response.

(** A handler of a cluster node, as [raft_ServeHTTP] calls it. *)
Definition raft_serve (rs : RaftServer S R) (h : raft_handler) (r : request) (now : Z)
    : RaftServer S R * option (res response) :=
  match h with
  | RConfig => let '(rs', resp) := handleRaftConfig http_NewRequest http_Do rs r in (rs', Some resp)
  | RJoin => let '(rs', resp) := handleJoin rs r in (rs', Some resp)
  | RLeave => let '(rs', resp) := handleLeave rs r in (rs', Some resp)
  | RStats => (rs, Some (Ok (handleStats rs)))
  | RBase h => (rs, (serve (mkServer (Node_store (rs_node rs)) 0) h r now).2)
  end.

#[local] Instance raft_routed : Routed (RaftServer S R) raft_handler := {|
  routed_routes rs := raft_routes (rs_node rs);
  routed_serve := raft_serve;
  wrapped h := match h with RBase h => not_metrics h | _ => true end;
  explicit h resp := match h with RBase h => watch_explicit h resp | _ => true end;
|}.

(** The client returns final responses: their status has three digits and is not
    [1xx]. *)
Hypothesis client_status : ∀ q p, http_Do q = Ok p → (200 ≤ rs_Status p ≤ 999)%Z.

Lemma typed_status (P : api_doc → Prop) (resp : response) : typed P resp → (200 ≤ rs_Status resp ≤ 999)%Z.
Proof. intros (d & _ & _ & _ & Hst & _). lia. Qed.

#[local] Instance raft_routed_laws : RoutedLaws (RaftServer S R) raft_handler.
Proof.
  constructor. intros rs rs' h r now resp Hs Hw.
  destruct h as [h| | | |]; cbn [routed_serve raft_routed raft_serve wrapped explicit] in *.
  - injection Hs as _ Hs. destruct (serve _ h r now) as [srv1 x] eqn:Hserve. cbn [snd] in Hs. subst x.
    by eapply base_status.
  - split; [|done]. pose proof (handleRaftConfig_answer http_NewRequest http_Do rs r) as Ht.
    destruct (handleRaftConfig _ _ rs r). simplify_eq.
    destruct Ht as [Ht|(_ & _ & data & fwd & _ & Hdo)]; [by apply typed_status in Ht|by apply client_status in Hdo].
  - split; [|done]. pose proof (handleJoin_typed rs r) as Ht.
    destruct (handleJoin rs r). simplify_eq. by apply typed_status in Ht.
  - split; [|done]. pose proof (handleLeave_typed rs r) as Ht.
    destruct (handleLeave rs r). simplify_eq. by apply typed_status in Ht.
  - injection Hs as _ <-. by split.
Qed.
End raft.

(** ** Properties *)

(** C39: The request counters count what the clients saw.  Over any run of requests, on a
    server of its own as on a cluster node, the series of a method, a route and [2xx]
    grows by the number of requests of the method that the route answered with a status
    from 200 to 299; so for [3xx] and [4xx], and for [5xx] with the statuses from 500
    on.  Requests to [/metrics], and those the mux answers, are not counted.  (The HTTP
    client of a cluster node is taken to return final three-digit statuses.)  And
    whatever calls a handler makes on its writer, it is the status that it sets first,
    200 when it writes the body first, that the client gets and the middleware counts. *)
Theorem requests_counted {S S2 R : Type} `{!Store S, !HasWatchCache S, !Store S2, !Raft R}
    (new : string → string → go_bytes → res request) (do : request → res response)
    (srv : Server S) (rs : RaftServer S2 R) (m : http_metrics) (reqs : list (request * Z * Z))
    (method pattern class : string) (lo hi : Z) :
  (∀ q p, do q = Ok p → (200 ≤ rs_Status p ≤ 999)%Z) →
  (class, lo, hi) ∈ [("2xx", 200, 299); ("3xx", 300, 399); ("4xx", 400, 499); ("5xx", 500, 999)]%Z →
  let l := (method, pattern, class) in
  count (serve_all srv m reqs).1.2 l
    = (count m l + seen_in method pattern lo hi (run_seen srv m reqs))%N ∧
  (let _ := raft_routed (S:=S2) (R:=R) new do in
   count (serve_all rs m reqs).1.2 l
     = (count m l + seen_in method pattern lo hi (run_seen rs m reqs))%N) ∧
  (∀ calls start now, Forall final_code calls →
     let status := match calls with WriteHeader code :: _ => code | _ => 200%Z end in
     ∃ w m', Middleware pattern method calls start now m = (m', Ok w) ∧ final_status w = status ∧
       count m' l = (count m l + if decide (lo ≤ status ≤ hi)%Z then 1 else 0)%N).
Proof.
  intros Hdo Hrange l. split; [by apply serve_all_count|]. split.
  - cbv zeta. by apply (@serve_all_count _ _ (raft_routed new do) (raft_routed_laws new do Hdo)).
  - intros calls start now Hall status.
    destruct (middleware_first pattern method calls start now m method pattern class lo hi Hrange Hall)
      as (w & m' & Hm & Hw & Hcount & _). exists w, m'. split; [exact Hm|]. split; [exact Hw|].
    unfold count, l. rewrite Hcount. f_equal. by repeat case_decide; try tauto.
Qed.

(** ** A concrete run *)

Definition demo_requests : list (request * Z * Z) :=
  [(demo_request "PUT" "/api/v1/config/t/n/k" "v", 0%Z, 5%Z); (demo_request "GET" "/api/v1/config/t/n/x" "", 6%Z, 7%Z);
   (demo_request "GET" "/nowhere" "", 8%Z, 9%Z); (demo_request "GET" "/api/v1/config/t/n/y" "", 10%Z, 11%Z)].

(** The HTTP client of the follower reaches the leader. *)
Lemma demo_Do_status (q : request) (p : response) : demo_Do q = Ok p → (200 ≤ rs_Status p ≤ 999)%Z.
Proof.
  intros Hq. unfold demo_Do in Hq.
  pose proof (handleRaftConfig_answer demo_NewRequest (λ _, Err (EMsg "unreachable")) demo_leader_node q) as Ht.
  rewrite Hq in Ht. destruct Ht as [Ht|[Hl _]]; [by apply typed_status in Ht|discriminate Hl].
Qed.

Lemma requests_counted_witness :
  count (serve_all demo_server no_metrics demo_requests).1.2 ("GET", "/api/v1/config/", "4xx") = 2%N ∧
  (let _ := raft_routed (S:=BoltStore MemDb.t) (R:=solo) demo_NewRequest demo_Do in
   count (serve_all RaftServer.demo_follower no_metrics demo_requests).1.2
     ("PUT", "/api/v1/config/", "2xx") = 1%N) ∧
  (∃ w m', Middleware "/api/v1/config/" "PUT" [WriteHeader 404; WriteHeader 500; Write "no"] 0 1 no_metrics
     = (m', Ok w) ∧ count m' ("PUT", "/api/v1/config/", "4xx") = 1%N).
Proof.
  split; [|split].
  - destruct (requests_counted demo_NewRequest demo_Do demo_server RaftServer.demo_follower
      no_metrics demo_requests "GET" "/api/v1/config/" "4xx" 400 499 demo_Do_status ltac:(set_solver))
      as [H _].
    rewrite H. vm_compute. reflexivity.
  - destruct (requests_counted demo_NewRequest demo_Do demo_server RaftServer.demo_follower
      no_metrics demo_requests "PUT" "/api/v1/config/" "2xx" 200 299 demo_Do_status ltac:(set_solver))
      as (_ & H & _).
    cbv zeta. etransitivity; [exact H|]. vm_compute. reflexivity.
  - destruct (requests_counted demo_NewRequest demo_Do demo_server RaftServer.demo_follower
      no_metrics demo_requests "PUT" "/api/v1/config/" "4xx" 400 499 demo_Do_status ltac:(set_solver))
      as (_ & _ & H).
    destruct (H [WriteHeader 404; WriteHeader 500; Write "no"] 0%Z 1%Z) as (w & m' & Hm & _ & Hc).
    { repeat constructor; lia. }
    exists w, m'. split; [exact Hm|]. rewrite Hc. reflexivity.
Defined.
