(* ===== verification/Hist.v ===== *)
(** [src/bench/hist.go]: the latency histogram of a benchmark worker, the merge of
    the workers' histograms, and the percentiles read off it.  A [float64] is a
    [spec_float] of the standard library with 53 bits of precision. *)

From Stdlib Require Import SpecFloat.
From S2P Require Import Prelude GoFmt FloatArith.

Local Open Scope list_scope.
Local Open Scope nat_scope.

(** ** The histogram *)

(** [defaultBucketWidth] and [defaultMaxLatency], in nanoseconds. *)
Definition defaultBucketWidth : Z := 100000.
Definition defaultMaxLatency : Z := 10000000000.

(** [type Hist struct] *)
Record Hist := mkHist {
  bucketWidth : Z;
  buckets : list N;
  count : N;
  sumNs : N;
  minNs : N;
  maxNs : N;
}.

Definition NewHist : Hist :=
  let n := (Z.quot defaultMaxLatency defaultBucketWidth + 1)%Z in
  mkHist defaultBucketWidth (replicate (Z.to_nat n) 0%N) 0 0 max_uint64 0.

(** [buckets[i] += c]: out of range panics. *)
Definition bucket_add (bs : list N) (i : Z) (c : N) : res (list N) :=
  old ← slice_get bs i;
  slice_set bs i (u64_add old c).

Definition int_quot (a b : Z) : res Z := if (b =? 0)%Z then Panic else Ok (Z.quot a b).

Definition Observe (h : Hist) (d : Z) : res Hist :=
  let d := if (d <? 0)%Z then 0%Z else d in
  let ns := Z.to_N d in
  i ← int_quot d (bucketWidth h);
  let len := Z.of_nat (length (buckets h)) in
  let i := if (len <=? i)%Z then (len - 1)%Z else i in
  bs ← bucket_add (buckets h) i 1;
  Ok (mkHist (bucketWidth h) bs (u64_add (count h) 1) (u64_add (sumNs h) ns)
        (if (ns <? minNs h)%N then ns else minNs h)
        (if (maxNs h <? ns)%N then ns else maxNs h)).

(** The loop over [o.buckets]. *)
Fixpoint merge_buckets (bs : list N) (i : Z) (os : list N) : res (list N) :=
  match os with
  | [] => Ok bs
  | c :: os' => bs' ← bucket_add bs i c; merge_buckets bs' (i + 1) os'
  end.

Definition Merge (h : Hist) (o : option Hist) : res Hist :=
  match o with
  | None => Ok h
  | Some o =>
      if (count o =? 0)%N then Ok h
      else
        bs ← merge_buckets (buckets h) 0 (buckets o);
        Ok (mkHist (bucketWidth h) bs (u64_add (count h) (count o)) (u64_add (sumNs h) (sumNs o))
              (if (minNs o <? minNs h)%N then minNs o else minNs h)
              (if (maxNs h <? maxNs o)%N then maxNs o else maxNs h))
  end.

(** ** Percentiles *)

Definition float_0 : spec_float := S754_zero false.
Definition float_1 : spec_float := S754_finite false 4503599627370496 (-52).

(** [uint64(math.Ceil(x))] of a number that is not negative; of no number as amd64 has it. *)
Definition uint64_Ceil (x : spec_float) : N :=
  match x with
  | S754_finite false m e =>
      if (0 <=? e)%Z then Z.to_N (Z.pos m * 2 ^ e)%Z
      else Z.to_N (- (- Z.pos m / 2 ^ (- e)))%Z
  | S754_nan | S754_infinity _ => 9223372036854775808
  | _ => 0
  end.

(** The rank [Percentile] looks for. *)
Definition rank (count : N) (p : spec_float) : N :=
  let p := if SFltb p float_0 then float_0 else p in
  let p := if SFltb float_1 p then float_1 else p in
  let target := uint64_Ceil (float_mul (float_of_uint64 count) p) in
  if (target =? 0)%N then 1%N else target.

(** The loop over the buckets, from index [i] of [n] on. *)
Fixpoint percentile_loop (w : Z) (n : Z) (max target : N) (bs : list N) (i : Z) (cum : N) : Z :=
  match bs with
  | [] => int64 (Z.of_N max)
  | c :: bs' =>
      let cum := u64_add cum c in
      if (target <=? cum)%N then
        if (i =? n - 1)%Z then int64 (Z.of_N max)
        else
          let low := int64 (i * w) in
          let high := int64 (low + w) in
          Z.quot (int64 (low + high)) 2
      else percentile_loop w n max target bs' (i + 1) cum
  end.

Definition Percentile (h : Hist) (p : spec_float) : Z :=
  if (count h =? 0)%N then 0%Z
  else percentile_loop (bucketWidth h) (Z.of_nat (length (buckets h))) (maxNs h)
         (rank (count h) p) (buckets h) 0 0.

Definition Count (h : Hist) : N := count h.
Definition Mean (h : Hist) : Z :=
  if (count h =? 0)%N then 0%Z else int64 (Z.of_N (sumNs h / count h)).
Definition Min (h : Hist) : Z := if (count h =? 0)%N then 0%Z else int64 (Z.of_N (minNs h)).
Definition Max (h : Hist) : Z := int64 (Z.of_N (maxNs h)).

(** [type Snapshot struct] *)
Record Snapshot := mkSnapshot {
  sn_Count : N;
  sn_Min : Z;
  sn_Mean : Z;
  sn_P50 : Z;
  sn_P90 : Z;
  sn_P95 : Z;
  sn_P99 : Z;
  sn_P999 : Z;
  sn_Max : Z;
}.

(** The constants 0.50, 0.90, 0.95, 0.99 and 0.999 as [float64]. *)
Definition float_50 : spec_float := S754_finite false 4503599627370496 (-53).
Definition float_90 : spec_float := S754_finite false 8106479329266893 (-53).
Definition float_95 : spec_float := S754_finite false 8556839292003942 (-53).
Definition float_99 : spec_float := S754_finite false 8917127262193582 (-53).
Definition float_999 : spec_float := S754_finite false 8998192055486251 (-53).

(** They are the floats nearest to the decimals. *)
Example float_constants :
  Forall (λ x, (Z.abs (2 * (x.1.1 * x.2 - x.1.2 * 2 ^ 53)) ≤ x.2)%Z)
    [(4503599627370496, 50, 100); (8106479329266893, 90, 100); (8556839292003942, 95, 100);
     (8917127262193582, 99, 100); (8998192055486251, 999, 1000)]%Z.
Proof. repeat constructor; vm_compute; discriminate. Qed.

Definition Hist_Snapshot (h : Hist) : Snapshot :=
  mkSnapshot (count h) (Min h) (Mean h) (Percentile h float_50) (Percentile h float_90)
    (Percentile h float_95) (Percentile h float_99) (Percentile h float_999) (Max h).

(** Ranks among 1000 and among 10 samples: the product is rounded, so that the
    rank of 0.90 of 10 samples is 9 and not 10. *)
Example rank_examples :
  rank 1000 float_50 = 500%N ∧ rank 1000 float_99 = 990%N ∧ rank 1000 float_999 = 999%N ∧
  rank 10 float_90 = 9%N ∧ rank 1 float_50 = 1%N.
Proof. vm_compute. done. Qed.

(** ** What a histogram knows of its samples *)

(** The bucket of a sample, the last one for all that is beyond. *)
Definition bucket_of (w n : N) (d : N) : N := N.min (d / w) (n - 1).

Definition in_bucket (w n j : N) (l : list N) : N :=
  N.of_nat (length (filter (λ d, bucket_of w n d = j) l)).

Definition sum_list_N (l : list N) : N := foldr N.add 0%N l.
Definition min_list (l : list N) : N := foldr N.min max_uint64 l.
Definition max_list (l : list N) : N := foldr N.max 0%N l.

(** [h] is the histogram of the samples [l]. *)
Record hist_rep (h : Hist) (l : list N) : Prop := {
  hist_width : (0 < bucketWidth h)%Z;
  hist_some : buckets h ≠ [];
  hist_buckets : ∀ j, j < length (buckets h) →
    buckets h !! j
      = Some (in_bucket (Z.to_N (bucketWidth h)) (N.of_nat (length (buckets h))) (N.of_nat j) l);
  hist_count : count h = N.of_nat (length l);
  hist_sum : sumNs h = sum_list_N l;
  hist_min : minNs h = min_list l;
  hist_max : maxNs h = max_list l;
}.

(** What 64 bits can count and add up. *)
Definition fits64 (l : list N) : Prop :=
  (N.of_nat (length l) ≤ max_uint64)%N ∧ (sum_list_N l ≤ max_uint64)%N.

Lemma NewHist_rep : hist_rep NewHist [].
Proof.
  unfold NewHist. split; cbn [bucketWidth buckets count sumNs minNs maxNs].
  - by vm_compute.
  - done.
  - intros j Hj. rewrite length_replicate in Hj. by rewrite lookup_replicate_2.
  - done.
  - done.
  - done.
  - done.
Qed.

Lemma in_bucket_app (w n j : N) (l1 l2 : list N) :
  in_bucket w n j (l1 ++ l2) = (in_bucket w n j l1 + in_bucket w n j l2)%N.
Proof. unfold in_bucket. rewrite filter_app, length_app. lia. Qed.

Lemma in_bucket_le (w n j : N) (l : list N) : (in_bucket w n j l ≤ N.of_nat (length l))%N.
Proof. unfold in_bucket. pose proof (length_filter (λ d, bucket_of w n d = j) l). lia. Qed.

Lemma sum_list_N_app (l1 l2 : list N) : sum_list_N (l1 ++ l2) = (sum_list_N l1 + sum_list_N l2)%N.
Proof. induction l1 as [|x l1 IH]; simpl; [lia|]. rewrite IH. lia. Qed.

Lemma min_list_app (l1 l2 : list N) : min_list (l1 ++ l2) = N.min (min_list l1) (min_list l2).
Proof.
  induction l1 as [|x l1 IH]; simpl; [|rewrite IH; lia].
  assert (min_list l2 ≤ max_uint64)%N; [|lia]. induction l2; simpl; lia.
Qed.

Lemma max_list_app (l1 l2 : list N) : max_list (l1 ++ l2) = N.max (max_list l1) (max_list l2).
Proof. induction l1 as [|x l1 IH]; simpl; [lia|]. rewrite IH. lia. Qed.

Lemma bucket_add_spec (bs : list N) (j : nat) (c old : N) :
  bs !! j = Some old → bucket_add bs (Z.of_nat j) c = Ok (<[j := u64_add old c]> bs).
Proof.
  intros Hj. unfold bucket_add. rewrite (slice_get_lookup _ _ _ Hj). cbn [mbind res_bind].
  apply slice_set_insert. by eapply lookup_lt_Some.
Qed.

(** ** Observing and merging *)

Lemma fits64_app (l1 l2 : list N) : fits64 (l1 ++ l2) → fits64 l1 ∧ fits64 l2.
Proof. unfold fits64. rewrite length_app, sum_list_N_app. lia. Qed.

Lemma fits64_count (w n j : N) (l : list N) : fits64 l → (in_bucket w n j l ≤ max_uint64)%N.
Proof. intros [Hl _]. pose proof (in_bucket_le w n j l). lia. Qed.

(** The bucket [Observe] counts a sample in. *)
Lemma Observe_bucket (w : Z) (n : nat) (d : N) :
  (0 < w)%Z → 0 < n →
  (if (Z.of_nat n <=? Z.quot (Z.of_N d) w)%Z then (Z.of_nat n - 1)%Z else Z.quot (Z.of_N d) w)
  = Z.of_nat (N.to_nat (bucket_of (Z.to_N w) (N.of_nat n) d)) ∧
  N.to_nat (bucket_of (Z.to_N w) (N.of_nat n) d) < n.
Proof.
  intros Hw Hn. unfold bucket_of. rewrite Z.quot_div_nonneg by lia.
  assert (Z.of_N (d / Z.to_N w) = Z.of_N d / w)%Z as Hd
    by (rewrite N2Z.inj_div, Z2N.id by lia; done).
  destruct (Z.leb_spec (Z.of_nat n) (Z.of_N d / w)); lia.
Qed.

Lemma Observe_rep (h : Hist) (l : list N) (d : Z) :
  hist_rep h l → fits64 (l ++ [Z.to_N d]) → (d < two63)%Z →
  ∃ h', Observe h d = Ok h' ∧ hist_rep h' (l ++ [Z.to_N d]) ∧
    bucketWidth h' = bucketWidth h ∧ length (buckets h') = length (buckets h).
Proof.
  intros [Hw Hne Hb Hc Hs Hmin Hmax] Hfit Hd. pose proof (fits64_app _ _ Hfit) as [Hfl _].
  assert (0 < length (buckets h)) as Hlen by (destruct (buckets h); [done|simpl; lia]).
  unfold Observe. set (dd := if (d <? 0)%Z then 0%Z else d).
  assert (dd = Z.of_N (Z.to_N d)) as -> by (unfold dd; destruct (Z.ltb_spec d 0); lia).
  rewrite N2Z.id. set (x := Z.to_N d) in *.
  unfold int_quot. destruct (Z.eqb_spec (bucketWidth h) 0) as [|_]; [lia|]. cbn [mbind res_bind].
  cbv zeta. destruct (Observe_bucket (bucketWidth h) (length (buckets h)) x Hw Hlen) as [-> Hi].
  set (i := N.to_nat _) in *. rewrite (bucket_add_spec _ _ _ _ (Hb i Hi)). cbn [mbind res_bind].
  eexists. split; [reflexivity|]. cbn [bucketWidth buckets]. rewrite length_insert.
  split; [|done]. destruct Hfit as [Hf1 Hf2].
  rewrite length_app in Hf1. rewrite sum_list_N_app in Hf2. simpl in Hf1, Hf2.
  split; cbn [bucketWidth buckets count sumNs minNs maxNs]; rewrite ?length_insert.
  - done.
  - intros He. apply (f_equal length) in He. rewrite length_insert in He. simpl in He. lia.
  - intros j Hj. rewrite in_bucket_app. destruct (decide (i = j)) as [<-|Hne'].
    + rewrite list_lookup_insert_eq by done. unfold in_bucket at 3. rewrite filter_cons, decide_True.
      * rewrite u64_add_small; [done|]. pose proof (in_bucket_le (Z.to_N (bucketWidth h))
          (N.of_nat (length (buckets h))) (N.of_nat i) l). simpl. lia.
      * unfold i. by rewrite N2Nat.id.
    + rewrite list_lookup_insert_ne, Hb by done. f_equal. unfold in_bucket at 3.
      rewrite filter_cons, decide_False; [simpl; lia|]. intros He. apply Hne'. unfold i.
      by rewrite He, Nat2N.id.
  - rewrite Hc, length_app. simpl. rewrite u64_add_small; lia.
  - rewrite Hs, sum_list_N_app. simpl. rewrite u64_add_small; lia.
  - rewrite min_list_app, <- Hmin. simpl.
    destruct (N.ltb_spec x (minNs h)); unfold x, max_uint64, two63 in *; lia.
  - rewrite max_list_app, <- Hmax. simpl. destruct (N.ltb_spec (maxNs h) x); lia.
Qed.

Lemma merge_buckets_spec (os bs pre : list N) :
  length os = length bs →
  merge_buckets (pre ++ bs) (Z.of_nat (length pre)) os = Ok (pre ++ zip_with u64_add bs os).
Proof.
  revert bs pre. induction os as [|o os IH]; intros [|b bs] pre Hlen; simpl in Hlen; try done.
  cbn [merge_buckets]. rewrite (bucket_add_spec _ _ _ b) by (by apply list_lookup_middle).
  cbn [mbind res_bind]. rewrite insert_app_r_alt, Nat.sub_diag by lia. cbn [list_insert insert].
  specialize (IH bs (pre ++ [u64_add b o])).
  rewrite length_app, Nat2Z.inj_add, <- !app_assoc in IH. cbn [app length] in IH.
  apply IH. lia.
Qed.

Lemma Merge_rep (h o : Hist) (l1 l2 : list N) :
  hist_rep h l1 → hist_rep o l2 → fits64 (l1 ++ l2) → bucketWidth o = bucketWidth h →
  length (buckets o) = length (buckets h) →
  ∃ h', Merge h (Some o) = Ok h' ∧ hist_rep h' (l1 ++ l2) ∧ bucketWidth h' = bucketWidth h ∧
    length (buckets h') = length (buckets h).
Proof.
  intros Hh Ho Hfit Hw Hlen. unfold Merge. destruct (N.eqb_spec (count o) 0) as [Hz|_].
  { rewrite (hist_count _ _ Ho) in Hz. destruct l2; [|simpl in Hz; lia]. exists h.
    by rewrite app_nil_r. }
  destruct Hh as [Hw1 Hne1 Hb1 Hc1 Hs1 Hm1 Hx1], Ho as [_ _ Hb2 Hc2 Hs2 Hm2 Hx2].
  assert (merge_buckets (buckets h) 0 (buckets o) = Ok (zip_with u64_add (buckets h) (buckets o)))
    as -> by exact (merge_buckets_spec (buckets o) (buckets h) [] Hlen).
  cbn [mbind res_bind]. eexists. split; [reflexivity|]. cbn [bucketWidth buckets].
  assert (length (zip_with u64_add (buckets h) (buckets o)) = length (buckets h)) as Hzl
    by (rewrite length_zip_with; lia).
  pose proof Hfit as [Hf1 Hf2]. rewrite length_app in Hf1. rewrite sum_list_N_app in Hf2.
  split; [|by split]. split; cbn [bucketWidth buckets count sumNs minNs maxNs]; rewrite ?Hzl.
  - done.
  - intros He. rewrite He in Hzl. destruct (buckets h); done.
  - intros j Hj. rewrite lookup_zip_with, Hb1, Hb2 by lia. simpl.
    rewrite in_bucket_app, Hw, Hlen, u64_add_small; [done|].
    rewrite <- in_bucket_app. by apply fits64_count.
  - rewrite Hc1, Hc2, length_app, u64_add_small; lia.
  - rewrite Hs1, Hs2, sum_list_N_app, u64_add_small; lia.
  - rewrite min_list_app, <- Hm1, <- Hm2. destruct (N.ltb_spec (minNs o) (minNs h)); lia.
  - rewrite max_list_app, <- Hx1, <- Hx2. destruct (N.ltb_spec (maxNs h) (maxNs o)); lia.
Qed.

(** All the samples of a worker, and all the histograms of the workers. *)
Fixpoint observe_all (h : Hist) (ds : list Z) : res Hist :=
  match ds with
  | [] => Ok h
  | d :: ds' => h' ← Observe h d; observe_all h' ds'
  end.

Fixpoint merge_all (h : Hist) (hs : list Hist) : res Hist :=
  match hs with
  | [] => Ok h
  | o :: hs' => h' ← Merge h (Some o); merge_all h' hs'
  end.

(** A histogram of the same shape as a new one. *)
Definition shaped (h : Hist) (l : list N) : Prop :=
  hist_rep h l ∧ bucketWidth h = bucketWidth NewHist ∧
  length (buckets h) = length (buckets NewHist).

Lemma observe_all_shaped (ds : list Z) (h : Hist) (l : list N) :
  shaped h l → fits64 (l ++ (Z.to_N <$> ds)) → Forall (λ d, (d < two63)%Z) ds →
  ∃ h', observe_all h ds = Ok h' ∧ shaped h' (l ++ (Z.to_N <$> ds)).
Proof.
  revert h l. induction ds as [|d ds IH]; intros h l (Hrep & Hw & Hlen) Hfit Hall.
  { exists h. rewrite app_nil_r. by split_and!. }
  apply Forall_cons in Hall as [Hd Hall].
  change (Z.to_N <$> d :: ds) with ([Z.to_N d] ++ (Z.to_N <$> ds)) in *. rewrite app_assoc in *.
  destruct (Observe_rep h l d Hrep (proj1 (fits64_app _ _ Hfit)) Hd) as (h1 & H1 & Hr1 & Hw1 & Hl1).
  cbn [observe_all]. rewrite H1. cbn [mbind res_bind]. apply IH; [|done|done].
  split_and!; [done|congruence|congruence].
Qed.

Lemma merge_all_shaped (hs : list Hist) (ls : list (list N)) (h : Hist) (l : list N) :
  shaped h l → Forall2 shaped hs ls → fits64 (l ++ concat ls) →
  ∃ h', merge_all h hs = Ok h' ∧ shaped h' (l ++ concat ls).
Proof.
  intros Hh Hall. revert h l Hh.
  induction Hall as [|o lo hs ls (Hor & How & Hol) Hall IH]; intros h l (Hr & Hw & Hl) Hfit.
  { exists h. simpl. rewrite app_nil_r. by split_and!. }
  cbn [concat] in *. rewrite app_assoc in *.
  destruct (Merge_rep h o l lo Hr Hor (proj1 (fits64_app _ _ Hfit))) as (h1 & H1 & Hr1 & Hw1 & Hl1);
    [congruence|congruence|].
  cbn [merge_all]. rewrite H1. cbn [mbind res_bind]. apply IH; [|done].
  split_and!; [done|congruence|congruence].
Qed.

Lemma in_bucket_perm (w n j : N) (l1 l2 : list N) :
  l1 ≡ₚ l2 → in_bucket w n j l1 = in_bucket w n j l2.
Proof. intros Hp. unfold in_bucket. by rewrite Hp. Qed.

Lemma list_stats_perm (l1 l2 : list N) :
  l1 ≡ₚ l2 →
  sum_list_N l1 = sum_list_N l2 ∧ min_list l1 = min_list l2 ∧ max_list l1 = max_list l2.
Proof. induction 1; simpl; destruct_and?; split_and!; lia. Qed.

(** The samples decide the histogram, and their order does not matter. *)
Lemma shaped_unique (h1 h2 : Hist) (l1 l2 : list N) :
  shaped h1 l1 → shaped h2 l2 → l1 ≡ₚ l2 → h1 = h2.
Proof.
  intros ([_ _ Hb1 Hc1 Hs1 Hm1 Hx1] & Hw1 & Hl1) ([_ _ Hb2 Hc2 Hs2 Hm2 Hx2] & Hw2 & Hl2) Hp.
  destruct (list_stats_perm _ _ Hp) as (Hs & Hm & Hx).
  assert (buckets h1 = buckets h2) as Hb.
  { apply list_eq. intros j. destruct (decide (j < length (buckets h1))) as [Hj|Hj].
    - rewrite Hb1, Hb2 by congruence. rewrite Hw1, Hw2, Hl1, Hl2.
      by rewrite (in_bucket_perm _ _ _ _ _ Hp).
    - rewrite !lookup_ge_None_2; [done|lia|lia]. }
  assert (bucketWidth h1 = bucketWidth h2) as Hw by congruence.
  assert (count h1 = count h2) as Hc by (by rewrite Hc1, Hc2, Hp).
  assert (sumNs h1 = sumNs h2) as Hs' by congruence.
  assert (minNs h1 = minNs h2) as Hm' by congruence.
  assert (maxNs h1 = maxNs h2) as Hx' by congruence.
  clear -Hb Hw Hc Hs' Hm' Hx'. destruct h1, h2. simpl in *. by subst.
Qed.

(** ** Reading a percentile *)









Lemma NewHist_shaped : shaped NewHist [].
Proof. split; [apply NewHist_rep|done]. Qed.





(** ** The rank *)

Section ranks.
Local Open Scope Z_scope.












End ranks.



(** ** Properties *)

(** The samples as [Observe] counts them. *)
Definition samples (ds : list Z) : list N := Z.to_N <$> ds.


(** C23: Histograms kept by separate workers and merged at the end are the histogram one
    worker would have made of all the samples, whichever worker took which sample
    and in whatever order, and however the workers are merged. *)
Theorem merged_as_one (ds : list Z) (ws : list (list Z)) :
  ds ≡ₚ concat ws → Forall (λ d, (d < two63)%Z) ds → fits64 (samples ds) →
  ∃ h hs, observe_all NewHist ds = Ok h ∧ mapM (observe_all NewHist) ws = Ok hs ∧
    merge_all NewHist hs = Ok h ∧ Count h = N.of_nat (length ds) ∧
    hist_rep h (samples ds).
Proof.
  intros Hp Hall Hfit.
  destruct (observe_all_shaped ds NewHist [] NewHist_shaped Hfit Hall) as (h & Hh & Hs).
  assert (samples ds ≡ₚ concat (samples <$> ws)) as Hps.
  { unfold samples. rewrite Hp. clear. induction ws as [|x ws IH]; [done|].
    simpl. by rewrite fmap_app, IH. }
  assert (Forall (λ x, Forall (λ d, (d < two63)%Z) x ∧ fits64 (samples x)) ws) as Hws.
  { assert (fits64 (concat (samples <$> ws))) as Hf.
    { destruct Hfit as [H1 H2]. split; [by rewrite <- Hps|].
      by rewrite <- (proj1 (list_stats_perm _ _ Hps)). }
    assert (Forall (λ d, (d < two63)%Z) (concat ws)) as Ha by (by rewrite <- Hp).
    clear -Hf Ha. induction ws as [|x ws IH]; [constructor|]. simpl in *.
    apply Forall_app in Ha as [? ?]. apply fits64_app in Hf as [? ?]. constructor; auto. }
  assert (∃ hs, mapM (observe_all NewHist) ws = Ok hs ∧ Forall2 shaped hs (samples <$> ws))
    as (hs & Hhs & Hsh).
  { clear -Hws. induction Hws as [|x ws [Hx Hf] _ IH]; [by exists []|].
    destruct (observe_all_shaped x NewHist [] NewHist_shaped Hf Hx) as (hx & Hhx & Hsx).
    destruct IH as (hs & Hhs & Hsh). exists (hx :: hs). simpl. rewrite Hhx. simpl.
    rewrite Hhs. split; [done|]. by constructor. }
  destruct (merge_all_shaped hs (samples <$> ws) NewHist [] NewHist_shaped Hsh) as (h' & Hm & Hs').
  { destruct Hfit as [H1 H2]. simpl. split; [by rewrite <- Hps|].
    by rewrite <- (proj1 (list_stats_perm _ _ Hps)). }
  exists h, hs. split; [exact Hh|]. split; [exact Hhs|].
  rewrite (shaped_unique _ _ _ _ Hs Hs' Hps). split; [exact Hm|].
  rewrite <- (shaped_unique _ _ _ _ Hs Hs' Hps). destruct Hs as [Hrep _]. split; [|done].
  unfold Count. rewrite (hist_count _ _ Hrep). by rewrite app_nil_l, length_fmap.
Qed.


(** ** Concrete runs *)

Definition demo_samples : list Z := [1000000; 3000000; 12000000000; -5]%Z.

Lemma merged_as_one_witness :
  ∃ h hs, observe_all NewHist demo_samples = Ok h ∧
    mapM (observe_all NewHist) [[12000000000; -5]%Z; []; [3000000; 1000000]%Z] = Ok hs ∧
    merge_all NewHist hs = Ok h.
Proof.
  destruct (merged_as_one demo_samples [[12000000000; -5]%Z; []; [3000000; 1000000]%Z])
    as (h & hs & H1 & H2 & H3 & _).
  - unfold demo_samples. simpl. change [1000000; 3000000; 12000000000; -5]%Z
      with ([1000000; 3000000] ++ [12000000000; -5])%Z.
    rewrite (Permutation_app_comm [1000000; 3000000]%Z). simpl.
    do 2 apply perm_skip. apply perm_swap.
  - repeat constructor.
  - split; vm_compute; discriminate.
  - exists h, hs. split_and!; [exact H1|exact H2|exact H3].
Defined.

