(* ===== verification/BenchEnv.v ===== *)
(** [src/bench/env.go]: the environment a result carries.  What the operating system
    and the runtime say is a parameter. *)

From S2P Require Import Prelude GoTime.

Local Open Scope string_scope.

(** [type Env struct] *)
Record Env := mkEnv {
  Timestamp : Time;
  Go : string;
  GOOS : string;
  GOARCH : string;
  NumCPU : Z;
  GOMAXPROCS : Z;
  Hostname : string;
  PaladinBuild : string;
}.

(** The functions of packages [os], [runtime] and [time] that are asked; [time_Local] is
    the offset of the local zone at a point in time. *)
Record Host := mkHost {
  os_Hostname : res string;
  time_Now : Time;
  time_Local : Z → Z;
  runtime_Version : string;
  runtime_GOOS : string;
  runtime_GOARCH : string;
  runtime_NumCPU : Z;
  runtime_GOMAXPROCS : Z;
  os_Getenv : string → string;
}.

(** A host without a name is the empty string. *)
Definition CollectEnv (h : Host) : Env :=
  let host := match os_Hostname h with Ok name => name | _ => "" end in
  mkEnv (time_Now h) (runtime_Version h) (runtime_GOOS h) (runtime_GOARCH h) (runtime_NumCPU h)
    (runtime_GOMAXPROCS h) host (os_Getenv h "PALADIN_BUILD").
