(* ===== verification/Load.v ===== *)
(** [src/bench/counters.go] and [src/bench/load.go]: the outcome counters and [Run].
    A run is the sequence in which the iterations of its workers end, and an
    iteration is what the worker saw: times, status and errors.  [SaveJSON] and
    [LoadJSON] are in [ResultJson]. *)

From Stdlib Require Import SpecFloat.
From S2P Require Import Prelude GoFmt GoTime BenchEnv Hist.

Local Open Scope string_scope.
Local Open Scope list_scope.
Local Open Scope nat_scope.

(** ** Counters *)

(** [type Counters struct] *)
Record Counters := mkCounters {
  ok : N;
  err : N;
  status : list N;
}.

Definition zero_counters : Counters := mkCounters 0 0 [0; 0; 0; 0; 0; 0]%N.

(** The index into [status]. *)
Definition status_index (code : Z) : nat :=
  if (0 <? code)%Z then
    let idx := Z.quot code 100 in
    if (idx <? 0)%Z || (6 <=? idx)%Z then 0 else Z.to_nat idx
  else 0.

Definition AddStatus (c : Counters) (code : Z) : Counters :=
  let st := alter (λ n, u64_add n 1) (status_index code) (status c) in
  if (200 <=? code)%Z && (code <? 400)%Z
  then mkCounters (u64_add (ok c) 1) (err c) st
  else mkCounters (ok c) (u64_add (err c) 1) st.

Definition Ok_count (c : Counters) : N := ok c.
Definition Err_count (c : Counters) : N := err c.
Definition ByClass (c : Counters) : list N := status c.

(** ** Run *)

(** [type LoadConfig struct] *)
Record LoadConfig := mkLoadConfig {
  Concurrency : Z;
  Duration : Z;
  WarmUp : Z;
  RPSCap : Z;
}.

(** The defaults at the start of [Run]. *)
Definition load_defaults (lc : LoadConfig) : LoadConfig :=
  mkLoadConfig (if (Concurrency lc <=? 0)%Z then 1%Z else Concurrency lc)
    (if (Duration lc <=? 0)%Z then (10 * Second)%Z else Duration lc) (WarmUp lc) (RPSCap lc).

(** The interval of the shared ticker, if there is one. *)
Definition ticker_interval (lc : LoadConfig) : option Z :=
  if (0 <? RPSCap lc)%Z then
    let interval := Z.quot Second (RPSCap lc) in
    Some (if (interval <=? 0)%Z then 1%Z else interval)
  else None.

(** One iteration of a worker: when it began, how long the step took, what it
    returned, and whether the run was cancelled by then. *)
Record iteration := mkIteration {
  it_t0 : Z;
  it_lat : Z;
  it_status : Z;
  it_err : bool;
  it_cancelled : bool;
}.

(** The iteration is counted: it is neither of the warm-up nor cut off by the end. *)
Definition counted (measureStart : Z) (i : iteration) : bool :=
  negb (it_t0 i <? measureStart)%Z && negb (it_err i && it_cancelled i).

(** The status [AddStatus] is given. *)
Definition iteration_code (i : iteration) : Z := if it_err i then 0%Z else it_status i.

(** The body of a worker's loop after the step. *)
Definition worker_step (measureStart : Z) (h : Hist) (c : Counters) (i : iteration)
    : res (Hist * Counters) :=
  if (it_t0 i <? measureStart)%Z then Ok (h, c)
  else if it_err i && it_cancelled i then Ok (h, c)
  else
    h' ← Observe h (it_lat i);
    Ok (h', AddStatus c (iteration_code i)).

(** The iterations of all workers as they end: each is one of the worker [w]. *)
Fixpoint run_workers (measureStart : Z) (hists : list Hist) (c : Counters)
    (l : list (nat * iteration)) : res (list Hist * Counters) :=
  match l with
  | [] => Ok (hists, c)
  | (w, i) :: l' =>
      h ← slice_get hists (Z.of_nat w);
      p ← worker_step measureStart h c i;
      hists' ← slice_set hists (Z.of_nat w) p.1;
      run_workers measureStart hists' p.2 l'
  end.

(** [type Result struct] *)
Record Result := mkResult {
  r_Scenario : string;
  r_StartedAt : Time;
  r_Duration : Z;
  r_Concurrency : Z;
  r_RPSCap : Z;
  r_Count : N;
  r_Errors : N;
  r_StatusClass : list N;
  r_RPS : spec_float;
  r_Latency : Snapshot;
  r_Env : Env;
}.

(** [Run]: [name] and [setup] are the scenario's [Name] and the result of its
    [Setup], [l] the iterations of the workers, and the clock says [startedAt] and,
    when all have ended, [now]. *)
Definition Run (name : string) (lc : LoadConfig) (setup : res unit) (startedAt now : Z)
    (l : list (nat * iteration)) (host : Host) : res Result :=
  let lc := load_defaults lc in
  match setup with
  | Panic => Panic
  | Err e => Err (EWrap "scenario setup" e)
  | Ok _ =>
      let measureStart := (startedAt + WarmUp lc)%Z in
      let hists := replicate (Z.to_nat (Concurrency lc)) NewHist in
      p ← run_workers measureStart hists zero_counters l;
      let '(hists, counters) := p in
      let actualDur := if (now - measureStart <=? 0)%Z then Duration lc
                       else (now - measureStart)%Z in
      total ← merge_all NewHist hists;
      Ok (mkResult name (mkTime measureStart (time_Local host measureStart)) actualDur (Concurrency lc) (RPSCap lc) (Count total)
            (Err_count counters) (ByClass counters)
            (float_div (float_of_uint64 (Count total)) (Duration_Seconds actualDur))
            (Hist_Snapshot total) (CollectEnv host))
  end.

(** ** Lemmas *)

(** How many of the codes [P] holds of. *)
Definition count_codes (P : Z → bool) (codes : list Z) : N :=
  N.of_nat (length (filter (λ c, P c = true) codes)).

Definition is_ok (code : Z) : bool := (200 <=? code)%Z && (code <? 400)%Z.

(** [c] counts the codes. *)
Definition counters_rep (c : Counters) (codes : list Z) : Prop :=
  ok c = count_codes is_ok codes ∧
  err c = count_codes (λ x, negb (is_ok x)) codes ∧
  length (status c) = 6 ∧
  ∀ j, j < 6 → status c !! j = Some (count_codes (λ x, Nat.eqb (status_index x) j) codes).

Lemma zero_counters_rep : counters_rep zero_counters [].
Proof.
  split_and!; try done. intros j Hj. do 6 (destruct j as [|j]; [done|]). lia.
Qed.

Lemma count_codes_snoc (P : Z → bool) (codes : list Z) (x : Z) :
  count_codes P (codes ++ [x]) = (count_codes P codes + if P x then 1 else 0)%N.
Proof.
  unfold count_codes. rewrite filter_app, length_app, Nat2N.inj_add. f_equal.
  rewrite filter_cons, filter_nil. by destruct (P x).
Qed.

Lemma count_codes_le (P : Z → bool) (codes : list Z) :
  (count_codes P codes ≤ N.of_nat (length codes))%N.
Proof. unfold count_codes. pose proof (length_filter (λ c, P c = true) codes). lia. Qed.

Lemma status_index_bound (code : Z) : status_index code < 6.
Proof.
  unfold status_index. destruct (0 <? code)%Z; [|lia].
  destruct (Z.ltb_spec (Z.quot code 100) 0), (Z.leb_spec 6 (Z.quot code 100)); simpl; lia.
Qed.

Lemma AddStatus_rep (c : Counters) (codes : list Z) (code : Z) :
  counters_rep c codes → (N.of_nat (length codes) < max_uint64)%N →
  counters_rep (AddStatus c code) (codes ++ [code]).
Proof.
  intros (Ho & He & Hl & Hs) Hlt.
  assert (∀ P, u64_add (count_codes P codes) 1 = (count_codes P codes + 1)%N) as Hadd.
  { intros P. pose proof (count_codes_le P codes). apply u64_add_small. lia. }
  assert (length (status (AddStatus c code)) = 6 ∧ ∀ j, j < 6 → status (AddStatus c code) !! j
    = Some (count_codes (λ x, Nat.eqb (status_index x) j) (codes ++ [code]))) as Hst.
  { assert (status (AddStatus c code) = alter (λ n, u64_add n 1) (status_index code) (status c))
      as -> by (unfold AddStatus; by case_match).
    rewrite length_alter. split; [done|]. intros j Hj. rewrite count_codes_snoc.
    destruct (Nat.eqb_spec (status_index code) j) as [->|Hne].
    - rewrite list_lookup_alter_eq, Hs by done. simpl. by rewrite Hadd.
    - rewrite list_lookup_alter_ne, Hs by done. by rewrite N.add_0_r. }
  split_and!; [| |apply Hst|apply Hst].
  - rewrite count_codes_snoc, <- Ho. unfold AddStatus. fold (is_ok code).
    destruct (is_ok code); simpl; [|lia]. by rewrite Ho, Hadd.
  - rewrite count_codes_snoc, <- He. unfold AddStatus. fold (is_ok code).
    destruct (is_ok code); simpl; [lia|]. by rewrite He, Hadd.
Qed.

Lemma concat_insert {A} (ls : list (list A)) (w : nat) (x y : list A) :
  ls !! w = Some x → concat (<[w := y]> ls) ≡ₚ y ++ concat (delete w ls).
Proof.
  revert w. induction ls as [|l ls IH]; intros [|w] Hw; simpl in *; [done..|].
  rewrite (IH w Hw). rewrite !app_assoc. by rewrite (Permutation_app_comm l y).
Qed.

Lemma concat_lookup {A} (ls : list (list A)) (w : nat) (x : list A) :
  ls !! w = Some x → concat ls ≡ₚ x ++ concat (delete w ls).
Proof. intros Hw. rewrite <- (list_insert_id ls w x Hw) at 1. by apply (concat_insert ls w x). Qed.

#[export] Instance fits64_proper : Proper ((≡ₚ) ==> iff) fits64.
Proof.
  intros l1 l2 Hp. unfold fits64. rewrite (proj1 (list_stats_perm _ _ Hp)).
  by rewrite (Permutation_length Hp).
Qed.

Lemma Observe_shaped (h : Hist) (l : list N) (d : Z) :
  shaped h l → fits64 (l ++ [Z.to_N d]) → (d < two63)%Z →
  ∃ h', Observe h d = Ok h' ∧ shaped h' (l ++ [Z.to_N d]).
Proof.
  intros (Hr & Hw & Hl) Hf Hd. destruct (Observe_rep h l d Hr Hf Hd) as (h' & Ho & Hr' & Hw' & Hl').
  exists h'. split; [done|]. split_and!; [done|congruence|congruence].
Qed.

(** The counted iterations of a run. *)
Definition kept (measureStart : Z) (l : list (nat * iteration)) : list iteration :=
  filter (λ i, counted measureStart i = true) l.*2.

Definition latencies (l : list iteration) : list N := samples (it_lat <$> l).

(** Each iteration is one of a worker, and took less than [2^63] nanoseconds. *)
Definition runnable (n : nat) (l : list (nat * iteration)) : Prop :=
  Forall (λ x, x.1 < n ∧ (it_lat x.2 < two63)%Z) l.

Lemma run_workers_rep (ms : Z) (l : list (nat * iteration)) (hists : list Hist) (c : Counters)
    (ls : list (list N)) (codes : list Z) :
  Forall2 shaped hists ls → counters_rep c codes → runnable (length hists) l →
  fits64 (concat ls ++ latencies (kept ms l)) →
  (N.of_nat (length codes + length (kept ms l)) ≤ max_uint64)%N →
  ∃ hists' c' ls', run_workers ms hists c l = Ok (hists', c') ∧ Forall2 shaped hists' ls' ∧
    concat ls' ≡ₚ concat ls ++ latencies (kept ms l) ∧
    counters_rep c' (codes ++ (iteration_code <$> kept ms l)).
Proof.
  revert hists c ls codes.
  induction l as [|[w i] l IH]; intros hists c ls codes Hh Hc Hrun Hfit Hlen.
  { exists hists, c, ls. simpl. rewrite !app_nil_r. by split_and!. }
  apply Forall_cons in Hrun as [[Hw Hlat] Hrun]. simpl in Hw, Hlat. cbn [run_workers].
  destruct (lookup_lt_is_Some_2 hists w Hw) as [h Hhw].
  destruct (Forall2_lookup_l _ _ _ _ _ Hh Hhw) as (lw & Hlw & Hshape).
  rewrite (slice_get_lookup _ _ _ Hhw). cbn [mbind res_bind].
  assert (kept ms ((w, i) :: l) = if counted ms i then i :: kept ms l else kept ms l) as Hk.
  { unfold kept. cbn [fmap list_fmap snd]. rewrite filter_cons. by destruct (counted ms i). }
  rewrite Hk in *. unfold worker_step, counted in *.
  destruct (it_t0 i <? ms)%Z; [|destruct (it_err i && it_cancelled i)]; cbn [negb andb] in *.
  1, 2: cbn [mbind res_bind fst snd]; rewrite (slice_set_insert _ _ _ Hw), (list_insert_id _ _ _ Hhw);
    cbn [mbind res_bind]; by apply IH.
  change (latencies (i :: kept ms l)) with ([Z.to_N (it_lat i)] ++ latencies (kept ms l)) in *.
  assert (concat (<[w := lw ++ [Z.to_N (it_lat i)]]> ls) ≡ₚ concat ls ++ [Z.to_N (it_lat i)]) as Hins.
  { rewrite (concat_insert _ _ _ _ Hlw), (concat_lookup _ _ _ Hlw), <- !app_assoc.
    apply Permutation_app_head, Permutation_app_comm. }
  destruct (Observe_shaped h lw (it_lat i) Hshape) as (h' & -> & Hshape'); [|done|].
  { rewrite app_assoc in Hfit. apply fits64_app in Hfit as [Hfit _].
    rewrite <- Hins, (concat_insert _ _ _ _ Hlw) in Hfit. by apply fits64_app in Hfit as [? _]. }
  cbn [mbind res_bind fst snd]. rewrite (slice_set_insert _ _ _ Hw). cbn [mbind res_bind].
  cbn [length] in Hlen.
  destruct (IH (<[w := h']> hists) (AddStatus c (iteration_code i))
    (<[w := lw ++ [Z.to_N (it_lat i)]]> ls) (codes ++ [iteration_code i]))
    as (hists' & c' & ls' & Hr & Hh' & Hp & Hc').
  - by apply Forall2_insert.
  - apply AddStatus_rep; [done|lia].
  - by rewrite length_insert.
  - by rewrite Hins, <- app_assoc.
  - rewrite length_app. simpl. lia.
  - exists hists', c', ls'. split_and!; [exact Hr|done| |].
    + rewrite Hp, Hins. by rewrite <- app_assoc.
    + change (iteration_code <$> i :: kept ms l)
        with ([iteration_code i] ++ (iteration_code <$> kept ms l)). by rewrite app_assoc.
Qed.

(** Every code is in one class. *)
Lemma counters_classes (c : Counters) (codes : list Z) :
  counters_rep c codes →
  sum_list_N (status c) = N.of_nat (length codes) ∧ (ok c + err c)%N = N.of_nat (length codes).
Proof.
  intros (Ho & He & Hl & Hs). split.
  - assert (status c = (λ j, count_codes (λ x, Nat.eqb (status_index x) j) codes) <$> seq 0 6) as ->.
    { apply list_eq. intros j. rewrite list_lookup_fmap.
      destruct (decide (j < 6)) as [Hj|Hj].
      - rewrite Hs by done. by rewrite lookup_seq_lt.
      - rewrite lookup_ge_None_2 by lia. by rewrite (lookup_seq_ge 0 6 j) by lia. }
    clear. induction codes as [|x codes IH]; [done|].
    assert (∀ P, count_codes P (x :: codes) = (count_codes P codes + if P x then 1 else 0)%N) as Hc.
    { intros P. unfold count_codes. rewrite filter_cons. destruct (P x); simpl; lia. }
    cbn [seq fmap list_fmap sum_list_N foldr length] in *. rewrite !Hc, Nat2N.inj_succ.
    pose proof (status_index_bound x) as Hb. revert Hb. generalize (status_index x). intros s Hb.
    do 6 (destruct s as [|s]; [cbn [Nat.eqb]; lia|]). lia.
  - rewrite Ho, He. clear. unfold count_codes. induction codes as [|x codes IH]; [done|].
    rewrite !filter_cons. destruct (is_ok x); simpl in *; lia.
Qed.

(** The workers end, and their histograms are merged into the one of all latencies. *)
Lemma run_merged (lc : LoadConfig) (startedAt : Z) (l : list (nat * iteration)) :
  let k := kept (startedAt + WarmUp lc) l in
  let n := Z.to_nat (Concurrency (load_defaults lc)) in
  runnable n l → fits64 (latencies k) →
  ∃ hists c h, run_workers (startedAt + WarmUp lc) (replicate n NewHist) zero_counters l = Ok (hists, c) ∧
    merge_all NewHist hists = Ok h ∧ shaped h (latencies k) ∧ counters_rep c (iteration_code <$> k) ∧
    observe_all NewHist (it_lat <$> k) = Ok h.
Proof.
  intros k n Hrun Hfit.
  assert (Forall2 shaped (replicate n NewHist) (replicate n [])) as Hh0.
  { apply Forall2_replicate, NewHist_shaped. }
  assert (concat (replicate n ([] : list N)) = []) as Hc0.
  { clear. induction n as [|n IH]; [done|]. simpl. exact IH. }
  destruct (run_workers_rep (startedAt + WarmUp lc) l (replicate n NewHist) zero_counters
    (replicate n []) [] Hh0 zero_counters_rep) as (hists & c & ls & Hw & Hs & Hp & Hc).
  { by rewrite length_replicate. }
  { by rewrite Hc0. }
  { destruct Hfit as [Hf _]. unfold latencies, samples in Hf. rewrite !length_fmap in Hf. exact Hf. }
  fold k in Hp, Hc. rewrite Hc0 in Hp. simpl in Hp, Hc.
  destruct (merge_all_shaped hists ls NewHist [] NewHist_shaped Hs) as (h & Hm & Hshape).
  { simpl. by rewrite Hp. }
  assert (Forall (λ d, (d < two63)%Z) (it_lat <$> k)) as Hlat.
  { apply Forall_fmap, Forall_forall. intros i Hi. unfold k, kept in Hi.
    apply list_elem_of_filter in Hi as [_ Hi]. apply list_elem_of_fmap in Hi as (x & -> & Hx).
    unfold runnable in Hrun. rewrite Forall_forall in Hrun. by apply Hrun. }
  destruct (observe_all_shaped (it_lat <$> k) NewHist [] NewHist_shaped Hfit Hlat)
    as (h' & Ho & Hshape').
  rewrite (shaped_unique _ _ _ _ Hshape Hshape' Hp) in *. by exists hists, c, h'.
Qed.

(** A run whose scenario is set up ends with a result: its latencies are those of the
    merged histogram, its counts those of the counters. *)
Lemma Run_spec (name : string) (lc : LoadConfig) (startedAt now : Z) (l : list (nat * iteration)) (host : Host) :
  let k := kept (startedAt + WarmUp lc) l in
  runnable (Z.to_nat (Concurrency (load_defaults lc))) l → fits64 (latencies k) →
  ∃ r h c, Run name lc (Ok tt) startedAt now l host = Ok r ∧ observe_all NewHist (it_lat <$> k) = Ok h ∧
    counters_rep c (iteration_code <$> k) ∧ r_Latency r = Hist_Snapshot h ∧ r_Count r = N.of_nat (length k) ∧
    r_Errors r = err c ∧ r_StatusClass r = status c ∧
    r_Duration r = if (now - (startedAt + WarmUp lc) <=? 0)%Z then Duration (load_defaults lc)
                   else (now - (startedAt + WarmUp lc))%Z.
Proof.
  intros k Hrun Hfit.
  destruct (run_merged lc startedAt l Hrun Hfit) as (hists & c & h & Hw & Hm & [Hr _] & Hc & Ho). fold k in Hr, Hc, Ho.
  assert (Count h = N.of_nat (length k)) as Hcount.
  { unfold Count. rewrite (hist_count _ _ Hr). unfold latencies, samples. by rewrite !length_fmap. }
  unfold Run. change (WarmUp (load_defaults lc)) with (WarmUp lc). rewrite Hw.
  cbn [mbind res_bind]. rewrite Hm. cbn [mbind res_bind]. eexists _, h, c. split; [reflexivity|].
  cbn [r_Latency r_Count r_Errors r_StatusClass r_Duration]. by rewrite Hcount.
Qed.

(** ** Properties *)

(** C19: A run of any number of workers, whatever the order in which their iterations
    end: the result counts each iteration that began after the warm-up and was not
    cut off by the end once, in one status class, as an error unless it was answered
    with a status of 200 to 399, and its latency statistics are those of one
    histogram of all their latencies. *)
Theorem run_result (name : string) (lc : LoadConfig) (startedAt now : Z)
    (l : list (nat * iteration)) (host : Host) :
  let k := kept (startedAt + WarmUp lc) l in
  runnable (Z.to_nat (Concurrency (load_defaults lc))) l → fits64 (latencies k) →
  ∃ r h, Run name lc (Ok tt) startedAt now l host = Ok r ∧ observe_all NewHist (it_lat <$> k) = Ok h ∧
    r_Latency r = Hist_Snapshot h ∧ r_Count r = N.of_nat (length k) ∧
    r_Errors r = N.of_nat (length (filter (λ i, is_ok (iteration_code i) = false) k)) ∧
    length (r_StatusClass r) = 6 ∧ sum_list_N (r_StatusClass r) = r_Count r ∧
    (r_Duration r = Duration (load_defaults lc) ∨
     r_Duration r = (now - (startedAt + WarmUp lc))%Z) ∧ (0 < r_Duration r)%Z.
Proof.
  intros k Hrun Hfit.
  destruct (Run_spec name lc startedAt now l host Hrun Hfit) as (r & h & c & HRun & Ho & Hc & Hl & Hn & He & Hs & Hd).
  fold k in Ho, Hc, Hn. destruct (counters_classes c _ Hc) as [Hcl _]. rewrite length_fmap in Hcl.
  destruct Hc as (_ & Herr & Hl6 & _). exists r, h. rewrite He, Hs, Hn.
  split_and!; [done|done|done|done| |done|done|..].
  - rewrite Herr. unfold count_codes. f_equal. clear. induction k as [|i k IH]; [done|].
    cbn [fmap list_fmap]. rewrite !filter_cons.
    destruct (is_ok (iteration_code i)); simpl; [exact IH|]. by rewrite IH.
  - rewrite Hd. by case_match; [left|right].
  - rewrite Hd. destruct (Z.leb_spec (now - (startedAt + WarmUp lc)) 0); [|lia].
    unfold load_defaults, Second. cbn [Duration]. destruct (Z.leb_spec (Duration lc) 0); lia.
Qed.

(** ** Concrete runs *)

Definition demo_load : LoadConfig := mkLoadConfig 2 Second 100 0.
Definition demo_host : Host :=
  mkHost (Ok "h") (mkTime 0 0) (λ _, 0%Z) "go1.22" "linux" "amd64" 8 8 (λ _, "").
Definition demo_iterations : list (nat * iteration) :=
  [(0, mkIteration 50 10 200 false false); (1, mkIteration 150 3000 201 false false);
   (0, mkIteration 160 250000 503 false false); (1, mkIteration 4000 90 0 true true)].

Lemma run_result_witness :
  ∃ r, Run "write_only" demo_load (Ok tt) 0 (2 * Second) demo_iterations demo_host = Ok r ∧ r_Count r = 2%N ∧
    r_Errors r = 1%N.
Proof.
  destruct (run_result "write_only" demo_load 0 (2 * Second) demo_iterations demo_host)
    as (r & h & Hr & _ & _ & Hc & He & _).
  - repeat constructor.
  - split; vm_compute; discriminate.
  - exists r. split; [exact Hr|]. split; [rewrite Hc|rewrite He]; reflexivity.
Defined.
