(* ===== verification/ResultJson.v ===== *)
(** [SaveJSON] and [LoadJSON] of [src/bench/load.go]: the JSON document of a [Result]
    with its [Snapshot] and its [Env], and the file it is kept in. *)

From Stdlib Require Import SpecFloat.
From S2P Require Import Prelude GoStrings GoEncoding GoFmt GoTime FloatArith GoJson JsonFields GoFloat.
From S2P Require Import GoRfc3339 GoText GoOs BenchEnv Hist Load.

Local Open Scope string_scope.
Local Open Scope list_scope.
Local Open Scope nat_scope.

(** ** The document *)

Definition latency_json (s : Snapshot) : json :=
  JObj [("count", json_uint (sn_Count s)); ("min_ns", json_int (sn_Min s)); ("mean_ns", json_int (sn_Mean s));
        ("p50_ns", json_int (sn_P50 s)); ("p90_ns", json_int (sn_P90 s)); ("p95_ns", json_int (sn_P95 s));
        ("p99_ns", json_int (sn_P99 s)); ("p999_ns", json_int (sn_P999 s)); ("max_ns", json_int (sn_Max s))].

(** The fields of [Env] behind the timestamp; an empty build is left out. *)
Definition env_json (timestamp : json) (e : Env) : json :=
  JObj ([("timestamp", timestamp); ("go_version", JStr (Go e)); ("goos", JStr (GOOS e));
         ("goarch", JStr (GOARCH e)); ("num_cpu", json_int (NumCPU e));
         ("gomaxprocs", json_int (GOMAXPROCS e)); ("hostname", JStr (Hostname e))]
        ++ if String.eqb (PaladinBuild e) "" then [] else [("paladin_build", JStr (PaladinBuild e))]).

(** The error is the one of the first field that has no JSON form. *)
Definition result_json (r : Result) : res json :=
  started ← time_json (r_StartedAt r);
  rps ← json_float (r_RPS r);
  timestamp ← time_json (Timestamp (r_Env r));
  Ok (JObj ([("scenario", JStr (r_Scenario r)); ("started_at", started);
             ("duration_ns", json_int (r_Duration r)); ("concurrency", json_int (r_Concurrency r))]
            ++ (if (r_RPSCap r =? 0)%Z then [] else [("rps_cap", json_int (r_RPSCap r))])
            ++ [("count", json_uint (r_Count r)); ("errors", json_uint (r_Errors r));
                ("status_class", JArr (map json_uint (r_StatusClass r))); ("rps", JNum rps);
                ("latency", latency_json (r_Latency r)); ("env", env_json timestamp (r_Env r))])).

(** ** Reading it *)

Definition set_latency_field (k : string) (v : json) (s : Snapshot) : option Snapshot :=
  let '(mkSnapshot co mi me p50 p90 p95 p99 p999 ma) := s in
  if name_is "count" k then (λ x, mkSnapshot x mi me p50 p90 p95 p99 p999 ma) <$> dec_uint64 v co
  else if name_is "min_ns" k then (λ x, mkSnapshot co x me p50 p90 p95 p99 p999 ma) <$> dec_int64 v mi
  else if name_is "mean_ns" k then (λ x, mkSnapshot co mi x p50 p90 p95 p99 p999 ma) <$> dec_int64 v me
  else if name_is "p50_ns" k then (λ x, mkSnapshot co mi me x p90 p95 p99 p999 ma) <$> dec_int64 v p50
  else if name_is "p90_ns" k then (λ x, mkSnapshot co mi me p50 x p95 p99 p999 ma) <$> dec_int64 v p90
  else if name_is "p95_ns" k then (λ x, mkSnapshot co mi me p50 p90 x p99 p999 ma) <$> dec_int64 v p95
  else if name_is "p99_ns" k then (λ x, mkSnapshot co mi me p50 p90 p95 x p999 ma) <$> dec_int64 v p99
  else if name_is "p999_ns" k then (λ x, mkSnapshot co mi me p50 p90 p95 p99 x ma) <$> dec_int64 v p999
  else if name_is "max_ns" k then (λ x, mkSnapshot co mi me p50 p90 p95 p99 p999 x) <$> dec_int64 v ma
  else Some s.

Definition set_env_field (k : string) (v : json) (e : Env) : option Env :=
  let '(mkEnv ts go os arch cpu procs host build) := e in
  if name_is "timestamp" k then (λ x, mkEnv x go os arch cpu procs host build) <$> dec_time v ts
  else if name_is "go_version" k then (λ x, mkEnv ts x os arch cpu procs host build) <$> dec_string v go
  else if name_is "goos" k then (λ x, mkEnv ts go x arch cpu procs host build) <$> dec_string v os
  else if name_is "goarch" k then (λ x, mkEnv ts go os x cpu procs host build) <$> dec_string v arch
  else if name_is "num_cpu" k then (λ x, mkEnv ts go os arch x procs host build) <$> dec_int64 v cpu
  else if name_is "gomaxprocs" k then (λ x, mkEnv ts go os arch cpu x host build) <$> dec_int64 v procs
  else if name_is "hostname" k then (λ x, mkEnv ts go os arch cpu procs x build) <$> dec_string v host
  else if name_is "paladin_build" k then (λ x, mkEnv ts go os arch cpu procs host x) <$> dec_string v build
  else Some e.

Definition set_result_field (k : string) (v : json) (r : Result) : option Result :=
  let '(mkResult sc st du co cap cn er cl rps la en) := r in
  if name_is "scenario" k then (λ x, mkResult x st du co cap cn er cl rps la en) <$> dec_string v sc
  else if name_is "started_at" k then (λ x, mkResult sc x du co cap cn er cl rps la en) <$> dec_time v st
  else if name_is "duration_ns" k then (λ x, mkResult sc st x co cap cn er cl rps la en) <$> dec_int64 v du
  else if name_is "concurrency" k then (λ x, mkResult sc st du x cap cn er cl rps la en) <$> dec_int64 v co
  else if name_is "rps_cap" k then (λ x, mkResult sc st du co x cn er cl rps la en) <$> dec_int64 v cap
  else if name_is "count" k then (λ x, mkResult sc st du co cap x er cl rps la en) <$> dec_uint64 v cn
  else if name_is "errors" k then (λ x, mkResult sc st du co cap cn x cl rps la en) <$> dec_uint64 v er
  else if name_is "status_class" k then
    (λ x, mkResult sc st du co cap cn er x rps la en) <$> dec_array dec_uint64 0%N v cl
  else if name_is "rps" k then (λ x, mkResult sc st du co cap cn er cl x la en) <$> dec_float64 v rps
  else if name_is "latency" k then
    (λ x, mkResult sc st du co cap cn er cl rps x en) <$> decode_struct set_latency_field v la
  else if name_is "env" k then
    (λ x, mkResult sc st du co cap cn er cl rps la x) <$> decode_struct set_env_field v en
  else Some r.

(** [time.Time{}]: the first of January of the year 1. *)
Definition zero_time : Time := mkTime (-62135596800000000000) 0.
Definition zero_result : Result :=
  mkResult "" zero_time 0 0 0 0 0 [0; 0; 0; 0; 0; 0]%N (S754_zero false)
    (mkSnapshot 0 0 0 0 0 0 0 0 0) (mkEnv zero_time "" "" "" 0 0 "" "").

(** [json.Unmarshal(data, &r)] *)
Definition result_Unmarshal (data : string) : res Result :=
  match json_parse data with
  | Some j => res_of_option "json: cannot unmarshal" (decode_struct set_result_field j zero_result)
  | None => Err (EMsg "json: invalid syntax")
  end.

(** ** Files *)

Section files.
Context {F : Type} `{!FileSystem F}.

(** The encoder with two spaces of indent; without a JSON form nothing is written. *)
Definition SaveJSON (f : F) (r : Result) (path : string) : F * res unit :=
  let f := if String.eqb (Dir path) "" then f else os_MkdirAll f (Dir path) in
  match os_Create f path with
  | (f, Ok _) =>
      match (j ← result_json r; json_MarshalIndent j) with
      | Ok text => file_Write f path (text +:+ String "010" "")
      | Err e => (f, Err e)
      | Panic => (f, Panic)
      end
  | x => x
  end.

Definition LoadJSON (f : F) (path : string) : res Result :=
  data ← os_ReadFile f path;
  match result_Unmarshal data with
  | Err e => Err (EWrap ("decode " +:+ path) e)
  | x => x
  end.
End files.

(** ** The round trip *)

(** Neither an infinity nor no number. *)
Definition finite (x : spec_float) : bool :=
  match x with S754_infinity _ | S754_nan => false | _ => true end.

Definition int64_ok (z : Z) : Prop := (- two63 ≤ z < two63)%Z.

(** The values of the fields' Go types, at times and with strings that JSON keeps. *)
Record snapshot_ok (s : Snapshot) : Prop := {
  so_count : (sn_Count s ≤ max_uint64)%N;
  so_durations : Forall int64_ok [sn_Min s; sn_Mean s; sn_P50 s; sn_P90 s; sn_P95 s; sn_P99 s; sn_P999 s; sn_Max s];
}.

Record env_ok (e : Env) : Prop := {
  eo_time : time_ok (Timestamp e);
  eo_strings : Forall (λ s, ValidString s = true) [Go e; GOOS e; GOARCH e; Hostname e; PaladinBuild e];
  eo_ints : Forall int64_ok [NumCPU e; GOMAXPROCS e];
}.

Record result_ok (r : Result) : Prop := {
  ro_time : time_ok (r_StartedAt r);
  ro_scenario : ValidString (r_Scenario r) = true;
  ro_ints : Forall int64_ok [r_Duration r; r_Concurrency r; r_RPSCap r];
  ro_counts : Forall (λ n, (n ≤ max_uint64)%N) (r_Count r :: r_Errors r :: r_StatusClass r);
  ro_classes : length (r_StatusClass r) = 6;
  ro_rps : valid_binary 53 1024 (r_RPS r) = true ∧ finite (r_RPS r) = true;
  ro_latency : snapshot_ok (r_Latency r);
  ro_env : env_ok (r_Env r);
}.

(** *** Lemmas *)

Lemma json_float_finite (x : spec_float) : finite x = true → ∃ lit, json_float x = Ok lit.
Proof. destruct x as [| | |s m e]; try done; cbn [json_float]; [by eexists|]. destruct (shortest m e). by eexists. Qed.

Lemma dec_int64_ok (z old : Z) : int64_ok z → dec_int64 (json_int z) old = Some z.
Proof. apply dec_int64_format. Qed.

Lemma dec_string_ok (s old : string) : ValidString s = true → dec_string (JStr (ToValidUTF8 s)) old = Some s.
Proof. intros H. by rewrite ToValidUTF8_valid. Qed.

Lemma dec_uint64_json (n old : N) : (n ≤ max_uint64)%N → dec_uint64 (json_uint n) old = Some n.
Proof. apply dec_uint64_format. Qed.

Ltac dec_step :=
  cbn -[dec_int64 dec_uint64 dec_string dec_time json_int json_uint];
  rewrite ?dec_int64_ok, ?dec_uint64_json, ?dec_string_ok by done.

Lemma norm_int (z : Z) : norm (json_int z) = json_int z.
Proof. done. Qed.
Lemma norm_uint (n : N) : norm (json_uint n) = json_uint n.
Proof. done. Qed.
Lemma norm_str (s : string) : ValidString s = true → norm (JStr s) = JStr s.
Proof. intros H. cbn. by rewrite ToValidUTF8_valid. Qed.

Lemma dec_time_ok (t old : Time) : time_ok t → dec_time (JStr (format_rfc3339nano t)) old = Some t.
Proof. apply Parse_format_rfc3339nano. Qed.

(** The members of an object as a reader sees them, one at a time. *)
Definition norm_fields : list (string * json) → list (string * json) := map (λ f, (ToValidUTF8 f.1, norm f.2)).

Lemma decode_obj {A} (set : string → json → A → option A) fs (a a' : A) :
  decode_fields set (norm_fields fs) a = Some a' → decode_struct set (norm (JObj fs)) a = Some a'.
Proof. done. Qed.

Lemma decode_cons {A} (set : string → json → A → option A) (k : string) (v : json) fs (a a' a'' : A) :
  ToValidUTF8 k = k → set k (norm v) a = Some a' → decode_fields set (norm_fields fs) a' = Some a'' →
  decode_fields set (norm_fields ((k, v) :: fs)) a = Some a''.
Proof.
  intros Hk H H'.
  change (match set (ToValidUTF8 k) (norm v) a with
          | Some b => decode_fields set (norm_fields fs) b | None => None end = Some a'').
  by rewrite Hk, H.
Qed.

(** The field of a known name, then the fields behind it. *)
Ltac eval_names :=
  repeat match goal with
  | |- context [name_is ?a ?b] => let v := eval vm_compute in (name_is a b) in change (name_is a b) with v
  end.
Ltac read_field_by set_field tac :=
  eapply decode_cons;
  [ reflexivity | unfold set_field at 1; eval_names; cbv beta iota; tac; reflexivity | ].
Ltac read_field set_field :=
  read_field_by set_field ltac:(
    rewrite ?norm_int, ?norm_uint, ?norm_str, ?dec_int64_ok, ?dec_uint64_json, ?dec_time_ok
      by (done || apply format_rfc3339nano_valid)).

Lemma snapshot_reads_back (s old : Snapshot) :
  snapshot_ok s → decode_struct set_latency_field (norm (latency_json s)) old = Some s.
Proof.
  intros [Hc Hd]. apply decode_obj. destruct old.
  rewrite !Forall_cons in Hd. destruct Hd as (?&?&?&?&?&?&?&?&_).
  do 9 read_field set_latency_field. by destruct s.
Qed.

Lemma env_reads_back (e old : Env) :
  env_ok e → PaladinBuild old = "" →
  decode_struct set_env_field (norm (env_json (JStr (format_rfc3339nano (Timestamp e))) e)) old = Some e.
Proof.
  intros [Ht Hs Hi] Hb. apply decode_obj. destruct old as [ts go os arch cpu procs host build]. cbn in Hb. subst build.
  rewrite !Forall_cons in Hs. rewrite !Forall_cons in Hi. destruct Hs as (?&?&?&?&?&_), Hi as (?&?&_).
  cbn [app].
  do 7 read_field set_env_field.
  destruct (String.eqb_spec (PaladinBuild e) "") as [Hb|Hb]; [destruct e; cbn in *; by subst|].
  read_field set_env_field. by destruct e.
Qed.

Lemma env_json_obj (timestamp : json) (e : Env) : ∃ fs, env_json timestamp e = JObj fs.
Proof. by eexists. Qed.

Lemma classes_read_back (l old : list N) :
  Forall (λ n, (n ≤ max_uint64)%N) l → length l = length old →
  dec_array dec_uint64 0%N (norm (JArr (map json_uint l))) old = Some l.
Proof.
  intros Hl Hlen. cbn [norm]. rewrite map_map. apply (decode_array_map _ json_uint); [|done].
  intros n b Hn. rewrite Forall_forall in Hl. by apply dec_uint64_json, Hl.
Qed.

(** The document of a result of the sound form is read back as the result. *)
Lemma result_reads_back (r : Result) (j : json) :
  result_ok r → result_json r = Ok j → decode_struct set_result_field (norm j) zero_result = Some r.
Proof.
  intros [Ht Hs Hi Hc Hcl [Hv Hf] Hl He] Hj. unfold result_json in Hj.
  rewrite (time_json_ok _ Ht), (time_json_ok _ (eo_time _ He)) in Hj.
  destruct (json_float (r_RPS r)) as [rps| |] eqn:Hrps; [|done..]. cbn [mbind res_bind] in Hj. injection Hj as <-.
  rewrite !Forall_cons in Hi. destruct Hi as (?&?&?&_).
  rewrite !Forall_cons in Hc. destruct Hc as (?&?&Hc).
  apply decode_obj. cbn [app]. unfold zero_result. do 4 read_field set_result_field.
  match goal with |- decode_fields _ (norm_fields (_ ++ ?fs)) ?a = _ =>
    assert (decode_fields set_result_field (norm_fields fs)
      (mkResult (r_Scenario r) (r_StartedAt r) (r_Duration r) (r_Concurrency r) (r_RPSCap r) 0 0 [0; 0; 0; 0; 0; 0]%N
        (S754_zero false) (mkSnapshot 0 0 0 0 0 0 0 0 0) (mkEnv zero_time "" "" "" 0 0 "" "")) = Some r) as Hrest end.
  { do 2 read_field set_result_field.
    read_field_by set_result_field ltac:(rewrite classes_read_back by done).
    read_field_by set_result_field ltac:(
      change (norm (JNum rps)) with (JNum rps); rewrite (dec_float64_json (r_RPS r)) by done).
    read_field_by set_result_field ltac:(rewrite snapshot_reads_back by done).
    read_field_by set_result_field ltac:(rewrite env_reads_back by done).
    by destruct r. }
  destruct (Z.eqb_spec (r_RPSCap r) 0) as [Hcap|Hcap]; [by rewrite Hcap in Hrest|].
  cbn [app]. read_field set_result_field. exact Hrest.
Qed.

Lemma wf_json_int (z : Z) : wf_json (json_int z).
Proof. constructor. apply json_number_int. Qed.

Lemma wf_json_uint (n : N) : wf_json (json_uint n).
Proof. constructor. Qed.

Lemma wf_json_members (fs : list (string * json)) : Forall wf_json fs.*2 → wf_json (JObj fs).
Proof. intros H. constructor. exact (proj1 (Forall_fmap _ _ _) H). Qed.

#[local] Hint Resolve wf_json_int wf_json_uint : paladin.

Lemma latency_json_wf (s : Snapshot) : wf_json (latency_json s).
Proof. apply wf_json_members. cbn -[json_int json_uint]. repeat (apply Forall_cons; split; [auto with paladin|]). done. Qed.

Lemma env_json_wf (t : string) (e : Env) : wf_json (env_json (JStr t) e).
Proof.
  apply wf_json_members. destruct (String.eqb (PaladinBuild e) ""); cbn -[json_int];
    repeat (apply Forall_cons; split; [auto with paladin|]); done.
Qed.

Lemma result_json_wf (r : Result) (j : json) :
  valid_binary 53 1024 (r_RPS r) = true → result_json r = Ok j → wf_json j.
Proof.
  intros Hv Hj. unfold result_json in Hj.
  assert (∀ t x, time_json t = Ok x → ∃ s, x = JStr s) as Htime.
  { intros t x. unfold time_json. destruct (_ || _); [done|]. destruct (24 <=? _)%Z; [done|]. intros [= <-]. by eexists. }
  destruct (time_json (r_StartedAt r)) as [st| |] eqn:Hst; [|done..].
  destruct (json_float (r_RPS r)) as [rps| |] eqn:Hrps; [|done..].
  destruct (time_json (Timestamp (r_Env r))) as [ts| |] eqn:Hts; [|done..]. cbn [mbind res_bind] in Hj. injection Hj as <-.
  destruct (Htime _ _ Hst) as [s ->], (Htime _ _ Hts) as [u ->].
  destruct (ParseFloat_json_float _ _ Hv Hrps) as [_ Hnum].
  assert (wf_json (JArr (map json_uint (r_StatusClass r)))) as Hcl
    by (constructor; apply Forall_map, Forall_true; constructor).
  pose proof (latency_json_wf (r_Latency r)) as Hl. pose proof (env_json_wf u (r_Env r)) as He.
  apply wf_json_members. revert Hcl Hl He. generalize (JArr (map json_uint (r_StatusClass r))) as a,
    (latency_json (r_Latency r)) as b, (env_json (JStr u) (r_Env r)) as c. intros a b c Hcl Hl He.
  destruct (r_RPSCap r =? 0)%Z; cbn -[json_int json_uint]; repeat (apply Forall_cons; split; [auto with paladin|]); done.
Qed.

Lemma json_parse_line (j : json) (s : string) :
  wf_json j → json_MarshalIndent j = Ok s → json_parse (s +:+ String "010" "") = Some (norm j).
Proof.
  intros Hwf [= <-]. unfold json_parse. by rewrite parse_render; [|intros; apply spaces_ws|..].
Qed.

Lemma Unmarshal_result (r : Result) (j : json) (s : string) :
  result_ok r → result_json r = Ok j → json_MarshalIndent j = Ok s →
  result_Unmarshal (s +:+ String "010" "") = Ok r.
Proof.
  intros Hr Hj Hs. unfold result_Unmarshal.
  rewrite (json_parse_line j) by (done || by eapply result_json_wf; [apply (ro_rps r Hr)|]).
  by rewrite (result_reads_back r).
Qed.

Lemma result_json_ok (r : Result) : result_ok r → ∃ j, result_json r = Ok j.
Proof.
  intros [Ht _ _ _ _ [_ Hf] _ He]. destruct (json_float_finite _ Hf) as [lit Hlit].
  unfold result_json. rewrite (time_json_ok _ Ht), (time_json_ok _ (eo_time _ He)), Hlit. by eexists.
Qed.

(** The directory is made first. *)
Definition made_dir {F} `{!FileSystem F} (f : F) (path : string) : F :=
  if String.eqb (Dir path) "" then f else os_MkdirAll f (Dir path).

Section kept.
Context {F : Type} `{!FileSystem F, !FileSystemLaws F}.

(** A result that was saved is read back, and other files are as they were. *)
Lemma SaveJSON_kept (f f' : F) (r : Result) (path : string) :
  result_ok r → SaveJSON f r path = (f', Ok tt) →
  LoadJSON f' path = Ok r ∧ ∀ q s, other_file path q → os_ReadFile f q = Ok s → os_ReadFile f' q = Ok s.
Proof.
  intros Hr. unfold SaveJSON. fold (made_dir f path).
  destruct (os_Create (made_dir f path) path) as [f1 [[]| |]] eqn:Hc; [|done..].
  pose proof (create_law _ _ _ Hc) as He. destruct (result_json_ok r Hr) as [j Hj]. rewrite Hj. cbn [mbind res_bind].
  destruct (json_MarshalIndent j) as [s| |] eqn:Hs; [|done..]. intros Hw.
  pose proof (write_law _ _ _ _ _ He Hw) as Hread. split.
  - unfold LoadJSON. rewrite Hread. cbn [mbind res_bind String.append]. by rewrite (Unmarshal_result r j).
  - intros q t Hne Ht. pose proof (write_other f1 path q t (s +:+ String "010" "") Hne) as Ho. rewrite Hw in Ho.
    apply Ho. pose proof (create_other (made_dir f path) path q t Hne) as Hq. rewrite Hc in Hq. apply Hq.
    unfold made_dir. case_match; [done|]. by apply mkdir_law.
Qed.

(** It is saved if the file can be created and written. *)
Lemma SaveJSON_saves (f f1 : F) (r : Result) (path : string) :
  result_ok r → os_Create (made_dir f path) path = (f1, Ok tt) →
  (∀ text, (file_Write f1 path text).2 = Ok tt) → ∃ f2, SaveJSON f r path = (f2, Ok tt).
Proof.
  intros Hr Hc Hw. destruct (result_json_ok r Hr) as [j Hj]. unfold SaveJSON. fold (made_dir f path).
  rewrite Hc, Hj. cbn [mbind res_bind]. unfold json_MarshalIndent.
  match goal with |- context [file_Write f1 path ?t] => specialize (Hw t); destruct (file_Write f1 path t) end.
  cbn in Hw. subst. by eexists.
Qed.

(** A result without a JSON form leaves an empty file, which is no result. *)
Lemma SaveJSON_fails (f f1 : F) (r : Result) (path : string) (e : error) :
  result_json r = Err e → os_Create (made_dir f path) path = (f1, Ok tt) →
  SaveJSON f r path = (f1, Err e) ∧
  LoadJSON f1 path = Err (EWrap ("decode " +:+ path) (EMsg "json: invalid syntax")).
Proof.
  intros He Hc. pose proof (create_law _ _ _ Hc) as Hread. split.
  - unfold SaveJSON. fold (made_dir f path). by rewrite Hc, He.
  - unfold LoadJSON. by rewrite Hread.
Qed.
End kept.

(** *** The rate of a run *)

Lemma float_of_int_bits (n k : Z) : (0 < n < 2 ^ k)%Z → (0 ≤ k ≤ 900)%Z → between 1 (k + 1) (float_of_int n).
Proof.
  intros Hn Hk. pose proof (Zdigits2_le n k ltac:(lia) ltac:(lia)).
  destruct (Zdigits2_spec n (Zdigits2 n)) as (Hd & _); [lia|done|].
  eapply between_weaken; [apply float_of_int_between|..]; lia.
Qed.

Lemma Seconds_between (d : Z) : (0 < d < two63)%Z → between (-29) 67 (Duration_Seconds d).
Proof.
  intros Hd. unfold Duration_Seconds.
  assert (between 30 30 (float_of_int 1000000000)) as H9.
  { exists 8388608000000000%positive, (-23)%Z. by split; [vm_compute|vm_compute; split; discriminate]. }
  assert (0 ≤ Z.quot d Second < 2 ^ 63 ∧ 0 ≤ Z.rem d Second < 2 ^ 30 ∧
          (Z.quot d Second = 0 → 0 < Z.rem d Second))%Z as (Hq & Hr & Hz).
  { change (2 ^ 63)%Z with two63. change (2 ^ 30)%Z with 1073741824%Z. unfold Second, two63 in *.
    Z.to_euclidean_division_equations. lia. }
  revert Hq Hr Hz. generalize (Z.quot d Second), (Z.rem d Second). intros q r Hq Hr Hz.
  assert (0 < r → between (-29) 3 (float_div (float_of_int r) (float_of_int 1000000000)))%Z as Hfrac.
  { intros Hr0. eapply between_weaken; [eapply float_div_between; [apply (float_of_int_bits r 30)|exact H9|..]|..]; lia. }
  destruct (decide (q = 0)%Z) as [->|Hq0].
  { destruct (Hfrac (Hz eq_refl)) as (m & e & -> & He). exists m, e. split; [done|lia]. }
  pose proof (float_of_int_bits q 63 ltac:(lia) ltac:(lia)) as Hs.
  destruct (decide (r = 0)%Z) as [->|Hr0].
  - destruct Hs as (m & e & -> & He), H9 as (m9 & e9 & -> & _). exists m, e. split; [done|lia].
  - eapply between_weaken; [eapply float_add_between; [exact Hs|apply Hfrac; lia|..]|..]; lia.
Qed.

(** The requests per second of a run are a finite number. *)
Lemma rate_finite (n : N) (d : Z) :
  (n ≤ max_uint64)%N → (0 < d < two63)%Z →
  finite (float_div (float_of_uint64 n) (Duration_Seconds d)) = true.
Proof.
  intros Hn Hd. pose proof (Seconds_between d Hd) as Hs. destruct (decide (n = 0)%N) as [->|Hn0].
  - by destruct Hs as (m & e & -> & _).
  - assert (between (1 - 67) (65 - -29 + 2) (float_div (float_of_uint64 n) (Duration_Seconds d))) as (m & e & -> & _).
    { apply float_div_between; [|done|lia|lia]. apply (float_of_int_bits _ 64); [|lia].
      split; [lia|]. unfold max_uint64 in Hn. change (2 ^ 64)%Z with 18446744073709551616%Z. lia. }
    done.
Qed.

(** *** The results of [Run] *)

(** What the counters hold is of 64 bits, in six classes. *)
Definition counters_ok (c : Counters) : Prop :=
  (err c ≤ max_uint64)%N ∧ Forall (λ n, (n ≤ max_uint64)%N) (status c) ∧ length (status c) = 6.

Lemma AddStatus_ok (c : Counters) (code : Z) : counters_ok c → counters_ok (AddStatus c code).
Proof.
  intros (He & Hs & Hl). unfold AddStatus. set (st := alter _ _ _).
  assert (Forall (λ n, (n ≤ max_uint64)%N) st ∧ length st = 6) as [Hst Hlst].
  { unfold st. rewrite length_alter. split; [|done]. apply Forall_alter; [done|]. intros. apply u64_add_bound. }
  destruct ((200 <=? code)%Z && (code <? 400)%Z); split_and!; try done. apply u64_add_bound.
Qed.

Lemma run_workers_ok (ms : Z) (l : list (nat * iteration)) (hists : list Hist) (c : Counters)
    (p : list Hist * Counters) :
  counters_ok c → run_workers ms hists c l = Ok p → counters_ok p.2.
Proof.
  revert hists c. induction l as [|[w i] l IH]; intros hists c Hc Hr; [by injection Hr as <-|].
  cbn [run_workers] in Hr. apply res_bind_Ok in Hr as (h & _ & Hr). apply res_bind_Ok in Hr as (q & Hq & Hr).
  apply res_bind_Ok in Hr as (hs & _ & Hr). eapply IH; [|exact Hr]. unfold worker_step in Hq.
  destruct (it_t0 i <? ms)%Z; [by injection Hq as <-|].
  destruct (it_err i && it_cancelled i); [by injection Hq as <-|].
  apply res_bind_Ok in Hq as (h' & _ & Hq). injection Hq as <-. by apply AddStatus_ok.
Qed.

Lemma merge_all_count (h h' : Hist) (hs : list Hist) :
  (count h ≤ max_uint64)%N → merge_all h hs = Ok h' → (count h' ≤ max_uint64)%N.
Proof.
  revert h. induction hs as [|o hs IH]; intros h Hc Hm; [by injection Hm as <-|].
  cbn [merge_all] in Hm. apply res_bind_Ok in Hm as (h1 & Hh1 & Hm). eapply IH; [|exact Hm].
  unfold Merge in Hh1. destruct (count o =? 0)%N; [by injection Hh1 as <-|].
  apply res_bind_Ok in Hh1 as (bs & _ & Hh1). injection Hh1 as <-. apply u64_add_bound.
Qed.

Lemma Percentile_int64 (h : Hist) (p : spec_float) : int64_ok (Percentile h p).
Proof.
  unfold Percentile. destruct (count h =? 0)%N; [done|].
  generalize (Z.of_nat (length (buckets h))), (rank (count h) p), 0%Z, 0%N. intros n target i cum.
  revert i cum. induction (buckets h) as [|c bs IH]; intros i cum; cbn [percentile_loop]; [apply int64_bound|].
  destruct (target <=? u64_add cum c)%N; [|apply IH]. destruct (i =? n - 1)%Z; [apply int64_bound|].
  cbv zeta. pose proof (int64_bound (int64 (i * bucketWidth h) + int64 (int64 (i * bucketWidth h) + bucketWidth h))) as Hb.
  revert Hb. generalize (int64 (int64 (i * bucketWidth h) + int64 (int64 (i * bucketWidth h) + bucketWidth h))).
  unfold int64_ok, two63. intros z Hz. Z.to_euclidean_division_equations. lia.
Qed.

Lemma Hist_Snapshot_ok (h : Hist) : (count h ≤ max_uint64)%N → snapshot_ok (Hist_Snapshot h).
Proof.
  intros Hc. split; [done|]. cbn [sn_Min sn_Mean sn_P50 sn_P90 sn_P95 sn_P99 sn_P999 sn_Max Hist_Snapshot].
  assert (int64_ok (Min h) ∧ int64_ok (Mean h)) as [??]
    by (unfold Min, Mean; split; destruct (count h =? 0)%N; try done; apply int64_bound).
  rewrite !Forall_cons. split_and!; try apply Percentile_int64; try done; apply int64_bound.
Qed.

(** What the operating system and the runtime say has the form of their types, is
    text in UTF-8 and of a time JSON can hold. *)
Record host_ok (h : Host) : Prop := {
  ho_time : time_ok (time_Now h);
  ho_strings : Forall (λ s, ValidString s = true)
    [runtime_Version h; runtime_GOOS h; runtime_GOARCH h; os_Getenv h "PALADIN_BUILD"];
  ho_name : ∀ name, os_Hostname h = Ok name → ValidString name = true;
  ho_ints : Forall int64_ok [runtime_NumCPU h; runtime_GOMAXPROCS h];
}.

Lemma CollectEnv_ok (h : Host) : host_ok h → env_ok (CollectEnv h).
Proof.
  intros [Ht Hs Hn Hi]. rewrite !Forall_cons in Hs. destruct Hs as (?&?&?&?&_).
  split; [done| |done]. cbn [CollectEnv Go GOOS GOARCH Hostname PaladinBuild].
  repeat constructor; try done. destruct (os_Hostname h) as [name| |]; [by apply Hn|done..].
Qed.

(** The configuration and the clock are of 64 bits, and the measurement begins at a
    time JSON can hold. *)
Record run_ok (lc : LoadConfig) (startedAt now : Z) (h : Host) : Prop := {
  uo_ints : Forall int64_ok [Concurrency lc; RPSCap lc; Duration lc; now - (startedAt + WarmUp lc)]%Z;
  uo_time : time_ok (mkTime (startedAt + WarmUp lc) (time_Local h (startedAt + WarmUp lc)));
}.

(** Whatever the workers met, the result of a run has a JSON form that keeps it. *)
Lemma Run_result_ok (name : string) (lc : LoadConfig) (setup : res unit) (startedAt now : Z)
    (l : list (nat * iteration)) (host : Host) (r : Result) :
  ValidString name = true → host_ok host → run_ok lc startedAt now host →
  Run name lc setup startedAt now l host = Ok r → result_ok r.
Proof.
  intros Hname Hh [Hi Ht] Hr. rewrite !Forall_cons in Hi. destruct Hi as (Hconc & Hcap & Hdur & Hact & _).
  unfold Run in Hr. destruct setup as [u| |]; [|done..].
  apply res_bind_Ok in Hr as ([hists c] & Hw & Hr).
  apply res_bind_Ok in Hr as (total & Hm & Hr). injection Hr as <-.
  apply run_workers_ok in Hw as (He & Hs & Hl); [|by split_and!; repeat constructor].
  apply merge_all_count in Hm; [|done].
  set (conc := if (Concurrency lc <=? 0)%Z then _ else _). set (dur := if (now - _ <=? 0)%Z then _ else _).
  assert (0 < conc < two63 ∧ 0 < dur < two63)%Z as [Hc Hpos].
  { unfold conc, dur. clear -Hact Hdur Hconc. unfold int64_ok, two63, Second in *.
    destruct (Z.leb_spec (Concurrency lc) 0), (Z.leb_spec (now - (startedAt + WarmUp lc)) 0),
      (Z.leb_spec (Duration lc) 0); lia. }
  split; cbn [r_StartedAt r_Scenario r_Duration r_Concurrency r_RPSCap r_Count r_Errors r_StatusClass r_RPS r_Latency r_Env].
  - done.
  - done.
  - rewrite !Forall_cons. split_and!; [| |exact Hcap|done]; clear -Hpos Hc; unfold int64_ok, two63 in *; lia.
  - by repeat constructor.
  - done.
  - split; [apply float_div_valid|by apply rate_finite].
  - by apply Hist_Snapshot_ok.
  - by apply CollectEnv_ok.
Qed.

(** ** Properties *)

(** A result of a run, whatever its workers met, is read back from the file it is
    saved to: all its times, counts, latencies and its rate, bit for bit, and the
    rate is a number; other files are as they were. *)
Theorem run_result_kept {F : Type} `{!FileSystem F, !FileSystemLaws F} (f f1 : F) (path name : string)
    (lc : LoadConfig) (setup : res unit) (startedAt now : Z) (l : list (nat * iteration)) (host : Host) (r : Result) :
  ValidString name = true → host_ok host → run_ok lc startedAt now host →
  Run name lc setup startedAt now l host = Ok r →
  os_Create (made_dir f path) path = (f1, Ok tt) → (∀ text, (file_Write f1 path text).2 = Ok tt) →
  ∃ f2, SaveJSON f r path = (f2, Ok tt) ∧ LoadJSON f2 path = Ok r ∧ finite (r_RPS r) = true ∧
        ∀ q s, other_file path q → os_ReadFile f q = Ok s → os_ReadFile f2 q = Ok s.
Proof.
  intros Hname Hh Hrun Hr Hc Hw. pose proof (Run_result_ok _ _ _ _ _ _ _ _ Hname Hh Hrun Hr) as Hok.
  destruct (SaveJSON_saves f f1 r path Hok Hc Hw) as [f2 Hs]. exists f2.
  destruct (SaveJSON_kept f f2 r path Hok Hs) as [Hl Ho]. split_and!; [done|done|apply (ro_rps r Hok)|done].
Qed.

(** ** Concrete runs *)

Lemma run_result_kept_witness :
  ∃ r f2, Run "mixed" demo_load (Ok tt) 0 (2 * Second) demo_iterations demo_host = Ok r ∧
    SaveJSON (∅ : mem_fs) r "results/mixed.json" = (f2, Ok tt) ∧ LoadJSON f2 "results/mixed.json" = Ok r.
Proof.
  destruct (Run_spec "mixed" demo_load 0 (2 * Second) demo_iterations demo_host) as (r & _ & _ & Hr & _).
  - repeat constructor.
  - split; vm_compute; discriminate.
  - destruct (run_result_kept (∅ : mem_fs) {["results/mixed.json" := ""]} "results/mixed.json" "mixed"
      demo_load (Ok tt) 0 (2 * Second) demo_iterations demo_host r) as (f2 & Hs & Hl & _).
    + reflexivity.
    + split; [vm_compute; repeat split; discriminate|repeat constructor|by intros name [= <-]|repeat constructor; by vm_compute].
    + split; [repeat constructor; by vm_compute|vm_compute; repeat split; discriminate].
    + exact Hr.
    + reflexivity.
    + done.
    + exists r, f2. split; [exact Hr|]. split; [exact Hs|exact Hl].
Defined.
