(* ===== verification/Report.v ===== *)
(** [src/bench/report.go]: the Markdown report of a list of results.  The writer is the
    string that is written; results are not [nil], as those of [Run] and [LoadJSON]. *)

From Stdlib Require Import SpecFloat.
From S2P Require Import Prelude GoStrings GoEncoding GoText GoFmt GoTime GoSort BenchEnv Hist Load.

Local Open Scope string_scope.
Local Open Scope list_scope.
Local Open Scope nat_scope.

(** ** Formats *)

Definition formatDur (d : Z) : string :=
  if (Second <=? d)%Z then format_float 2 (Duration_Seconds d) +:+ "s"
  else if (Millisecond <=? d)%Z
  then format_float 2 (float_div (float_of_int d) (float_of_int Millisecond)) +:+ "ms"
  else if (Microsecond <=? d)%Z
  then format_float 0 (float_div (float_of_int d) (float_of_int Microsecond)) +:+ "µs"
  else format_int d +:+ "ns".

Definition class_names : list string := ["err"; "1xx"; "2xx"; "3xx"; "4xx"; "5xx"].

(** The argument is an array of six counts. *)
Definition statusClassSummary (c : list N) : string :=
  let parts := map (λ p, p.1 +:+ "=" +:+ format_uint p.2)
                 (filter (λ p, (0 < p.2)%N) (combine class_names c)) in
  match parts with
  | [] => "(none)"
  | _ => Join parts " "
  end.

(** ** The report *)

(** The order of the rows. *)
Definition result_less (a b : Result) : bool :=
  if negb (String.eqb (r_Scenario a) (r_Scenario b))
  then String.ltb (r_Scenario a) (r_Scenario b)
  else (r_Concurrency a <? r_Concurrency b)%Z.

Definition env_lines (env : Env) : list string :=
  ["## Environment";
   "- Timestamp: " +:+ format_rfc3339 (Timestamp env);
   "- Host: " +:+ Hostname env;
   "- OS/Arch: " +:+ GOOS env +:+ "/" +:+ GOARCH env;
   "- CPUs: " +:+ format_int (NumCPU env) +:+ " (GOMAXPROCS=" +:+ format_int (GOMAXPROCS env) +:+ ")";
   "- Go: " +:+ Go env]
  ++ (if negb (String.eqb (PaladinBuild env) "") then ["- Paladin build: " +:+ PaladinBuild env] else [])
  ++ [""].

Definition summary_row (r : Result) : string :=
  let s := r_Latency r in
  "| " +:+ Join [r_Scenario r; format_int (r_Concurrency r); formatDur (r_Duration r);
                 format_float 0 (r_RPS r); formatDur (sn_P50 s); formatDur (sn_P95 s);
                 formatDur (sn_P99 s); formatDur (sn_P999 s); formatDur (sn_Max s);
                 format_uint (r_Errors r)] " | " +:+ " |".

Definition detail_lines (r : Result) : list string :=
  let s := r_Latency r in
  ["### " +:+ r_Scenario r +:+ " (concurrency=" +:+ format_int (r_Concurrency r) +:+ ", duration="
     +:+ formatDur (r_Duration r) +:+ ")";
   "";
   "- Total requests: " +:+ format_uint (r_Count r);
   "- RPS: " +:+ format_float 1 (r_RPS r);
   "- Errors: " +:+ format_uint (r_Errors r);
   "- Status class: " +:+ statusClassSummary (r_StatusClass r);
   "- Latency:";
   "  - min=" +:+ formatDur (sn_Min s) +:+ " mean=" +:+ formatDur (sn_Mean s) +:+ " max="
     +:+ formatDur (sn_Max s);
   "  - p50=" +:+ formatDur (sn_P50 s) +:+ " p90=" +:+ formatDur (sn_P90 s) +:+ " p95="
     +:+ formatDur (sn_P95 s) +:+ " p99=" +:+ formatDur (sn_P99 s) +:+ " p99.9="
     +:+ formatDur (sn_P999 s);
   ""].

(** What is written, and the slice of the caller, which is sorted in place. *)
Definition RenderMarkdown (title : string) (results : list Result) : string * list Result :=
  match SliceStable result_less results with
  | [] => (lines ["# " +:+ title; ""; "_No results._"], results)
  | r :: rs =>
      let results := r :: rs in
      (lines (["# " +:+ title; ""]
              ++ env_lines (r_Env r)
              ++ ["## Summary";
                  "| Scenario | Conc | Dur | RPS | P50 | P95 | P99 | P99.9 | Max | Errors |";
                  "|---|---:|---:|---:|---:|---:|---:|---:|---:|---:|"]
              ++ map summary_row results
              ++ [""; "## Details"]
              ++ concat (map detail_lines results)), results)
  end.

Example formatDur_examples :
  formatDur 999 = "999ns" ∧ formatDur 1500 = "2µs" ∧ formatDur 12345678 = "12.35ms" ∧
  formatDur 999999999 = "1000.00ms" ∧ formatDur 10250000000 = "10.25s" ∧ formatDur (-5) = "-5ns".
Proof. vm_compute. done. Qed.

Example statusClassSummary_example :
  statusClassSummary [1; 0; 95; 0; 4; 0]%N = "err=1 2xx=95 4xx=4" ∧
  statusClassSummary [0; 0; 0; 0; 0; 0]%N = "(none)".
Proof. vm_compute. done. Qed.

(** ** Lemmas *)

Lemma ltb_false (s t : string) : String.ltb s t = false ↔ String.le t s.
Proof.
  unfold String.ltb, String.le, String.leb. rewrite (String.compare_antisym s t).
  by destruct (String.compare t s).
Qed.

(** One result may come before another. *)
Lemma not_above_result (a b : Result) :
  not_above result_less a b ↔
  (r_Scenario a ≠ r_Scenario b ∧ String.le (r_Scenario a) (r_Scenario b)) ∨
  (r_Scenario a = r_Scenario b ∧ (r_Concurrency a ≤ r_Concurrency b)%Z).
Proof.
  unfold not_above, result_less.
  destruct (String.eqb_spec (r_Scenario b) (r_Scenario a)) as [He|Hne]; cbn [negb].
  - rewrite Z.ltb_ge, He. split; [by right|]. by intros [[]|[]].
  - rewrite ltb_false. split; [by left|]. by intros [[]|[]].
Qed.

Lemma result_less_asym (a b : Result) : result_less a b = true → result_less b a = false.
Proof.
  intros H. fold (not_above result_less a b). apply not_above_result. unfold result_less in H.
  destruct (String.eqb_spec (r_Scenario a) (r_Scenario b)) as [He|Hne]; cbn [negb] in H.
  - apply Z.ltb_lt in H. right. split; [done|lia].
  - left. split; [done|]. destruct (total String.le (r_Scenario a) (r_Scenario b)) as [Hle|Hle]; [done|].
    apply ltb_false in Hle. congruence.
Qed.

#[export] Instance not_above_result_trans : Transitive (not_above result_less).
Proof.
  intros a b c. rewrite !not_above_result. intros [[H1 H2]|[H1 H2]] [[H3 H4]|[H3 H4]].
  - left. split; [|by etrans]. intros He. apply H1. rewrite <- He in H4. by apply (anti_symm String.le).
  - left. rewrite <- H3. by split.
  - left. rewrite H1. by split.
  - right. split; [congruence|lia].
Qed.

Lemma not_above_both (a b : Result) :
  not_above result_less a b → not_above result_less b a →
  r_Scenario a = r_Scenario b ∧ r_Concurrency a = r_Concurrency b.
Proof.
  rewrite !not_above_result. intros [[H1 H2]|[H1 H2]] [[H3 H4]|[H3 H4]]; try congruence.
  - exfalso. apply H1. by apply (anti_symm String.le).
  - split; [done|lia].
Qed.

(** What identifies a run in a report. *)
Definition run_key (r : Result) : string * Z := (r_Scenario r, r_Concurrency r).

(** Runs that differ in scenario or concurrency. *)
Lemma distinct_runs (l : list Result) (a b : Result) :
  NoDup (map run_key l) → a ∈ l → b ∈ l → run_key a = run_key b → a = b.
Proof.
  intros Hnd Ha Hb Hk. apply list_elem_of_lookup in Ha as [i Hi], Hb as [j Hj].
  assert (i = j) as <-; [|congruence].
  apply (NoDup_lookup (map run_key l) i j (run_key a)); [done|..].
  - by rewrite list_lookup_fmap, Hi.
  - by rewrite list_lookup_fmap, Hj, Hk.
Qed.

(** ** Properties *)

(** C33: The report does not depend on the order in which the results are given: runs
    that differ in scenario or concurrency give the same text in any order, runs
    that do not differ stay in the order they were given, and the caller's slice is
    left in the order of the report. *)
Theorem report_canonical (title : string) (l l' : list Result) :
  let report := RenderMarkdown title in
  (NoDup (map run_key l) → l ≡ₚ l' → report l = report l') ∧
  (report l).2 ≡ₚ l ∧ StronglySorted (not_above result_less) (report l).2 ∧
  (∀ k, filter (λ r, run_key r = k) (report l).2 = filter (λ r, run_key r = k) l).
Proof.
  intros report.
  assert ((report l).2 = SliceStable result_less l) as Hl.
  { unfold report, RenderMarkdown. destruct (SliceStable result_less l) eqn:Hs; [|done].
    pose proof (SliceStable_Permutation result_less l) as Hp. rewrite Hs in Hp.
    by apply Permutation_nil_l in Hp as <-. }
  split_and!.
  - intros Hnd Hp. unfold report, RenderMarkdown.
    rewrite (SliceStable_unique result_less l l' result_less_asym _); [|..|done].
    + destruct (SliceStable result_less l') eqn:Hs; [|done].
      pose proof (SliceStable_Permutation result_less l') as Hp'. rewrite Hs in Hp'.
      rewrite <- Hp in Hp'. apply Permutation_nil_l in Hp' as <-.
      by apply Permutation_nil_l in Hp as <-.
    + intros a b Ha Hb Hab Hba. apply (distinct_runs l); try done.
      unfold run_key. by destruct (not_above_both b a) as [-> ->].
  - rewrite Hl. apply SliceStable_Permutation.
  - rewrite Hl. apply SliceStable_sorted; [apply result_less_asym|apply _].
  - intros k. rewrite Hl. apply SliceStable_stable; [apply result_less_asym|apply _|].
    intros a b Ha Hb. apply not_above_result. right. unfold run_key in *. split; [congruence|].
    replace (r_Concurrency a) with (r_Concurrency b) by congruence. lia.
Qed.

(** ** Concrete runs *)

Definition demo_result (name : string) (conc : Z) : Result :=
  mkResult name (mkTime 0 0) (10 * Second) conc 0 1000 4 [1; 0; 996; 0; 3; 0]%N (float_of_int 100)
    (mkSnapshot 1000 80000 120000 110000 200000 300000 1500000 12345678 20000000)
    (mkEnv (mkTime 0 0) "go1.22" "linux" "amd64" 8 8 "bench-1" "").

Lemma report_canonical_witness :
  RenderMarkdown "t" [demo_result "write_only" 64; demo_result "read_only" 8; demo_result "write_only" 8]
  = RenderMarkdown "t" [demo_result "read_only" 8; demo_result "write_only" 8; demo_result "write_only" 64].
Proof.
  destruct (report_canonical "t"
    [demo_result "write_only" 64; demo_result "read_only" 8; demo_result "write_only" 8]
    [demo_result "read_only" 8; demo_result "write_only" 8; demo_result "write_only" 64]) as [H _].
  apply H.
  - apply (bool_decide_unpack _). vm_compute. exact I.
  - rewrite Permutation_swap. apply perm_skip. apply Permutation_swap.
Defined.
