(* ===== verification/Scenarios.v ===== *)
(** [src/bench/scenario.go] and [src/bench/scenarios.go]: the workloads of the
    benchmark.  The HTTP client acts on a world [W], so that a scenario can be run
    against a server; it and the pseudo-random numbers are parameters.  The pause
    of [Setup] is left out. *)

From S2P Require Import Prelude GoStrings GoEncoding GoFmt GoTime GoJson JsonFields Entry BoltDB Kv StoreSpec.
From S2P Require Import BoltStore WatchCache Watchable Http Server.

Local Open Scope string_scope.
Local Open Scope list_scope.
Local Open Scope nat_scope.

(** ** Configuration and helpers *)

(** [type ScenarioConfig struct] *)
Record ScenarioConfig := mkScenarioConfig {
  Addrs : list string;
  Tenant : string;
  Namespace : string;
  NumKeys : Z;
  ValueSize : Z;
  Timeout : Z;
}.

(** The [i]-th key. *)
Definition pool_key (tenant ns : string) (i : nat) : string :=
  tenant +:+ "/" +:+ ns +:+ "/k" +:+ format_padded 8 (N.of_nat i).

(** [make] of a negative length panics. *)
Definition makeKeyPool (tenant ns : string) (n : Z) : res (list string) :=
  if (n <? 0)%Z then Panic else Ok (map (pool_key tenant ns) (seq 0 (Z.to_nat n))).

(** The defaults of the constructors: [keys] is the one of the scenario. *)
Definition scenario_defaults (keys : Z) (cfg : ScenarioConfig) : ScenarioConfig :=
  mkScenarioConfig (Addrs cfg) (Tenant cfg) (Namespace cfg)
    (if (NumKeys cfg =? 0)%Z then keys else NumKeys cfg)
    (if (ValueSize cfg =? 0)%Z then 64%Z else ValueSize cfg)
    (if (Timeout cfg =? 0)%Z then (10 * Second)%Z else Timeout cfg).

Definition config_url (addr : string) : string := "http://" +:+ addr +:+ "/api/v1/config/".

(** [l[int(i)%len(l)]] for a [uint64] counter. *)
Definition ring_get (l : list string) (i : N) : res string :=
  k ← int_rem (int64 (Z.of_N i)) (Z.of_nat (length l));
  slice_get l k.

(** [type Scenario interface] over a world [W]: [Step] gives the status or the error. *)
Class Scenario (W T : Type) := {
  scenario_Name : T → string;
  scenario_Setup : W → T → W * res unit;
  scenario_Step : W → T → W * T * res Z;
  scenario_Teardown : T → res unit;
}.

(** ** The scenarios *)

(** [*http.Client] with its [*http.Transport]: the fields [newHTTPClient] sets. *)
Record http_Client := mkClient {
  MaxIdleConns : Z;
  MaxIdleConnsPerHost : Z;
  MaxConnsPerHost : Z;
  IdleConnTimeout : Z;
  DisableCompression : bool;
  ForceAttemptHTTP2 : bool;
  client_Timeout : Z;
}.

Definition newHTTPClient (timeout : Z) : http_Client :=
  mkClient 4096 4096 4096 (90 * Second) true false timeout.

(** [type WriteOnly struct] and [type ReadOnly struct] *)
Record WriteOnly := mkWriteOnly {
  wo_cfg : ScenarioConfig;
  wo_keys : list string;
  wo_value : string;
  wo_client : http_Client;
  wo_writeURL : string;
  wo_counter : N;
}.

Record ReadOnly := mkReadOnly {
  ro_cfg : ScenarioConfig;
  ro_keys : list string;
  ro_client : http_Client;
  ro_readURLs : list string;
  ro_counter : N;
  ro_rrIdx : N;
}.

(** [type Mixed struct] *)
Record Mixed := mkMixed {
  mx_cfg : ScenarioConfig;
  mx_readPercent : Z;
  mx_r : ReadOnly;
  mx_w : WriteOnly;
  mx_counter : N;
}.

Section scenarios.
(** [rand.New(rand.NewSource(seed)).Intn(26)], the [i]-th time. *)
Variable rand_Intn26 : Z → nat → N.

Definition makeValue (size seed : Z) : res string :=
  if (size <? 0)%Z then Panic
  else Ok (foldr (λ i s, String (ascii_of_N (97 + rand_Intn26 seed i)) s) "" (seq 0 (Z.to_nat size))).

Definition NewWriteOnly (cfg : ScenarioConfig) : res WriteOnly :=
  let cfg := scenario_defaults 10000 cfg in
  keys ← makeKeyPool (Tenant cfg) (Namespace cfg) (NumKeys cfg);
  value ← makeValue (ValueSize cfg) 1;
  addr ← slice_get (Addrs cfg) 0;
  Ok (mkWriteOnly cfg keys value (newHTTPClient (Timeout cfg)) (config_url addr) 0).

Definition NewReadOnly (cfg : ScenarioConfig) : res ReadOnly :=
  let cfg := scenario_defaults 1000 cfg in
  keys ← makeKeyPool (Tenant cfg) (Namespace cfg) (NumKeys cfg);
  Ok (mkReadOnly cfg keys (newHTTPClient (Timeout cfg)) (map config_url (Addrs cfg)) 0 0).

Definition NewMixed (cfg : ScenarioConfig) (readPercent : Z) : res Mixed :=
  r ← NewReadOnly cfg;
  w ← NewWriteOnly cfg;
  Ok (mkMixed cfg readPercent r w 0).

Context {W : Type}.
(** [http.NewRequestWithContext(ctx, method, url, body)] and [client.Do(req)]. *)
Variable http_NewRequest : string → string → go_bytes → res request.
Variable http_Do : W → http_Client → request → W * res response.

Definition with_header (q : request) (k v : string) : request :=
  mkRequest (rq_Method q) (rq_Path q) (rq_Query q) (rq_URL q) (header_Set (rq_Header q) k v)
    (rq_Body q).

(** The status of the response, whose body is read and dropped. *)
Definition do_status (w : W) (c : http_Client) (q : request) : W * res Z :=
  let '(w', r) := http_Do w c q in (w', resp ← r; Ok (rs_Status resp)).

Definition WriteOnly_Name (s : WriteOnly) : string := "write_only".
Definition WriteOnly_Setup (w : W) (s : WriteOnly) : W * res unit := (w, Ok tt).
Definition WriteOnly_Teardown (s : WriteOnly) : res unit := Ok tt.

(** The request of a step, with the counter already increased. *)
Definition write_request (s : WriteOnly) : res request :=
  key ← ring_get (wo_keys s) (wo_counter s);
  req ← http_NewRequest "PUT" (wo_writeURL s +:+ key) (Some (wo_value s));
  Ok (with_header req "Content-Type" "application/octet-stream").

Definition WriteOnly_Step (w : W) (s : WriteOnly) : W * WriteOnly * res Z :=
  let s := mkWriteOnly (wo_cfg s) (wo_keys s) (wo_value s) (wo_client s) (wo_writeURL s)
             (u64_add (wo_counter s) 1) in
  match write_request s with
  | Ok req => let '(w', r) := do_status w (wo_client s) req in (w', s, r)
  | Err e => (w, s, Err e)
  | Panic => (w, s, Panic)
  end.

Definition ReadOnly_Name (s : ReadOnly) : string := "read_only".
Definition ReadOnly_Teardown (s : ReadOnly) : res unit := Ok tt.

(** One key of [Setup]. *)
Definition prepopulate (c : http_Client) (url value : string) (w : W) (k : string) : W * res unit :=
  match http_NewRequest "PUT" (url +:+ k) (Some value) with
  | Panic => (w, Panic)
  | Err e => (w, Err e)
  | Ok req =>
      match do_status w c req with
      | (w', Panic) => (w', Panic)
      | (w', Err e) => (w', Err (EWrap ("prepopulate " +:+ k) e))
      | (w', Ok status) =>
          (w', if (400 <=? status)%Z
               then Err (EMsg ("prepopulate " +:+ k +:+ ": status " +:+ format_int status))
               else Ok tt)
      end
  end.

Fixpoint prepopulate_all (c : http_Client) (url value : string) (w : W) (keys : list string) : W * res unit :=
  match keys with
  | [] => (w, Ok tt)
  | k :: keys' =>
      match prepopulate c url value w k with
      | (w', Ok _) => prepopulate_all c url value w' keys'
      | (w', r) => (w', r)
      end
  end.

Definition ReadOnly_Setup (w : W) (s : ReadOnly) : W * res unit :=
  match slice_get (Addrs (ro_cfg s)) 0, makeValue (ValueSize (ro_cfg s)) 2 with
  | Ok addr, Ok value => prepopulate_all (ro_client s) (config_url addr) value w (ro_keys s)
  | _, _ => (w, Panic)
  end.

(** The request of a step, with both counters already increased. *)
Definition read_request (s : ReadOnly) : res request :=
  key ← ring_get (ro_keys s) (ro_counter s);
  u ← ring_get (ro_readURLs s) (ro_rrIdx s);
  http_NewRequest "GET" (u +:+ key) None.

Definition ReadOnly_Step (w : W) (s : ReadOnly) : W * ReadOnly * res Z :=
  let s := mkReadOnly (ro_cfg s) (ro_keys s) (ro_client s) (ro_readURLs s) (u64_add (ro_counter s) 1)
             (u64_add (ro_rrIdx s) 1) in
  match read_request s with
  | Ok req => let '(w', r) := do_status w (ro_client s) req in (w', s, r)
  | Err e => (w, s, Err e)
  | Panic => (w, s, Panic)
  end.

Definition Mixed_Name (s : Mixed) : string :=
  "mixed_" +:+ format_int (mx_readPercent s) +:+ "r_" +:+ format_int (100 - mx_readPercent s) +:+ "w".
Definition Mixed_Setup (w : W) (s : Mixed) : W * res unit := ReadOnly_Setup w (mx_r s).
Definition Mixed_Teardown (s : Mixed) : res unit := Ok tt.

(** A step of the reader or of the writer, by the counter alone. *)
Definition Mixed_Step (w : W) (s : Mixed) : W * Mixed * res Z :=
  let i := u64_add (mx_counter s) 1 in
  if (Z.of_N (i mod 100) <? mx_readPercent s)%Z then
    let '(w', r, res) := ReadOnly_Step w (mx_r s) in
    (w', mkMixed (mx_cfg s) (mx_readPercent s) r (mx_w s) i, res)
  else
    let '(w', wo, res) := WriteOnly_Step w (mx_w s) in
    (w', mkMixed (mx_cfg s) (mx_readPercent s) (mx_r s) wo i, res).

#[export] Instance write_scenario : Scenario W WriteOnly := {|
  scenario_Name := WriteOnly_Name; scenario_Setup := WriteOnly_Setup;
  scenario_Step := WriteOnly_Step; scenario_Teardown := WriteOnly_Teardown |}.
#[export] Instance read_scenario : Scenario W ReadOnly := {|
  scenario_Name := ReadOnly_Name; scenario_Setup := ReadOnly_Setup;
  scenario_Step := ReadOnly_Step; scenario_Teardown := ReadOnly_Teardown |}.
#[export] Instance mixed_scenario : Scenario W Mixed := {|
  scenario_Name := Mixed_Name; scenario_Setup := Mixed_Setup;
  scenario_Step := Mixed_Step; scenario_Teardown := Mixed_Teardown |}.
End scenarios.

(** [n] steps one after the other, with what each returned. *)
Fixpoint run_steps {W T : Type} `{Scenario W T} (n : nat) (w : W) (s : T) : W * T * list (res Z) :=
  match n with
  | 0 => (w, s, [])
  | S n' =>
      let '(w1, s1, r) := scenario_Step w s in
      let '(w2, s2, rs) := run_steps n' w1 s1 in
      (w2, s2, r :: rs)
  end.

(** ** The key pool *)

Lemma digits_no_slash (s : string) : all_digits s = true → no_char "/" s = true.
Proof.
  induction s as [|c s IH]; [done|]. cbn [all_digits no_char]. intros H.
  apply andb_true_iff in H as [Hc Hs]. rewrite IH by done.
  destruct (Ascii.eqb_spec c "/") as [->|]; [by vm_compute in Hc|done].
Qed.

Lemma no_char_last (c : ascii) (s : string) :
  no_char c s = true → HasSuffix s (String c "") = false.
Proof.
  intros Hs. destruct (HasSuffix s (String c "")) eqn:He; [|done].
  apply HasSuffix_spec in He as [r ->]. induction r as [|b r IH]; simpl in Hs.
  - by rewrite Ascii.eqb_refl in Hs.
  - apply andb_true_iff in Hs as [_ Hs]. by apply IH.
Qed.

(** The name of the [i]-th key, as [configKey] gives it. *)
Definition pool_name (i : nat) : string := "k" +:+ format_padded 8 (N.of_nat i).

Lemma pool_key_storeKey (t n : string) (i : nat) : pool_key t n i = storeKey t n (pool_name i).
Proof. reflexivity. Qed.

Lemma pool_name_suffix (i : nat) : HasSuffix (pool_name i) "/" = false.
Proof.
  apply no_char_last. unfold pool_name. simpl. apply digits_no_slash, all_digits_padded.
Qed.

Lemma pool_name_nonempty (i : nat) : String.eqb (pool_name i) "" = false.
Proof. reflexivity. Qed.

Lemma string_app_inj_l (p s t : string) : p +:+ s = p +:+ t → s = t.
Proof. induction p as [|a p IH]; [done|]. intros [= H]. by apply IH. Qed.

#[export] Instance pool_key_inj (t n : string) : Inj (=) (=) (pool_key t n).
Proof.
  intros i j H. unfold pool_key in H. do 3 apply string_app_inj_l in H.
  injection H as H. apply format_padded_inj in H. lia.
Qed.

Lemma key_pool_NoDup (t n : string) (k : nat) : NoDup (map (pool_key t n) (seq 0 k)).
Proof. apply (NoDup_fmap_2 (pool_key t n)), NoDup_seq. Qed.

(** The key pool of a constructor is the one of the settings, and is not empty. *)
Lemma scenario_keys (keys : Z) (cfg : ScenarioConfig) (l : list string) :
  keys ≠ 0%Z →
  makeKeyPool (Tenant cfg) (Namespace cfg) (NumKeys (scenario_defaults keys cfg)) = Ok l →
  ∃ k, 0 < k ∧ l = map (pool_key (Tenant cfg) (Namespace cfg)) (seq 0 k).
Proof.
  intros Hk. unfold makeKeyPool. cbn [scenario_defaults NumKeys].
  destruct (Z.eqb_spec (NumKeys cfg) 0), (Z.ltb_spec 0 0); case_match; try done;
    intros [= <-]; eexists; (split; [|reflexivity]); lia.
Qed.

(** ** The round robin *)

Lemma ring_get_mod (l : list string) (i : N) (k : string) :
  (Z.of_N i < two63)%Z → l !! (N.to_nat i mod length l) = Some k → ring_get l i = Ok k.
Proof.
  intros Hi Hk. assert (0 < length l) by (destruct l; [by rewrite lookup_nil in Hk|simpl; lia]).
  unfold ring_get. rewrite int64_small by (unfold two63 in *; lia).
  rewrite int_rem_mod by lia. cbn [mbind res_bind].
  replace (Z.of_N i mod Z.of_nat (length l))%Z with (Z.of_nat (N.to_nat i mod length l)).
  - by apply slice_get_lookup.
  - rewrite Nat2Z.inj_mod. f_equal. lia.
Qed.

Lemma ring_get_Ok (l : list string) (i : N) :
  (Z.of_N i < two63)%Z → l ≠ [] → ∃ k, k ∈ l ∧ ring_get l i = Ok k.
Proof.
  intros Hi Hl. assert (0 < length l) by (destruct l; [done|simpl; lia]).
  destruct (lookup_lt_is_Some_2 l (N.to_nat i mod length l)) as [k Hk].
  { apply Nat.mod_upper_bound. lia. }
  exists k. split; [by eapply list_elem_of_lookup_2|by apply ring_get_mod].
Qed.

(** As many consecutive counters as there are positions hit each of them once. *)
Lemma window_Permutation (n c : nat) : 0 < n → map (λ i, i mod n) (seq c n) ≡ₚ seq 0 n.
Proof.
  intros Hn. symmetry. apply submseteq_length_Permutation; [|by rewrite length_map, !length_seq].
  apply NoDup_submseteq; [apply NoDup_seq|]. intros x Hx.
  apply elem_of_seq in Hx. apply (list_elem_of_fmap_2' (λ i, i mod n) _ (c + (x + (n - c mod n)) mod n)).
  - apply elem_of_seq. pose proof (Nat.mod_upper_bound (x + (n - c mod n)) n). lia.
  - pose proof (Nat.mod_upper_bound c n). pose proof (Nat.div_mod_eq c n) as Hc.
    rewrite Nat.Div0.add_mod_idemp_r.
    replace (c + (x + (n - c mod n))) with (x + (c / n + 1) * n) by nia.
    rewrite Nat.Div0.mod_add. symmetry. apply Nat.mod_small. lia.
Qed.

Lemma ring_window (l : list string) (c : nat) :
  l ≠ [] → map (λ i, nth (i mod length l) l "") (seq c (length l)) ≡ₚ l.
Proof.
  intros Hl. assert (0 < length l) by (destruct l; [done|simpl; lia]).
  rewrite <- (map_map (λ i, i mod length l) (λ i, nth i l "")), window_Permutation by done.
  clear. induction l as [|k l IH] using rev_ind; [done|].
  rewrite length_app, seq_app, map_app. simpl. rewrite app_nth2, Nat.sub_diag by lia. simpl.
  f_equiv. erewrite map_ext_in; [exact IH|]. intros i Hi. apply in_seq in Hi.
  rewrite app_nth1 by lia. done.
Qed.

(** ** Runs *)

(** What [NewRequestWithContext] documents for URLs without characters to escape. *)
Definition plain_urls (http_NewRequest : string → string → go_bytes → res request)
    (cfg : ScenarioConfig) : Prop :=
  ∀ m addr i b, addr ∈ Addrs cfg →
    let key := pool_key (Tenant cfg) (Namespace cfg) i in
    ∃ q, http_NewRequest m (config_url addr +:+ key) b = Ok q ∧
      rq_Method q = m ∧ rq_Path q = config_path key ∧ rq_URL q = config_url addr +:+ key ∧
      rq_Body q = mkBody (bytes_to_string b) None.

Section runs.
Context (rand_Intn26 : Z → nat → N) (cfg : ScenarioConfig).
Context (http_NewRequest : string → string → go_bytes → res request).
Hypothesis Hnew : plain_urls http_NewRequest cfg.

(** A scenario of the settings, with non-empty pools and any counters. *)
Record wo_ready (s : WriteOnly) : Prop := {
  wo_pool : ∃ n, 0 < n ∧ wo_keys s = map (pool_key (Tenant cfg) (Namespace cfg)) (seq 0 n);
  wo_addr : ∃ addr, addr ∈ Addrs cfg ∧ wo_writeURL s = config_url addr;
}.

Record ro_ready (s : ReadOnly) : Prop := {
  ro_pool : ∃ n, 0 < n ∧ ro_keys s = map (pool_key (Tenant cfg) (Namespace cfg)) (seq 0 n);
  ro_addrs : ro_readURLs s = map config_url (Addrs cfg);
  ro_some : Addrs cfg ≠ [];
}.

Lemma slice_get_elem (l : list string) (i : Z) (x : string) : slice_get l i = Ok x → x ∈ l.
Proof.
  unfold slice_get. case_match; [done|]. destruct (l !! _) eqn:Hl; [|done]. intros [= <-].
  by eapply list_elem_of_lookup_2.
Qed.

Lemma NewWriteOnly_ready (s : WriteOnly) :
  NewWriteOnly rand_Intn26 cfg = Ok s → wo_ready s ∧ wo_counter s = 0%N.
Proof.
  unfold NewWriteOnly. intros H. apply res_bind_Ok in H as (keys & Hk & H).
  apply res_bind_Ok in H as (v & _ & H). apply res_bind_Ok in H as (addr & Ha & [= <-]).
  split; [|done]. apply (scenario_keys 10000 cfg) in Hk; [|done]. split; [done|].
  exists addr. split; [|done]. by apply slice_get_elem in Ha.
Qed.

Lemma NewReadOnly_ready (s : ReadOnly) :
  Addrs cfg ≠ [] → NewReadOnly cfg = Ok s →
  ro_ready s ∧ ro_cfg s = scenario_defaults 1000 cfg ∧ ro_counter s = 0%N ∧ ro_rrIdx s = 0%N.
Proof.
  unfold NewReadOnly. intros Ha H. apply res_bind_Ok in H as (keys & Hk & [= <-]).
  split; [|done]. apply (scenario_keys 1000 cfg) in Hk; [|done]. by split.
Qed.

Lemma pool_elem (n : nat) (k : string) :
  k ∈ map (pool_key (Tenant cfg) (Namespace cfg)) (seq 0 n) →
  ∃ i, k = pool_key (Tenant cfg) (Namespace cfg) i.
Proof. intros Hk. apply list_elem_of_fmap in Hk as (i & -> & _). by exists i. Qed.

Lemma write_request_Ok (s : WriteOnly) (k : string) :
  wo_ready s → (Z.of_N (wo_counter s) < two63)%Z →
  ring_get (wo_keys s) (wo_counter s) = Ok k → k ∈ wo_keys s →
  ∃ q, write_request http_NewRequest s = Ok q ∧ rq_Method q = "PUT" ∧
       rq_URL q = wo_writeURL s +:+ k ∧ rq_Path q = config_path k ∧ b_err (rq_Body q) = None.
Proof.
  intros [(n & _ & Hkeys) (addr & Ha & Hurl)] Hc Hk Hin. rewrite Hkeys in Hin.
  apply pool_elem in Hin as [i ->]. destruct (Hnew "PUT" addr i (Some (wo_value s)) Ha)
    as (q & Hq & Hm & Hp & Hu & Hb).
  unfold write_request. rewrite Hk. cbn [mbind res_bind]. rewrite Hurl, Hq.
  eexists. split; [reflexivity|]. cbn [with_header rq_Method rq_URL rq_Path rq_Body]. by rewrite <- Hu, Hb.
Qed.

Lemma read_request_Ok (s : ReadOnly) :
  ro_ready s → (Z.of_N (ro_counter s) < two63)%Z → (Z.of_N (ro_rrIdx s) < two63)%Z →
  ∃ k q, k ∈ ro_keys s ∧ read_request http_NewRequest s = Ok q ∧ rq_Method q = "GET" ∧
       rq_Path q = config_path k.
Proof.
  intros [(n & Hn & Hkeys) Hurls Hne] Hc Hr.
  destruct (ring_get_Ok (ro_keys s) (ro_counter s)) as (k & Hin & Hk); [done|..].
  { rewrite Hkeys. destruct n; [lia|done]. }
  destruct (ring_get_Ok (ro_readURLs s) (ro_rrIdx s)) as (u & Hu & Hru); [done|..].
  { rewrite Hurls. by destruct (Addrs cfg). }
  rewrite Hurls in Hu. apply list_elem_of_fmap in Hu as (addr & -> & Ha).
  pose proof Hin as Hi. rewrite Hkeys in Hi. apply pool_elem in Hi as [i ->].
  destruct (Hnew "GET" addr i None Ha) as (q & Hq & Hm & Hp & _).
  exists (pool_key (Tenant cfg) (Namespace cfg) i), q. split; [done|].
  unfold read_request. rewrite Hk. cbn [mbind res_bind]. rewrite Hru. cbn [mbind res_bind].
  by rewrite Hq.
Qed.
End runs.

(** A client that keeps the requests it was given, in order. *)
Definition record_Do (answer : request → res response) (log : list request) (_ : http_Client) (q : request)
    : list request * res response := (log ++ [q], answer q).

Section recorded.
Context (rand_Intn26 : Z → nat → N) (cfg : ScenarioConfig).
Context (http_NewRequest : string → string → go_bytes → res request) (answer : request → res response).
Hypothesis Hnew : plain_urls http_NewRequest cfg.

Definition write_steps := run_steps (H := write_scenario http_NewRequest (record_Do answer)).
Definition mixed_steps := run_steps (H := mixed_scenario rand_Intn26 http_NewRequest (record_Do answer)).

Definition at_counter (s : WriteOnly) (c : N) : WriteOnly :=
  mkWriteOnly (wo_cfg s) (wo_keys s) (wo_value s) (wo_client s) (wo_writeURL s) c.

(** The steps of a writer put the keys of its counters, one each. *)
Lemma write_steps_log (n : nat) (log : list request) (s : WriteOnly) :
  wo_ready cfg s → (Z.of_N (wo_counter s) + Z.of_nat n < two63)%Z →
  ∃ qs rs, write_steps n log s = (log ++ qs, at_counter s (wo_counter s + N.of_nat n), rs) ∧
    map rq_URL qs = map (λ i, wo_writeURL s +:+ nth (i mod length (wo_keys s)) (wo_keys s) "")
                      (seq (S (N.to_nat (wo_counter s))) n) ∧
    Forall (λ q, rq_Method q = "PUT") qs.
Proof.
  revert log s. induction n as [|n IH]; intros log s Hs Hc.
  { exists [], []. rewrite app_nil_r, N.add_0_r. by destruct s. }
  set (s1 := at_counter s (wo_counter s + 1)).
  assert (0 < length (wo_keys s)) as Hlen.
  { destruct (wo_pool _ _ Hs) as (k & Hk & ->). by rewrite length_map, length_seq. }
  set (i := S (N.to_nat (wo_counter s)) mod length (wo_keys s)).
  assert (i < length (wo_keys s)) as Hi by (apply Nat.mod_upper_bound; lia).
  destruct (write_request_Ok cfg _ Hnew s1 (nth i (wo_keys s) "")) as (q & Hq & Hm & Hu & _).
  { destruct Hs. by split. }
  { cbn. unfold two63 in *. lia. }
  { apply ring_get_mod; cbn [s1 at_counter wo_keys wo_counter]; [unfold two63 in *; lia|].
    replace (N.to_nat (wo_counter s + 1)) with (S (N.to_nat (wo_counter s))) by lia.
    destruct (nth_lookup_or_length (wo_keys s) i ""); [done|lia]. }
  { by apply nth_elem_of. }
  destruct (IH (log ++ [q]) s1) as (qs & rs & Hrun & Hurls & Hms).
  { destruct Hs. by split. }
  { cbn. unfold two63 in *. lia. }
  exists (q :: qs). eexists. split_and!.
  - unfold write_steps in *. cbn [run_steps]. simpl scenario_Step. unfold WriteOnly_Step.
    rewrite u64_add_small by (unfold two63, max_uint64 in *; lia). fold (at_counter s (wo_counter s + 1)).
    fold s1. rewrite Hq. unfold do_status, record_Do at 1. rewrite Hrun. rewrite <- app_assoc.
    replace (wo_counter s + N.of_nat (S n))%N with (wo_counter s1 + N.of_nat n)%N by (cbn; lia).
    reflexivity.
  - cbn [map seq]. rewrite Hu, Hurls. cbn [s1 at_counter wo_counter wo_keys wo_writeURL]. fold i. do 3 f_equal. lia.
  - by constructor.
Qed.

(** What a [Mixed] keeps over its steps: its parts step no more often than itself. *)
Record mx_ready (s : Mixed) : Prop := {
  mx_wo : wo_ready cfg (mx_w s);
  mx_ro : ro_ready cfg (mx_r s);
  mx_wo_le : (wo_counter (mx_w s) ≤ mx_counter s)%N;
  mx_ro_le : (ro_counter (mx_r s) ≤ mx_counter s)%N;
  mx_rr_le : (ro_rrIdx (mx_r s) ≤ mx_counter s)%N;
}.

(** The method of the step after counter [c]. *)
Definition mixed_method (R : Z) (c : N) : string :=
  if (Z.of_N ((c + 1) mod 100) <? R)%Z then "GET" else "PUT".

Lemma mixed_step_log (log : list request) (s : Mixed) :
  mx_ready s → (Z.of_N (mx_counter s + 1) < two63)%Z →
  ∃ q s' r, Mixed_Step http_NewRequest (record_Do answer) log s = (log ++ [q], s', r) ∧
    rq_Method q = mixed_method (mx_readPercent s) (mx_counter s) ∧ mx_ready s' ∧
    mx_counter s' = (mx_counter s + 1)%N ∧ mx_readPercent s' = mx_readPercent s.
Proof.
  intros [Hwo Hro H1 H2 H3] Hc. unfold Mixed_Step, mixed_method.
  rewrite u64_add_small by (unfold two63, max_uint64 in *; lia). case_match.
  - unfold ReadOnly_Step. rewrite !u64_add_small by (unfold two63, max_uint64 in *; lia).
    edestruct (read_request_Ok cfg _ Hnew) as (k & q & _ & Hq & Hm & _); [|..|rewrite Hq].
    { destruct Hro. by split. }
    1,2: cbn; lia.
    cbn. eexists _, _, _. split; [reflexivity|]. split_and!; [done| |done|done].
    destruct Hro. split; cbn; [done|by split|lia..].
  - unfold WriteOnly_Step. rewrite !u64_add_small by (unfold two63, max_uint64 in *; lia).
    fold (at_counter (mx_w s) (wo_counter (mx_w s) + 1)).
    edestruct (ring_get_Ok (wo_keys (mx_w s)) (wo_counter (mx_w s) + 1)) as (k & Hin & Hk).
    { lia. }
    { destruct (wo_pool _ _ Hwo) as (n & Hn & ->). destruct n; [lia|done]. }
    edestruct (write_request_Ok cfg _ Hnew (at_counter (mx_w s) (wo_counter (mx_w s) + 1)) k)
      as (q & Hq & Hm & _); [destruct Hwo; by split|cbn; lia|done|done|rewrite Hq].
    cbn. eexists _, _, _. split; [reflexivity|]. split_and!; [done| |done|done].
    destruct Hwo. split; cbn; [by split|done|lia..].
Qed.

Lemma mixed_steps_log (n : nat) (log : list request) (s : Mixed) :
  mx_ready s → (Z.of_N (mx_counter s) + Z.of_nat n < two63)%Z →
  ∃ qs s' rs, mixed_steps n log s = (log ++ qs, s', rs) ∧
    map rq_Method qs = map (λ i, mixed_method (mx_readPercent s) (mx_counter s + N.of_nat i)) (seq 0 n) ∧
    mx_ready s' ∧ mx_counter s' = (mx_counter s + N.of_nat n)%N ∧
    mx_readPercent s' = mx_readPercent s.
Proof.
  revert log s. induction n as [|n IH]; intros log s Hs Hc.
  { exists [], s, []. by rewrite app_nil_r, N.add_0_r. }
  destruct (mixed_step_log log s Hs) as (q & s1 & r & Hstep & Hm & Hs1 & Hc1 & HR1); [lia|].
  destruct (IH (log ++ [q]) s1) as (qs & s2 & rs & Hrun & Hms & Hs2 & Hc2 & HR2); [done|lia|].
  exists (q :: qs), s2, (r :: rs). unfold mixed_steps in *. cbn [run_steps]. simpl scenario_Step.
  rewrite Hstep, Hrun, <- app_assoc. split_and!; [done| |done|lia|congruence].
  cbn [map seq]. rewrite N.add_0_r, Hm, Hms, <- seq_shift, map_map. f_equal.
  apply map_ext. intros i. rewrite HR1, Hc1. f_equal. lia.
Qed.

(** Any hundred counters in a row have [R] residues below [R]. *)
Definition reads (R : Z) (c : N) (n : nat) : nat :=
  length (filter (λ m, m = "GET") (map (λ i, mixed_method R (c + N.of_nat i)) (seq 0 n))).

Lemma reads_S (R : Z) (c : N) (n : nat) : reads R c (S n) = reads R c 1 + reads R (c + 1) n.
Proof.
  unfold reads. cbn [seq map]. rewrite (filter_cons _ _ (map _ _)), filter_cons, filter_nil.
  rewrite <- seq_shift, map_map.
  rewrite (map_ext _ (λ i, mixed_method R (c + 1 + N.of_nat i))) by (intros i; f_equal; lia).
  case_decide; simpl; lia.
Qed.

Lemma reads_end (R : Z) (c : N) (n : nat) : reads R c (S n) = reads R c n + reads R (c + N.of_nat n) 1.
Proof.
  unfold reads. rewrite seq_S, map_app, filter_app, length_app. cbn [seq map]. by rewrite !N.add_0_r.
Qed.

Lemma reads_hundred (R : Z) (c : N) : (0 ≤ R ≤ 100)%Z → reads R c 100 = Z.to_nat R.
Proof.
  intros HR. induction c as [|c IH] using N.peano_ind.
  - assert (forallb (λ r, reads (Z.of_nat r) 0 100 =? r) (seq 0 101) = true) as H by by vm_compute.
    rewrite forallb_forall in H. specialize (H (Z.to_nat R)).
    rewrite Z2Nat.id in H by lia. apply Nat.eqb_eq, H, in_seq. lia.
  - rewrite <- IH. pose proof (reads_S R c 100) as H1. pose proof (reads_end R c 100) as H2.
    assert (reads R (c + N.of_nat 100) 1 = reads R c 1) as H3.
    { unfold reads, mixed_method. cbn [seq map]. rewrite !N.add_0_r.
      replace (c + N.of_nat 100 + 1)%N with (c + 1 + 1 * 100)%N by lia. by rewrite N.Div0.mod_add. }
    rewrite N.add_1_r in H1. lia.
Qed.

Lemma filter_methods (m : string) (qs : list request) :
  length (filter (λ x, x = m) (map rq_Method qs)) = length (filter (λ q, rq_Method q = m) qs).
Proof.
  induction qs as [|q qs IH]; [done|]. cbn [map]. rewrite !filter_cons.
  case_decide; cbn [length]; by rewrite ?IH.
Qed.

Lemma methods_split (R : Z) (qs : list request) (f : nat → N) (l : list nat) :
  map rq_Method qs = map (λ i, mixed_method R (f i)) l →
  length (filter (λ q, rq_Method q = "GET") qs) + length (filter (λ q, rq_Method q = "PUT") qs)
  = length l.
Proof.
  revert l. induction qs as [|q qs IH]; intros [|i l] Hl; try discriminate; [done|].
  injection Hl as Hq Hl. apply IH in Hl. rewrite !filter_cons. unfold mixed_method in Hq.
  cbn [length]. destruct (_ <? R)%Z in Hq; do 2 case_decide; try congruence; cbn [length]; lia.
Qed.
End recorded.

(** ** Against the server *)

(** Any client reaches the server. *)
Definition served {S : Type} `{Store S} (srv : Server S) (_ : http_Client) (q : request) : Server S * res response :=
  handleConfig srv q.

Section served.
Context {S : Type} `{StoreLaws S}.
Context (rand_Intn26 : Z → nat → N) (cfg : ScenarioConfig).
Context (http_NewRequest : string → string → go_bytes → res request).
Hypothesis Hnew : plain_urls http_NewRequest cfg.
Hypothesis Ht : segment (Tenant cfg).
Hypothesis Hn : segment (Namespace cfg).

Abbreviation key := (pool_key (Tenant cfg) (Namespace cfg)).

Lemma configKey_pool (i : nat) :
  configKey (config_path (key i)) = Ok (Tenant cfg, Namespace cfg, pool_name i).
Proof. rewrite pool_key_storeKey. apply configKey_path; [done..|apply pool_name_suffix]. Qed.

(** A write of a pool key is answered with 200 or 201, and the key is there afterwards. *)
Lemma put_served (c : http_Client) (srv : Server S) (a : kv) (q : request) (i : nat) :
  store_rep (srv_store srv) a → (kv_rev a < store_limit)%N → key_ok (key i) →
  rq_Method q = "PUT" → rq_Path q = config_path (key i) → b_err (rq_Body q) = None →
  ∃ srv' a' status, do_status served srv c q = (srv', Ok status) ∧ (status = StatusOK ∨ status = StatusCreated) ∧
    store_rep (srv_store srv') a' ∧ kv_rev a' = (kv_rev a + 1)%N ∧
    is_Some (kv_map a' !! key i) ∧ (∀ k, is_Some (kv_map a !! k) → is_Some (kv_map a' !! k)).
Proof.
  intros Hs Hlim Hk Hm Hp Hb.
  assert (∃ d, ReadAll_limited body_limit (rq_Body q) = Ok d) as [d Hd].
  { unfold ReadAll_limited. rewrite Hb. case_match; eauto. }
  rewrite pool_key_storeKey in Hk.
  destruct (handlePut_spec srv a q d _ _ _ Hs Hlim Hk Hd) as (srv' & Hput & Hs' & _).
  exists srv'. eexists _, _. split_and!; [| |exact Hs'|done|..].
  - unfold do_status, served, handleConfig. rewrite Hp, configKey_pool, Hm. rewrite pool_name_nonempty.
    cbn [String.eqb Ascii.eqb Bool.eqb]. rewrite Hput. reflexivity.
  - cbn [writeJSON rs_Status]. case_match; auto.
  - rewrite kv_put_get. eauto.
  - intros k Hsome. destruct (decide (k = key i)) as [->|Hne].
    + rewrite pool_key_storeKey, kv_put_get. eauto.
    + by rewrite kv_put_get_other.
Qed.

(** The request of [Setup] for a key is answered and the key is there afterwards. *)
Lemma prepopulate_served (c : http_Client) (srv : Server S) (a : kv) (addr value : string) (i : nat) :
  store_rep (srv_store srv) a → (kv_rev a < store_limit)%N → key_ok (key i) → addr ∈ Addrs cfg →
  ∃ srv' a', prepopulate http_NewRequest served c (config_url addr) value srv (key i)
      = (srv', Ok tt) ∧ store_rep (srv_store srv') a' ∧ kv_rev a' = (kv_rev a + 1)%N ∧
    is_Some (kv_map a' !! key i) ∧ (∀ k, is_Some (kv_map a !! k) → is_Some (kv_map a' !! k)).
Proof.
  intros Hs Hlim Hk Ha. destruct (Hnew "PUT" addr i (Some value) Ha) as (q & Hq & Hm & Hp & _ & Hb).
  destruct (put_served c srv a q i Hs Hlim Hk Hm Hp) as (srv' & a' & status & Hdo & Hst & H'); [by rewrite Hb|].
  exists srv', a'. split; [|done]. unfold prepopulate. rewrite Hq, Hdo. by destruct Hst as [->| ->].
Qed.

Lemma prepopulate_all_served (c : http_Client) (addr value : string) (ks : list nat) (srv : Server S) (a : kv) :
  store_rep (srv_store srv) a → (kv_rev a + N.of_nat (length ks) ≤ store_limit)%N →
  Forall (λ i, key_ok (key i)) ks → addr ∈ Addrs cfg →
  ∃ srv' a', prepopulate_all http_NewRequest served c (config_url addr) value srv (map key ks)
      = (srv', Ok tt) ∧ store_rep (srv_store srv') a' ∧ kv_rev a' = (kv_rev a + N.of_nat (length ks))%N ∧
    Forall (λ i, is_Some (kv_map a' !! key i)) ks ∧
    (∀ k, is_Some (kv_map a !! k) → is_Some (kv_map a' !! k)).
Proof.
  intros Hs Hlim Hks Ha. revert srv a Hs Hlim.
  induction Hks as [|i ks Hi Hks IH]; intros srv a Hs Hlim.
  { exists srv, a. split_and!; try done. simpl. lia. }
  simpl in Hlim.
  destruct (prepopulate_served c srv a addr value i Hs) as (srv1 & a1 & Hp & Hs1 & Hr1 & Hi1 & Hm1);
    [lia|done..|].
  destruct (IH srv1 a1 Hs1) as (srv2 & a2 & Hp2 & Hs2 & Hr2 & Hall & Hm2); [lia|].
  exists srv2, a2. cbn [map prepopulate_all length]. rewrite Hp, Hp2. split_and!; [done..|lia| |eauto].
  constructor; eauto.
Qed.

(** A read of a key that is there is answered with 200. *)
Lemma read_served (c : http_Client) (srv : Server S) (a : kv) (q : request) (i : nat) :
  store_rep (srv_store srv) a → is_Some (kv_map a !! key i) →
  rq_Method q = "GET" → rq_Path q = config_path (key i) →
  do_status served srv c q = (srv, Ok StatusOK).
Proof.
  intros Hs [e He] Hm Hp. unfold do_status, served, handleConfig. rewrite Hp, configKey_pool, Hm, pool_name_nonempty.
  cbn [String.eqb Ascii.eqb Bool.eqb].
  rewrite (handleGet_spec _ _ _ _ _ _ _ Hs Hs), <- pool_key_storeKey. by rewrite He.
Qed.

(** A step of the read scenario, whose pool is there. *)
Lemma read_step_served (srv : Server S) (a : kv) (s : ReadOnly) :
  store_rep (srv_store srv) a → ro_ready cfg s →
  (∀ k, k ∈ ro_keys s → is_Some (kv_map a !! k)) →
  (Z.of_N (ro_counter s) + 1 < two63)%Z → (Z.of_N (ro_rrIdx s) + 1 < two63)%Z →
  let s' := mkReadOnly (ro_cfg s) (ro_keys s) (ro_client s) (ro_readURLs s) (ro_counter s + 1) (ro_rrIdx s + 1) in
  ReadOnly_Step http_NewRequest served srv s = (srv, s', Ok StatusOK) ∧ ro_ready cfg s'.
Proof.
  intros Hs Hro Hin Hc Hr s'. assert (ro_ready cfg s') as Hro' by (destruct Hro; by split).
  split; [|done]. unfold ReadOnly_Step. rewrite !u64_add_small by (unfold two63, max_uint64 in *; lia). fold s'.
  destruct (read_request_Ok cfg _ Hnew s' Hro') as (k & q & Hk & -> & Hm & Hp); [cbn; lia..|].
  destruct (ro_pool _ _ Hro) as (m & _ & Hkeys). pose proof Hk as Hki.
  unfold s' in Hki. cbn in Hki. rewrite Hkeys in Hki. apply pool_elem in Hki as [i ->].
  by rewrite (read_served (ro_client s') srv a q i Hs (Hin _ Hk) Hm Hp).
Qed.

Lemma read_steps_served (n : nat) (srv : Server S) (a : kv) (s : ReadOnly) :
  store_rep (srv_store srv) a → ro_ready cfg s →
  (∀ k, k ∈ ro_keys s → is_Some (kv_map a !! k)) →
  (Z.of_N (ro_counter s) + Z.of_nat n < two63)%Z → (Z.of_N (ro_rrIdx s) + Z.of_nat n < two63)%Z →
  ∃ s', run_steps (H := read_scenario rand_Intn26 http_NewRequest served) n srv s
    = (srv, s', replicate n (Ok StatusOK)).
Proof.
  intros Hs. revert s. induction n as [|n IH]; intros s Hro Hin Hc Hr; [by exists s|].
  destruct (read_step_served srv a s Hs Hro Hin) as [Hstep Hro1]; [lia..|].
  destruct (IH (mkReadOnly (ro_cfg s) (ro_keys s) (ro_client s) (ro_readURLs s) (ro_counter s + 1) (ro_rrIdx s + 1)))
    as [s' IHs]; [done..|cbn; lia|cbn; lia|].
  exists s'. cbn [run_steps]. simpl scenario_Step in *. by rewrite Hstep, IHs.
Qed.

(** [Setup] of the read scenario writes every key of its pool. *)
Lemma ReadOnly_Setup_served (srv : Server S) (a : kv) (s : ReadOnly) :
  Addrs cfg ≠ [] → (0 ≤ ValueSize cfg)%Z → NewReadOnly cfg = Ok s → store_rep (srv_store srv) a →
  (kv_rev a + N.of_nat (length (ro_keys s)) ≤ store_limit)%N → Forall key_ok (ro_keys s) →
  ∃ srv' a', ReadOnly_Setup rand_Intn26 http_NewRequest served srv s = (srv', Ok tt) ∧
    store_rep (srv_store srv') a' ∧ kv_rev a' = (kv_rev a + N.of_nat (length (ro_keys s)))%N ∧
    ∀ k, k ∈ ro_keys s → is_Some (kv_map a' !! k).
Proof.
  intros Ha Hsize Hs Hrep Hlim Hkeys.
  destruct (NewReadOnly_ready cfg s Ha Hs) as (Hro & Hcfg & _).
  destruct (ro_pool _ _ Hro) as (k & Hk & Hpool). rewrite Hpool in *.
  rewrite length_map in *. rewrite Forall_map in Hkeys.
  assert (∃ addr, slice_get (Addrs (ro_cfg s)) 0 = Ok addr ∧ addr ∈ Addrs cfg) as (addr & Haddr & Hin).
  { rewrite Hcfg. cbn. destruct (Addrs cfg) as [|addr l]; [done|]. exists addr. split; [done|set_solver]. }
  set (value := foldr (λ i s, String (ascii_of_N (97 + rand_Intn26 2%Z i)) s) "" (seq 0 (Z.to_nat (ValueSize (ro_cfg s))))).
  destruct (prepopulate_all_served (ro_client s) addr value (seq 0 k) srv a)
    as (srv' & a' & Hpre & Hrep' & Hrev & Hall & _); [done..|].
  exists srv', a'. split_and!; [|done|done|].
  - unfold ReadOnly_Setup, makeValue. fold value. rewrite Haddr.
    destruct (Z.ltb_spec (ValueSize (ro_cfg s)) 0) as [Hlt|_]; [|by rewrite Hpool].
    exfalso. rewrite Hcfg in Hlt. cbn in Hlt. destruct (Z.eqb_spec (ValueSize cfg) 0); lia.
  - intros x Hx. apply list_elem_of_fmap in Hx as (j & -> & Hj). by apply (proj1 (Forall_forall _ _) Hall).
Qed.
End served.

(** ** Properties *)

(** C31: The read scenario against a server: [Setup] succeeds, writing every key of the
    pool, and each of the steps that follow is answered with [200], so that a run
    measures reads of real data. *)
Theorem scenario_reads_found {S : Type} `{StoreLaws S} (rand : Z → nat → N) (cfg : ScenarioConfig)
    (new : string → string → go_bytes → res request) (srv : Server S) (a : kv) (s : ReadOnly) (n : nat) :
  plain_urls new cfg → segment (Tenant cfg) → segment (Namespace cfg) → Addrs cfg ≠ [] →
  (0 ≤ ValueSize cfg)%Z → NewReadOnly cfg = Ok s → store_rep (srv_store srv) a →
  (kv_rev a + N.of_nat (length (ro_keys s)) ≤ store_limit)%N → Forall key_ok (ro_keys s) →
  (Z.of_nat n < two63)%Z →
  ∃ srv' s', ReadOnly_Setup rand new served srv s = (srv', Ok tt) ∧
    run_steps (H := read_scenario rand new served) n srv' s
      = (srv', s', replicate n (Ok StatusOK)).
Proof.
  intros Hnew Ht Hns Ha Hsize Hs Hrep Hlim Hkeys Hn.
  destruct (NewReadOnly_ready cfg s Ha Hs) as (Hro & _ & Hc & Hr).
  destruct (ReadOnly_Setup_served rand cfg new Hnew Ht Hns srv a s) as (srv' & a' & Hset & Hrep' & _ & Hall); [done..|].
  destruct (read_steps_served rand cfg new Hnew Ht Hns n srv' a' s) as [s' Hrun]; [done|done|done|lia|lia|].
  by exists srv', s'.
Qed.

(** A write run goes over the whole key pool: after any number of steps, as many
    further ones as there are keys put each key exactly once, at the first address. *)
Theorem write_round_robin (rand : Z → nat → N) (cfg : ScenarioConfig)
    (new : string → string → go_bytes → res request) (answer : request → res response)
    (s s1 : WriteOnly) (k : nat) (log : list request) (rs : list (res Z)) :
  let steps := run_steps (H := write_scenario new (record_Do answer)) in
  plain_urls new cfg → NewWriteOnly rand cfg = Ok s → steps k [] s = (log, s1, rs) →
  (Z.of_nat (k + length (wo_keys s)) < two63)%Z →
  ∃ qs s2 rs', steps (length (wo_keys s)) log s1 = (log ++ qs, s2, rs') ∧
    Forall (λ q, rq_Method q = "PUT") qs ∧ NoDup (wo_keys s) ∧
    map rq_URL qs ≡ₚ map (String.append (wo_writeURL s)) (wo_keys s).
Proof.
  intros steps Hnew Hs Hrun Hlt. destruct (NewWriteOnly_ready rand cfg s Hs) as [Hwo Hc].
  destruct (write_steps_log cfg new answer Hnew k [] s Hwo) as (qs1 & rs1 & Hrun1 & _); [lia|].
  unfold write_steps in Hrun1. unfold steps in Hrun. rewrite Hrun in Hrun1. injection Hrun1 as -> -> ->.
  set (s1 := at_counter s (wo_counter s + N.of_nat k)).
  assert (wo_ready cfg s1) as Hwo1 by (destruct Hwo; by split).
  destruct (write_steps_log cfg new answer Hnew (length (wo_keys s)) ([] ++ qs1) s1 Hwo1)
    as (qs & rs' & Hrun2 & Hurls & Hms); [cbn; lia|].
  exists qs. eexists _, _. split; [exact Hrun2|]. split; [done|]. split.
  { destruct (wo_pool _ _ Hwo) as (m & _ & ->). apply key_pool_NoDup. }
  rewrite Hurls. cbn [s1 at_counter wo_keys wo_writeURL].
  rewrite <- (map_map (λ i, nth (i mod length (wo_keys s)) (wo_keys s) "") (String.append (wo_writeURL s))).
  apply Permutation_map, ring_window. destruct (wo_pool _ _ Hwo) as (m & Hm & ->). destruct m; [lia|done].
Qed.

(** C32: The mixed scenario keeps its ratio exactly: of any hundred steps in a row,
    whatever the answers, [R] are reads and [100 - R] are writes. *)
Theorem mixed_ratio (rand : Z → nat → N) (cfg : ScenarioConfig) (R : Z)
    (new : string → string → go_bytes → res request) (answer : request → res response)
    (s s1 : Mixed) (k : nat) (log : list request) (rs : list (res Z)) :
  let steps := run_steps (H := mixed_scenario rand new (record_Do answer)) in
  plain_urls new cfg → Addrs cfg ≠ [] → NewMixed rand cfg R = Ok s → (0 ≤ R ≤ 100)%Z →
  steps k [] s = (log, s1, rs) → (Z.of_nat (k + 100) < two63)%Z →
  ∃ qs s2 rs', steps 100 log s1 = (log ++ qs, s2, rs') ∧
    length (filter (λ q, rq_Method q = "GET") qs) = Z.to_nat R ∧
    length (filter (λ q, rq_Method q = "PUT") qs) = Z.to_nat (100 - R).
Proof.
  intros steps Hnew Ha Hs HR Hrun Hlt.
  unfold NewMixed in Hs. apply res_bind_Ok in Hs as (r & Hr & Hs). apply res_bind_Ok in Hs as (w & Hw & [= <-]).
  destruct (NewReadOnly_ready cfg r Ha Hr) as (Hro & _ & Hc & Hi).
  destruct (NewWriteOnly_ready rand cfg w Hw) as [Hwo Hc'].
  destruct (mixed_steps_log rand cfg new answer Hnew k [] (mkMixed cfg R r w 0))
    as (qs1 & s1' & rs1 & Hrun1 & _ & Hs1 & Hc1 & HR1); [split; cbn; done || lia|cbn; lia|].
  unfold mixed_steps in Hrun1. unfold steps in Hrun. rewrite Hrun in Hrun1. injection Hrun1 as -> <- _.
  destruct (mixed_steps_log rand cfg new answer Hnew 100 ([] ++ qs1) s1 Hs1)
    as (qs & s2 & rs' & Hrun2 & Hms & _); [cbn in Hc1; lia|].
  exists qs, s2, rs'. split; [exact Hrun2|]. rewrite HR1 in Hms. cbn [mx_readPercent] in Hms.
  pose proof (reads_hundred R (mx_counter s1) HR) as Hreads. unfold reads in Hreads. rewrite <- Hms in Hreads.
  rewrite filter_methods in Hreads. split; [exact Hreads|].
  pose proof (methods_split _ _ _ _ Hms) as Hsum. rewrite length_seq in Hsum. lia.
Qed.

(** ** Concrete runs *)

Definition demo_cfg : ScenarioConfig := mkScenarioConfig ["a:1"] "t" "n" 3 2 0.
Definition demo_rand (seed : Z) (i : nat) : N := N.of_nat (i mod 26).
Definition demo_new (m url : string) (b : go_bytes) : res request :=
  Ok (mkRequest m (string_drop 10 url) [] url [] (mkBody (bytes_to_string b) None)).

Lemma demo_plain : plain_urls demo_new demo_cfg.
Proof.
  intros m addr i b Ha key. apply list_elem_of_singleton in Ha as ->. eexists.
  split; [reflexivity|]. by split_and!.
Qed.

Lemma scenario_reads_found_witness :
  ∃ s srv' s', NewReadOnly demo_cfg = Ok s ∧
    ReadOnly_Setup demo_rand demo_new served demo_server s = (srv', Ok tt) ∧
    run_steps (H := read_scenario demo_rand demo_new served) 5 srv' s
      = (srv', s', replicate 5 (Ok StatusOK)).
Proof.
  eexists. destruct (scenario_reads_found demo_rand demo_cfg demo_new demo_server kv_empty _ 5
    demo_plain eq_refl eq_refl ltac:(discriminate) ltac:(vm_compute; discriminate) eq_refl
    demo_server_rep) as (srv' & s' & H1 & H2).
  - vm_compute. discriminate.
  - repeat (constructor; [split; vm_compute; done|]). constructor.
  - reflexivity.
  - exists srv', s'. split; [reflexivity|]. split; [exact H1|exact H2].
Defined.

Lemma write_round_robin_witness :
  ∃ s log s1 rs qs s2 rs', NewWriteOnly demo_rand demo_cfg = Ok s ∧
    run_steps (H := write_scenario demo_new (record_Do (λ _, Err (EMsg "refused")))) 2 [] s = (log, s1, rs) ∧
    run_steps (H := write_scenario demo_new (record_Do (λ _, Err (EMsg "refused")))) 3 log s1
      = (log ++ qs, s2, rs') ∧
    map rq_URL qs ≡ₚ ["http://a:1/api/v1/config/t/n/k00000000";
      "http://a:1/api/v1/config/t/n/k00000001"; "http://a:1/api/v1/config/t/n/k00000002"].
Proof.
  do 4 eexists.
  destruct (write_round_robin demo_rand demo_cfg demo_new (λ _, Err (EMsg "refused")) _ _ 2 _ _
    demo_plain eq_refl eq_refl eq_refl) as (qs & s2 & rs' & H1 & _ & _ & H2).
  exists qs, s2, rs'. split; [reflexivity|]. split; [reflexivity|]. split; [exact H1|exact H2].
Defined.

Definition demo_mixed : res Mixed := Eval vm_compute in NewMixed demo_rand demo_cfg 95.
Definition demo_run (n : nat) (log : list request) (s : Mixed) : list request * Mixed * list (res Z) :=
  run_steps (H := mixed_scenario demo_rand demo_new (record_Do (λ _, Err (EMsg "refused")))) n log s.

Lemma mixed_ratio_witness :
  ∃ s log s1 rs qs s2 rs', demo_mixed = Ok s ∧ demo_run 7 [] s = (log, s1, rs) ∧
    demo_run 100 log s1 = (log ++ qs, s2, rs') ∧
    length (filter (λ q, rq_Method q = "GET") qs) = 95.
Proof.
  destruct demo_mixed as [s| |] eqn:Hs; [|discriminate Hs..].
  destruct (demo_run 7 [] s) as [[log s1] rs] eqn:Hrun.
  destruct (mixed_ratio demo_rand demo_cfg 95 demo_new (λ _, Err (EMsg "refused")) s s1 7 log rs
    demo_plain ltac:(discriminate) ltac:(rewrite <- Hs; vm_compute; reflexivity) ltac:(lia) Hrun
    ltac:(vm_compute; reflexivity)) as (qs & s2 & rs' & H1 & H2 & _).
  exists s, log, s1, rs, qs, s2, rs'. split; [reflexivity|]. split; [exact Hrun|].
  split; [exact H1|exact H2].
Defined.
