(* ===== verification/BenchCmd.v ===== *)
(** [src/cmd/paladin-bench/main.go]: the commands [run] and [report] on a file system.
    A text that is written to a file in pieces, whose errors are not looked at, is
    written at once here. *)

From Stdlib Require Import SpecFloat.
From stdpp Require Import gmap.
From S2P Require Import Prelude GoStrings GoEncoding GoText GoFmt GoFlag GoTime GoSort GoOs BenchEnv.
From S2P Require Import Hist Load GoJson JsonFields GoRfc3339 ResultJson Report Scenarios.

Local Open Scope string_scope.
Local Open Scope list_scope.
Local Open Scope nat_scope.

(** ** Flags *)

Definition parseAddrs (s : string) : list string :=
  filter (λ p, p ≠ "") (map TrimSpace (Split s ",")).

(** The flag set of [run]. *)
Definition run_flags : FlagSet :=
  [flag_var "scenario" (VString "write_only") "one of: write_only, read_only, mixed";
   flag_var "addrs" (VString "127.0.0.1:8080") "comma-separated host:port list (writes go to the first)";
   flag_var "tenant" (VString "bench") "tenant name";
   flag_var "namespace" (VString "prod") "namespace name";
   flag_var "num-keys" (VInt 1000) "size of the key pool";
   flag_var "value-size" (VInt 64) "PUT body size in bytes";
   flag_var "read-percent" (VInt 95) "for scenario=mixed: percent of reads (0-100)";
   flag_var "concurrency" (VInt 32) "concurrent workers";
   flag_var "duration" (VDuration (30 * Second)) "measurement window";
   flag_var "warmup" (VDuration (3 * Second)) "discarded warm-up time";
   flag_var "rps" (VInt 0) "cap aggregate RPS (0=unlimited)";
   flag_var "timeout" (VDuration (10 * Second)) "per-request timeout";
   flag_var "json" (VString "") "write result JSON to this path";
   flag_var "report" (VString "") "write Markdown report to this path"].

(** The variables they are read into. *)
Record RunFlags := mkRunFlags {
  f_scenario : string;
  f_addrs : string;
  f_tenant : string;
  f_namespace : string;
  f_numKeys : Z;
  f_valueSize : Z;
  f_readPercent : Z;
  f_concurrency : Z;
  f_duration : Z;
  f_warmup : Z;
  f_rpsCap : Z;
  f_timeout : Z;
  f_json : string;
  f_report : string;
}.

Definition run_vars (fs : FlagSet) : RunFlags :=
  mkRunFlags (flag_string fs "scenario") (flag_string fs "addrs") (flag_string fs "tenant")
    (flag_string fs "namespace") (flag_int fs "num-keys") (flag_int fs "value-size")
    (flag_int fs "read-percent") (flag_int fs "concurrency") (flag_duration fs "duration")
    (flag_duration fs "warmup") (flag_int fs "rps") (flag_duration fs "timeout")
    (flag_string fs "json") (flag_string fs "report").

(** [fs.Parse(args)] of [runCmd]: what is written and the exit code, or the variables.
    Arguments behind the flags are ignored. *)
Definition parse_run (args : list string) : string * Z + RunFlags :=
  match flag_exit "run" run_flags (flag_Parse run_flags args) with
  | inl x => inl x
  | inr (fs, _) => inr (run_vars fs)
  end.

(** The flag set of [report]. *)
Definition report_flags : FlagSet :=
  [flag_var "in" (VString "bench/results") "directory containing *.json result files";
   flag_var "out" (VString "-") "output path (- for stdout)";
   flag_var "title" (VString "PaladinCore Benchmark Sweep") "report title"].

(** ** The scenario of the run *)

Inductive any_scenario :=
  | AnyWriteOnly (s : WriteOnly)
  | AnyReadOnly (s : ReadOnly)
  | AnyMixed (s : Mixed).

Definition any_Name (s : any_scenario) : string :=
  match s with
  | AnyWriteOnly s => WriteOnly_Name s
  | AnyReadOnly s => ReadOnly_Name s
  | AnyMixed s => Mixed_Name s
  end.

Section select.
Variable rand_Intn26 : Z → nat → N.

Definition scenario_config (f : RunFlags) : ScenarioConfig :=
  mkScenarioConfig (parseAddrs (f_addrs f)) (f_tenant f) (f_namespace f) (f_numKeys f)
    (f_valueSize f) (f_timeout f).

(** The message of [fatal], or the scenario. *)
Definition select_scenario (f : RunFlags) : res (string + any_scenario) :=
  let cfg := scenario_config f in
  if String.eqb (f_scenario f) "write_only" then
    s ← NewWriteOnly rand_Intn26 cfg; Ok (inr (AnyWriteOnly s))
  else if String.eqb (f_scenario f) "read_only" then
    s ← NewReadOnly cfg; Ok (inr (AnyReadOnly s))
  else if String.eqb (f_scenario f) "mixed" then
    if (f_readPercent f <? 0)%Z || (100 <? f_readPercent f)%Z
    then Ok (inl "--read-percent must be in 0..100")
    else s ← NewMixed rand_Intn26 cfg (f_readPercent f); Ok (inr (AnyMixed s))
  else Ok (inl ("unknown scenario: " +:+ f_scenario f +:+ " (expected write_only|read_only|mixed)")).
End select.

(** ** What is printed *)

(** [%v] of a slice of strings. *)
Definition format_slice (l : list string) : string := "[" +:+ Join l " " +:+ "]".

Definition banner (f : RunFlags) (s : any_scenario) : string :=
  "[bench] scenario=" +:+ any_Name s +:+ " conc=" +:+ format_int (f_concurrency f)
  +:+ " duration=" +:+ Duration_String (f_duration f) +:+ " warmup=" +:+ Duration_String (f_warmup f)
  +:+ " rps_cap=" +:+ format_int (f_rpsCap f) +:+ " addrs=" +:+ format_slice (parseAddrs (f_addrs f)).

Definition printSummary (r : Result) : string :=
  let s := r_Latency r in
  lines ["";
    "scenario   : " +:+ r_Scenario r;
    "duration   : " +:+ Duration_String (r_Duration r);
    "count      : " +:+ format_uint (r_Count r);
    "rps        : " +:+ format_float 1 (r_RPS r);
    "errors     : " +:+ format_uint (r_Errors r) +:+ "  (class: "
      +:+ format_slice (map format_uint (r_StatusClass r)) +:+ ")";
    "latency    : min=" +:+ Duration_String (sn_Min s) +:+ " mean=" +:+ Duration_String (sn_Mean s)
      +:+ " max=" +:+ Duration_String (sn_Max s);
    "             p50=" +:+ Duration_String (sn_P50 s) +:+ " p95=" +:+ Duration_String (sn_P95 s)
      +:+ " p99=" +:+ Duration_String (sn_P99 s) +:+ " p99.9=" +:+ Duration_String (sn_P999 s)].

(** [usage] *)
Definition bench_usage : string := lines
  ["paladin-bench — PaladinCore load testing";
   "";
   "Commands:";
   "  run       execute one scenario";
   "  report    aggregate a directory of JSON results into Markdown";
   "";
   "Run flags:";
   "  --scenario       write_only | read_only | mixed    (default write_only)";
   "  --addrs          comma-separated host:port list    (default 127.0.0.1:8080)";
   "  --tenant         tenant name                       (default bench)";
   "  --namespace      namespace name                    (default prod)";
   "  --num-keys       key pool size                     (default 1000)";
   "  --value-size     PUT body size in bytes            (default 64)";
   "  --read-percent   (mixed) percent reads             (default 95)";
   "  --concurrency    worker goroutines                 (default 32)";
   "  --duration       measurement window                (default 30s)";
   "  --warmup         discarded warm-up time            (default 3s)";
   "  --rps            cap aggregate RPS (0=unlimited)   (default 0)";
   "  --timeout        per-request timeout               (default 10s)";
   "  --json PATH      write result JSON";
   "  --report PATH    write Markdown report";
   "";
   "Report flags:";
   "  --in DIR         directory of *.json result files  (default bench/results)";
   "  --out PATH       output path (- for stdout)        (default -)";
   "  --title STR      report title";
   "";
   "Examples:";
   "  paladin-bench run --scenario=write_only --concurrency=64 --duration=30s";
   "  paladin-bench run --scenario=read_only  --addrs=127.0.0.1:8080,127.0.0.1:8081,127.0.0.1:8082";
   "  paladin-bench run --scenario=mixed --read-percent=95 --duration=60s --report=out.md";
   "  paladin-bench report --in=bench/results --out=bench/results/summary.md"].

(** ** The process *)

(** What a process wrote to its outputs, the files it leaves and its exit code. *)
Record exited (F : Type) := mkExited {
  out : string;
  err_out : string;
  disk : F;
  exit_code : Z;
}.
Arguments mkExited {F}.
Arguments out {F}.
Arguments err_out {F}.
Arguments disk {F}.
Arguments exit_code {F}.

(** What [bench.Run] meets: the result of [Setup], the clock, the iterations of the
    workers, the host, and whether a signal came while it ran. *)
Record observed := mkObserved {
  ob_setup : res unit;
  ob_startedAt : Z;
  ob_now : Z;
  ob_iterations : list (nat * iteration);
  ob_host : Host;
  ob_signal : bool;
}.

Definition interrupt_line : string := lines [""; "[bench] interrupt, finishing current run..."].

Section process.
Context {F : Type} `{!FileSystem F}.
Variable rand_Intn26 : Z → nat → N.

Definition start (f : F) : exited F := mkExited "" "" f 0.
Definition print (e : exited F) (s : string) : exited F :=
  mkExited (out e +:+ s) (err_out e) (disk e) (exit_code e).
Definition eprint (e : exited F) (s : string) : exited F :=
  mkExited (out e) (err_out e +:+ s) (disk e) (exit_code e).
Definition with_disk (e : exited F) (f : F) : exited F := mkExited (out e) (err_out e) f (exit_code e).
Definition exit_with (e : exited F) (c : Z) : exited F := mkExited (out e) (err_out e) (disk e) c.

(** [fatal] with the formatted message. *)
Definition bench_fatal (e : exited F) (msg : string) : exited F :=
  exit_with (eprint e (lines ["error: " +:+ msg])) 1.

(** The result as it is written to the files that were asked for: [inl] has exited. *)
Definition write_json (fl : RunFlags) (r : Result) (e : exited F) : res (exited F + exited F) :=
  if String.eqb (f_json fl) "" then Ok (inr e)
  else match SaveJSON (disk e) r (f_json fl) with
       | (d, Err x) => Ok (inl (bench_fatal (with_disk e d) ("save json: " +:+ error_Error x)))
       | (d, Ok _) => Ok (inr (print (with_disk e d) (lines ["[bench] wrote " +:+ f_json fl])))
       | (_, Panic) => Panic
       end.

Definition write_report (fl : RunFlags) (r : Result) (e : exited F) : res (exited F) :=
  if String.eqb (f_report fl) "" then Ok e
  else match os_Create (disk e) (f_report fl) with
       | (d, Err x) => Ok (bench_fatal (with_disk e d) ("create report: " +:+ error_Error x))
       | (d, Ok _) =>
           let text := (RenderMarkdown ("PaladinCore Benchmark — " +:+ r_Scenario r) [r]).1 in
           let d := (file_Write d (f_report fl) text).1 in
           Ok (print (with_disk e d) (lines ["[bench] wrote " +:+ f_report fl]))
       | (_, Panic) => Panic
       end.

Definition load_config (fl : RunFlags) : LoadConfig :=
  mkLoadConfig (f_concurrency fl) (f_duration fl) (f_warmup fl) (f_rpsCap fl).

(** [runCmd] after its flags are parsed. *)
Definition run_with (f : F) (fl : RunFlags) (ob : observed) : res (exited F) :=
  let e := start f in
  if decide (parseAddrs (f_addrs fl) = []) then
    Ok (bench_fatal e "at least one --addrs entry is required")
  else
    sel ← select_scenario rand_Intn26 fl;
    match sel with
    | inl msg => Ok (bench_fatal e msg)
    | inr s =>
        let e := print e (lines [banner fl s]) in
        let e := if ob_signal ob then eprint e interrupt_line else e in
        match Run (any_Name s) (load_config fl) (ob_setup ob) (ob_startedAt ob) (ob_now ob) (ob_iterations ob)
                (ob_host ob) with
        | Panic => Panic
        | Err x => Ok (bench_fatal e ("run: " +:+ error_Error x))
        | Ok r =>
            w ← write_json fl r (print e (printSummary r));
            match w with
            | inl e => Ok e
            | inr e => write_report fl r e
            end
        end
    end.

Definition runCmd (f : F) (args : list string) (ob : observed) : res (exited F) :=
  match parse_run args with
  | inl (text, code) => Ok (exit_with (eprint (start f) text) code)
  | inr fl => run_with f fl ob
  end.

(** The loop of [reportCmd] over the files. *)
Fixpoint load_results (paths : list string) (e : exited F) : res (exited F * list Result) :=
  match paths with
  | [] => Ok (e, [])
  | p :: paths' =>
      match LoadJSON (disk e) p with
      | Ok r => '(e, rs) ← load_results paths' e; Ok (e, r :: rs)
      | Err x => load_results paths' (eprint e (lines ["[bench] skipping " +:+ p +:+ ": " +:+ error_Error x]))
      | Panic => Panic
      end
  end.

Definition report_to (outp title : string) (results : list Result) (e : exited F) : res (exited F) :=
  let text := (RenderMarkdown title results).1 in
  if String.eqb outp "-" then Ok (print e text)
  else match os_Create (disk e) outp with
       | (d, Err x) => Ok (bench_fatal (with_disk e d) ("create: " +:+ error_Error x))
       | (d, Ok _) =>
           Ok (eprint (with_disk e (file_Write d outp text).1)
                 (lines ["[bench] wrote " +:+ outp +:+ " (" +:+ format_int (Z.of_nat (length results)) +:+ " results)"]))
       | (_, Panic) => Panic
       end.

Definition reportCmd (f : F) (args : list string) : res (exited F) :=
  let e := start f in
  match flag_exit "report" report_flags (flag_Parse report_flags args) with
  | inl (text, code) => Ok (exit_with (eprint e text) code)
  | inr (fs, _) =>
      match filepath_Glob f (Join2 (flag_string fs "in") "*.json") with
      | Ok paths =>
          '(e, results) ← load_results (SliceStable String.ltb paths) e;
          report_to (flag_string fs "out") (flag_string fs "title") results e
      | Err x => Ok (bench_fatal e ("glob: " +:+ error_Error x))
      | Panic => Panic
      end
  end.

(** [main]: [args] is [os.Args]. *)
Definition bench_main (f : F) (args : list string) (ob : observed) : res (exited F) :=
  match args with
  | _ :: cmd :: rest =>
      if String.eqb cmd "run" then runCmd f rest ob
      else if String.eqb cmd "report" then reportCmd f rest
      else if existsb (String.eqb cmd) ["-h"; "--help"; "help"]
      then Ok (eprint (start f) bench_usage)
      else Ok (exit_with (eprint (start f) bench_usage) 1)
  | _ => Ok (exit_with (eprint (start f) bench_usage) 1)
  end.
End process.

(** ** Lemmas *)

(** A list of addresses that are trimmed, not empty and without a comma is read back
    from its comma-separated form. *)
Lemma parseAddrs_Join (l : list string) :
  l ≠ [] → Forall (λ s, s ≠ "" ∧ trimmed s ∧ no_char "," s = true) l → parseAddrs (Join l ",") = l.
Proof.
  intros Hne Hl. unfold parseAddrs. rewrite Split_Join; [|done|].
  2: { eapply Forall_impl; [exact Hl|]. by intros s (_ & _ & ?). }
  clear Hne. induction Hl as [|s l (Hs & Ht & _) Hl IH]; [done|]. cbn [map].
  by rewrite TrimSpace_trimmed, filter_cons, decide_True, IH.
Qed.

Example parseAddrs_examples :
  parseAddrs "a:1, b:2 ,,c:3" = ["a:1"; "b:2"; "c:3"] ∧ parseAddrs " , " = [].
Proof. vm_compute. done. Qed.

Lemma string_ltb_asym (s t : string) : String.ltb s t = true → String.ltb t s = false.
Proof.
  intros H. apply ltb_false. destruct (total String.le s t) as [Hle|Hle]; [done|].
  apply ltb_false in Hle. congruence.
Qed.

#[export] Instance string_not_above_trans : Transitive (not_above String.ltb).
Proof. intros s t u. unfold not_above. rewrite !ltb_false. intros H1 H2. by etrans. Qed.


(** *** The run command *)

Lemma any_Name_valid (s : any_scenario) : ValidString (any_Name s) = true.
Proof.
  destruct s as [s|s|s]; [done..|]. apply ValidString_ascii. cbn [any_Name]. unfold Mixed_Name.
  by rewrite !all_ascii_app, !format_int_ascii.
Qed.

Section commands.
Context {F : Type} `{!FileSystem F, !FileSystemLaws F}.

Lemma LoadJSON_frame (f f' : F) (p : string) (r : Result) :
  (∀ s, os_ReadFile f p = Ok s → os_ReadFile f' p = Ok s) → LoadJSON f p = Ok r → LoadJSON f' p = Ok r.
Proof.
  intros Hf. unfold LoadJSON. destruct (os_ReadFile f p) as [s| |]; [|done..]. by rewrite (Hf s eq_refl).
Qed.

Lemma LoadJSON_returns (f : F) (p : string) : os_ReadFile f p ≠ Panic → LoadJSON f p ≠ Panic.
Proof.
  unfold LoadJSON, result_Unmarshal. destruct (os_ReadFile f p) as [s| |]; [|done..]. intros _. cbn [mbind res_bind].
  destruct (json_parse s) as [j|]; [|done]. by destruct (decode_struct set_result_field j zero_result).
Qed.

(** The report of [run] leaves the other files and does not change the exit code to 0. *)
Lemma write_report_kept (fl : RunFlags) (r : Result) (e e' : exited F) (q s : string) :
  (f_report fl ≠ "" → other_file (f_report fl) q) → write_report fl r e = Ok e' →
  os_ReadFile (disk e) q = Ok s → os_ReadFile (disk e') q = Ok s.
Proof.
  intros Hne. unfold write_report. destruct (String.eqb_spec (f_report fl) "") as [|Hr]; [by intros [= <-]|].
  specialize (Hne Hr). pose proof (create_other (disk e) (f_report fl) q s Hne) as Hc.
  destruct (os_Create (disk e) (f_report fl)) as [d [u|x|]]; [| |done]; intros [= <-] Hs; cbn [disk print with_disk].
  - apply write_other; [done|]. by apply Hc.
  - by apply Hc.
Qed.

(** *** The report command *)

(** A file that holds a result, and the line about one that does not. *)
Definition loaded (f : F) (p : string) : option Result :=
  match LoadJSON f p with Ok r => Some r | _ => None end.
Definition skipped (f : F) (p : string) : option string :=
  match LoadJSON f p with
  | Err x => Some ("[bench] skipping " +:+ p +:+ ": " +:+ error_Error x)
  | _ => None
  end.

Lemma load_results_spec (paths : list string) (e : exited F) :
  Forall (λ p, LoadJSON (disk e) p ≠ Panic) paths →
  load_results paths e
  = Ok (eprint e (lines (omap (skipped (disk e)) paths)), omap (loaded (disk e)) paths).
Proof.
  revert e. induction paths as [|p paths IH]; intros e Hp.
  { destruct e. unfold eprint. cbn. by rewrite string_app_nil_r. }
  apply Forall_cons in Hp as [Hp Hps]. cbn [load_results omap list_omap]. unfold loaded at 1, skipped at 1.
  destruct (LoadJSON (disk e) p) as [r|x|]; [| |done].
  - by rewrite (IH e Hps).
  - rewrite (IH (eprint e _)) by done. unfold eprint. cbn [out err_out disk exit_code]. do 3 f_equal.
    unfold lines. cbn [map sconcat foldr]. by rewrite !string_app_assoc.
Qed.

(** Results saved one after the other. *)
Fixpoint save_all (f : F) (l : list (string * Result)) : F * res unit :=
  match l with
  | [] => (f, Ok tt)
  | (p, r) :: l' =>
      match SaveJSON f r p with
      | (f', Ok _) => save_all f' l'
      | x => x
      end
  end.

Lemma save_all_kept (f f' : F) (l : list (string * Result)) :
  Forall result_ok l.*2 → ForallOrdPairs other_file l.*1 → save_all f l = (f', Ok tt) →
  Forall (λ x, LoadJSON f' x.1 = Ok x.2) l ∧
  ∀ q s, Forall (λ p, other_file p q) l.*1 → os_ReadFile f q = Ok s → os_ReadFile f' q = Ok s.
Proof.
  revert f. induction l as [|[p r] l IH]; intros f Hok Hother Hs; [by injection Hs as <-|].
  cbn [save_all fmap list_fmap fst snd] in *. apply Forall_cons in Hok as [Hr Hok].
  inversion Hother as [|? ? Hp Hother']; subst.
  destruct (SaveJSON f r p) as [f1 [[]| |]] eqn:Hsave; [|done..].
  destruct (SaveJSON_kept f f1 r p Hr Hsave) as [Hl Hf]. destruct (IH f1 Hok Hother' Hs) as [Hall Hframe]. split.
  - apply Forall_cons. split; [|done]. cbn [fst snd]. eapply LoadJSON_frame; [|exact Hl].
    intros s. apply Hframe. eapply Forall_impl; [exact Hp|]. intros x. apply other_file_sym.
  - intros q s Hq Hread. apply Forall_cons in Hq as [Hq1 Hq]. by apply Hframe, Hf.
Qed.

Lemma omap_sorted {A B} (R : A → A → Prop) (g : A → option B) (h : B → A) (l : list A) :
  (∀ a b, g a = Some b → h b = a) → StronglySorted R l → StronglySorted R (h <$> omap g l).
Proof.
  intros Hg. induction 1 as [|a l Hl IH Ha]; [constructor|]. cbn [omap list_omap].
  destruct (g a) as [b|] eqn:Hb; [|done]. cbn [fmap list_fmap]. constructor; [done|].
  rewrite (Hg _ _ Hb). apply Forall_fmap, Forall_forall. intros b' Hb'. cbn.
  apply list_elem_of_omap in Hb' as (a' & Ha' & Hgb). rewrite (Hg _ _ Hgb).
  rewrite Forall_forall in Ha. by apply Ha.
Qed.
End commands.
(** The variables with the names of their flags. *)
Definition run_values (fl : RunFlags) : list (string * flag_value) :=
  [("scenario", VString (f_scenario fl)); ("addrs", VString (f_addrs fl)); ("tenant", VString (f_tenant fl));
   ("namespace", VString (f_namespace fl)); ("num-keys", VInt (f_numKeys fl));
   ("value-size", VInt (f_valueSize fl)); ("read-percent", VInt (f_readPercent fl));
   ("concurrency", VInt (f_concurrency fl)); ("duration", VDuration (f_duration fl));
   ("warmup", VDuration (f_warmup fl)); ("rps", VInt (f_rpsCap fl)); ("timeout", VDuration (f_timeout fl));
   ("json", VString (f_json fl)); ("report", VString (f_report fl))].

(** ** Properties *)

(** C24: A command line of [run] that sets any of its flags, in any order and any number
    of times, with one dash or two and the value behind an equals sign or in the next
    argument: each variable has the last value its flag was set to, and the default
    the flag was declared with when it was not set. *)
Theorem run_flags_parsed (l : list setting) :
  Forall (setting_ok run_flags) l →
  ∃ fl, parse_run (concat (map setting_args l)) = inr fl ∧
    Forall2 (λ flag x, fl_Name flag = x.1 ∧ x.2 = default (fl_Default flag) (last_set l x.1)) run_flags (run_values fl).
Proof.
  intros Hl. destruct (flag_Parse_settings run_flags l Hl) as (fs & Hp & Hv).
  exists (run_vars fs). unfold parse_run. rewrite Hp. split; [done|].
  assert (∀ name old, flag_lookup run_flags name = Some old → let v := default old (last_set l name) in
    flag_lookup fs name = Some v ∧ same_type old v) as Hall.
  { intros name old Ho. split; [by apply Hv|]. destruct (last_set l name) as [w|] eqn:Hw; [|done].
    by eapply last_set_type. }
  repeat (apply Forall2_cons; split); [..|done].
  all: match goal with |- fl_Name (flag_var ?n ?old _) = _ ∧ _ => specialize (Hall n old eq_refl) end.
  all: split; [reflexivity|]; cbn [fl_Default flag_var fst snd] in *; destruct Hall as [Hlk Ht];
    apply flag_var_value in Hlk; rewrite Hlk; revert Ht; by destruct (default _ _).
Qed.

Section file_properties.
Context {F : Type} `{!FileSystem F, !FileSystemLaws F}.

(** C21: [run] with [--json]: when it exits with code 0, the scenario has run, the summary
    and the banner are of that run, and the file reads back as its result, also when a
    report is written to another file. *)
Theorem run_json_kept (rand : Z → nat → N) (f : F) (args : list string) (fl : RunFlags) (ob : observed) (e : exited F) :
  parse_run args = inr fl → f_json fl ≠ "" → (f_report fl ≠ "" → other_file (f_report fl) (f_json fl)) →
  host_ok (ob_host ob) → run_ok (load_config fl) (ob_startedAt ob) (ob_now ob) (ob_host ob) →
  bench_main rand f ("paladin-bench" :: "run" :: args) ob = Ok e → exit_code e = 0%Z →
  ∃ s r, select_scenario rand fl = Ok (inr s) ∧
    Run (any_Name s) (load_config fl) (ob_setup ob) (ob_startedAt ob) (ob_now ob) (ob_iterations ob) (ob_host ob) = Ok r ∧
    LoadJSON (disk e) (f_json fl) = Ok r ∧
    out e = lines [banner fl s] +:+ printSummary r +:+ lines ["[bench] wrote " +:+ f_json fl]
            +:+ (if String.eqb (f_report fl) "" then "" else lines ["[bench] wrote " +:+ f_report fl]) ∧
    err_out e = if ob_signal ob then interrupt_line else "".
Proof.
  intros Hp Hj Hrep Hhost Hrun Hmain Hcode. cbn in Hmain. unfold runCmd in Hmain. rewrite Hp in Hmain.
  unfold run_with in Hmain. case_decide; [by injection Hmain as <-|].
  destruct (select_scenario rand fl) as [[msg|s]| |] eqn:Hsel; cbn [mbind res_bind] in Hmain;
    [by injection Hmain as <-| |done..].
  destruct (Run _ _ _ _ _ _ _) as [r|x|] eqn:Hr; [|by injection Hmain as <-|done].
  exists s, r. split; [done|]. split; [done|].
  pose proof (Run_result_ok _ _ _ _ _ _ _ _ (any_Name_valid s) Hhost Hrun Hr) as Hok.
  set (e0 := print _ (printSummary r)) in Hmain.
  assert (out e0 = lines [banner fl s] +:+ printSummary r ∧ disk e0 = f ∧
          err_out e0 = if ob_signal ob then interrupt_line else "") as (Hout & Hdisk & Herr)
    by (unfold e0; by destruct (ob_signal ob)). clearbody e0.
  apply res_bind_Ok in Hmain as (w & Hw & Hmain). unfold write_json in Hw.
  apply String.eqb_neq in Hj as Hj'. rewrite Hj' in Hw.
  destruct (SaveJSON (disk e0) r (f_json fl)) as [d [[]|x|]] eqn:Hs; [| |done]; injection Hw as <-.
  2: { injection Hmain as <-. done. }
  destruct (SaveJSON_kept _ _ _ _ Hok Hs) as [Hl _]. split_and!.
  - eapply LoadJSON_frame; [|exact Hl]. intros t Ht.
    exact (write_report_kept fl r _ e _ t Hrep Hmain Ht).
  - unfold write_report in Hmain. destruct (String.eqb (f_report fl) "").
    + injection Hmain as <-. cbn [out print with_disk]. rewrite Hout, !string_app_assoc, string_app_nil_r. reflexivity.
    + destruct (os_Create _ _) as [d' [u|x|]]; [|by injection Hmain as <-|done].
      injection Hmain as <-. cbn [out print with_disk]. rewrite Hout, !string_app_assoc. reflexivity.
  - unfold write_report in Hmain. destruct (String.eqb (f_report fl) ""); [by injection Hmain as <-|].
    destruct (os_Create _ _) as [d' [u|x|]]; [by injection Hmain as <-|by injection Hmain as <-|done].
Qed.

(** C22: Results saved to files, in whatever order, and a report over the directory, in
    whatever order it is listed and whatever else is in it: the report is the Markdown
    of exactly these results, in the order of their files, and the process ends well
    and leaves the files as they are. *)
Theorem saved_results_reported (f f' : F) (l : list (string * Result)) (junk paths : list string)
    (dir title : string) :
  Forall result_ok l.*2 → ForallOrdPairs other_file l.*1 → save_all f l = (f', Ok tt) →
  filepath_Glob f' (Join2 dir "*.json") = Ok paths → paths ≡ₚ l.*1 ++ junk →
  Forall (λ p, ∃ x, LoadJSON f' p = Err x) junk →
  ∃ l' e, l' ≡ₚ l ∧ StronglySorted (not_above String.ltb) l'.*1 ∧
    reportCmd f' ["--in"; dir; "--title"; title] = Ok e ∧
    out e = (RenderMarkdown title l'.*2).1 ∧ exit_code e = 0%Z ∧ disk e = f'.
Proof.
  intros Hok Hother Hsave Hglob Hpaths Hjunk. destruct (save_all_kept f f' l Hok Hother Hsave) as [Hall _].
  set (g p := pair p <$> loaded f' p). set (sorted := SliceStable String.ltb paths).
  assert (sorted ≡ₚ l.*1 ++ junk) as Hsorted by (etrans; [apply SliceStable_Permutation|done]).
  exists (omap g sorted).
  assert (omap g sorted ≡ₚ l) as Hperm.
  { rewrite Hsorted, omap_app.
    assert (omap g l.*1 = l) as ->.
    { clear -Hall. induction Hall as [|[p r] l Hx _ IH]; [done|]. cbn [fmap list_fmap omap list_omap fst] in *.
      unfold g at 1, loaded. cbn [fst snd] in Hx. rewrite Hx. cbn. f_equal. exact IH. }
    assert (omap g junk = []) as ->; [|by rewrite app_nil_r].
    clear -Hjunk. induction Hjunk as [|p junk [x Hx] _ IH]; [done|]. cbn [omap list_omap].
    unfold g at 1, loaded. by rewrite Hx. }
  assert (Forall (λ p, LoadJSON f' p ≠ Panic) sorted) as Hpanic.
  { rewrite Hsorted. apply Forall_app. split.
    - apply Forall_fmap. eapply Forall_impl; [exact Hall|]. intros x Hx. cbn. by rewrite Hx.
    - eapply Forall_impl; [exact Hjunk|]. intros p [x Hx]. by rewrite Hx. }
  exists (print (eprint (start f') (lines (omap (skipped f') sorted))) (RenderMarkdown title (omap (loaded f') sorted)).1).
  split; [done|]. split.
  { apply (omap_sorted _ g fst); [|apply SliceStable_sorted; [exact string_ltb_asym|apply _]].
    intros a b. unfold g. destruct (loaded f' a); [|done]. by intros [= <-]. }
  split.
  { unfold reportCmd. set (fs := flag_set (flag_set report_flags "in" (VString dir)) "title" (VString title)).
    change (flag_Parse report_flags ["--in"; dir; "--title"; title]) with (FlagsParsed fs []).
    cbn [flag_exit]. change (flag_string fs "in") with dir.
    change (flag_string fs "title") with title. change (flag_string fs "out") with "-". rewrite Hglob. fold sorted.
    rewrite (load_results_spec sorted (start f')) by done. reflexivity. }
  cbn [out print eprint start disk exit_code]. split_and!; [|done|done].
  cbn [String.append]. do 2 f_equal.
  clear. induction sorted as [|p ps IH]; [done|]. cbn [omap list_omap]. unfold g at 1.
  destruct (loaded f' p); cbn; by rewrite IH.
Qed.

(** The report command writes the same text in whatever order the directory lists
    its result files, and skips the files it cannot read with a line each. *)
Theorem report_cmd_deterministic (f f' : F) (l l' args rest : list string) (fs : FlagSet) :
  flag_Parse report_flags args = FlagsParsed fs rest → flag_string fs "out" = "-" →
  filepath_Glob f (Join2 (flag_string fs "in") "*.json") = Ok l →
  filepath_Glob f' (Join2 (flag_string fs "in") "*.json") = Ok l' → l ≡ₚ l' →
  (∀ p, p ∈ l → os_ReadFile f p = os_ReadFile f' p ∧ os_ReadFile f p ≠ Panic) →
  ∃ e e', reportCmd f args = Ok e ∧ reportCmd f' args = Ok e' ∧ out e = out e' ∧ err_out e = err_out e' ∧
    err_out e = lines (omap (skipped f) (SliceStable String.ltb l)) ∧
    out e = (RenderMarkdown (flag_string fs "title") (omap (loaded f) (SliceStable String.ltb l))).1.
Proof.
  intros Hf Ho Hg Hg' Hp Hread.
  assert (SliceStable String.ltb l = SliceStable String.ltb l') as Hs.
  { apply SliceStable_unique; [exact string_ltb_asym|apply _| |done].
    intros a b _ _ Ha Hb. apply ltb_false in Ha, Hb. by apply (anti_symm String.le). }
  assert (∀ p, p ∈ SliceStable String.ltb l →
    LoadJSON f p = LoadJSON f' p ∧ LoadJSON f p ≠ Panic) as Hload.
  { intros p Hin. rewrite SliceStable_Permutation in Hin. destruct (Hread p Hin) as [Heq Hne].
    split; [unfold LoadJSON; by rewrite Heq|by apply LoadJSON_returns]. }
  exists (print (eprint (start f) (lines (omap (skipped f) (SliceStable String.ltb l))))
    (RenderMarkdown (flag_string fs "title") (omap (loaded f) (SliceStable String.ltb l))).1),
    (print (eprint (start f') (lines (omap (skipped f) (SliceStable String.ltb l))))
    (RenderMarkdown (flag_string fs "title") (omap (loaded f) (SliceStable String.ltb l))).1).
  unfold reportCmd. rewrite Hf. cbn [flag_exit]. rewrite Hg, Hg', <- Hs. split_and!; [..|done|done|done|done].
  - rewrite (load_results_spec _ (start f)); [by unfold report_to; cbn [mbind res_bind]; rewrite Ho|].
    apply Forall_forall. intros p Hin. by apply Hload.
  - rewrite (load_results_spec _ (start f')).
    + assert (omap (skipped (disk (start f'))) (SliceStable String.ltb l) = omap (skipped f) (SliceStable String.ltb l)
        ∧ omap (loaded (disk (start f'))) (SliceStable String.ltb l) = omap (loaded f) (SliceStable String.ltb l)) as [-> ->].
      { split; apply list_omap_ext, Forall_Forall2_diag, Forall_forall; intros p Hin;
          unfold skipped, loaded; cbn [disk start]; by rewrite (proj1 (Hload p Hin)). }
      unfold report_to. cbn [mbind res_bind]. by rewrite Ho.
    + apply Forall_forall. intros p Hin. cbn [disk start]. by destruct (Hload p Hin) as [<- ?].
Qed.
End file_properties.

(** ** Concrete runs *)

Definition demo_settings : list setting :=
  [mkSetting "scenario" (VString "mixed") true true; mkSetting "duration" (VDuration (90 * Second)) false false;
   mkSetting "num-keys" (VInt (-5)) false true; mkSetting "scenario" (VString "read_only") true false].

Example demo_settings_args :
  concat (map setting_args demo_settings)
  = ["--scenario=mixed"; "-duration"; "1m30s"; "-num-keys=-5"; "--scenario"; "read_only"].
Proof. vm_compute. done. Qed.

Lemma run_flags_parsed_witness :
  ∃ fl, parse_run (concat (map setting_args demo_settings)) = inr fl ∧
    VString (f_scenario fl) = VString "read_only" ∧ VDuration (f_duration fl) = VDuration (90 * Second) ∧
    VInt (f_concurrency fl) = VInt 32.
Proof.
  destruct (run_flags_parsed demo_settings) as (fl & Hp & Hv).
  - repeat (apply Forall_cons; split); [..|done].
    all: split_and!; try done; eexists; split_and!; try reflexivity; by vm_compute.
  - exists fl. split; [exact Hp|].
    pose proof (Forall2_lookup_lr _ _ _ 0 _ _ Hv eq_refl eq_refl) as [_ H1].
    pose proof (Forall2_lookup_lr _ _ _ 8 _ _ Hv eq_refl eq_refl) as [_ H2].
    pose proof (Forall2_lookup_lr _ _ _ 7 _ _ Hv eq_refl eq_refl) as [_ H3].
    exact (conj H1 (conj H2 H3)).
Defined.

Definition demo_run_args : list string :=
  ["--scenario=write_only"; "--num-keys=2"; "--value-size=8"; "--json=r/a.json"; "--report=r/a.md"; "--duration=2s";
   "--warmup=100ns"].
Definition demo_run_flags : RunFlags :=
  match parse_run demo_run_args with inr fl => fl | inl _ => run_vars run_flags end.
Definition demo_observed : observed := mkObserved (Ok tt) 0 (2 * Second) [] demo_host true.

Lemma run_json_kept_witness :
  ∃ e r, bench_main (λ _ _, 7%N) (∅ : mem_fs) ("paladin-bench" :: "run" :: demo_run_args) demo_observed = Ok e ∧
    LoadJSON (disk e) "r/a.json" = Ok r ∧ err_out e = interrupt_line.
Proof.
  assert (∃ e, bench_main (λ _ _, 7%N) (∅ : mem_fs) ("paladin-bench" :: "run" :: demo_run_args) demo_observed = Ok e ∧
    exit_code e = 0%Z) as (e & He & Hcode).
  { eexists. split; [vm_compute; reflexivity|reflexivity]. }
  destruct (run_json_kept (λ _ _, 7%N) (∅ : mem_fs) demo_run_args demo_run_flags demo_observed e)
    as (s & r & _ & _ & Hl & _ & Herr).
  - vm_compute. reflexivity.
  - vm_compute. discriminate.
  - intros _. vm_compute. discriminate.
  - split; [vm_compute; repeat split; discriminate|repeat constructor|by intros name [= <-]|
            repeat constructor; by vm_compute].
  - split; [repeat constructor; by vm_compute|vm_compute; repeat split; discriminate].
  - exact He.
  - exact Hcode.
  - exists e, r. split; [exact He|]. split; [exact Hl|exact Herr].
Defined.

Definition demo_disk : mem_fs := {["r/x.json" := "no result"]}.
Definition demo_results : list (string * Result) :=
  [("r/b.json", demo_result "read_only" 8); ("r/a.json", demo_result "write_only" 8)].
Definition demo_saved : mem_fs := (save_all demo_disk demo_results).1.

Lemma demo_result_ok (name : string) (conc : Z) :
  ValidString name = true → int64_ok conc → result_ok (demo_result name conc).
Proof.
  intros Hn Hc. split; cbn [r_StartedAt r_Scenario r_Duration r_Concurrency r_RPSCap r_Count r_Errors r_StatusClass
    r_RPS r_Latency r_Env demo_result].
  - vm_compute. repeat split; discriminate.
  - done.
  - repeat (apply Forall_cons; split); [split; by vm_compute|done|split; by vm_compute|done].
  - repeat (apply Forall_cons; split); [vm_compute; discriminate..|done].
  - done.
  - by vm_compute.
  - split; [vm_compute; discriminate|]. repeat constructor; by vm_compute.
  - split; [vm_compute; repeat split; discriminate|by repeat constructor|].
    repeat constructor; by vm_compute.
Qed.

Lemma saved_results_reported_witness :
  ∃ l' e, l' ≡ₚ demo_results ∧ reportCmd demo_saved ["--in"; "r"; "--title"; "Sweep"] = Ok e ∧
    out e = (RenderMarkdown "Sweep" l'.*2).1.
Proof.
  destruct (saved_results_reported demo_disk demo_saved demo_results ["r/x.json"]
    ["r/a.json"; "r/b.json"; "r/x.json"] "r" "Sweep") as (l' & e & Hl & _ & He & Hout & _).
  - repeat (apply Forall_cons; split); [..|constructor]; apply demo_result_ok; by vm_compute.
  - repeat constructor; vm_compute; discriminate.
  - vm_compute. reflexivity.
  - vm_compute. reflexivity.
  - apply (bool_decide_unpack _). by vm_compute.
  - repeat constructor. eexists. vm_compute. reflexivity.
  - exists l', e. split; [exact Hl|]. split; [exact He|exact Hout].
Defined.

(** Two listings of the same files. *)
Record listed := mkListed {
  li_files : mem_fs;
  li_order : list string;
}.

#[export] Instance listed_file_system : FileSystem listed := {|
  os_MkdirAll d _ := d;
  os_Create d p := (mkListed (os_Create (li_files d) p).1 (li_order d), Ok tt);
  file_Write d p data := (mkListed (file_Write (li_files d) p data).1 (li_order d), Ok tt);
  os_ReadFile d p := os_ReadFile (li_files d) p;
  filepath_Glob d _ := Ok (li_order d);
|}.

Lemma report_cmd_deterministic_witness :
  ∃ e e', reportCmd (mkListed demo_saved ["r/x.json"; "r/a.json"; "r/b.json"]) ["--in"; "r"] = Ok e ∧
    reportCmd (mkListed demo_saved ["r/b.json"; "r/a.json"; "r/x.json"]) ["--in"; "r"] = Ok e' ∧ out e = out e'.
Proof.
  destruct (report_cmd_deterministic (mkListed demo_saved ["r/x.json"; "r/a.json"; "r/b.json"])
    (mkListed demo_saved ["r/b.json"; "r/a.json"; "r/x.json"]) ["r/x.json"; "r/a.json"; "r/b.json"]
    ["r/b.json"; "r/a.json"; "r/x.json"] ["--in"; "r"] [] (flag_set report_flags "in" (VString "r")))
    as (e & e' & He & He' & Ho & _).
  - reflexivity.
  - reflexivity.
  - reflexivity.
  - reflexivity.
  - apply (bool_decide_unpack _). by vm_compute.
  - intros p _. cbn [os_ReadFile listed_file_system li_files mem_file_system]. split; [reflexivity|].
    destruct (demo_saved !! p); discriminate.
  - exists e, e'. split; [exact He|]. split; [exact He'|exact Ho].
Defined.
