(* ===== verification/Workload.v ===== *)
(** The benchmark against a server: [bench.Run] of [src/bench/load.go] with the scenario
    that [src/cmd/paladin-bench/main.go] selected, whose [Setup] and [Step] act on a
    world.  Steps of different workers are taken one after the other, in the order in
    which the world answers them. *)

From Stdlib Require Import SpecFloat.
From stdpp Require Import gmap.
From S2P Require Import Prelude GoStrings GoFmt GoFlag GoTime GoOs JsonFields Entry BoltDB Kv StoreSpec BoltStore WatchCache.
From S2P Require Import Watchable Http Server BenchEnv Hist Load GoRfc3339 ResultJson Report Scenarios BenchCmd.

Local Open Scope string_scope.
Local Open Scope list_scope.
Local Open Scope nat_scope.

(** ** The scenario behind the interface *)

Section any.
Context {W : Type}.
Variable rand_Intn26 : Z → nat → N.
Variable http_NewRequest : string → string → go_bytes → res request.
Variable http_Do : W → http_Client → request → W * res response.

Definition any_Setup (w : W) (s : any_scenario) : W * res unit :=
  match s with
  | AnyWriteOnly s => WriteOnly_Setup w s
  | AnyReadOnly s => ReadOnly_Setup rand_Intn26 http_NewRequest http_Do w s
  | AnyMixed s => Mixed_Setup rand_Intn26 http_NewRequest http_Do w s
  end.

Definition any_Step (w : W) (s : any_scenario) : W * any_scenario * res Z :=
  match s with
  | AnyWriteOnly s => let '(w, s, r) := WriteOnly_Step http_NewRequest http_Do w s in (w, AnyWriteOnly s, r)
  | AnyReadOnly s => let '(w, s, r) := ReadOnly_Step http_NewRequest http_Do w s in (w, AnyReadOnly s, r)
  | AnyMixed s => let '(w, s, r) := Mixed_Step http_NewRequest http_Do w s in (w, AnyMixed s, r)
  end.

Definition any_Teardown (s : any_scenario) : res unit :=
  match s with
  | AnyWriteOnly s => WriteOnly_Teardown s
  | AnyReadOnly s => ReadOnly_Teardown s
  | AnyMixed s => Mixed_Teardown s
  end.

#[export] Instance any_instance : Scenario W any_scenario := {|
  scenario_Name := any_Name; scenario_Setup := any_Setup;
  scenario_Step := any_Step; scenario_Teardown := any_Teardown |}.
End any.

(** ** A run *)

(** What the clock and the context say of one iteration of a worker. *)
Record timing := mkTiming {
  tm_worker : nat;
  tm_t0 : Z;
  tm_lat : Z;
  tm_cancelled : bool;
}.

Definition timed (t : timing) (status : Z) (failed : bool) : nat * iteration :=
  (tm_worker t, mkIteration (tm_t0 t) (tm_lat t) status failed (tm_cancelled t)).

Section run.
Context {W T : Type} `{!Scenario W T}.

(** The steps of the workers; a failed one has the status 0. *)
Fixpoint run_iterations (w : W) (s : T) (l : list timing) : W * T * res (list (nat * iteration)) :=
  match l with
  | [] => (w, s, Ok [])
  | t :: l' =>
      match scenario_Step w s with
      | (w, s, Panic) => (w, s, Panic)
      | (w, s, r) =>
          let i := match r with Ok status => timed t status false | _ => timed t 0 true end in
          let '(w, s, its) := run_iterations w s l' in (w, s, its ← its; Ok (i :: its))
      end
  end.

(** What [bench.Run] meets: a scenario that is not set up does not step. *)
Definition observe (w : W) (s : T) (startedAt now : Z) (l : list timing) (host : Host) (signal : bool)
    : W * res observed :=
  match scenario_Setup w s with
  | (w, Ok u) =>
      let '(w, _, its) := run_iterations w s l in
      (w, its ← its; Ok (mkObserved (Ok u) startedAt now its host signal))
  | (w, r) => (w, Ok (mkObserved r startedAt now [] host signal))
  end.
End run.

(** ** Lemmas *)

(** A status of the 2xx class. *)
Definition success (status : Z) : Prop := (200 ≤ status < 300)%Z.

(** The iterations of steps that all succeed. *)
Definition answered (l : list timing) (its : list (nat * iteration)) : Prop :=
  Forall2 (λ t x, ∃ status, success status ∧ x = timed t status false) l its.

Lemma success_class (status : Z) : success status → is_ok status = true ∧ status_index status = 2.
Proof.
  intros Hs. unfold success in Hs. unfold is_ok, status_index.
  destruct (Z.leb_spec 200 status), (Z.ltb_spec status 400), (Z.ltb_spec 0 status); try lia.
  split; [done|]. assert (Z.quot status 100 = 2)%Z as ->; [|done].
  Z.to_euclidean_division_equations; lia.
Qed.

(** The timings that count. *)
Definition measured (ms : Z) (l : list timing) : list timing := filter (λ t, negb (tm_t0 t <? ms)%Z = true) l.

Lemma answered_kept (ms : Z) (l : list timing) (its : list (nat * iteration)) :
  answered l its →
  it_lat <$> kept ms its = tm_lat <$> measured ms l ∧
  Forall (λ i, success (iteration_code i)) (kept ms its) ∧ length (kept ms its) = length (measured ms l).
Proof.
  induction 1 as [|t x l its (status & Hs & ->) _ (IH1 & IH2 & IH3)]; [done|].
  unfold kept, measured in *. cbn [fmap list_fmap timed snd]. rewrite !filter_cons.
  set (i := mkIteration _ _ _ _ _).
  assert (counted ms i = negb (tm_t0 t <? ms)%Z) as -> by apply andb_true_r.
  case_decide; [|done]. cbn [fmap list_fmap length] in *. split_and!; [by f_equal|by constructor|by f_equal].
Qed.

Lemma answered_runnable (n : nat) (l : list timing) (its : list (nat * iteration)) :
  answered l its → Forall (λ t, tm_worker t < n ∧ (tm_lat t < two63)%Z) l → runnable n its.
Proof.
  intros Ha Hl. unfold runnable. induction Ha as [|t x l its (status & _ & ->) _ IH]; [done|].
  apply Forall_cons in Hl as [Ht Hl]. constructor; [exact Ht|by apply IH].
Qed.

Lemma count_all (P : Z → bool) (codes : list Z) :
  Forall (λ c, P c = true) codes → count_codes P codes = N.of_nat (length codes).
Proof.
  intros H. unfold count_codes. f_equal. induction H as [|c codes Hc _ IH]; [done|].
  rewrite filter_cons, decide_True by done. simpl. by rewrite IH.
Qed.

Lemma count_none (P : Z → bool) (codes : list Z) :
  Forall (λ c, P c = false) codes → count_codes P codes = 0%N.
Proof.
  intros H. unfold count_codes. induction H as [|c codes Hc _ IH]; [done|].
  rewrite filter_cons, decide_False by congruence. exact IH.
Qed.

(** A run whose steps all succeed reports no error, and all its requests as 2xx. *)
Lemma answered_Run (name : string) (lc : LoadConfig) (startedAt now : Z) (l : list timing)
    (its : list (nat * iteration)) (host : Host) :
  let ms := (startedAt + WarmUp lc)%Z in
  answered l its →
  Forall (λ t, tm_worker t < Z.to_nat (Concurrency (load_defaults lc)) ∧ (tm_lat t < two63)%Z) l →
  fits64 (samples (tm_lat <$> measured ms l)) →
  ∃ r, Run name lc (Ok tt) startedAt now its host = Ok r ∧ r_Errors r = 0%N ∧
    r_Count r = N.of_nat (length (measured ms l)) ∧ r_StatusClass r !! 2 = Some (r_Count r).
Proof.
  intros ms Ha Hl Hfit. destruct (answered_kept ms l its Ha) as (Hlat & Hcodes & Hlen).
  destruct (Run_spec name lc startedAt now its host) as (r & h & c & HRun & _ & Hc & _ & Hn & He & Hs & _).
  - by eapply answered_runnable.
  - unfold latencies. fold ms. by rewrite Hlat.
  - fold ms in Hc, Hn. exists r. destruct Hc as (_ & Herr & _ & Hst).
    rewrite He, Hs, Hn, Herr, Hst by lia. split_and!; [done| |by rewrite Hlen|].
    + apply count_none, Forall_fmap. eapply Forall_impl; [exact Hcodes|]. intros i Hi. cbn.
      by destruct (success_class _ Hi) as [-> _].
    + rewrite count_all, length_fmap; [done|]. apply Forall_fmap. eapply Forall_impl; [exact Hcodes|].
      intros i Hi. cbn. by destruct (success_class _ Hi) as [_ ->].
Qed.

(** *** Steps that keep an invariant *)

Section invariant.
Context {W T : Type} `{!Scenario W T}.
Variable inv : nat → W → T → Prop.
Hypothesis step : ∀ n w s, inv (S n) w s →
  ∃ w' s' status, scenario_Step w s = (w', s', Ok status) ∧ success status ∧ inv n w' s'.

Lemma run_iterations_answered (l : list timing) (w : W) (s : T) :
  inv (length l) w s → ∃ w' s' its, run_iterations w s l = (w', s', Ok its) ∧ answered l its.
Proof.
  revert w s. induction l as [|t l IH]; intros w s Hi; [by exists w, s, []; split; [|constructor]|].
  destruct (step _ _ _ Hi) as (w1 & s1 & status & Hst & Hok & Hi1).
  destruct (IH w1 s1 Hi1) as (w2 & s2 & its & Hrun & Ha). cbn [run_iterations]. rewrite Hst, Hrun.
  eexists _, _, _. split; [reflexivity|]. constructor; [by exists status|done].
Qed.
End invariant.

(** *** The scenarios against the server *)

Section against.
Context {St : Type} `{StoreLaws St}.
Context (rand_Intn26 : Z → nat → N) (cfg : ScenarioConfig).
Context (http_NewRequest : string → string → go_bytes → res request).
Hypothesis Hnew : plain_urls http_NewRequest cfg.
Hypothesis Ht : segment (Tenant cfg).
Hypothesis Hn : segment (Namespace cfg).

(** The server has the keys and room for [n] more writes. *)
Definition serves (n : nat) (srv : Server St) (keys : list string) : Prop :=
  ∃ a, store_rep (srv_store srv) a ∧ (kv_rev a + N.of_nat n ≤ store_limit)%N ∧
       ∀ k, k ∈ keys → is_Some (kv_map a !! k).

(** A scenario that can make [n] more steps. *)
Definition can_write (n : nat) (s : WriteOnly) : Prop :=
  wo_ready cfg s ∧ Forall key_ok (wo_keys s) ∧ (Z.of_N (wo_counter s) + Z.of_nat n < two63)%Z.
Definition can_read (n : nat) (s : ReadOnly) : Prop :=
  ro_ready cfg s ∧ (Z.of_N (ro_counter s) + Z.of_nat n < two63)%Z ∧
  (Z.of_N (ro_rrIdx s) + Z.of_nat n < two63)%Z.

Lemma can_read_S (n : nat) (s : ReadOnly) : can_read (S n) s → can_read n s.
Proof. intros (? & ? & ?). split_and!; [done|lia|lia]. Qed.
Lemma can_write_S (n : nat) (s : WriteOnly) : can_write (S n) s → can_write n s.
Proof. intros (? & ? & ?). split_and!; [done|done|lia]. Qed.
Lemma serves_S (n : nat) (srv : Server St) (keys : list string) : serves (S n) srv keys → serves n srv keys.
Proof. intros (a & ? & ? & ?). exists a. split_and!; [done|lia|done]. Qed.

Lemma write_step (n : nat) (srv : Server St) (keys : list string) (s : WriteOnly) :
  serves (S n) srv keys → can_write (S n) s →
  ∃ srv' s' status, WriteOnly_Step http_NewRequest served srv s = (srv', s', Ok status) ∧ success status ∧
    serves n srv' keys ∧ can_write n s'.
Proof.
  intros (a & Hs & Hlim & Hin) (Hwo & Hok & Hc). unfold WriteOnly_Step.
  rewrite u64_add_small by (unfold two63, max_uint64 in *; lia).
  set (s' := mkWriteOnly _ _ _ _ _ _).
  assert (wo_ready cfg s') as Hwo' by (destruct Hwo; by split).
  destruct (wo_pool _ _ Hwo) as (m & Hm0 & Hkeys).
  destruct (ring_get_Ok (wo_keys s') (wo_counter s')) as (k & Hk & Hring).
  { cbn. lia. }
  { cbn. rewrite Hkeys. by destruct m; [lia|]. }
  destruct (write_request_Ok cfg _ Hnew s' k Hwo') as (q & -> & Hm & _ & Hp & Hb); [cbn; lia|done|done|].
  assert (key_ok k) as Hkok by (rewrite Forall_forall in Hok; by apply Hok).
  unfold s' in Hk. cbn in Hk. rewrite Hkeys in Hk. apply pool_elem in Hk as [i ->].
  destruct (put_served cfg Ht Hn (wo_client s') srv a q i Hs) as (srv' & a' & status & -> & Hst & Hs' & Hr & _ & Hmono);
    [lia|done..|].
  exists srv', s', status. split_and!; [done| | |].
  - by destruct Hst as [->| ->].
  - exists a'. split_and!; [done|lia|]. intros x Hx. by apply Hmono, Hin.
  - split_and!; [done|done|cbn; lia].
Qed.

Lemma read_step (n : nat) (srv : Server St) (s : ReadOnly) :
  serves n srv (ro_keys s) → can_read (S n) s →
  ∃ s', ReadOnly_Step http_NewRequest served srv s = (srv, s', Ok StatusOK) ∧
    ro_keys s' = ro_keys s ∧ can_read n s'.
Proof.
  intros (a & Hs & _ & Hin) (Hro & Hc & Hr).
  destruct (read_step_served cfg http_NewRequest Hnew Ht Hn srv a s Hs Hro Hin) as [Hstep Hro']; [lia..|].
  eexists. split; [exact Hstep|]. split; [done|]. split_and!; [done|cbn; lia|cbn; lia].
Qed.

(** Any of the scenarios, set up, with [n] steps to go. *)
Definition any_can (n : nat) (srv : Server St) (s : any_scenario) : Prop :=
  match s with
  | AnyWriteOnly s => serves n srv [] ∧ can_write n s
  | AnyReadOnly s => serves n srv (ro_keys s) ∧ can_read n s
  | AnyMixed s => serves n srv (ro_keys (mx_r s)) ∧ can_read n (mx_r s) ∧ can_write n (mx_w s)
  end.

Lemma any_step (n : nat) (srv : Server St) (s : any_scenario) :
  any_can (S n) srv s →
  ∃ srv' s' status, any_Step http_NewRequest served srv s = (srv', s', Ok status) ∧
    success status ∧ any_can n srv' s'.
Proof.
  destruct s as [s|s|s]; cbn [any_can any_Step].
  - intros [Hs Hc]. destruct (write_step n srv [] s Hs Hc) as (srv' & s' & status & -> & H1 & H2 & H3).
    by exists srv', (AnyWriteOnly s'), status.
  - intros [Hs Hc]. destruct (read_step n srv s (serves_S _ _ _ Hs) Hc) as (s' & -> & Hk & H').
    exists srv, (AnyReadOnly s'), StatusOK. split_and!; [done|done|]. cbn [any_can]. rewrite Hk.
    split; [by apply serves_S|done].
  - intros (Hs & Hr & Hw). unfold Mixed_Step. cbv zeta. destruct (_ <? _)%Z.
    + destruct (read_step n srv (mx_r s) (serves_S _ _ _ Hs) Hr) as (s' & -> & Hk & H').
      eexists srv, _, StatusOK. split; [reflexivity|]. split; [done|]. cbn [any_can mx_r mx_w]. rewrite Hk.
      split_and!; [by apply serves_S|done|by apply can_write_S].
    + destruct (write_step n srv _ (mx_w s) Hs Hw) as (srv' & s' & status & -> & H1 & H2 & H3).
      eexists srv', _, status. split; [reflexivity|]. split; [done|]. cbn [any_can mx_r mx_w].
      split_and!; [done|by apply can_read_S|done].
Qed.

(** The keys [Setup] writes, and the keys the steps write. *)
Definition setup_keys (s : any_scenario) : list string :=
  match s with AnyWriteOnly _ => [] | AnyReadOnly s => ro_keys s | AnyMixed s => ro_keys (mx_r s) end.
Definition step_keys (s : any_scenario) : list string :=
  match s with AnyWriteOnly s => wo_keys s | AnyReadOnly _ => [] | AnyMixed s => wo_keys (mx_w s) end.

(** How the selected scenario was made. *)
Definition made (s : any_scenario) : Prop :=
  match s with
  | AnyWriteOnly s => NewWriteOnly rand_Intn26 cfg = Ok s
  | AnyReadOnly s => NewReadOnly cfg = Ok s
  | AnyMixed s => NewReadOnly cfg = Ok (mx_r s) ∧ NewWriteOnly rand_Intn26 cfg = Ok (mx_w s)
  end.

Lemma can_write_made (n : nat) (s : WriteOnly) :
  NewWriteOnly rand_Intn26 cfg = Ok s → Forall key_ok (wo_keys s) → (Z.of_nat n < two63)%Z → can_write n s.
Proof.
  intros Hs Hk Hlt. destruct (NewWriteOnly_ready rand_Intn26 cfg s Hs) as [Hwo Hc].
  split_and!; [done|done|]. rewrite Hc. lia.
Qed.

Lemma can_read_made (n : nat) (s : ReadOnly) :
  Addrs cfg ≠ [] → NewReadOnly cfg = Ok s → (Z.of_nat n < two63)%Z → can_read n s.
Proof.
  intros Ha Hs Hlt. destruct (NewReadOnly_ready cfg s Ha Hs) as (Hro & _ & Hc & Hr).
  split_and!; [done|rewrite Hc; lia|rewrite Hr; lia].
Qed.

Lemma setup_read (n : nat) (srv : Server St) (a : kv) (s : ReadOnly) :
  Addrs cfg ≠ [] → (0 ≤ ValueSize cfg)%Z → NewReadOnly cfg = Ok s → store_rep (srv_store srv) a →
  (kv_rev a + N.of_nat (length (ro_keys s) + n) ≤ store_limit)%N → Forall key_ok (ro_keys s) →
  ∃ srv', ReadOnly_Setup rand_Intn26 http_NewRequest served srv s = (srv', Ok tt) ∧ serves n srv' (ro_keys s).
Proof.
  intros Ha Hv Hs Hrep Hlim Hk.
  destruct (ReadOnly_Setup_served rand_Intn26 cfg http_NewRequest Hnew Ht Hn srv a s Ha Hv Hs Hrep)
    as (srv' & a' & Hset & Hrep' & Hrev & Hin); [lia|done|].
  exists srv'. split; [done|]. exists a'. split_and!; [done|lia|done].
Qed.

Lemma any_Setup_served (n : nat) (srv : Server St) (a : kv) (s : any_scenario) :
  Addrs cfg ≠ [] → (0 ≤ ValueSize cfg)%Z → made s → store_rep (srv_store srv) a →
  (kv_rev a + N.of_nat (length (setup_keys s) + n) ≤ store_limit)%N →
  Forall key_ok (setup_keys s) → Forall key_ok (step_keys s) → (Z.of_nat n < two63)%Z →
  ∃ srv', any_Setup rand_Intn26 http_NewRequest served srv s = (srv', Ok tt) ∧ any_can n srv' s.
Proof.
  intros Ha Hv Hs Hrep Hlim Hset Hstep Hlt.
  destruct s as [s|s|s]; cbn [made setup_keys step_keys any_Setup any_can length] in *.
  - exists srv. split; [done|]. split; [|by apply can_write_made]. exists a. split_and!; [done|lia|].
    intros k Hk. by apply not_elem_of_nil in Hk.
  - destruct (setup_read n srv a s) as (srv' & Hs' & Hin); [done..|]. exists srv'. split; [done|].
    split; [done|by apply can_read_made].
  - destruct Hs as [Hr Hw]. destruct (setup_read n srv a (mx_r s)) as (srv' & Hs' & Hin); [done..|].
    exists srv'. split; [done|]. split_and!; [done|by apply can_read_made|by apply can_write_made].
Qed.
End against.

Lemma select_made (rand : Z → nat → N) (fl : RunFlags) (s : any_scenario) :
  select_scenario rand fl = Ok (inr s) → made rand (scenario_config fl) s.
Proof.
  unfold select_scenario. intros Hs. destruct (String.eqb (f_scenario fl) "write_only").
  { apply res_bind_Ok in Hs as (w & Hw & Hs). by injection Hs as <-. }
  destruct (String.eqb (f_scenario fl) "read_only").
  { apply res_bind_Ok in Hs as (r & Hr & Hs). by injection Hs as <-. }
  destruct (String.eqb (f_scenario fl) "mixed"); [|done]. destruct (_ || _); [done|].
  apply res_bind_Ok in Hs as (m & Hm & Hs). injection Hs as <-. unfold NewMixed in Hm.
  apply res_bind_Ok in Hm as (r & Hr & Hm). apply res_bind_Ok in Hm as (w & Hw & Hm). by injection Hm as <-.
Qed.

(** ** Properties *)

(** C20: The command [run] against a server, end to end: whatever scenario the flags select,
    whatever number of workers take how many steps in which order, as long as the store
    has room the process exits with code 0, and its summary reports no error and every
    measured request in the 2xx class. *)
Theorem bench_run_no_errors {St F : Type} `{StoreLaws St} `{!FileSystem F} (rand : Z → nat → N)
    (new : string → string → go_bytes → res request) (args : list string) (fl : RunFlags) (s : any_scenario)
    (srv : Server St) (a : kv) (l : list timing) (startedAt now : Z) (host : Host) (signal : bool) (f : F) :
  let ms := (startedAt + WarmUp (load_config fl))%Z in
  parse_run args = inr fl → f_json fl = "" → f_report fl = "" →
  select_scenario rand fl = Ok (inr s) → parseAddrs (f_addrs fl) ≠ [] → (0 ≤ f_valueSize fl)%Z →
  plain_urls new (scenario_config fl) → segment (f_tenant fl) → segment (f_namespace fl) →
  store_rep (srv_store srv) a → (kv_rev a + N.of_nat (length (setup_keys s) + length l) ≤ store_limit)%N →
  Forall key_ok (setup_keys s) → Forall key_ok (step_keys s) → (Z.of_nat (length l) < two63)%Z →
  Forall (λ t, tm_worker t < Z.to_nat (Concurrency (load_defaults (load_config fl))) ∧ (tm_lat t < two63)%Z) l →
  fits64 (samples (tm_lat <$> measured ms l)) →
  ∃ srv' ob r e,
    observe (Scenario0 := any_instance rand new served) srv s startedAt now l host signal = (srv', Ok ob) ∧
    bench_main rand f ("paladin-bench" :: "run" :: args) ob = Ok e ∧
    exit_code e = 0%Z ∧ out e = lines [banner fl s] +:+ printSummary r ∧
    r_Errors r = 0%N ∧ r_Count r = N.of_nat (length (measured ms l)) ∧ r_StatusClass r !! 2 = Some (r_Count r).
Proof.
  intros ms Hp Hj Hrep Hsel Ha Hv Hnew Ht Hn Hs Hlim Hset Hstep Hlt Hl Hfit.
  destruct (any_Setup_served rand (scenario_config fl) new Hnew Ht Hn (length l) srv a s Ha Hv)
    as (srv1 & Hsetup & Hcan); [by apply select_made|done..|].
  destruct (run_iterations_answered (Scenario0 := any_instance rand new served) (any_can (scenario_config fl))
    (any_step (scenario_config fl) new Hnew Ht Hn) l srv1 s Hcan) as (srv2 & s2 & its & Hits & Hans).
  destruct (answered_Run (any_Name s) (load_config fl) startedAt now l its host Hans Hl Hfit)
    as (r & HRun & He & Hc & Hcl).
  exists srv2, (mkObserved (Ok tt) startedAt now its host signal), r.
  exists (print (if signal then eprint (print (start f) (lines [banner fl s])) interrupt_line
                 else print (start f) (lines [banner fl s])) (printSummary r)).
  split_and!; [..|done|done|done].
  - unfold observe. cbn [scenario_Setup any_instance]. rewrite Hsetup, Hits. reflexivity.
  - cbn [bench_main String.eqb Ascii.eqb Bool.eqb]. unfold runCmd. rewrite Hp. unfold run_with.
    rewrite decide_False, Hsel by done. cbn [mbind res_bind ob_setup ob_startedAt ob_now ob_iterations ob_host ob_signal].
    rewrite HRun. unfold write_json, write_report. rewrite Hj, Hrep. reflexivity.
  - by destruct signal.
  - by destruct signal.
Qed.

(** ** Concrete runs *)

Definition demo_mixed_args : list string :=
  ["--scenario=mixed"; "--addrs=a:1"; "--tenant=t"; "--namespace=n"; "--num-keys=3"; "--value-size=2";
   "--read-percent=50"; "--concurrency=2"; "--duration=2s"; "--warmup=100ns"].
Definition demo_mixed_flags : RunFlags :=
  match parse_run demo_mixed_args with inr fl => fl | inl _ => run_vars run_flags end.
Definition demo_scenario : any_scenario :=
  match select_scenario demo_rand demo_mixed_flags with
  | Ok (inr s) => s
  | _ => AnyReadOnly (mkReadOnly demo_cfg [] (newHTTPClient 0) [] 0 0)
  end.
Definition demo_timings : list timing :=
  [mkTiming 0 50 10 false; mkTiming 1 150 3000 false; mkTiming 0 160 250000 false; mkTiming 1 4000 90 true].

Lemma bench_run_no_errors_witness :
  ∃ srv' ob r e,
    observe (Scenario0 := any_instance demo_rand demo_new served) demo_server demo_scenario 0 (2 * Second)
      demo_timings demo_host false = (srv', Ok ob) ∧
    bench_main demo_rand (∅ : mem_fs) ("paladin-bench" :: "run" :: demo_mixed_args) ob = Ok e ∧
    r_Errors r = 0%N ∧ r_Count r = 3%N.
Proof.
  destruct (bench_run_no_errors demo_rand demo_new demo_mixed_args demo_mixed_flags demo_scenario demo_server
    kv_empty demo_timings 0 (2 * Second) demo_host false (∅ : mem_fs))
    as (srv' & ob & r & e & Hob & Hmain & _ & _ & He & Hc & _).
  - vm_compute. reflexivity.
  - vm_compute. reflexivity.
  - vm_compute. reflexivity.
  - vm_compute. reflexivity.
  - vm_compute. discriminate.
  - vm_compute. discriminate.
  - intros m addr i b Ha key. assert (addr ∈ ["a:1"]) as Ha1 by (vm_compute in Ha; exact Ha).
    apply list_elem_of_singleton in Ha1 as ->. eexists. split; [reflexivity|]. by split_and!.
  - vm_compute. reflexivity.
  - vm_compute. reflexivity.
  - apply demo_server_rep.
  - vm_compute. discriminate.
  - apply (bool_decide_unpack _). by vm_compute.
  - apply (bool_decide_unpack _). by vm_compute.
  - vm_compute. reflexivity.
  - repeat constructor.
  - split; vm_compute; discriminate.
  - exists srv', ob, r, e. split; [exact Hob|]. split; [exact Hmain|]. split; [exact He|].
    rewrite Hc. vm_compute. reflexivity.
Defined.
