(* ===== verification/Cli.v ===== *)
(** [src/cmd/paladin-core/main.go]: the commands.  A process ends with an exit code and
    what it wrote, or it calls [http.ListenAndServe].  [opened] is what [bolt.Open]
    returns for the file [paladin-core.db]; the deferred [Close] lets go of the file and
    leaves its contents.  The log lines are left out. *)

From S2P Require Import Prelude GoStrings GoEncoding GoText GoFmt GoFlag GoUrl GoTime GoJson JsonFields.
From S2P Require Import Entry BoltDB Kv StoreSpec BoltStore WatchCache Watchable Fsm Node Http Server RaftServer.

Local Open Scope string_scope.
Local Open Scope list_scope.
Local Open Scope nat_scope.

(** ** Exit *)

Record exit_state := mkExit {
  stdout : string;
  stderr : string;
  code : Z;
}.

(** [fatal] with the formatted message. *)
Definition fatal (msg : string) : exit_state := mkExit "" ("error: " +:+ msg +:+ String "010" "") 1.

Definition usage_lines : list string :=
  ["PaladinCore — Distributed Configuration Center";
   "";
   "Commands:";
   "  serve [addr]                  Standalone HTTP server";
   "  cluster --id ID [options]     Raft cluster node";
   "";
   "Cluster Options:";
   "  --id ID              Node ID (required)";
   "  --raft ADDR          Raft bind address (default 127.0.0.1:9001)";
   "  --http ADDR          HTTP listen address (default :8080)";
   "  --data DIR           Data directory (default data-{id})";
   "  --bootstrap          Bootstrap as initial leader";
   "  --join LEADER:PORT   Join an existing cluster";
   "";
   "CLI Commands:";
   "  put <key> <value>    Create/update config";
   "  get <key>            Get config";
   "  delete <key>         Delete config";
   "  list [prefix]        List configs";
   "  rev                  Show revision"].

Definition usage : string := lines usage_lines.

(** ** Local commands *)

Definition put_line (e : Entry) (key : string) : string :=
  "OK rev=" +:+ format_uint (Revision e) +:+ " version=" +:+ format_uint (Version e) +:+ " key=" +:+ key.
Definition get_line (e : Entry) : string :=
  "key=" +:+ Key e +:+ " value=" +:+ bytes_to_string (Value e) +:+ " rev=" +:+ format_uint (Revision e).
Definition delete_line (d : Entry) (key : string) : string :=
  "DELETED key=" +:+ key +:+ " rev=" +:+ format_uint (Revision d).
Definition list_line (e : Entry) : string :=
  "  " +:+ pad_right 30 (Key e) +:+ " = " +:+ pad_right 20 (bytes_to_string (Value e))
  +:+ "  rev=" +:+ format_uint (Revision e).

(** The process wrote these lines and ended well. *)
Definition exit_ok (l : list string) : exit_state := mkExit (lines l) "" 0.

Section cli.
Context {db tx : Type} `{!Bolt db tx}.

(** [os.Args[i]], guarded by the length. *)
Definition arg (args : list string) (i : nat) : string := nth i args "".

(** The command on an open store. *)
Definition cli_command (s : BoltStore db) (cmd : string) (args : list string)
    : BoltStore db * res exit_state :=
  if String.eqb cmd "put" then
    if length args <? 4 then (s, Ok (fatal "usage: paladin-core put <key> <value>"))
    else match BoltStore_Put s (arg args 2) (Some (arg args 3)) with
         | (s', _, Panic) => (s', Panic)
         | (s', _, Err e) => (s', Ok (fatal ("put: " +:+ error_Error e)))
         | (s', Some (mkPutResult (Some e) _), Ok _) => (s', Ok (exit_ok [put_line e (arg args 2)]))
         | (s', _, Ok _) => (s', Panic)
         end
  else if String.eqb cmd "get" then
    if length args <? 3 then (s, Ok (fatal "usage: paladin-core get <key>"))
    else (s, match BoltStore_Get s (arg args 2) with
             | Panic => Panic
             | Err e => Ok (fatal ("get: " +:+ error_Error e))
             | Ok e => Ok (exit_ok [get_line e])
             end)
  else if String.eqb cmd "delete" then
    if length args <? 3 then (s, Ok (fatal "usage: paladin-core delete <key>"))
    else match BoltStore_Delete s (arg args 2) with
         | (s', Panic) => (s', Panic)
         | (s', Err e) => (s', Ok (fatal ("delete: " +:+ error_Error e)))
         | (s', Ok d) => (s', Ok (exit_ok [delete_line d (arg args 2)]))
         end
  else if String.eqb cmd "list" then
    let prefix := if 3 <=? length args then arg args 2 else "" in
    (s, match BoltStore_List s prefix with
        | (_, Panic) => Panic
        | (_, Err e) => Ok (fatal ("list: " +:+ error_Error e))
        | (entries, Ok _) => Ok (exit_ok (map list_line entries))
        end)
  else if String.eqb cmd "rev" then
    (s, Ok (exit_ok ["rev=" +:+ format_uint (BoltStore_Rev s)]))
  else (s, Ok (exit_ok [])).

(** The file afterwards, unless it was not opened, and the exit. *)
Definition runCLI (opened : res db) (cmd : string) (args : list string) : option db * res exit_state :=
  match NewBoltStore opened with
  | Panic => (None, Panic)
  | Err e => (None, Ok (fatal ("open store: " +:+ error_Error e)))
  | Ok s => let '(s', e) := cli_command s cmd args in (Some (bs_db s'), e)
  end.

(** ** Servers *)

Context {R : Type} `{!Raft R}.

(** How a process goes on: the cluster node also starts the registration of itself with
    these arguments when it bootstraps. *)
Inductive proc :=
  | Exited (file : option db) (e : exit_state)
  | Crashed (file : option db)
  | Standalone (addr : string) (srv : Server (WatchableStore (BoltStore db)))
  | ClusterNode (addr : string) (rs : RaftServer (BoltStore db) R) (register : option (string * string)).

(** [http.ListenAndServe] returns only with an error. *)
Definition listen_failed (e : error) : exit_state := fatal ("listen: " +:+ error_Error e).

Definition runStandalone (opened : res db) (args : list string) : proc :=
  let addr := if 3 <=? length args then arg args 2 else ":8080" in
  match NewBoltStore opened with
  | Panic => Crashed None
  | Err e => Exited None (fatal ("open store: " +:+ error_Error e))
  | Ok bs =>
      match NewWatchableStore bs with
      | Ok ws => Standalone addr (mkServer ws 0)
      | _ => Crashed (Some (bs_db bs))
      end
  end.

(** The flags of [cluster]. *)
Definition cluster_flags : FlagSet :=
  [flag_var "id" (VString "") "Node ID (required)";
   flag_var "raft" (VString "127.0.0.1:9001") "Raft bind address";
   flag_var "http" (VString ":8080") "HTTP listen address";
   flag_var "data" (VString "") "Data directory (default: data-{id})";
   flag_var "bootstrap" (VBool false) "Bootstrap as initial leader";
   flag_var "join" (VString "") "Leader HTTP address to join (e.g., localhost:8080)"].

Definition advertise_addr (httpAddr : string) : string :=
  if HasPrefix httpAddr ":" then "127.0.0.1" +:+ httpAddr else httpAddr.

Definition join_url (join nodeID raftAddr advertiseHTTP : string) : string :=
  "http://" +:+ join +:+ "/admin/join?id=" +:+ nodeID +:+ "&addr=" +:+ raftAddr +:+ "&http=" +:+ advertiseHTTP.

(** The parameters of [NewNode], and [http.Post(url, "", nil)] with the status of the
    answer, in a world [W]. *)
Context {LS SS AD TR W : Type}.
Variable MkdirAll : string → res unit.
Variable bolt_Open : list string → res db.
Variable raftboltdb_NewBoltStore : list string → res LS.
Variable NewFileSnapshotStore : string → Z → res SS.
Variable ResolveTCPAddr : string → res AD.
Variable NewTCPTransport : string → AD → Z → Z → res TR.
Variable NewRaft : raft_config → FSM (BoltStore db) → LS → SS → TR → FSM (BoltStore db) * res R.
Variable http_Post : W → string → W * (error + Z).

(** The request to join, if there is one. *)
Definition join_cluster (w : W) (join nodeID raftAddr advertiseHTTP : string) : W * option exit_state :=
  if String.eqb join "" then (w, None)
  else match http_Post w (join_url join nodeID raftAddr advertiseHTTP) with
       | (w', inr status) =>
           (w', if (status =? StatusOK)%Z then None
                else Some (fatal ("join cluster: status " +:+ format_int status)))
       | (w', inl e) => (w', Some (fatal ("join cluster: " +:+ error_Error e)))
       end.

Definition runCluster (w : W) (args : list string) : W * proc :=
  match flag_exit "cluster" cluster_flags (flag_Parse cluster_flags (drop 2 args)) with
  | inl (text, status) => (w, Exited None (mkExit "" text status))
  | inr (fs, _) =>
      let nodeID := flag_string fs "id" in
      let raftAddr := flag_string fs "raft" in
      let httpAddr := flag_string fs "http" in
      let dataDir := flag_string fs "data" in
      let bootstrap := flag_bool fs "bootstrap" in
      if String.eqb nodeID "" then (w, Exited None (fatal "---id is required"))
      else
        let dataDir := if String.eqb dataDir "" then "data-" +:+ nodeID else dataDir in
        match NewNode MkdirAll bolt_Open raftboltdb_NewBoltStore NewFileSnapshotStore ResolveTCPAddr
                NewTCPTransport NewRaft 0 (mkNodeConfig nodeID raftAddr dataDir bootstrap) with
        | Panic => (w, Crashed None)
        | Err e => (w, Exited None (fatal ("create raft node: " +:+ error_Error e)))
        | Ok node =>
            let advertiseHTTP := advertise_addr httpAddr in
            match join_cluster w (flag_string fs "join") nodeID raftAddr advertiseHTTP with
            | (w', Some e) => (w', Exited (Some (bs_db (ws_BoltStore (Node_store node)))) e)
            | (w', None) =>
                (w', ClusterNode httpAddr (mkRaftServer node ∅)
                       (if bootstrap then Some (nodeID, advertiseHTTP) else None))
            end
        end
  end.

(** The goroutine of a bootstrapping node: [polls] are what [WaitForLeader] sees and
    [node] is the node when it has returned; [None] while it waits. *)
Definition self_register (node : Node (BoltStore db) R) (register : string * string) (start : Z)
    (polls : list (Node (BoltStore db) R * Z)) : option (Node (BoltStore db) R * res unit) :=
  match Node_WaitForLeader start (10 * Second) polls with
  | None => None
  | Some (Ok _) =>
      Some (if negb (Node_IsLeader node) then (node, Ok tt)
            else Node_RegisterPeerHTTP node register.1 register.2)
  | Some r => Some (node, r)
  end.

(** [main]: [args] is [os.Args]. *)
Definition main (w : W) (opened : res db) (args : list string) : W * proc :=
  if length args <? 2 then (w, Exited None (mkExit "" usage 1))
  else
    let cmd := arg args 1 in
    if existsb (String.eqb cmd) ["put"; "get"; "delete"; "list"; "rev"] then
      (w, match runCLI opened cmd args with
          | (file, Ok e) => Exited file e
          | (file, _) => Crashed file
          end)
    else if String.eqb cmd "serve" then (w, runStandalone opened args)
    else if String.eqb cmd "cluster" then runCluster w args
    else (w, Exited None (mkExit "" usage 1)).
End cli.
Arguments proc db R : clear implicits.

(** ** The commands against the specification *)

(** What the command does to the state and what it writes. *)
Definition cli_spec (a : kv) (args : list string) : kv * exit_state :=
  let key := arg args 2 in
  if String.eqb (arg args 1) "put" then
    if length args <? 4 then (a, fatal "usage: paladin-core put <key> <value>")
    else let v := Some (arg args 3) in (kv_put a key v, exit_ok [put_line (kv_next a key v) key])
  else if String.eqb (arg args 1) "get" then
    (a, if length args <? 3 then fatal "usage: paladin-core get <key>"
        else match kv_map a !! key with
             | Some e => exit_ok [get_line e]
             | None => fatal "get: key not found"
             end)
  else if String.eqb (arg args 1) "delete" then
    if length args <? 3 then (a, fatal "usage: paladin-core delete <key>")
    else (kv_delete a key,
          match kv_map a !! key with
          | Some e => exit_ok [delete_line (kv_deleted a e) key]
          | None => fatal "delete: key not found"
          end)
  else if String.eqb (arg args 1) "list" then
    (a, exit_ok (map list_line (kv_list a (if 3 <=? length args then key else ""))))
  else (a, exit_ok ["rev=" +:+ format_uint (kv_rev a)]).

(** A local command, within the limits of the file. *)
Definition cli_admissible (a : kv) (args : list string) : Prop :=
  arg args 1 ∈ ["put"; "get"; "delete"; "list"; "rev"] ∧
  (arg args 1 = "put" → 4 ≤ length args → can_put max_uint64 a (arg args 2) (Some (arg args 3))) ∧
  (arg args 1 = "delete" → (kv_rev a < max_uint64)%N).

Fixpoint cli_admissible_all (a : kv) (l : list (list string)) : Prop :=
  match l with
  | [] => True
  | args :: l' => cli_admissible a args ∧ cli_admissible_all (cli_spec a args).1 l'
  end.

Fixpoint cli_specs (a : kv) (l : list (list string)) : kv * list exit_state :=
  match l with
  | [] => (a, [])
  | args :: l' =>
      let '(a1, e) := cli_spec a args in let '(a2, es) := cli_specs a1 l' in (a2, e :: es)
  end.

Section processes.
Context {db tx : Type} `{!Bolt db tx, !BoltLaws db tx}.

(** What [bolt.Open] returns for the file of a process that has ended. *)
Variable reopen : db → res db.
Hypothesis reopen_law : ∀ d, usable d → writable d →
  ∃ d', reopen d = Ok d' ∧ usable d' ∧ writable d' ∧ contents (committed d') = contents (committed d).

(** One process after the other on the same file. *)
Fixpoint run_processes (d : db) (l : list (list string)) : db * list (res exit_state) :=
  match l with
  | [] => (d, [])
  | args :: l' =>
      let '(file, e) := runCLI (reopen d) (arg args 1) args in
      let '(d2, es) := run_processes (default d file) l' in (d2, e :: es)
  end.

Lemma reopen_opens (d : db) (a : kv) :
  opens d a → writable d → ∃ d', reopen d = Ok d' ∧ opens d' a ∧ writable d'.
Proof.
  intros (Hu & Hok & Hmax & Hc) Hw. destruct (reopen_law d Hu Hw) as (d' & -> & Hu' & Hw' & He).
  exists d'. split; [done|]. split; [|done]. unfold opens. by rewrite He.
Qed.

(** A command on an open store does what the specification says. *)
Lemma cli_command_spec (s : BoltStore db) (a : kv) (args : list string) :
  store_rep s a → cli_admissible a args →
  ∃ s', cli_command s (arg args 1) args = (s', Ok (cli_spec a args).2) ∧
    store_rep s' (cli_spec a args).1.
Proof.
  intros Hs (Hcmd & Hput & Hdel). unfold cli_command, cli_spec.
  destruct (String.eqb_spec (arg args 1) "put") as [He|Hp].
  { destruct (Nat.ltb_spec (length args) 4); [by exists s|].
    destruct (law_Put s a (arg args 2) (Some (arg args 3)) Hs) as (s' & Heq & Hs'); [by apply Hput|].
    change (store_Put s) with (BoltStore_Put s) in Heq. rewrite Heq. unfold put_result. by exists s'. }
  destruct (String.eqb_spec (arg args 1) "get") as [He|Hg].
  { exists s. destruct (Nat.ltb_spec (length args) 3); [done|].
    change (BoltStore_Get s) with (store_Get s). rewrite (law_Get s a _ Hs).
    by destruct (kv_map a !! arg args 2). }
  destruct (String.eqb_spec (arg args 1) "delete") as [He|Hd].
  { destruct (Nat.ltb_spec (length args) 3); [by exists s|].
    change (BoltStore_Delete s) with (store_Delete s). specialize (Hdel He).
    destruct (kv_map a !! arg args 2) as [e|] eqn:Hk.
    - destruct (law_Delete s a _ e Hs Hdel Hk) as (s' & -> & Hs'). by exists s'.
    - destruct (law_Delete_missing s a _ Hs Hdel Hk) as (s' & -> & Hs'). exists s'.
      split; [done|]. unfold kv_delete. by rewrite Hk. }
  destruct (String.eqb_spec (arg args 1) "list") as [He|Hl].
  { exists s. change (BoltStore_List s) with (store_List s). by rewrite (law_List s a _ Hs). }
  destruct (String.eqb_spec (arg args 1) "rev") as [He|Hr].
  { exists s. change (BoltStore_Rev s) with (store_Rev s). by rewrite (law_Rev s a Hs). }
  rewrite !elem_of_cons in Hcmd. destruct Hcmd as [?|[?|[?|[?|[?|Hnil]]]]]; try done.
  by apply not_elem_of_nil in Hnil.
Qed.

Lemma runCLI_spec (d : db) (a : kv) (args : list string) :
  opens d a → writable d → cli_admissible a args →
  ∃ d', runCLI (reopen d) (arg args 1) args = (Some d', Ok (cli_spec a args).2) ∧
    opens d' (cli_spec a args).1 ∧ writable d'.
Proof.
  intros Ho Hw Hadm. destruct (reopen_opens d a Ho Hw) as (d1 & Hre & Ho1 & Hw1).
  destruct (New_writable d1 a Ho1 Hw1) as (s & Hnew & Href & Hws).
  destruct (cli_command_spec s a args (conj Href Hws) Hadm) as (s' & Hc & [Href' Hw']).
  exists (bs_db s'). unfold runCLI. rewrite Hre, Hnew, Hc. split; [done|]. split; [|done].
  by apply refines_opens.
Qed.

(** C13: The local commands, each a process of its own that opens the file again, act
    together as the versioned store: whatever sequence of them is run, each writes
    what the store says at that point, ends with code 0, or 1 and a message, and
    leaves a file in the store's state. *)
Theorem cli_history (d : db) (a : kv) (l : list (list string)) :
  opens d a → writable d → cli_admissible_all a l →
  (run_processes d l).2 = Ok <$> (cli_specs a l).2 ∧ opens (run_processes d l).1 (cli_specs a l).1.
Proof.
  revert d a. induction l as [|args l IH]; intros d a Ho Hw Hadm; [done|].
  destruct Hadm as [H1 H2]. destruct (runCLI_spec d a args Ho Hw H1) as (d' & Hrun & Ho' & Hw').
  cbn [run_processes cli_specs]. rewrite Hrun. cbn [default].
  destruct (IH d' _ Ho' Hw' H2) as [He Hd]. unfold default, id.
  destruct (run_processes d' l) as [d2 es], (cli_spec a args) as [a1 e] eqn:Hspec.
  cbn [fst snd] in He, Hd |- *. destruct (cli_specs a1 l) as [a2 es']. cbn [fst snd] in *.
  rewrite He. done.
Qed.
End processes.

(** ** Joining a cluster *)

Section joining.
Context {db tx R : Type} `{!Bolt db tx, !Raft R}.
Context {S2 R2 : Type} `{StoreLaws S2} `{RaftLaws R2}.
Context {LS SS AD TR : Type}.
Variable MkdirAll : string → res unit.
Variable bolt_Open : list string → res db.
Variable raftboltdb_NewBoltStore : list string → res LS.
Variable NewFileSnapshotStore : string → Z → res SS.
Variable ResolveTCPAddr : string → res AD.
Variable NewTCPTransport : string → AD → Z → Z → res TR.
Variable NewRaft : raft_config → FSM (BoltStore db) → LS → SS → TR → FSM (BoltStore db) * res R.
Variable http_NewRequest : string → string → go_bytes → res request.
Variable http_Do : request → res response.

(** [http.Post] to a node: its server is given the path and the query of the URL. *)
Definition post_to (leader : RaftServer S2 R2) (url : string) : RaftServer S2 R2 * (error + Z) :=
  let q := mkRequest "POST" (url_path url) (ParseQuery (url_query url)) url [] (mkBody "" None) in
  match raft_ServeHTTP http_NewRequest http_Do leader q 0 with
  | (leader', Some (Ok resp)) => (leader', inr (rs_Status resp))
  | (leader', _) => (leader', inl (EMsg "no answer"))
  end.

Abbreviation start := (main MkdirAll bolt_Open raftboltdb_NewBoltStore NewFileSnapshotStore
  ResolveTCPAddr NewTCPTransport NewRaft post_to).

Lemma join_url_query (join id raftAddr http : string) :
  plain join = true → plain id = true → plain raftAddr = true → plain http = true →
  ParseQuery (url_query (join_url join id raftAddr http))
    = [("id", id); ("addr", raftAddr); ("http", http)].
Proof.
  intros Hj Hi Hr Hh. unfold url_query, join_url.
  set (q := Join (map (λ p, p.1 +:+ "=" +:+ p.2) [("id", id); ("addr", raftAddr); ("http", http)]) "&").
  replace ("http://" +:+ join +:+ "/admin/join?id=" +:+ id +:+ "&addr=" +:+ raftAddr +:+ "&http=" +:+ http)
    with (("http://" +:+ join +:+ "/admin/join") +:+ String "?" q).
  2: { unfold q. simpl. by rewrite ?string_app_assoc. }
  assert (no_char "#" (("http://" +:+ join +:+ "/admin/join") +:+ String "?" q) = true) as Hno.
  { unfold q. cbn [map Join fst snd]. rewrite !no_char_app. cbn [no_char]. rewrite !no_char_app.
    rewrite (plain_no_char "#" join), (plain_no_char "#" id), (plain_no_char "#" raftAddr),
      (plain_no_char "#" http) by done. done. }
  rewrite (cut_none _ _ Hno).
  rewrite cut_app by by rewrite !no_char_app, (plain_no_char "?" join).
  unfold q. apply ParseQuery_plain; [done|]. repeat constructor; done.
Qed.

(** The host of the leader: a name or an address, and a port. *)
Definition host_port (s : string) : Prop := plain s = true ∧ no_char "/" s = true.

Lemma join_url_path (join id raftAddr http : string) :
  host_port join → url_path (join_url join id raftAddr http) = "/admin/join".
Proof.
  intros [Hp Hs]. unfold url_path, join_url. rewrite TrimPrefix_app.
  set (q := "id=" +:+ id +:+ "&addr=" +:+ raftAddr +:+ "&http=" +:+ http).
  replace (join +:+ "/admin/join?id=" +:+ id +:+ "&addr=" +:+ raftAddr +:+ "&http=" +:+ http)
    with ((join +:+ "/admin/join") +:+ String "?" q) by by rewrite string_app_assoc.
  rewrite cut_app by by rewrite !no_char_app, (plain_no_char "?" join).
  by rewrite (cut_app "/" join "admin/join").
Qed.

(** The leader's answer to the request to join. *)
Lemma join_answered (leader : RaftServer S2 R2) (a : kv) (join id raftAddr http data : string)
    (r1 r2 : R2) (log : list string) :
  host_port join → plain id = true → plain raftAddr = true → plain http = true →
  id ≠ "" → raftAddr ≠ "" → http ≠ "" → ValidString id = true →
  store_rep (Node_store (rs_node leader)) a → raft_is_leader (node_raft (rs_node leader)) = true →
  raft_AddVoter (node_raft (rs_node leader)) id raftAddr 0 (10 * second) = (r1, Ok tt) →
  raft_is_leader r1 = true →
  op_Marshal (mkOp "put" (PeerHTTPPrefix +:+ id) (Some http)) = Ok data →
  raft_Apply r1 data (5 * second) = (r2, log, Ok tt) →
  logs_admissible (store_limit (S:=WatchableStore S2)) a log →
  ∃ leader' a', post_to leader (join_url join id raftAddr http) = (leader', inr StatusOK) ∧
    store_rep (Node_store (rs_node leader')) a' ∧
    ∀ (S' R' : Type) `(StoreLaws S') `(Raft R') (m : Node S' R'), store_rep (Node_store m) a' →
      (raft_LeaderWithID (node_raft m)).2 = id → Node_LeaderHTTPAddr m = http.
Proof.
  intros Hj Hi Hr Hh Hine Hrne Hhne Hv Hs Hl Hadd Hl1 Hm Ha Hadm.
  set (n1 := mkNode (node_config (rs_node leader)) r1 (node_fsm (rs_node leader))).
  destruct (peer_address_roundtrip n1 a id http data r2 log) as (n' & a' & Hreg & Hs' & Hall); [done..|].
  exists (mkRaftServer n' (RaftApplyTotal leader)), a'. split; [|done].
  unfold post_to. rewrite join_url_path, join_url_query by (done || apply Hj).
  unfold raft_ServeHTTP. cbn [rq_Path].
  change (mux_route (raft_routes (rs_node leader)) "/admin/join") with (ToHandler RJoin).
  unfold handleJoin. cbn [rq_Method rq_Query query_Get String.eqb Ascii.eqb Bool.eqb negb].
  apply String.eqb_neq in Hine as ->, Hrne as ->, Hhne as ->. cbn [orb].
  unfold Node_Join, Node_IsLeader. rewrite Hl, Hadd. cbn [negb]. fold n1. by rewrite Hreg.
Qed.

(** C26: A node that is started to join asks the leader with a request the leader reads
    as the node's id, its raft address and the HTTP address it advertises: it is added
    as a voter, the process goes on to serve, and every replica that has applied the
    log since then forwards writes to that HTTP address when the node leads. *)
Theorem cluster_join (leader : RaftServer S2 R2) (a : kv) (node : Node (BoltStore db) R)
    (opened : res db) (join id raftAddr http data : string) (r1 r2 : R2) (log : list string) :
  let addr := advertise_addr http in
  host_port join → plain id = true → plain raftAddr = true → plain addr = true →
  join ≠ "" → id ≠ "" → raftAddr ≠ "" → http ≠ "" → ValidString id = true →
  NewNode MkdirAll bolt_Open raftboltdb_NewBoltStore NewFileSnapshotStore ResolveTCPAddr
    NewTCPTransport NewRaft 0 (mkNodeConfig id raftAddr ("data-" +:+ id) false) = Ok node →
  store_rep (Node_store (rs_node leader)) a → raft_is_leader (node_raft (rs_node leader)) = true →
  raft_AddVoter (node_raft (rs_node leader)) id raftAddr 0 (10 * second) = (r1, Ok tt) →
  raft_is_leader r1 = true →
  op_Marshal (mkOp "put" (PeerHTTPPrefix +:+ id) (Some addr)) = Ok data →
  raft_Apply r1 data (5 * second) = (r2, log, Ok tt) →
  logs_admissible (store_limit (S:=WatchableStore S2)) a log →
  ∃ leader' a',
    start leader opened ["paladin-core"; "cluster"; "--id"; id; "--raft"; raftAddr; "--http"; http;
                         "--join"; join] = (leader', ClusterNode http (mkRaftServer node ∅) None) ∧
    store_rep (Node_store (rs_node leader')) a' ∧
    ∀ (S' R' : Type) `(StoreLaws S') `(Raft R') (m : Node S' R'), store_rep (Node_store m) a' →
      (raft_LeaderWithID (node_raft m)).2 = id → Node_LeaderHTTPAddr m = addr.
Proof.
  intros addr Hj Hi Hr Hh Hjne Hine Hrne Hhne Hv Hnew Hs Hl Hadd Hl1 Hm Ha Hadm.
  assert (addr ≠ "") as Hane by (unfold addr, advertise_addr; by destruct (HasPrefix http ":")).
  destruct (join_answered leader a join id raftAddr addr data r1 r2 log)
    as (leader' & a' & Hpost & Hs' & Hall); [done..|].
  exists leader', a'. split; [|done]. unfold main, arg. cbn [length nth Nat.ltb Nat.leb].
  cbn [existsb String.eqb Ascii.eqb Bool.eqb orb]. unfold runCluster. cbn [drop].
  set (fs := flag_set (flag_set (flag_set (flag_set cluster_flags "id" (VString id))
    "raft" (VString raftAddr)) "http" (VString http)) "join" (VString join)).
  assert (flag_Parse cluster_flags ["--id"; id; "--raft"; raftAddr; "--http"; http; "--join"; join]
    = FlagsParsed fs []) as -> by reflexivity.
  cbn [flag_exit].
  assert (flag_string fs "id" = id) as -> by reflexivity.
  assert (flag_string fs "raft" = raftAddr) as -> by reflexivity.
  assert (flag_string fs "http" = http) as -> by reflexivity.
  assert (flag_string fs "join" = join) as -> by reflexivity.
  change (flag_string fs "data") with "". change (flag_bool fs "bootstrap") with false.
  apply String.eqb_neq in Hine as ->. cbn [String.eqb]. rewrite Hnew. cbv zeta. unfold join_cluster.
  apply String.eqb_neq in Hjne as ->. fold addr. by rewrite Hpost.
Qed.

(** The join URL is put together without escaping: an id with an ampersand registers
    another node, and the leader answers that all is well. *)
Theorem join_url_not_escaped :
  ParseQuery (url_query (join_url "leader:8080" "a&b" "127.0.0.1:9002" "127.0.0.1:8081"))
  = [("id", "a"); ("b", ""); ("addr", "127.0.0.1:9002"); ("http", "127.0.0.1:8081")].
Proof. vm_compute. reflexivity. Qed.
End joining.

(** ** Concrete runs *)

Definition demo_args : list (list string) :=
  [["paladin-core"; "put"; "public/prod/db"; "10.0.0.1"]; ["paladin-core"; "put"; "k"];
   ["paladin-core"; "get"; "public/prod/db"]; ["paladin-core"; "delete"; "k"];
   ["paladin-core"; "list"]; ["paladin-core"; "rev"]].

Lemma cli_history_witness :
  (run_processes Ok MemDb.fresh demo_args).2
  = [Ok (exit_ok ["OK rev=1 version=1 key=public/prod/db"]);
     Ok (fatal "usage: paladin-core put <key> <value>");
     Ok (exit_ok ["key=public/prod/db value=10.0.0.1 rev=1"]);
     Ok (fatal "delete: key not found");
     Ok (exit_ok ["  public/prod/db                 = 10.0.0.1              rev=1"]);
     Ok (exit_ok ["rev=1"])].
Proof.
  destruct (cli_history (db := MemDb.t) Ok) with (d := MemDb.fresh) (a := kv_empty) (l := demo_args)
    as [H _].
  - intros d Hu Hw. exists d. split_and!; done.
  - exact fresh_opens.
  - reflexivity.
  - repeat (split; [split; [apply (bool_decide_unpack _); vm_compute; exact I|split; intros He;
      [try discriminate He; intros Hlen; first [solve_can_put|exfalso; simpl in Hlen; lia]
      |vm_compute; reflexivity]]|]); exact I.
  - rewrite H. vm_compute. reflexivity.
Defined.

(** A leader of its own and a node that starts. *)
Definition demo_leader : RaftServer (BoltStore MemDb.t) solo := mkRaftServer demo_node ∅.
Definition demo_NewRaft (c : raft_config) (f : FSM (BoltStore MemDb.t)) (ls ss tr : unit)
    : FSM (BoltStore MemDb.t) * res solo := (f, Ok (mkSolo false "")).

Lemma demo_NewNode : ∃ n,
  NewNode (λ _, Ok tt) (λ _, Ok MemDb.fresh) (λ _, Ok tt) (λ _ _, Ok tt) (λ _, Ok tt)
    (λ _ _ _ _, Ok tt) demo_NewRaft 0 (mkNodeConfig "n2" "127.0.0.1:9002" ("data-" +:+ "n2") false)
  = Ok n.
Proof. eexists. vm_compute. reflexivity. Qed.

Lemma cluster_join_witness :
  ∃ leader' node,
    main (λ _, Ok tt) (λ _, Ok MemDb.fresh) (λ _, Ok tt) (λ _ _, Ok tt) (λ _, Ok tt)
      (λ _ _ _ _, Ok tt) demo_NewRaft (post_to (λ _ _ _, Panic) (λ _, Panic)) demo_leader
      (Ok MemDb.fresh)
      ["paladin-core"; "cluster"; "--id"; "n2"; "--raft"; "127.0.0.1:9002"; "--http"; ":8081";
       "--join"; "leader:8080"]
    = (leader', ClusterNode ":8081" (mkRaftServer node ∅) None).
Proof.
  destruct demo_NewNode as [node Hnode].
  set (op := mkOp "put" (PeerHTTPPrefix +:+ "n2") (Some "127.0.0.1:8081")).
  destruct (cluster_join (R := solo) (λ _, Ok tt) (λ _, Ok MemDb.fresh) (λ _, Ok tt) (λ _ _, Ok tt)
    (λ _, Ok tt) (λ _ _ _ _, Ok tt) demo_NewRaft (λ _ _ _, Panic) (λ _, Panic) demo_leader kv_empty
    node (Ok MemDb.fresh) "leader:8080" "n2" "127.0.0.1:9002" ":8081" (log_of op)
    (mkSolo true "n1") (mkSolo true "n1") [log_of op])
    as (leader' & a' & Hrun & _);
    [by split|reflexivity..|discriminate|discriminate|discriminate|discriminate|vm_compute; reflexivity
    |exact Hnode|exact demo_fsm_rep|reflexivity|reflexivity|reflexivity|reflexivity|reflexivity
    |split; [solve_log_admissible|exact I]|].
  exists leader', node. exact Hrun.
Defined.
