(* ===== verification/Cluster.v ===== *)
(** The parts together: a replica that applies the log of the cluster is a store that
    makes the calls of the log, so that what is known of a store, its HTTP API and the
    clients that poll it holds of every replica; and a write on the leader reaches the
    clients of the followers. *)

From S2P Require Import Prelude GoStrings GoEncoding GoFmt GoTime GoJson JsonFields Entry BoltDB Kv StoreSpec.
From S2P Require Import BoltStore WatchCache Watchable Fsm Node Http Server RaftServer GoSha Sdk SdkSync.

Local Open Scope string_scope.
Local Open Scope list_scope.
Local Open Scope nat_scope.

(** ** The log as calls of the store *)

(** The call [FSM.Apply] makes for a log entry; an entry that is no operation makes none. *)
Definition log_call (data : string) : option call :=
  match op_Unmarshal data with
  | Ok op =>
      if String.eqb (op_Type op) "put" then Some (CPut (op_Key op) (op_Value op))
      else if String.eqb (op_Type op) "delete" then Some (CDelete (op_Key op))
      else None
  | _ => None
  end.

Definition log_calls (log : list string) : list call := omap log_call log.

Lemma FSM_Apply_call {S : Type} `{Store S} (f : FSM S) (data : string) :
  fsm_store (FSM_Apply f data).1
  = match log_call data with Some c => (do_call (fsm_store f) c).1 | None => fsm_store f end.
Proof.
  unfold FSM_Apply, log_call. destruct (op_Unmarshal data) as [op|e|]; [|done..].
  destruct (String.eqb (op_Type op) "put"); [|destruct (String.eqb (op_Type op) "delete"); [|done]].
  - cbn [do_call]. destruct (store_Put _ _ _) as [[st r] err]. cbn [fst].
    destruct err; [|done..]. by destruct r as [[[e|] p]|].
  - cbn [do_call]. destruct (store_Delete _ _) as [st [e|e|]]; done.
Qed.

Lemma FSM_run_calls {S : Type} `{Store S} (log : list string) (f : FSM S) :
  fsm_store (FSM_run f log).1 = (run_calls (fsm_store f) (log_calls log)).1.
Proof.
  revert f. induction log as [|data log IH]; intros f; [done|]. unfold log_calls in *.
  cbn [FSM_run omap list_omap]. pose proof (FSM_Apply_call f data) as Ha.
  destruct (FSM_Apply f data) as [f1 r]. cbn [fst] in Ha. specialize (IH f1).
  destruct (FSM_run f1 log) as [f2 rs]. cbn [fst] in *. rewrite IH, Ha.
  destruct (log_call data) as [c|]; [|done]. cbn [run_calls].
  destruct (do_call (fsm_store f) c) as [s1 r1]. cbn [fst].
  by destruct (run_calls s1 (omap log_call log)).
Qed.

Lemma spec_apply_call (a : kv) (data : string) :
  (spec_apply a data).1 = match log_call data with Some c => (spec_call a c).1 | None => a end.
Proof.
  unfold spec_apply, log_call. destruct (op_Unmarshal data) as [op|e|]; [|done..].
  destruct (String.eqb (op_Type op) "put"); [done|destruct (String.eqb (op_Type op) "delete"); [|done]].
  cbn [spec_call fst]. unfold kv_delete. by destruct (kv_map a !! op_Key op).
Qed.

Lemma spec_run_calls (log : list string) (a : kv) :
  (spec_run a log).1 = (spec_calls a (log_calls log)).1.
Proof.
  revert a. induction log as [|data log IH]; intros a; [done|]. unfold log_calls in *.
  cbn [spec_run omap list_omap]. pose proof (spec_apply_call a data) as Ha.
  destruct (spec_apply a data) as [a1 r]. cbn [fst] in Ha. specialize (IH a1).
  destruct (spec_run a1 log) as [a2 rs]. cbn [fst] in *. rewrite IH, Ha.
  destruct (log_call data) as [c|]; [|done]. cbn [spec_calls].
  destruct (spec_call a c) as [s1 r1]. cbn [fst]. by destruct (spec_calls s1 (omap log_call log)).
Qed.

Lemma logs_admissible_calls (lim : N) (log : list string) (a : kv) :
  logs_admissible lim a log → admissible_calls lim a (log_calls log).
Proof.
  revert a. induction log as [|data log IH]; intros a; [done|]. intros [Hd Hl].
  apply IH in Hl. rewrite spec_apply_call in Hl. unfold log_calls. cbn [omap list_omap].
  unfold log_admissible, log_call in *. destruct (op_Unmarshal data) as [op|e|]; [|done..].
  destruct (String.eqb (op_Type op) "put"); [by split|].
  destruct (String.eqb (op_Type op) "delete"); [by split|done].
Qed.

Lemma log_calls_length (log : list string) : length (log_calls log) ≤ length log.
Proof.
  unfold log_calls. induction log as [|data log IH]; [done|]. cbn [omap list_omap].
  destruct (log_call data); simpl; lia.
Qed.

Lemma logged_value_text (v : go_bytes) : bytes_to_string (logged_value v) = bytes_to_string v.
Proof. unfold logged_value. by destruct (String.eqb_spec (bytes_to_string v) "") as [->|]. Qed.

(** ** Properties *)

Section cluster.
Context {S R : Type} `{StoreLaws S} `{RaftLaws R}.
Context {S2 : Type} `{!Store S2, !StoreLaws S2}.
Context {D : Type}.
Variable os_ReadFile : D → string → res string.
Variable os_WriteFile : D → string → string → D.
Variable filepath_Join : string → string → string.
Variable http_NewRequest : string → string → go_bytes → res request.
Variable http_Do : request → res response.

(** C4: A write on the leader reaches the clients of the followers.  The leader answers
    a [PUT] with [200] or [201]; on a follower that applies the same log, a client of
    the tenant and namespace that has been kept in sync holds the value after its next
    answered poll, and all the values of the state that the log leads to, at its
    revision, if the log is no longer than the watch cache. *)
Theorem put_reaches_clients (rs : RaftServer S R) (f : FSM S2) (a : kv) (h : list Event)
    (c : Client) (fs : D) (r : request) (t n x d data : string) (r' : R) (log : list string)
    (get : string → res response) :
  store_rep (Node_store (rs_node rs)) a → raft_is_leader (node_raft (rs_node rs)) = true →
  key_path (rq_Path r) t n x → rq_Method r = "PUT" → ReadAll_limited body_limit (rq_Body r) = Ok d →
  op_Marshal (mkOp "put" (storeKey t n x) (Some d)) = Ok data → ValidString (storeKey t n x) = true →
  raft_Apply (node_raft (rs_node rs)) data (5 * second) = (r', log, Ok tt) →
  logs_admissible (store_limit (S:=WatchableStore S)) a log →
  session os_ReadFile os_WriteFile filepath_Join (fsm_store f) a h c fs →
  Tenant (cl_config c) = t → Namespace (cl_config c) = n →
  logs_admissible (store_limit (S:=WatchableStore S2)) a log → Forall call_text (log_calls log) →
  (kv_rev (spec_run a log).1 ≤ max_uint64)%N →
  (Z.of_nat (length log) ≤ wc_capacity (ws_wc (fsm_store f)))%Z →
  let f2 := (FSM_run f log).1 in
  poll_answered (fsm_store f2) get c →
  ∃ rs' resp c' fs' calls,
    handleRaftConfig http_NewRequest http_Do rs r = (rs', Ok resp) ∧
    rs_Status resp ∈ [StatusOK; StatusCreated] ∧
    watch_turn os_WriteFile filepath_Join get c fs = Ok (c', fs', calls, Again) ∧
    Client_Get c' (storeKey t n x) = Some (Some d) ∧
    in_sync c' (client_prefix c) (spec_run a log).1.
Proof.
  intros Hs Hl Hpath Hm Hb Hop Hv Ha Hadm Hses Htn Hns Hadm2 Htext Hmax Hlen f2 Hpoll.
  destruct (raft_put_leader http_NewRequest http_Do rs a r t n x d data r' log Hs Hl Hb Hop Ha Hadm)
    as (pre & rs' & -> & Hput & _).
  destruct (session_ok _ _ _ _ _ _ _ _ Hses) as (Hrep & Hsync & Hcan & Hcl).
  apply logs_admissible_calls in Hadm2.
  rewrite spec_run_calls in Hmax |- *. unfold f2 in Hpoll. rewrite FSM_run_calls in Hpoll.
  destruct (turn_sync os_WriteFile filepath_Join (fsm_store f) a h (log_calls (pre ++ [data])) get c fs
    Hrep Hadm2 Htext Hmax) as (c' & fs' & calls & Hturn & Hsync' & _); [|done..|].
  { pose proof (spec_calls_rev_bound (log_calls (pre ++ [data])) a) as [_ Hev].
    pose proof (log_calls_length (pre ++ [data])). lia. }
  exists rs'. eexists _, c', fs', calls. split; [by rewrite (handle_put _ _ rs r t n x Hpath Hm)|].
  split; [apply put_response_status|]. split; [exact Hturn|]. split; [|exact Hsync'].
  destruct Hsync' as [Hc' _]. unfold Client_Get. rewrite Hc', <- spec_run_calls, spec_run_app.
  cbn [fst spec_run]. pose proof (spec_apply_put (spec_run a pre).1 _ _ data Hop) as Hsp. cbv zeta in Hsp.
  rewrite (ToValidUTF8_valid (storeKey t n x)) in Hsp by done. rewrite Hsp. cbn [fst].
  assert (under (client_prefix c) (kv_map (kv_put (spec_run a pre).1 (storeKey t n x) (logged_value (Some d))))
    !! storeKey t n x = Some (stored (kv_next (spec_run a pre).1 (storeKey t n x) (logged_value (Some d)))))
    as Hk.
  { apply map_lookup_filter_Some. split; [apply kv_put_get|]. unfold client_prefix. rewrite Htn, Hns.
    destruct Hpath as (Ht & Hn & _). destruct Hcan as [Hne _]. rewrite Hns in Hne.
    by apply storeKey_under. }
  unfold vals. rewrite lookup_fmap, Hk. unfold stored. cbn [fmap option_fmap option_map Value].
  by rewrite kv_next_Value, logged_value_text.
Qed.
End cluster.

(** ** A concrete run *)

Definition demo_put_log : list string := [log_of (mkOp "put" "t/n/k" (Some "v"))].
Definition demo_follower : FSM (BoltStore MemDb.t) := mkFSM demo_small 0.

Lemma put_reaches_clients_witness :
  let ws2 := fsm_store (FSM_run demo_follower demo_put_log).1 in
  ∃ rs' resp c' fs' calls,
    handleRaftConfig (λ _ _ _, Panic) (λ _, Panic) (mkRaftServer demo_node ∅)
      (demo_request "PUT" "/api/v1/config/t/n/k" "v") = (rs', Ok resp) ∧
    watch_turn demo_write demo_join (answer (demo_reply ws2)) demo_client ∅
      = Ok (c', fs', calls, Again) ∧ Client_Get c' "t/n/k" = Some (Some "v").
Proof.
  intros ws2.
  destruct (put_reaches_clients demo_read demo_write demo_join (λ _ _ _, Panic) (λ _, Panic)
    (mkRaftServer demo_node ∅) demo_follower kv_empty [] demo_client ∅
    (demo_request "PUT" "/api/v1/config/t/n/k" "v") "t" "n" "k" "v" (log_of (mkOp "put" "t/n/k" (Some "v")))
    (mkSolo true "n1") demo_put_log (answer (demo_reply ws2)))
    as (rs' & resp & c' & fs' & calls & Hput & _ & Hturn & Hget & _);
    [exact demo_fsm_rep|reflexivity|split_and!; reflexivity || discriminate|reflexivity|reflexivity
    |reflexivity|vm_compute; reflexivity|reflexivity|split; [solve_log_admissible|exact I]
    |exact demo_session|reflexivity|reflexivity|split; [solve_log_admissible|exact I]
    |repeat constructor|vm_compute; discriminate|vm_compute; discriminate| |].
  - rewrite FSM_run_calls. apply (demo_poll_answered demo_client demo_calls1); vm_compute; reflexivity.
  - exists rs', resp, c', fs', calls. split; [exact Hput|]. split; [exact Hturn|exact Hget].
Defined.
